(* ===== verification/_CoqProject ===== *)
-Q . S2P
Prelude.v
GoStrings.v
Codec.v
Drain.v
Db.v
BuildJobs.v
Lifecycle.v
Retry.v
AgentStream.v
TokenStore.v
Paths.v
Tarball.v
BuildKit.v
Upload.v
Servers.v
Deploy.v
Conninfo.v
Kube.v
KubeObjects.v
Datastore.v
Sql.v
Dotenv.v
Manifest.v
Workdir.v
OneShot.v
WebGuard.v
Reader.v
BuildPods.v
BuildSlots.v
Certs.v
Bootstrap.v
CertCache.v
Dns01.v
Harbor.v
TokenInstr.v
Listings.v
SqlSchema.v
StreamLife.v
ControlLink.v
BuildAuth.v
Process.v
Instructions.v
