(* ===== verification/Prelude.v ===== *)
(** * A verification development for the RunOS cluster agent

    The cluster agent is a Go daemon that runs inside a tenant's Kubernetes
    cluster. It keeps one long-lived instruction stream to its control plane,
    answers the instructions that arrive on it, builds container images with
    BuildKit, deploys them, and receives source archives over HTTP. This
    library models its core as executable functions, translated from the Go
    sources under src/, and proves what makes them correct.

    ** Parts of the program and the files that model them

    - [Prelude.v]: results with errors, tactics, the hint database, 64-bit
      integers, durations.
    - [GoStrings.v]: the part of Go's [strings], [strconv], [unicode/utf8] and
      [sort] the agent uses, over byte strings.
    - [Codec.v] (src/commons/encoding.go): base64 and the JSON codec over it.
    - [Drain.v] (src/drain/drain.go): the tracker that lets a restart wait for
      running work. The state is the tracker's fields together with every
      channel, every once-guarded end function and every waiting [Drain]; a
      step relation interleaves all callers with the clock. Its
      steps carry what the caller sees; every such trace is one of an abstract
      machine of running units and waiters, step for step.
    - [Db.v] (src/datastore/models.go, database.go [activeDB]): the row types,
      and the database as a class [Database] with laws ([DatabaseLaws]): a
      statement or transaction takes effect or fails without effect. The
      theorems of every client are proved against the class; [MemDb] is an
      executable instance with injected faults that discharges it.
    - [BuildJobs.v] (src/datastore/buildkit_jobs.go, buildkit_logs.go,
      buildkit_job_args.go): build rows, logs and arguments.
    - [Lifecycle.v] (src/lifecycle.go): the shutdown sequence, the closing of
      rows orphaned by a crash, and the start-up hold.
    - [Retry.v] (src/agentstream/retry.go, agent.go): error classification,
      wrapped back-off arithmetic, the bootstrap retry and the reconnect loop.
    - [AgentStream.v] (src/agentstream/agent.go, progress.go): replies,
      progress tags, dispatch with panic recovery, the correlation of requests
      and responses as a step relation, the heartbeat.
    - [TokenStore.v] (src/datastore/upload_tokens.go): upload, pull and
      build-image tokens.
    - [Paths.v] (src/agentstream/instructions/vcs_fetch_source.go,
      src/webhook/cli_deploy_handler.go): [path/filepath] on Unix and the
      path guards.
    - [Tarball.v] (cli_deploy_handler.go [extractTarball]): extraction with its
      checks and limits, and a replay of its effects on a file system that
      follows links.
    - [BuildKit.v] (src/buildkitclient/client.go, ephemeral.go, buildauth.go):
      names, settings, command lines, and [Build] as a function from the
      environment's answers to a log of effects.
    - [Upload.v] (src/webhook/cli_deploy_handler.go, cli_pull_handler.go,
      upload_failure.go): the HTTP handlers over the tracker and the database.
    - [Servers.v] (src/webhook/server.go, upload_server.go): the two HTTP servers,
      with the routing of [http.ServeMux] in front of those handlers.
    - [Deploy.v] (cli_deploy_handler.go, vcs_build_executor.go): the build and
      deploy pipeline and the goroutines that run it.
    - [Conninfo.v]: how libpq reads a keyword/value connection string, shared by
      the two places that build one.
    - [Kube.v]: the Kubernetes API for configuration objects as a class [KubeApi]
      with the documented effect of each verb as its laws ([KubeLaws]); [MemKube]
      is an executable instance with injected faults.
    - [KubeObjects.v] (src/agentstream/k8s.go,
      src/agentstream/instructions/put_secret_file.go): the agent's
      configuration, its TLS identity and files stored as Secrets.
    - [Datastore.v] (src/datastore/database.go, provision.go): the loop that
      keeps the agent's own database connected, with target resolution,
      provisioning, credentials and the interleaving with [Close].
    - [Sql.v] (src/sqlwrapper/pool.go, query.go, types.go,
      src/agentstream/instructions/sql_query.go): connection pools, connection
      strings, the read-only gate and query answers.
    - [Dotenv.v] (src/agentstream/instructions/dotenv.go): the env-file reader
      and its validation.
    - [Manifest.v] (vcs_fetch_source.go): the fetch instruction, with the git
      steps, the manifest, its service files and its env files.
    - [Workdir.v] (vcs_workdir_cache.go, vcs_build.go): the workdir cache with
      the workdirs on disk, and the build instruction.
    - [OneShot.v] (run_oneshot_job.go, oneshot_job_control.go,
      oneshot_resources.go, src/datastore/oneshot_jobs.go): one-shot runs, with
      the Jobs they create and delete as state, and the answers the tracker
      goroutine reads as functions of time and contexts that end.
    - [WebGuard.v] (netguard.go, webrequest.go, webrequest_follow.go): the guard
      on outbound addresses, its dialer, and the two web request instructions.
    - [Reader.v] (readerexec.go, run_readonly_kubectl.go): the read-only pod, its
      role and kubeconfig, the wait, the reaper and the kubectl instruction.
    - [BuildPods.v], [BuildSlots.v] (src/buildkitclient/ephemeral.go) and
      [BuildAuth.v] (buildauth.go): the life of builder pods, the slots that
      concurrent builds share, as a step relation, and the credentials staged
      for a build.
    - [Certs.v] (src/agentstream/certmonitor.go, csrmint.go, servercert.go):
      minting with a local key and a signed proof, what is accepted from the
      server and as a server, and the renewal monitor.
    - [Bootstrap.v] (src/agentstream/agent.go): the start of the control link,
      composed from the retry loop, the Secrets and the minting. The state
      records, for the proofs only, which pair each attempt presented.
    - [StreamLife.v] (src/agentstream/agent.go): one round of the control stream
      as a step relation, and its listener.
    - [ControlLink.v] (src/agentstream/agent.go [Start], certmonitor.go,
      nodeward_l2sec.go): bootstrap, the certificate monitor and the reconnect
      loop side by side on the shared credentials, over the lives of the process,
      with the exchanges they had recorded.
    - [CertCache.v] (src/certcache/startup.go, cert_cache.go) and [Dns01.v]
      (src/dns01/dns01.go): the wildcard certificate of the cluster's domain, to
      the control plane's cache and back.
    - [Harbor.v] (src/harborclient/client.go, harbor_image_exists.go,
      src/webhook/harbor_image_exists_executor.go, osid.go): archives and images
      in the registry, over a class [Oras] with laws and the instance [MemOras].
    - [TokenInstr.v] (create_cli_deploy_token.go, create_cli_pull_token.go) and
      [Listings.v] (list_build_jobs.go, list_build_logs.go, list_ingresses.go,
      list_certificates.go, pod_viewer.go): the remaining instructions.
    - [SqlSchema.v] (src/sqlwrapper/schema.go, src/datastore/sql_schema_cache.go,
      sql_schema.go): schema introspection and its cache.
    - [Process.v] (src/main.go, src/lifecycle.go): the process as a whole. [main],
      the pod sweep, the reconcile, the progress logger, the tasks that own units
      of the tracker with the effects of [Deploy.v], and restarts are one step
      relation over the tracker, the rows and the builder pods.
    - [Instructions.v] (src/agentstream/instructions/instructions.go): the
      instruction table. Every handler of the files above runs on one state of
      the agent, behind the dispatch of [AgentStream.v]; what it may change is
      its footprint, which is how it is a step of [Process.v].

    ** How code becomes definitions

    Definitions keep the names of the source. A pure function is a function; a
    handler is a function of its request, of the answers of the environment and
    of the shared state, and returns its reply, the new state and, where the
    order of calls matters, the list of its effects. [(A, error)] is [result].
    Goroutines that share state are steps of a relation, or a schedule over an
    executable step function. Machine integers wrap where overflow can matter.
    Kubernetes, BuildKit, git, the database server, database drivers, YAML and
    JSON, SHA-256 and the random source are arguments; the few facts assumed of
    them are class laws or hypotheses of the theorems that need them, each with
    a witness. Error texts keep their leading words; Go's %q quoting and
    explanatory tails are left out, and no theorem depends on them. Log lines
    written to the process log are not effects.

    ** What the theorems show

    - The process: the start-up clean-up never touches the work of its own
      process; once the reconcile has succeeded every open build row is owned by
      a running task or by a recorded fault, over crashes and restarts.
    - Instructions: on a working stream each is answered once, with what its own
      handler returned, in its own kind of reply; and it changes only the part of
      the agent and of the cluster its type is for, Jobs included.
    - Draining and restarts: every sequence of answers of the tracker is one of
      the abstract machine, one step each; a drain that returned zero is final; a waiter is never
      stuck; shutdown and start-up close exactly the rows no goroutine will
      close; the start-up hold admits nothing and is released once.
    - Rows and tokens: closing orphans is all or nothing; ids stay unique and
      completion times follow the status; tokens are single-use across
      interleavings, isolated by purpose, and carry what they were minted with.
    - Handlers: an upload or a build instruction owns a unit of the tracker
      exactly while work exists for it; the public server starts work only for a
      clean upload path; an instruction gets at most one final reply, and exactly
      one where its tag is valid and the stream takes it; responses reach their
      own request, and a stream's clean-up never closes a channel twice.
    - Builds and deploys: resources are released once in reverse order on every
      path; concurrent builds stay within their limits; credentials are staged
      privately and removed; the final status tells whether image and deployment succeeded;
      patching and retrying are bounded as documented.
    - Files: path guards are exactly lexical containment; extraction, the
      manifest, env files and workdirs stay inside their trees; what is read
      back is what was written (env files, connection strings, tokens).
    - One-shot runs: the outcome is decided on the cluster's evidence, a
      deadline kill is a timeout, and every started run is recorded.
    - SQL: the session's mode and the read-only gate, pools without leaks for one caller at a time, the
      grouping of a schema and its cache.
    - The agent's own store: the open connections are exactly the ones the
      process holds, in every interleaving; credentials are replaced only when
      they have to be; a successful pass serves the resolved target.
    - The network: no request leaves for a blocked address, over any redirects,
      nor for a URL that is not http or https; the guard is exactly its list of
      networks.
    - Identity: while nobody else removes the agent's and the node's Secret or
      rewrites a filled one, starting never loses the credentials and renewal
      keeps memory and Secret together, over all lives of the process and
      wherever it is killed; what is kept is traced to an answer of the server.
      When that holds a certificate, only a verified one for the local key is
      accepted; and an agent's certificate is no server's.
    - The stream: at most one is live, a connected agent has one, and the connect
      callback runs once.
    - The cluster: the reader's role is exactly its read rules and is bound to its
      own account; a builder that fails to start asks for the deletion of its pod
      on a fresh context, with the pod's deadline behind it; Secrets hold what
      was written.
    - Certificates and archives survive their round trips; the waits for them are
      bounded.
    - Where the code does not do what its comments say, a theorem shows the
      failing run: a link chain that leaves the extraction directory, pod names
      that collide, rows left busy, workdirs removed under a running build,
      pools lost by concurrent callers, a wildcard that matches another domain,
      a partial schema that is cached, a bad authority that is retried forever,
      a node Secret that is read before it is filled and never again, an unchecked
      key pair that replaces working credentials, a client error
      that is kept for the life of the process.

    ** Bounds and fuel

    Loops over the text of a string take the length of the string as fuel:
    every round consumes a byte ([parse_from_fuel] proves that more makes no
    difference). The start-up reconcile makes at most 41 attempts (two minutes,
    one every three seconds) and patching at most 60; both bounds are the
    code's own. The file-system replay of [Tarball.v] follows at most 1000
    elements per path, more than any path of its example. The reader of
    connection strings takes the number of keywords. The polling loops of
    [OneShot.v] take the number of intervals left until their context ends
    ([rounds], with [resolveOneShotOutcome_total] and [wait_total]). Waiting for
    the reader pod takes one round per two seconds of its limit, and the polls of
    builder pods the number of intervals in theirs ([poll_total]). Redirects are
    followed at most as often as the code allows. Asking for the cached
    certificate needs fifteen rounds: fourteen waits of 45 seconds are more than
    its ten minutes ([requestCachedCert_bounded]). The retry steps of
    [Bootstrap.v] have no bound in the code either; their fuel is the number of
    attempts up to which the run is observed, and what is proved holds for every
    such prefix.

    ** Not modelled, and what comes next

    Generated protocol code and the construction of clients and listeners are
    I/O, and so is what gRPC, TLS, [net/http]'s connections, the OCI library,
    BuildKit and the API server do inside a call. The release check is a test of
    the build, and the version is a constant the linker sets. In [Process.v] the
    statements between the admission of a request and the start of its goroutine
    are one step, and the build rows are the only rows it follows; one-shot runs
    are followed in [OneShot.v]. Run-time panics inside a handler's Go code are
    not part of its definition; the dispatch treats a handler that panics. A
    removal of a directory is the call, whose error the code only logs
    ([BuildAuth.v], [Manifest.v]). The database's laws leave out a commit whose
    acknowledgement is lost ([Db.v]), and a pass of the connection loop is one
    step ([Datastore.v]). Next: the run rows of one-shot jobs in the
    process as a whole, and the stream of [StreamLife.v] joined to the
    instructions that arrive on it. *)
From Stdlib Require Export ZArith Lia String Ascii.
From stdpp Require Export base numbers option list gmap strings.

(** ** Scopes and notations *)

Declare Scope agent_scope.
Delimit Scope agent_scope with agent.
#[global] Open Scope Z_scope.

(** The result of a Go call of type [(A, error)]: exactly one side is used by
    every function modelled here (a nil error with a value, or an error). *)
Inductive result (E A : Type) : Type :=
| Ok (a : A)
| Err (e : E).
Arguments Ok {E A} a.
Arguments Err {E A} e.

Definition rbind {E A B} (f : A -> result E B) (r : result E A) : result E B :=
  match r with Ok a => f a | Err e => Err e end.

Notation "'let?' x ':=' r 'in' k" := (rbind (fun x => k) r)
  (at level 10, x pattern, r at level 100, k at level 200)
  : agent_scope.

Definition is_ok {E A} (r : result E A) : bool :=
  match r with Ok _ => true | Err _ => false end.

#[export] Instance result_eq_dec {E A} `{EqDecision E, EqDecision A} :
  EqDecision (result E A).
Proof. solve_decision. Defined.

(** ** Tactics *)

(** Opens every existential, conjunction and boolean conjunction in the
    hypotheses. *)
Ltac open_hyps :=
  repeat match goal with
  | H : exists x, _ |- _ => let y := fresh x in destruct H as [y H]
  | H : _ /\ _ |- _ => destruct H
  | H : (_ && _)%bool = true |- _ => apply andb_prop in H
  end.

(** Case analysis on the scrutinee of the first [match] or [if] of the goal or
    of a hypothesis. *)
Ltac case_first :=
  match goal with
  | |- context [match ?x with _ => _ end] => destruct x eqn:?
  | H : context [match ?x with _ => _ end] |- _ => destruct x eqn:?
  end.

Ltac cases := repeat (case_first; simplify_eq/=).

(** ** The hint database of the development *)

Create HintDb agent.
#[export] Hint Extern 1 (_ <= _)%Z => lia : agent.
#[export] Hint Extern 1 (_ < _)%Z => lia : agent.

(** ** Machine integers

    Go's [int], [int64] and [time.Duration] are 64-bit two's complement on the
    platforms the agent is built for; [wrap64] is the value an arithmetic
    result is stored as. *)

Definition two63 : Z := 9223372036854775808.
Definition two64 : Z := 18446744073709551616.
Definition min_int64 : Z := - two63.
Definition max_int64 : Z := two63 - 1.

Definition wrap64 (z : Z) : Z := (z + two63) mod two64 - two63.

Definition is_int64 (z : Z) : Prop := min_int64 <= z <= max_int64.

Lemma wrap64_id z : is_int64 z -> wrap64 z = z.
Proof.
  unfold is_int64, wrap64, min_int64, max_int64, two63, two64. intros.
  rewrite Z.mod_small; lia.
Qed.

Lemma wrap64_range z : is_int64 (wrap64 z).
Proof.
  unfold is_int64, wrap64, min_int64, max_int64, two63, two64.
  pose proof (Z.mod_pos_bound (z + 9223372036854775808) 18446744073709551616). lia.
Qed.

(** Durations in nanoseconds, as [time.Duration] counts them. *)
Definition Nanosecond : Z := 1.
Definition Millisecond : Z := 1000000.
Definition Second : Z := 1000000000.
Definition Minute : Z := 60 * Second.
Definition Hour : Z := 60 * Minute.
