(* ===== verification/GoStrings.v ===== *)
(** * Go's [strings] package, as far as the agent uses it

    Strings are byte strings. White space is what [unicode.IsSpace] accepts, as
    its UTF-8 byte sequences, so that [TrimSpace] behaves on arbitrary bytes as
    Go's does. *)
From stdpp Require Import sorting.
From S2P Require Import Prelude.
Local Open Scope string_scope.
#[global] Arguments String.append : simpl nomatch.
Local Open Scope Z_scope.

Fixpoint rev_app (s acc : string) : string :=
  match s with EmptyString => acc | String c s => rev_app s (String c acc) end.
Definition rev_string (s : string) : string := rev_app s "".

Definition slen (s : string) : Z := Z.of_nat (String.length s).

(** [s[:n]] and [s[n:]] for n within bounds. *)
Fixpoint take_string (n : nat) (s : string) : string :=
  match n, s with
  | S n, String c s => String c (take_string n s)
  | _, _ => ""
  end.
Fixpoint drop_string (n : nat) (s : string) : string :=
  match n, s with
  | S n, String _ s => drop_string n s
  | _, _ => s
  end.

Definition HasPrefix (s p : string) : bool := String.prefix p s.
Definition HasSuffix (s p : string) : bool := String.prefix (rev_string p) (rev_string s).
Definition TrimPrefix (s p : string) : string :=
  if HasPrefix s p then drop_string (String.length p) s else s.
Definition TrimSuffix (s p : string) : string :=
  if HasSuffix s p then take_string (String.length s - String.length p) s else s.

(** [strings.Contains]. *)
Fixpoint Contains (s frag : string) : bool :=
  String.prefix frag s ||
  match s with EmptyString => false | String _ s' => Contains s' frag end.

(** [strings.Cut] at a one-byte separator: before and after its first
    occurrence, or [None]. *)
Fixpoint Cut (sep : ascii) (s : string) : option (string * string) :=
  match s with
  | EmptyString => None
  | String c s =>
      if Ascii.eqb c sep then Some ("", s)
      else match Cut sep s with
           | Some (a, b) => Some (String c a, b)
           | None => None
           end
  end.

(** [strings.Split] at a one-byte separator; never empty. *)
Fixpoint Split (sep : ascii) (s : string) : list string :=
  match s with
  | EmptyString => [""]
  | String c s =>
      if Ascii.eqb c sep then "" :: Split sep s
      else match Split sep s with
           | x :: xs => String c x :: xs
           | [] => [String c ""]
           end
  end.

Fixpoint Join (xs : list string) (sep : string) : string :=
  match xs with
  | [] => ""
  | [x] => x
  | x :: xs => x ++ sep ++ Join xs sep
  end.

(** [strings.ReplaceAll] of a one-byte string. *)
Fixpoint ReplaceAll (s : string) (old : ascii) (new : string) : string :=
  match s with
  | EmptyString => ""
  | String c s => if Ascii.eqb c old then new ++ ReplaceAll s old new else String c (ReplaceAll s old new)
  end.

Definition dquote : ascii := ascii_of_nat 34.

(** [strings.ReplaceAll] of a non-empty string; each step consumes a byte. *)
Fixpoint replace_all (fuel : nat) (s old new : string) : string :=
  match fuel with
  | O => s
  | S fuel =>
      if HasPrefix s old then new ++ replace_all fuel (drop_string (String.length old) s) old new
      else match s with
           | EmptyString => ""
           | String c r => String c (replace_all fuel r old new)
           end
  end.

Fixpoint all_chars (p : ascii -> bool) (s : string) : bool :=
  match s with EmptyString => true | String c s => p c && all_chars p s end.

Definition contains_char (c : ascii) (s : string) : bool := negb (all_chars (fun x => negb (Ascii.eqb x c)) s).

(** ** White space *)

Definition byte (n : nat) : string := String (ascii_of_nat n) "".

(** The UTF-8 encodings of the code points [unicode.IsSpace] accepts. *)
Definition white_space : list string :=
  map byte [9; 10; 11; 12; 13; 32]%nat ++
  map (fun n => byte 194 ++ byte n) [133; 160]%nat ++
  [byte 225 ++ byte 154 ++ byte 128] ++
  map (fun n => byte 226 ++ byte 128 ++ byte n)
    [128; 129; 130; 131; 132; 133; 134; 135; 136; 137; 138; 168; 169; 175]%nat ++
  [byte 226 ++ byte 129 ++ byte 159; byte 227 ++ byte 128 ++ byte 128].

Fixpoint strip_one (ws : list string) (s : string) : option string :=
  match ws with
  | [] => None
  | w :: ws => if String.prefix w s then Some (drop_string (String.length w) s) else strip_one ws s
  end.

Fixpoint strip_left (fuel : nat) (ws : list string) (s : string) : string :=
  match fuel with
  | O => s
  | S fuel => match strip_one ws s with Some s' => strip_left fuel ws s' | None => s end
  end.

(** Each strip removes at least a byte, so the length is enough fuel. *)
Definition TrimLeftSpace (s : string) : string := strip_left (String.length s) white_space s.
Definition TrimRightSpace (s : string) : string :=
  rev_string (strip_left (String.length s) (map rev_string white_space) (rev_string s)).
Definition TrimSpace (s : string) : string := TrimRightSpace (TrimLeftSpace s).

(** ** Lemmas *)

Lemma append_nil_r (s : string) : s ++ "" = s.
Proof. induction s as [|c s IH]; [done|]. simpl. by rewrite IH. Qed.

Lemma append_assoc (a b c : string) : (a ++ b) ++ c = a ++ b ++ c.
Proof. induction a as [|x a IH]; [done|]. simpl. by rewrite IH. Qed.

Lemma length_append (a b : string) : String.length (a ++ b) = (String.length a + String.length b)%nat.
Proof. induction a as [|c a IH]; [done|]. simpl. by rewrite IH. Qed.

Lemma prefix_app p s : String.prefix p s = true <-> exists r, s = p ++ r.
Proof.
  revert s. induction p as [|c p IH]; intros s.
  - split; [eauto|by destruct s].
  - destruct s as [|d s]; simpl.
    + split; [done|by intros [r Hr]].
    + destruct (ascii_dec c d) as [->|Hne].
      * rewrite IH. split; intros [r Hr]; exists r; congruence.
      * split; [done|]. intros [r Hr]. congruence.
Qed.

Lemma drop_app p r : drop_string (String.length p) (p ++ r) = r.
Proof. induction p as [|c p IH]; [by destruct r|done]. Qed.

Lemma take_drop_string n s : take_string n s ++ drop_string n s = s.
Proof. revert s. induction n as [|n IH]; intros [|c s]; simpl; [done|done|done|]. by rewrite IH. Qed.

Lemma length_take_string n s : String.length (take_string n s) = Nat.min n (String.length s).
Proof. revert s. induction n as [|n IH]; intros [|c s]; simpl; [done|done|done|]. by rewrite IH. Qed.

Lemma Cut_app sep a b :
  contains_char sep a = false -> Cut sep (a ++ String sep b) = Some (a, b).
Proof.
  unfold contains_char. rewrite negb_false_iff.
  induction a as [|c a IH]; simpl; [by rewrite Ascii.eqb_refl|].
  rewrite andb_true_iff, negb_true_iff. intros [Hc Ha]. rewrite Hc. by rewrite IH.
Qed.

Lemma Cut_sound sep s a b :
  Cut sep s = Some (a, b) -> s = a ++ String sep b /\ contains_char sep a = false.
Proof.
  unfold contains_char. revert a b. induction s as [|c s IH]; intros a b; simpl; [done|].
  destruct (Ascii.eqb_spec c sep) as [->|Hne]; [by intros [= <- <-]|].
  destruct (Cut sep s) as [[a' b']|]; [|done]. intros [= <- <-].
  destruct (IH a' b' eq_refl) as [-> Hc]. simpl. split; [done|].
  rewrite negb_false_iff in *. rewrite Hc. by apply Ascii.eqb_neq in Hne as ->.
Qed.

Lemma Cut_none sep s : Cut sep s = None <-> contains_char sep s = false.
Proof.
  unfold contains_char. rewrite negb_false_iff. induction s as [|c s IH]; simpl; [done|].
  destruct (Ascii.eqb_spec c sep) as [->|Hne]; simpl; [done|].
  rewrite <-IH. by destruct (Cut sep s) as [[]|].
Qed.

Lemma Split_nonempty sep s : Split sep s <> [].
Proof. destruct s as [|c s]; simpl; [done|]. destruct (Ascii.eqb c sep); [done|]. by destruct (Split sep s). Qed.

Lemma Join_Split sep s : Join (Split sep s) (String sep "") = s.
Proof.
  induction s as [|c s IH]; [done|]. simpl.
  pose proof (Split_nonempty sep s) as Hne.
  destruct (Ascii.eqb_spec c sep) as [->|Hc].
  - destruct (Split sep s) as [|x xs]; [done|]. cbn [Join]. simpl in *. by rewrite IH.
  - destruct (Split sep s) as [|x xs]; [done|]. destruct xs as [|y ys]; simpl in *; by rewrite IH.
Qed.

Lemma all_chars_app p a b : all_chars p (a ++ b) = all_chars p a && all_chars p b.
Proof. induction a as [|c a IH]; [done|]. simpl. by rewrite IH, andb_assoc. Qed.

(** ** Numbers *)

Definition digit_val (c : ascii) : option Z :=
  let n := Z.of_nat (nat_of_ascii c) in
  if (48 <=? n) && (n <=? 57) then Some (n - 48) else None.

Fixpoint parse_digits (s : string) (acc : Z) : option Z :=
  match s with
  | EmptyString => Some acc
  | String c s => match digit_val c with Some d => parse_digits s (10 * acc + d) | None => None end
  end.

(** [strconv.Atoi]: an optional sign, decimal digits, the int64 range. *)
Definition Atoi (s : string) : option Z :=
  let '(neg, ds) := match s with
                    | String c r => if Ascii.eqb c "-" then (true, r)
                                    else if Ascii.eqb c "+" then (false, r) else (false, s)
                    | EmptyString => (false, s)
                    end in
  match ds with
  | EmptyString => None
  | _ => match parse_digits ds 0 with
         | None => None
         | Some n => let z := if neg then - n else n in
                     if (min_int64 <=? z) && (z <=? max_int64) then Some z else None
         end
  end.

Lemma Atoi_range s z : Atoi s = Some z -> is_int64 z.
Proof.
  unfold Atoi. set (p := match s with EmptyString => _ | String _ _ => _ end).
  destruct p as [neg [|c r]]; [done|]. destruct (parse_digits (String c r) 0) as [n|]; [|done].
  cbv zeta. set (v := if neg then - n else n).
  destruct ((min_int64 <=? v) && (v <=? max_int64)) eqn:E; [|done]. intros [= <-].
  apply andb_prop in E as [?%Z.leb_le ?%Z.leb_le]. done.
Qed.

(** ** Runes *)

Definition byte_val (c : ascii) : Z := Z.of_nat (nat_of_ascii c).
Definition in_range (lo hi : Z) (c : ascii) : bool := (lo <=? byte_val c) && (byte_val c <=? hi).
Definition cont (c : ascii) : bool := in_range 128 191 c.

(** The width of the first rune as [utf8.DecodeRune] reads it; an invalid
    sequence is one byte wide. *)
Definition rune_width (s : string) : nat :=
  match s with
  | EmptyString => 0
  | String b0 (String b1 r1) =>
      if in_range 194 223 b0 && cont b1 then 2
      else
        match r1 with
        | String b2 r2 =>
            if ((in_range 224 224 b0 && in_range 160 191 b1) ||
                ((in_range 225 236 b0 || in_range 238 239 b0) && cont b1) ||
                (in_range 237 237 b0 && in_range 128 159 b1)) && cont b2 then 3
            else
              match r2 with
              | String b3 _ =>
                  if ((in_range 240 240 b0 && in_range 144 191 b1) ||
                      (in_range 241 243 b0 && cont b1) ||
                      (in_range 244 244 b0 && in_range 128 143 b1)) && cont b2 && cont b3 then 4
                  else 1
              | EmptyString => 1
              end
        | EmptyString => 1
        end
  | String _ EmptyString => 1
  end%nat.

(** [for _, r := range s]: the string cut into runes. *)
Fixpoint runes (fuel : nat) (s : string) : list string :=
  match fuel, s with
  | S fuel, String _ _ =>
      let w := rune_width s in take_string w s :: runes fuel (drop_string w s)
  | _, _ => []
  end.

Definition rune_list (s : string) : list string := runes (String.length s) s.

(** [strings.TrimRight] and [strings.TrimLeft] of one byte. *)
Fixpoint drop_leading (c : ascii) (s : string) : string :=
  match s with
  | String d s' => if Ascii.eqb d c then drop_leading c s' else s
  | EmptyString => ""
  end.
Definition TrimRightChar (s : string) (c : ascii) : string := rev_string (drop_leading c (rev_string s)).
Definition TrimChar (s : string) (c : ascii) : string := TrimRightChar (drop_leading c s) c.

(** [strings.LastIndex] of one byte, -1 when absent. *)
Fixpoint last_index_from (i : Z) (c : ascii) (s : string) : Z :=
  match s with
  | EmptyString => -1
  | String d s =>
      let j := last_index_from (i + 1) c s in
      if 0 <=? j then j else if Ascii.eqb d c then i else -1
  end.
Definition LastIndex (s : string) (c : ascii) : Z := last_index_from 0 c s.

(** [strings.Index] of a string. *)
Fixpoint index_from (i : Z) (sub s : string) : Z :=
  if String.prefix sub s then i
  else match s with EmptyString => -1 | String _ s => index_from (i + 1) sub s end.
Definition Index (s sub : string) : Z := index_from 0 sub s.

(** ** Lemmas on reversal *)

Lemma rev_app_append s a b : rev_app s (a ++ b) = rev_app s a ++ b.
Proof. revert a. induction s as [|c s IH]; intros a; [done|]. simpl. apply (IH (String c a)). Qed.

Lemma rev_string_app a b : rev_string (a ++ b) = rev_string b ++ rev_string a.
Proof.
  unfold rev_string. revert b. induction a as [|c a IH]; intros b; simpl.
  - by rewrite append_nil_r.
  - rewrite (rev_app_append a "" (String c "") : rev_app a (String c "") = _).
    rewrite <-append_assoc, <-IH. apply (rev_app_append (a ++ b) "" (String c "")).
Qed.

Lemma rev_string_involutive s : rev_string (rev_string s) = s.
Proof.
  induction s as [|c s IH]; [done|]. change (String c s) with (String c "" ++ s).
  rewrite !rev_string_app, IH. done.
Qed.

Lemma rev_string_length s : String.length (rev_string s) = String.length s.
Proof.
  induction s as [|c s IH]; [done|]. change (String c s) with (String c "" ++ s).
  rewrite rev_string_app, !length_append, IH. simpl. lia.
Qed.

Lemma all_chars_rev p s : all_chars p (rev_string s) = all_chars p s.
Proof.
  induction s as [|c s IH]; [done|]. change (String c s) with (String c "" ++ s).
  rewrite rev_string_app, !all_chars_app, IH. apply andb_comm.
Qed.

(** ** Sorting *)

(** Byte-wise order of [sort.Strings]. *)
Fixpoint string_leb (a b : string) : bool :=
  match a, b with
  | EmptyString, _ => true
  | String _ _, EmptyString => false
  | String c a, String d b =>
      if (nat_of_ascii c <? nat_of_ascii d)%nat then true
      else if (nat_of_ascii d <? nat_of_ascii c)%nat then false else string_leb a b
  end.
Definition string_le (a b : string) : Prop := string_leb a b = true.
#[export] Instance string_le_dec : RelDecision string_le.
Proof. intros a b. unfold string_le. apply _. Defined.

#[export] Instance string_le_total : Total string_le.
Proof.
  intros a. unfold string_le. induction a as [|c a IH]; intros [|d b]; simpl; auto.
  destruct (Nat.ltb_spec (nat_of_ascii c) (nat_of_ascii d)); [auto|].
  destruct (Nat.ltb_spec (nat_of_ascii d) (nat_of_ascii c)); auto.
Qed.

#[export] Instance string_le_trans : Transitive string_le.
Proof.
  intros a b c. unfold string_le. revert b c.
  induction a as [|x a IH]; intros [|y b] [|z c]; simpl; try done.
  destruct (Nat.ltb_spec (nat_of_ascii x) (nat_of_ascii y)), (Nat.ltb_spec (nat_of_ascii y) (nat_of_ascii x)),
    (Nat.ltb_spec (nat_of_ascii y) (nat_of_ascii z)), (Nat.ltb_spec (nat_of_ascii z) (nat_of_ascii y)),
    (Nat.ltb_spec (nat_of_ascii x) (nat_of_ascii z)), (Nat.ltb_spec (nat_of_ascii z) (nat_of_ascii x));
    try done; try lia. eauto.
Qed.

(** ** Cutting at a predicate, and UTF-8 validity *)

(** The bytes before the first one satisfying [p], and the rest from it on. *)
Fixpoint take_until (p : ascii -> bool) (s : string) : string * string :=
  match s with
  | EmptyString => ("", "")
  | String c r => if p c then ("", s) else let '(a, b) := take_until p r in (String c a, b)
  end.

Fixpoint drop_while (p : ascii -> bool) (s : string) : string :=
  match s with
  | EmptyString => ""
  | String c r => if p c then drop_while p r else s
  end.

(** [strings.TrimRight] of a set of one-byte characters. *)
Definition TrimRightSet (p : ascii -> bool) (s : string) : string :=
  rev_string (drop_while p (rev_string s)).

(** [utf8.ValidString]: a one-byte piece is valid only when it is ASCII. *)
Definition valid_rune (r : string) : bool :=
  match r with
  | String c EmptyString => byte_val c <? 128
  | _ => true
  end.
Definition ValidString (s : string) : bool := forallb valid_rune (rune_list s).

Lemma take_until_app p a b :
  all_chars (fun c => negb (p c)) a = true ->
  take_until p (a ++ b) = let '(x, y) := take_until p b in (a ++ x, y).
Proof.
  induction a as [|c a IH]; simpl; [by destruct (take_until p b)|].
  intros [Hc Ha]%andb_prop. apply negb_true_iff in Hc. rewrite Hc, (IH Ha).
  by destruct (take_until p b).
Qed.

Lemma drop_while_app p a b : all_chars p a = true -> drop_while p (a ++ b) = drop_while p b.
Proof. induction a as [|c a IH]; simpl; [done|]. intros [-> Ha]%andb_prop. auto. Qed.

Lemma length_drop_while p s : (String.length (drop_while p s) <= String.length s)%nat.
Proof. induction s as [|c s IH]; simpl; [done|]. destruct (p c); simpl; lia. Qed.

Lemma length_take_until p s a b :
  take_until p s = (a, b) -> String.length s = (String.length a + String.length b)%nat.
Proof.
  revert a b. induction s as [|c s IH]; simpl; intros a b; [by intros [= <- <-]|].
  destruct (p c); [by intros [= <- <-]|]. destruct (take_until p s) as [x y].
  intros [= <- <-]. simpl. by rewrite (IH x y).
Qed.

(** ** [hex.EncodeToString] *)

Definition hex_digit (n : Z) : ascii :=
  if n <? 10 then ascii_of_nat (Z.to_nat (48 + n)) else ascii_of_nat (Z.to_nat (97 + (n - 10))).
Fixpoint hex_encode (s : string) : string :=
  match s with
  | EmptyString => ""
  | String c r => String (hex_digit (byte_val c / 16)) (String (hex_digit (byte_val c mod 16)) (hex_encode r))
  end.

(** ** Trimming leaves printable ASCII alone *)

Definition plain (c : ascii) : bool := in_range 33 126 c.

Definition starts_unplain (w : string) : bool :=
  match w with String c _ => negb (plain c) | EmptyString => false end.

Lemma strip_one_plain ws c s :
  forallb starts_unplain ws = true -> plain c = true -> strip_one ws (String c s) = None.
Proof.
  intros Hws Hc. induction ws as [|w ws IH]; [done|]. cbn in *. apply andb_prop in Hws as [Hw Hws].
  destruct w as [|d w]; [done|]. simpl in Hw. cbn.
  destruct (ascii_dec d c) as [->|_]; [by rewrite Hc in Hw|auto].
Qed.

Lemma strip_left_plain n ws s :
  forallb starts_unplain ws = true -> all_chars plain s = true -> strip_left n ws s = s.
Proof.
  intros Hws Hs. destruct n as [|n]; [done|]. destruct s as [|c s]; cbn [strip_left].
  - assert (strip_one ws "" = None) as ->; [|done].
    clear Hs n. induction ws as [|[|d w] ws IH]; cbn in *; [done|done|].
    apply andb_prop in Hws as [_ Hws]. auto.
  - simpl in Hs. apply andb_prop in Hs as [Hc _]. by rewrite strip_one_plain.
Qed.

Lemma TrimSpace_plain s : all_chars plain s = true -> TrimSpace s = s.
Proof.
  intros Hs. unfold TrimSpace, TrimRightSpace, TrimLeftSpace.
  rewrite (strip_left_plain _ white_space s eq_refl Hs).
  rewrite (strip_left_plain _ _ (rev_string s)); [apply rev_string_involutive|done|by rewrite all_chars_rev].
Qed.

Lemma hex_encode_plain s : all_chars plain (hex_encode s) = true.
Proof.
  induction s as [|c s IH]; [done|]. cbn [hex_encode all_chars]. rewrite IH.
  by destruct c as [[] [] [] [] [] [] [] []].
Qed.

(** ** Splitting what was joined *)

Lemma Split_app sep x r :
  contains_char sep x = false -> Split sep (x ++ String sep r) = x :: Split sep r.
Proof.
  unfold contains_char. rewrite negb_false_iff. induction x as [|c x IH]; simpl; [by rewrite Ascii.eqb_refl|].
  rewrite andb_true_iff, negb_true_iff. intros [-> Hx]. by rewrite IH.
Qed.

Lemma Split_single sep x : contains_char sep x = false -> Split sep x = [x].
Proof.
  unfold contains_char. rewrite negb_false_iff. induction x as [|c x IH]; simpl; [done|].
  rewrite andb_true_iff, negb_true_iff. intros [-> Hx]. by rewrite IH.
Qed.

Lemma Split_Join sep xs :
  xs <> [] -> Forall (fun x => contains_char sep x = false) xs -> Split sep (Join xs (String sep "")) = xs.
Proof.
  intros Hne Hxs. induction Hxs as [|x xs Hx Hxs IH]; [done|]. destruct xs as [|y ys].
  - by apply Split_single.
  - change (Join (x :: y :: ys) (String sep "")) with (x ++ String sep (Join (y :: ys) (String sep ""))).
    rewrite Split_app by done. by rewrite IH.
Qed.

(** ** Hexadecimal text determines the bytes *)

Lemma hex_digit_inj n m : 0 <= n < 16 -> 0 <= m < 16 -> hex_digit n = hex_digit m -> n = m.
Proof.
  intros Hn Hm He. assert (forallb (fun i => forallb (fun j =>
    negb (Ascii.eqb (hex_digit (Z.of_nat i)) (hex_digit (Z.of_nat j))) || (i =? j)%nat) (seq 0 16)) (seq 0 16) = true) as Ha
    by (vm_compute; reflexivity).
  rewrite forallb_forall in Ha. specialize (Ha (Z.to_nat n)). rewrite in_seq in Ha. specialize (Ha ltac:(lia)).
  rewrite forallb_forall in Ha. specialize (Ha (Z.to_nat m)). rewrite in_seq in Ha. specialize (Ha ltac:(lia)).
  rewrite !Z2Nat.id in Ha by lia. rewrite He, Ascii.eqb_refl in Ha. apply Nat.eqb_eq in Ha. lia.
Qed.

Lemma byte_val_inj c d : byte_val c = byte_val d -> c = d.
Proof. unfold byte_val. intros H%Nat2Z.inj. by rewrite <-(ascii_nat_embedding c), H, ascii_nat_embedding. Qed.

#[export] Instance hex_encode_inj : Inj (=) (=) hex_encode.
Proof.
  intros s. induction s as [|c s IH]; intros [|d t]; [done..|]. cbn [hex_encode].
  intros [= H1 H2 H3%IH]. subst t. f_equal. apply byte_val_inj.
  assert (forall x, 0 <= byte_val x / 16 < 16 /\ 0 <= byte_val x mod 16 < 16) as Hr.
  { intros x. unfold byte_val. pose proof (nat_ascii_bounded x).
    split; [split; [apply Z.div_pos; lia|apply Z.div_lt_upper_bound; lia]|apply Z.mod_pos_bound; lia]. }
  apply hex_digit_inj in H1; [|apply Hr..]. apply hex_digit_inj in H2; [|apply Hr..].
  pose proof (Z.div_mod (byte_val c) 16). pose proof (Z.div_mod (byte_val d) 16). lia.
Qed.

Lemma contains_char_plain sep s : all_chars plain s = true -> plain sep = false -> contains_char sep s = false.
Proof.
  intros Hs Hsep. unfold contains_char. apply negb_false_iff. induction s as [|c s IH]; [done|].
  cbn in *. apply andb_prop in Hs as [Hc Hs]. rewrite IH by done.
  destruct (Ascii.eqb_spec c sep) as [->|]; [congruence|done].
Qed.

(** ** Suffixes *)

Lemma HasSuffix_app s p : HasSuffix s p = true <-> exists r, s = r ++ p.
Proof.
  unfold HasSuffix. rewrite prefix_app. split; intros [r Hr].
  - exists (rev_string r). rewrite <-(rev_string_involutive s), Hr, rev_string_app. by rewrite rev_string_involutive.
  - exists (rev_string r). by rewrite Hr, rev_string_app.
Qed.

Lemma take_app_string a b : take_string (String.length a) (a ++ b) = a.
Proof. induction a as [|c a IH]; simpl; [by destruct b|]. by rewrite IH. Qed.

Lemma TrimSuffix_app r p : TrimSuffix (r ++ p) p = r.
Proof.
  unfold TrimSuffix. rewrite (proj2 (HasSuffix_app _ p)) by eauto. rewrite length_append.
  replace (String.length r + String.length p - String.length p)%nat with (String.length r) by lia. apply take_app_string.
Qed.

Lemma TrimPrefix_app p s : TrimPrefix (p ++ s) p = s.
Proof.
  unfold TrimPrefix. assert (HasPrefix (p ++ s) p = true) as -> by (apply prefix_app; by exists s).
  by induction p as [|c p IH].
Qed.

Lemma TrimPrefix_none s p : HasPrefix s p = false -> TrimPrefix s p = s.
Proof. unfold TrimPrefix. by intros ->. Qed.

Lemma TrimSuffix_none s p : HasSuffix s p = false -> TrimSuffix s p = s.
Proof. unfold TrimSuffix. by intros ->. Qed.

Lemma Contains_char s c : Contains s (String c "") = contains_char c s.
Proof.
  unfold contains_char. induction s as [|d s IH]; [done|]. cbn [Contains String.prefix all_chars]. rewrite IH.
  destruct (ascii_dec c d) as [<-|Hne]; [rewrite Ascii.eqb_refl; by destruct s|].
  destruct (Ascii.eqb_spec d c); [congruence|]. by destruct s.
Qed.
