(* ===== verification/Codec.v ===== *)
(** * The message codec ([src/commons/encoding.go])

    Base64 as [base64.StdEncoding] has it, and the two helpers that frame every
    instruction payload; JSON is a parameter. *)
From S2P Require Import Prelude GoStrings.
Local Open Scope string_scope.
Local Open Scope Z_scope.

(** ** Base64 ([base64.StdEncoding.EncodeToString]) *)

Definition b64_char (n : Z) : ascii :=
  if n <? 26 then ascii_of_nat (Z.to_nat (65 + n))
  else if n <? 52 then ascii_of_nat (Z.to_nat (97 + (n - 26)))
  else if n <? 62 then ascii_of_nat (Z.to_nat (48 + (n - 52)))
  else if n =? 62 then "+"%char else "/"%char.

Fixpoint EncodeToString (s : string) : string :=
  match s with
  | String a (String b (String c r)) =>
      let v := Z.lor (Z.lor (Z.shiftl (byte_val a) 16) (Z.shiftl (byte_val b) 8)) (byte_val c) in
      String (b64_char (Z.land (Z.shiftr v 18) 63)) (String (b64_char (Z.land (Z.shiftr v 12) 63))
        (String (b64_char (Z.land (Z.shiftr v 6) 63)) (String (b64_char (Z.land v 63)) (EncodeToString r))))
  | String a (String b EmptyString) =>
      let v := Z.lor (Z.shiftl (byte_val a) 16) (Z.shiftl (byte_val b) 8) in
      String (b64_char (Z.land (Z.shiftr v 18) 63)) (String (b64_char (Z.land (Z.shiftr v 12) 63))
        (String (b64_char (Z.land (Z.shiftr v 6) 63)) "="))
  | String a EmptyString =>
      let v := Z.shiftl (byte_val a) 16 in
      String (b64_char (Z.land (Z.shiftr v 18) 63)) (String (b64_char (Z.land (Z.shiftr v 12) 63)) "==")
  | EmptyString => ""
  end.

(** ** Decoding *)

Definition b64_val (c : ascii) : option Z :=
  let n := byte_val c in
  if in_range 65 90 c then Some (n - 65)
  else if in_range 97 122 c then Some (n - 97 + 26)
  else if in_range 48 57 c then Some (n - 48 + 52)
  else if Ascii.eqb c "+" then Some 62
  else if Ascii.eqb c "/" then Some 63 else None.

Definition byte_of (n : Z) : ascii := ascii_of_nat (Z.to_nat (Z.land n 255)).

(** Whole quanta; padding may only end the text. Spare bits are not checked. *)
Fixpoint decode_quanta (s : string) : option string :=
  match s with
  | EmptyString => Some ""
  | String c1 (String c2 (String c3 (String c4 r))) =>
      v1 ← b64_val c1; v2 ← b64_val c2;
      let w := Z.lor (Z.shiftl v1 18) (Z.shiftl v2 12) in
      if Ascii.eqb c3 "=" then
        if Ascii.eqb c4 "=" && String.eqb r "" then Some (String (byte_of (Z.shiftr w 16)) "") else None
      else
        v3 ← b64_val c3;
        let w := Z.lor w (Z.shiftl v3 6) in
        if Ascii.eqb c4 "=" then
          if String.eqb r ""
          then Some (String (byte_of (Z.shiftr w 16)) (String (byte_of (Z.shiftr w 8)) "")) else None
        else
          v4 ← b64_val c4;
          let w := Z.lor w v4 in
          rest ← decode_quanta r;
          Some (String (byte_of (Z.shiftr w 16)) (String (byte_of (Z.shiftr w 8)) (String (byte_of w) rest)))
  | _ => None
  end.

(** Line breaks are skipped wherever they occur. *)
Fixpoint skip_newlines (s : string) : string :=
  match s with
  | EmptyString => ""
  | String c r => if in_range 10 10 c || in_range 13 13 c then skip_newlines r else String c (skip_newlines r)
  end.

Definition DecodeString (s : string) : option string := decode_quanta (skip_newlines s).

(** ** The helpers *)

Section json.
Context {A : Type} (Marshal : A -> result string string) (Unmarshal : string -> result string A).

Definition JsonB64Encode (message : A) : result string string :=
  match Marshal message with
  | Err e => Err ("error encoding message: " ++ e)
  | Ok messageBytes => Ok (EncodeToString messageBytes)
  end.

Definition JsonB64Decode (encodedMessage : string) : result string A :=
  match DecodeString encodedMessage with
  | None => Err "error decoding base64"
  | Some messageBytes =>
      match Unmarshal messageBytes with
      | Err e => Err ("error decoding JSON: " ++ e)
      | Ok v => Ok v
      end
  end.
End json.

(** ** Decoding inverts encoding *)

Lemma byte_val_range c : 0 <= byte_val c < 256.
Proof. unfold byte_val. pose proof (nat_ascii_bounded c). lia. Qed.

Lemma byte_of_val n c : Z.land n 255 = byte_val c -> byte_of n = c.
Proof.
  intros Hn. unfold byte_of. rewrite Hn. unfold byte_val. rewrite Nat2Z.id. apply ascii_nat_embedding.
Qed.

(** The 64 characters, by enumeration. *)
Lemma b64_chars n :
  0 <= n < 64 ->
  b64_val (b64_char n) = Some n /\ Ascii.eqb (b64_char n) "=" = false /\
  in_range 10 10 (b64_char n) || in_range 13 13 (b64_char n) = false.
Proof.
  intros Hn. assert (forallb (fun i => let n := Z.of_nat i in
    bool_decide (b64_val (b64_char n) = Some n) && negb (Ascii.eqb (b64_char n) "=") &&
    negb (in_range 10 10 (b64_char n) || in_range 13 13 (b64_char n))) (seq 0 64) = true) as Hall
    by (vm_compute; reflexivity).
  rewrite forallb_forall in Hall. specialize (Hall (Z.to_nat n)). rewrite in_seq in Hall.
  specialize (Hall ltac:(lia)). cbv zeta in Hall. rewrite Z2Nat.id in Hall by lia.
  apply andb_prop in Hall as [[H1 H2]%andb_prop H3].
  apply bool_decide_eq_true in H1. apply negb_true_iff in H2, H3. done.
Qed.

Lemma land63_range v : 0 <= Z.land v 63 < 64.
Proof. change 63 with (Z.ones 6). rewrite Z.land_ones by lia. apply Z.mod_pos_bound. lia. Qed.

(** Six-bit groups put together again. *)
Ltac bits :=
  apply Z.bits_inj'; intros n Hn;
  repeat first [rewrite Z.lor_spec | rewrite Z.land_spec | rewrite Z.shiftl_spec by lia];
  change 63 with (Z.ones 6); change 255 with (Z.ones 8); rewrite ?Z.testbit_ones by lia.

Lemma testbit_high v k n : 0 <= v < 2 ^ k -> k <= n -> Z.testbit v n = false.
Proof.
  intros Hv Hn. destruct (decide (v = 0)) as [->|]; [apply Z.bits_0|]. apply Z.bits_above_log2; [lia|].
  assert (Z.log2 v < k); [|lia]. apply Z.log2_lt_pow2; lia.
Qed.

Lemma six_bits v :
  0 <= v < 2 ^ 24 ->
  Z.lor (Z.lor (Z.lor (Z.shiftl (Z.land (Z.shiftr v 18) 63) 18) (Z.shiftl (Z.land (Z.shiftr v 12) 63) 12))
    (Z.shiftl (Z.land (Z.shiftr v 6) 63) 6)) (Z.land v 63) = v.
Proof.
  intros Hv. bits.
  repeat match goal with |- context [Z.testbit (Z.shiftr v ?a) (n - ?b)] =>
    destruct (Z.ltb_spec n b);
    [rewrite (Z.testbit_neg_r (Z.shiftr v a)) by lia
    |rewrite (Z.shiftr_spec v a (n - b)) by lia; replace (n - b + a) with n by lia] end.
  all: repeat match goal with |- context [?a <=? ?b] => destruct (Z.leb_spec a b) end.
  all: repeat match goal with |- context [?a <? ?b] => destruct (Z.ltb_spec a b) end.
  all: cbn; rewrite ?andb_true_r, ?andb_false_r, ?orb_false_r, ?orb_diag; try lia; try done.
  all: try (rewrite (testbit_high v 24) by lia; done).
Qed.

Definition pack (a b c : Z) : Z := Z.lor (Z.lor (Z.shiftl a 16) (Z.shiftl b 8)) c.

Lemma pack_sum a b c : 0 <= a < 256 -> 0 <= b < 256 -> 0 <= c < 256 -> pack a b c = a * 65536 + b * 256 + c.
Proof.
  intros Ha Hb Hc. unfold pack.
  assert (forall x y k, 0 <= k -> 0 <= y < 2 ^ k -> Z.lor (Z.shiftl x k) y = x * 2 ^ k + y) as Hor.
  { intros x y k Hk Hy. rewrite <-Z.add_nocarry_lor; [by rewrite Z.shiftl_mul_pow2 by lia|].
    apply Z.bits_inj'. intros n Hn. rewrite Z.land_spec, Z.shiftl_spec, Z.bits_0 by lia.
    destruct (Z.ltb_spec n k); [by rewrite Z.testbit_neg_r by lia|].
    by rewrite (testbit_high y k), andb_false_r by lia. }
  assert (Z.lor (Z.shiftl a 16) (Z.shiftl b 8) = Z.shiftl (a * 256 + b) 8) as ->.
  { rewrite Hor; [|lia|]; rewrite !Z.shiftl_mul_pow2 by lia; lia. }
  rewrite Hor by lia. lia.
Qed.

Lemma unpack a b c :
  0 <= a < 256 -> 0 <= b < 256 -> 0 <= c < 256 ->
  0 <= pack a b c < 2 ^ 24 /\ Z.land (Z.shiftr (pack a b c) 16) 255 = a /\
  Z.land (Z.shiftr (pack a b c) 8) 255 = b /\ Z.land (pack a b c) 255 = c.
Proof.
  intros Ha Hb Hc. rewrite pack_sum by done. change 255 with (Z.ones 8).
  rewrite !Z.land_ones, !Z.shiftr_div_pow2 by lia. change (2 ^ 16) with 65536. change (2 ^ 8) with 256.
  split_and!; [lia|lia|..].
  - assert ((a * 65536 + b * 256 + c) / 65536 = a) as -> by (symmetry; apply Z.div_unique with (b * 256 + c); lia).
    apply Z.mod_small. lia.
  - assert ((a * 65536 + b * 256 + c) / 256 = a * 256 + b) as -> by (symmetry; apply Z.div_unique with c; lia).
    symmetry. apply Z.mod_unique with a; lia.
  - symmetry. apply Z.mod_unique with (a * 256 + b); lia.
Qed.

(** The three-byte induction of base64. *)
Lemma string_ind3 (P : string -> Prop) :
  P "" -> (forall a, P (String a "")) -> (forall a b, P (String a (String b ""))) ->
  (forall a b c r, P r -> P (String a (String b (String c r)))) -> forall s, P s.
Proof.
  intros H0 H1 H2 H3. fix IH 1. intros [|a [|b [|c r]]]; [done|done|done|]. apply H3, IH.
Qed.

(** The spare bits of a last quantum are zero. *)
Lemma pack_low6 a b k :
  0 <= a < 256 -> 0 <= b < 256 -> k = 0 \/ (k = 6 /\ b = 0) -> Z.land (Z.shiftr (pack a b 0) k) 63 = 0.
Proof.
  intros Ha Hb Hk. rewrite pack_sum by lia. change 63 with (Z.ones 6).
  rewrite Z.land_ones, Z.shiftr_div_pow2 by lia. change (2 ^ 6) with 64. destruct Hk as [->|[-> ->]].
  - rewrite Z.div_1_r. symmetry. apply Z.mod_unique with (a * 1024 + b * 4); lia.
  - assert ((a * 65536 + 0 * 256 + 0) / 2 ^ 6 = a * 1024) as -> by (symmetry; apply Z.div_unique with 0; lia).
    symmetry. apply Z.mod_unique with (a * 16); lia.
Qed.

Ltac groups := rewrite !(proj1 (b64_chars _ (land63_range _))); cbn [mbind option_bind].

Lemma decode_quanta_encode s : decode_quanta (EncodeToString s) = Some s.
Proof.
  induction s as [|a|a b|a b c r IH] using string_ind3; [done|..]; cbn [EncodeToString]; pose proof (byte_val_range a) as Ha.
  - assert (Z.shiftl (byte_val a) 16 = pack (byte_val a) 0 0) as ->
      by (unfold pack; by rewrite Z.shiftl_0_l, !Z.lor_0_r).
    destruct (unpack (byte_val a) 0 0) as (Hv & H16 & _); [lia..|].
    pose proof (pack_low6 (byte_val a) 0 6 ltac:(lia) ltac:(lia) ltac:(lia)) as H3.
    pose proof (pack_low6 (byte_val a) 0 0 ltac:(lia) ltac:(lia) ltac:(lia)) as H4. rewrite Z.shiftr_0_r in H4.
    pose proof (six_bits _ Hv) as Hj. rewrite H3, H4, Z.shiftl_0_l, !Z.lor_0_r in Hj.
    set (v := pack _ _ _) in *. clearbody v. cbn [decode_quanta]. groups. rewrite Hj. cbn.
    by rewrite (byte_of_val _ a H16).
  - pose proof (byte_val_range b) as Hb.
    assert (Z.lor (Z.shiftl (byte_val a) 16) (Z.shiftl (byte_val b) 8) = pack (byte_val a) (byte_val b) 0) as ->
      by (unfold pack; by rewrite !Z.lor_0_r).
    destruct (unpack (byte_val a) (byte_val b) 0) as (Hv & H16 & H8 & _); [lia..|].
    pose proof (pack_low6 (byte_val a) (byte_val b) 0 ltac:(lia) ltac:(lia) ltac:(lia)) as H4. rewrite Z.shiftr_0_r in H4.
    pose proof (six_bits _ Hv) as Hj. rewrite H4, Z.lor_0_r in Hj.
    set (v := pack _ _ _) in *. clearbody v. cbn [decode_quanta]. groups.
    rewrite (proj1 (proj2 (b64_chars _ (land63_range (Z.shiftr v 6))))), Hj. cbn.
    by rewrite (byte_of_val _ a H16), (byte_of_val _ b H8).
  - pose proof (byte_val_range b) as Hb. pose proof (byte_val_range c) as Hc.
    fold (pack (byte_val a) (byte_val b) (byte_val c)).
    destruct (unpack (byte_val a) (byte_val b) (byte_val c)) as (Hv & H16 & H8 & H0); [lia..|].
    pose proof (six_bits _ Hv) as Hj. set (v := pack _ _ _) in *. clearbody v. cbn [decode_quanta]. groups.
    rewrite (proj1 (proj2 (b64_chars _ (land63_range (Z.shiftr v 6))))), (proj1 (proj2 (b64_chars _ (land63_range v)))), Hj, IH.
    cbn. by rewrite (byte_of_val _ a H16), (byte_of_val _ b H8), (byte_of_val _ c H0).
Qed.

Lemma skip_newlines_encode s : skip_newlines (EncodeToString s) = EncodeToString s.
Proof.
  induction s as [|a|a b|a b c r IH] using string_ind3; [done|..]; cbn [EncodeToString skip_newlines];
    rewrite !(proj2 (proj2 (b64_chars _ (land63_range _)))); [done|done|by rewrite IH].
Qed.

(** What one side of the stream encodes, the other decodes: every value
    whose JSON form reads back as itself survives the framing, whatever bytes
    the JSON holds. *)
Theorem codec_roundtrip {A} (Marshal : A -> result string string) (Unmarshal : string -> result string A) v b :
  Marshal v = Ok b -> Unmarshal b = Ok v ->
  match JsonB64Encode Marshal v with
  | Ok text => JsonB64Decode Unmarshal text = Ok v
  | Err _ => False
  end.
Proof.
  intros Hm Hu. unfold JsonB64Encode. rewrite Hm. unfold JsonB64Decode, DecodeString.
  by rewrite skip_newlines_encode, decode_quanta_encode, Hu.
Qed.

Lemma codec_roundtrip_witness :
  match JsonB64Encode Ok "{}" with
  | Ok text => JsonB64Decode (@Ok string string) text = Ok "{}"
  | Err _ => False
  end.
Proof. apply (codec_roundtrip (@Ok string string) Ok "{}" "{}"); reflexivity. Defined.
