(* ===== verification/Drain.v ===== *)
(** * The in-flight work tracker ([src/drain/drain.go])

    [Tracker] is the struct, one definition per method. Every method body runs
    under [t.mu], so a critical section is one atomic function on the [World],
    which holds what the goroutines share: the tracker, the heap of channels,
    the [sync.Once] of every end function that [Begin] handed out, the clock,
    and the program counter of every [Drain] call. [step] is the interleaving
    of all callers; [reachable] closes it from the state [New] makes. *)
From S2P Require Import Prelude.

Inductive DrainError := ErrDraining | ErrStarting.

#[export] Instance DrainError_eq_dec : EqDecision DrainError.
Proof. solve_decision. Defined.

Record Tracker := mkTracker {
  inFlight : Z;
  draining : bool;
  held : bool;
  idle : option nat   (* the channel, an index into the heap of channels *)
}.

Definition New : Tracker := mkTracker 0 false false None.

(** Where a [Drain] call is: blocked in the [select] on its channel with its
    timer's deadline, past the timer case and about to read [InFlight], or
    returned. *)
Inductive DrainPc :=
| DrainWait (ch : nat) (deadline : Z)
| DrainTimedOut
| DrainReturned (n : Z).

#[export] Instance DrainPc_eq_dec : EqDecision DrainPc.
Proof. solve_decision. Defined.

Record World := mkWorld {
  tr : Tracker;
  chans : gmap nat bool;      (* channel heap: true once closed *)
  onces : gmap nat bool;      (* once of each end function: true once run *)
  drains : gmap nat DrainPc;
  now : Z
}.

Definition init : World := mkWorld New ∅ ∅ ∅ 0.

Definition set_tr (t : Tracker) (w : World) : World :=
  mkWorld t (chans w) (onces w) (drains w) (now w).
Definition set_drain (d : nat) (pc : DrainPc) (w : World) : World :=
  mkWorld (tr w) (chans w) (onces w) (<[d := pc]> (drains w)) (now w).

(** [Tracker.Begin]: the identity of the end function (its [once]) or the
    refusal. *)
Definition Begin (w : World) : result DrainError nat * World :=
  let t := tr w in
  if draining t then (Err ErrDraining, w)
  else if held t then (Err ErrStarting, w)
  else
    let u := fresh (dom (onces w)) in
    (Ok u,
     mkWorld (mkTracker (inFlight t + 1) (draining t) (held t) (idle t))
       (chans w) (<[u := false]> (onces w)) (drains w) (now w)).

(** [close(ch)]: [None] is the run-time panic of closing a closed channel. *)
Definition close_chan (ch : nat) (w : World) : option World :=
  match chans w !! ch with
  | Some false => Some (mkWorld (tr w) (<[ch := true]> (chans w)) (onces w) (drains w) (now w))
  | _ => None
  end.

(** [Tracker.finish]. *)
Definition finish (w : World) : option World :=
  let t := tr w in
  let n := inFlight t - 1 in
  let w1 := set_tr (mkTracker n (draining t) (held t) (idle t)) w in
  match idle t with
  | Some ch =>
      if n =? 0 then
        match close_chan ch w1 with
        | Some w2 => Some (set_tr (mkTracker n (draining t) (held t) None) w2)
        | None => None
        end
      else Some w1
  | None => Some w1
  end.

(** The end function [Begin] returns: [func() { once.Do(t.finish) }]. *)
Definition end_fn (u : nat) (w : World) : option World :=
  match onces w !! u with
  | Some false =>
      finish (mkWorld (tr w) (chans w) (<[u := true]> (onces w)) (drains w) (now w))
  | Some true => Some w
  | None => None
  end.

(** [Tracker.Drain] up to the [select]: the critical section, and the timer
    that starts after it. *)
Definition Drain_enter (d : nat) (timeout : Z) (w : World) : World :=
  let t := tr w in
  if inFlight t =? 0 then
    set_drain d (DrainReturned 0)
      (set_tr (mkTracker (inFlight t) true (held t) (idle t)) w)
  else
    match idle t with
    | Some ch =>
        set_drain d (DrainWait ch (now w + timeout))
          (set_tr (mkTracker (inFlight t) true (held t) (Some ch)) w)
    | None =>
        let ch := fresh (dom (chans w)) in
        set_drain d (DrainWait ch (now w + timeout))
          (mkWorld (mkTracker (inFlight t) true (held t) (Some ch))
             (<[ch := false]> (chans w)) (onces w) (drains w) (now w))
    end.

(** The [select] of [Drain]: which case is taken when both are ready is the
    scheduler's choice, [on_timer]. *)
Definition Drain_select (on_timer : bool) (d : nat) (w : World) : option World :=
  match drains w !! d with
  | Some (DrainWait ch deadline) =>
      if on_timer then
        if deadline <=? now w then Some (set_drain d DrainTimedOut w) else None
      else
        if bool_decide (chans w !! ch = Some true)
        then Some (set_drain d (DrainReturned 0) w) else None
  | _ => None
  end.

Definition InFlight (w : World) : Z := inFlight (tr w).
Definition Draining (w : World) : bool := draining (tr w).

(** [return t.InFlight()] of the timer case. *)
Definition Drain_return (d : nat) (w : World) : option World :=
  match drains w !! d with
  | Some DrainTimedOut => Some (set_drain d (DrainReturned (InFlight w)) w)
  | _ => None
  end.

Definition Hold (w : World) : World :=
  let t := tr w in set_tr (mkTracker (inFlight t) (draining t) true (idle t)) w.
Definition Release (w : World) : World :=
  let t := tr w in set_tr (mkTracker (inFlight t) (draining t) false (idle t)) w.
Definition tick (dt : Z) (w : World) : World :=
  mkWorld (tr w) (chans w) (onces w) (drains w) (now w + dt).

(** ** The interleaving of all callers *)

Inductive step : World -> World -> Prop :=
| step_begin w : step w (Begin w).2
| step_end w u w' : end_fn u w = Some w' -> step w w'
| step_drain w d timeout : drains w !! d = None -> step w (Drain_enter d timeout w)
| step_select w b d w' : Drain_select b d w = Some w' -> step w w'
| step_return w d w' : Drain_return d w = Some w' -> step w w'
| step_hold w : step w (Hold w)
| step_release w : step w (Release w)
| step_tick w dt : 0 <= dt -> step w (tick dt w).

Definition reachable (w : World) : Prop := rtc step init w.

(** The units of work that have begun and not ended. *)
Definition running (w : World) : gset nat :=
  dom (filter (fun p : nat * bool => p.2 = false) (onces w)).

Lemma elem_of_running w u : u ∈ running w <-> onces w !! u = Some false.
Proof.
  unfold running. rewrite elem_of_dom. split.
  - intros [b Hb]. apply map_lookup_filter_Some in Hb as [? ?]; simpl in *; by subst.
  - intros H. exists false. by apply map_lookup_filter_Some.
Qed.

(** ** The invariant of the tracker *)

Record inv (w : World) : Prop := {
  inv_count : inFlight (tr w) = Z.of_nat (size (running w));
  inv_idle ch : idle (tr w) = Some ch ->
    chans w !! ch = Some false /\ draining (tr w) = true /\ 0 < inFlight (tr w);
  inv_closed ch : chans w !! ch = Some true ->
    inFlight (tr w) = 0 /\ draining (tr w) = true;
  inv_wait d ch dl : drains w !! d = Some (DrainWait ch dl) ->
    idle (tr w) = Some ch \/ chans w !! ch = Some true;
  inv_returned d : drains w !! d = Some (DrainReturned 0) -> inFlight (tr w) = 0;
  inv_drains d pc : drains w !! d = Some pc -> draining (tr w) = true
}.

Lemma init_inv : inv init.
Proof. split; simpl; try done. Qed.

Lemma running_begin w u t :
  u ∉ dom (onces w) ->
  running (mkWorld t (chans w) (<[u := false]> (onces w)) (drains w) (now w))
  = {[u]} ∪ running w.
Proof.
  intros Hu%not_elem_of_dom. apply set_eq. intros v.
  rewrite elem_of_union, elem_of_singleton, !elem_of_running; simpl.
  destruct (decide (v = u)) as [->|Hne].
  - rewrite lookup_insert_eq. tauto.
  - rewrite lookup_insert_ne by congruence. tauto.
Qed.

Lemma running_ended w w' u :
  onces w' = <[u := true]> (onces w) -> running w' = running w ∖ {[u]}.
Proof.
  intros E. apply set_eq. intros v.
  rewrite elem_of_difference, elem_of_singleton, !elem_of_running, E.
  destruct (decide (v = u)) as [->|Hne].
  - rewrite lookup_insert_eq. intuition congruence.
  - rewrite lookup_insert_ne by congruence. tauto.
Qed.

Lemma Begin_inv w : inv w -> inv (Begin w).2.
Proof.
  intros I. unfold Begin.
  destruct (draining (tr w)) eqn:Hd; [done|].
  destruct (held (tr w)); [done|]. simpl.
  pose proof (is_fresh (dom (onces w))) as Hf.
  split; simpl; intros.
  - rewrite running_begin by done. rewrite size_union.
    + rewrite size_singleton, (inv_count _ I). lia.
    + set_unfold. intros v -> Hv. apply elem_of_running in Hv.
      apply Hf, elem_of_dom; eauto.
  - destruct (inv_idle _ I ch) as (?&?&?); [done|congruence].
  - destruct (inv_closed _ I ch); [done|congruence].
  - eapply inv_wait; eauto.
  - pose proof (inv_drains _ I _ _ H). congruence.
  - pose proof (inv_drains _ I _ _ H). congruence.
Qed.

(** Work that has not ended keeps the counter positive, so no drain has
    returned zero and no channel is closed while it runs. *)
Lemma outstanding_positive w u :
  inv w -> onces w !! u = Some false -> 0 < inFlight (tr w).
Proof.
  intros I Hu. rewrite (inv_count _ I).
  assert (size (running w) <> 0)%nat; [|lia].
  apply size_non_empty_iff. apply elem_of_running in Hu. set_solver.
Qed.

Lemma size_running_ended w u :
  onces w !! u = Some false ->
  Z.of_nat (size (running w ∖ {[u]})) = Z.of_nat (size (running w)) - 1.
Proof.
  intros Hu. apply elem_of_running in Hu.
  assert (1 <= size (running w))%nat.
  { rewrite <-(size_singleton (C := gset nat) u). apply subseteq_size. set_solver. }
  rewrite size_difference by set_solver. rewrite size_singleton. lia.
Qed.

(** Splits an invariant goal into its six clauses with named hypotheses. *)
Ltac split_inv :=
  split; simpl;
  [ | intros c Hidle' | intros c Hcl | intros d' c dl' Hw | intros d' Hr | intros d' pc' Hp ].

Lemma end_fn_inv w u b :
  inv w -> onces w !! u = Some b -> exists w', end_fn u w = Some w' /\ inv w'.
Proof.
  intros I Hu. unfold end_fn. rewrite Hu. destruct b; [eauto|].
  pose proof (outstanding_positive w u I Hu) as Hpos.
  pose proof (size_running_ended w u Hu) as Hsz.
  pose proof (inv_count _ I) as Hc.
  assert (forall c, chans w !! c <> Some true) as Hno.
  { intros c Hcl. destruct (inv_closed _ I c Hcl). lia. }
  unfold finish, close_chan; simpl.
  destruct (idle (tr w)) as [ch|] eqn:Hidle.
  - destruct (inv_idle _ I ch Hidle) as (Hch & Hdr & _). rewrite Hch.
    destruct (Z.eqb_spec (inFlight (tr w) - 1) 0) as [H0|H0];
      (eexists; split; [done|]); split_inv; rewrite ?(running_ended w _ u) by done.
    + lia.
    + done.
    + auto.
    + destruct (inv_wait _ I _ _ _ Hw) as [E|E]; [|by destruct (Hno c)].
      simplify_eq. right. apply lookup_insert_eq.
    + lia.
    + eauto using inv_drains.
    + lia.
    + simplify_eq. auto with lia.
    + by destruct (Hno c).
    + rewrite <-Hidle. eapply inv_wait; eauto.
    + pose proof (inv_returned _ I _ Hr). lia.
    + eauto using inv_drains.
  - eexists; split; [done|]. split_inv; rewrite ?(running_ended w _ u) by done.
    + lia.
    + done.
    + by destruct (Hno c).
    + rewrite <-Hidle. eapply inv_wait; eauto.
    + pose proof (inv_returned _ I _ Hr). lia.
    + eauto using inv_drains.
Qed.

(** An update of the drain calls' program counters, read back. *)
Ltac drain_entry H :=
  apply lookup_insert_Some in H as [[_ ?]|[_ H]]; simplify_eq.

Lemma Drain_enter_inv w d timeout : inv w -> inv (Drain_enter d timeout w).
Proof.
  intros I. pose proof (inv_count _ I) as Hc. unfold Drain_enter.
  destruct (Z.eqb_spec (inFlight (tr w)) 0) as [H0|H0];
    [|destruct (idle (tr w)) as [ch0|] eqn:Hidle].
  - split_inv; try done.
    + destruct (inv_idle _ I _ Hidle') as (?&?&?); auto.
    + drain_entry Hw. eapply inv_wait; eauto.
  - split_inv; try done.
    + simplify_eq. destruct (inv_idle _ I _ Hidle) as (?&?&?); auto.
    + destruct (inv_closed _ I _ Hcl); auto.
    + drain_entry Hw; [by left|]. rewrite <-Hidle. eapply inv_wait; eauto.
    + drain_entry Hr. eapply inv_returned; eauto.
  - pose proof (is_fresh (dom (chans w))) as Hf%not_elem_of_dom.
    split_inv; try done.
    + simplify_eq. rewrite lookup_insert_eq. rewrite Hc in *. repeat split; lia.
    + apply lookup_insert_Some in Hcl as [[_ ?]|[_ Hcl]]; [done|].
      destruct (inv_closed _ I _ Hcl); auto.
    + drain_entry Hw; [by left|].
      destruct (inv_wait _ I _ _ _ Hw) as [?|?]; [congruence|right].
      rewrite lookup_insert_ne; congruence.
    + drain_entry Hr. eapply inv_returned; eauto.
Qed.

Lemma Drain_select_inv b d w w' : inv w -> Drain_select b d w = Some w' -> inv w'.
Proof.
  intros I H. unfold Drain_select in H.
  destruct (drains w !! d) as [[ch dl| |n]|] eqn:Hd; try done.
  pose proof (inv_drains _ I _ _ Hd) as Hdr. pose proof (inv_count _ I).
  destruct b; case_match eqn:Hb; try done; injection H as <-.
  - split_inv; eauto using inv_idle, inv_closed, inv_drains.
    + drain_entry Hw. eapply inv_wait; eauto.
    + drain_entry Hr. eapply inv_returned; eauto.
  - apply bool_decide_eq_true in Hb.
    split_inv; eauto using inv_idle, inv_closed, inv_drains.
    + drain_entry Hw. eapply inv_wait; eauto.
    + drain_entry Hr; [by destruct (inv_closed _ I ch)|]. eapply inv_returned; eauto.
Qed.

Lemma Drain_return_inv d w w' : inv w -> Drain_return d w = Some w' -> inv w'.
Proof.
  intros I H. unfold Drain_return in H.
  destruct (drains w !! d) as [[ch dl| |n]|] eqn:Hd; try done. injection H as <-.
  pose proof (inv_drains _ I _ _ Hd) as Hdr. pose proof (inv_count _ I).
  split_inv; eauto using inv_idle, inv_closed, inv_drains.
  - drain_entry Hw. eapply inv_wait; eauto.
  - drain_entry Hr; [done|]. eapply inv_returned; eauto.
Qed.

(** The invariant does not read [held] or the clock. *)
Lemma inv_irrelevant w h n :
  inv w ->
  inv (mkWorld (mkTracker (inFlight (tr w)) (draining (tr w)) h (idle (tr w)))
         (chans w) (onces w) (drains w) n).
Proof. by intros []; split. Qed.

Lemma inv_drain_begun w :
  inv w -> inv (set_tr (mkTracker (inFlight (tr w)) true (held (tr w)) (idle (tr w))) w).
Proof.
  intros []; split; simpl; eauto.
  - intros ch Hch. destruct (inv_idle0 ch Hch) as (?&_&?). auto.
  - intros ch Hch. destruct (inv_closed0 ch Hch). auto.
Qed.

Lemma step_inv w w' : inv w -> step w w' -> inv w'.
Proof.
  intros I. destruct 1.
  - by apply Begin_inv.
  - assert (exists b, onces w !! u = Some b) as [b Hb].
    { unfold end_fn in H. destruct (onces w !! u); eauto. discriminate. }
    destruct (end_fn_inv w u b I Hb) as (w2 & E & ?). congruence.
  - by apply Drain_enter_inv.
  - eauto using Drain_select_inv.
  - eauto using Drain_return_inv.
  - by apply inv_irrelevant.
  - by apply inv_irrelevant.
  - by destruct I; split.
Qed.

Lemma steps_inv w w' : inv w -> rtc step w w' -> inv w'.
Proof. intros I. induction 1; eauto using step_inv. Qed.

Lemma reachable_inv w : reachable w -> inv w.
Proof. apply steps_inv, init_inv. Qed.

(** Draining is never switched off. *)
Lemma step_draining w w' : step w w' -> draining (tr w) = true -> draining (tr w') = true.
Proof.
  intros Hs Hdr. destruct Hs; simpl; auto.
  - unfold Begin. by rewrite Hdr.
  - unfold end_fn, finish, close_chan in H. simpl in H. cases; done.
  - unfold Drain_enter. cases; done.
  - unfold Drain_select in H. cases; done.
  - unfold Drain_return in H. cases; done.
Qed.

Lemma steps_draining w w' :
  rtc step w w' -> draining (tr w) = true -> draining (tr w') = true.
Proof. induction 1; eauto using step_draining. Qed.

(** While draining, the running set only shrinks. *)
Lemma step_running_draining w w' :
  step w w' -> draining (tr w) = true -> running w' ⊆ running w.
Proof.
  intros Hs Hdr. destruct Hs; try done.
  - unfold Begin. by rewrite Hdr.
  - unfold end_fn in H. destruct (onces w !! u) as [[]|] eqn:Hu; try done; [by simplify_eq|].
    rewrite (running_ended w w' u); [set_solver|].
    unfold finish, close_chan in H; simpl in H; cases; done.
  - unfold Drain_enter. cases; done.
  - unfold Drain_select in H. cases; done.
  - unfold Drain_return in H. cases; done.
Qed.

Lemma steps_running_draining w w' :
  rtc step w w' -> draining (tr w) = true -> running w' ⊆ running w.
Proof.
  induction 1 as [|w1 w2 w3 H1 Hs IH]; intros Hdr; [done|].
  etrans; [apply IH, (step_draining _ _ H1 Hdr)|by apply step_running_draining].
Qed.

(** ** What the tracker promises: the abstract machine

    The abstract state is the set of units that ever began, the set of those
    that run, whether a drain has begun, whether the agent still starts, the
    deadline of every waiting [Drain], what each finished one returned, and the
    time. It has no counter, no channel and no once. *)

Record Spec := mkSpec {
  begun : gset nat;
  jobs : gset nat;
  refusing : bool;
  starting : bool;
  waiting : gmap nat Z;
  returned : gmap nat Z;
  clock : Z
}.

Definition spec_init : Spec := mkSpec ∅ ∅ false false ∅ ∅ 0.

(** What a caller can observe of a step: the call with its answer. *)
Inductive Obs :=
| OBegin (r : result DrainError nat)
| OEnd (u : nat)
| ODrain (d : nat) (timeout : Z) (r : option Z)   (* [Some n]: it returned at once *)
| OReturn (d : nat) (n : Z)                       (* a waiting [Drain] returned *)
| OHold
| ORelease
| OTick (dt : Z).

Inductive spec_step : Obs -> Spec -> Spec -> Prop :=
| spec_begin bs js wt rt t u :
    u ∉ bs ->
    spec_step (OBegin (Ok u)) (mkSpec bs js false false wt rt t) (mkSpec ({[u]} ∪ bs) ({[u]} ∪ js) false false wt rt t)
| spec_begin_draining s :
    refusing s = true -> spec_step (OBegin (Err ErrDraining)) s s
| spec_begin_starting s :
    refusing s = false -> starting s = true -> spec_step (OBegin (Err ErrStarting)) s s
| spec_end bs js r h wt rt t u :
    u ∈ bs -> spec_step (OEnd u) (mkSpec bs js r h wt rt t) (mkSpec bs (js ∖ {[u]}) r h wt rt t)
| spec_drain_idle bs r h wt rt t d timeout :
    wt !! d = None -> rt !! d = None ->
    spec_step (ODrain d timeout (Some 0)) (mkSpec bs ∅ r h wt rt t) (mkSpec bs ∅ true h wt (<[d := 0]> rt) t)
| spec_drain_busy bs js r h wt rt t d timeout :
    js <> ∅ -> wt !! d = None -> rt !! d = None ->
    spec_step (ODrain d timeout None) (mkSpec bs js r h wt rt t) (mkSpec bs js true h (<[d := t + timeout]> wt) rt t)
| spec_return bs js r h wt rt t d deadline n :
    wt !! d = Some deadline -> n = Z.of_nat (size js) -> n = 0 \/ deadline <= t ->
    spec_step (OReturn d n) (mkSpec bs js r h wt rt t) (mkSpec bs js r h (delete d wt) (<[d := n]> rt) t)
| spec_hold bs js r h wt rt t : spec_step OHold (mkSpec bs js r h wt rt t) (mkSpec bs js r true wt rt t)
| spec_release bs js r h wt rt t : spec_step ORelease (mkSpec bs js r h wt rt t) (mkSpec bs js r false wt rt t)
| spec_tick bs js r h wt rt t dt :
    0 <= dt -> spec_step (OTick dt) (mkSpec bs js r h wt rt t) (mkSpec bs js r h wt rt (t + dt)).

(** ** The tracker with what its callers observe *)

Definition returned_of (pc : DrainPc) : option Z :=
  match pc with DrainReturned n => Some n | _ => None end.

(** What a [Drain] call has answered by now. *)
Definition answer_of (d : nat) (w : World) : option Z := drains w !! d ≫= returned_of.

(** [step], with the observation; taking the timer case is not observable. *)
Inductive obs_step : option Obs -> World -> World -> Prop :=
| obs_begin w : obs_step (Some (OBegin (Begin w).1)) w (Begin w).2
| obs_end w u w' : end_fn u w = Some w' -> obs_step (Some (OEnd u)) w w'
| obs_drain w d timeout :
    drains w !! d = None ->
    obs_step (Some (ODrain d timeout (answer_of d (Drain_enter d timeout w)))) w (Drain_enter d timeout w)
| obs_select w b d w' :
    Drain_select b d w = Some w' -> obs_step (OReturn d <$> answer_of d w') w w'
| obs_return w d w' :
    Drain_return d w = Some w' -> obs_step (OReturn d <$> answer_of d w') w w'
| obs_hold w : obs_step (Some OHold) w (Hold w)
| obs_release w : obs_step (Some ORelease) w (Release w)
| obs_tick w dt : 0 <= dt -> obs_step (Some (OTick dt)) w (tick dt w).

(** Every interleaving is a run with observations, and the other way round. *)
Lemma obs_step_step w w' : step w w' <-> exists o, obs_step o w w'.
Proof.
  split.
  - intros []; eexists; econstructor; eassumption.
  - intros [o []]; econstructor; eassumption.
Qed.

(** A run, with the observations in order. *)
Inductive obs_run : World -> list Obs -> World -> Prop :=
| run_nil w : obs_run w [] w
| run_silent w w1 w2 tr : obs_step None w w1 -> obs_run w1 tr w2 -> obs_run w tr w2
| run_seen w o w1 w2 tr : obs_step (Some o) w w1 -> obs_run w1 tr w2 -> obs_run w (o :: tr) w2.

(** A run of the abstract machine: exactly one step per observation. *)
Inductive spec_run : Spec -> list Obs -> Spec -> Prop :=
| spec_nil s : spec_run s [] s
| spec_seen s o s1 s2 tr : spec_step o s s1 -> spec_run s1 tr s2 -> spec_run s (o :: tr) s2.

(** The tracker's state stands for an abstract one. A call past its timer waits
    for a deadline that has passed. *)
Record stands_for (w : World) (s : Spec) : Prop := {
  sf_begun : begun s = dom (onces w);
  sf_jobs : jobs s = running w;
  sf_refusing : refusing s = draining (tr w);
  sf_starting : starting s = held (tr w);
  sf_clock : clock s = now w;
  sf_returned : returned s = omap returned_of (drains w);
  sf_waiting : forall d, match drains w !! d with
    | Some (DrainWait _ deadline) => waiting s !! d = Some deadline
    | Some DrainTimedOut => exists deadline, waiting s !! d = Some deadline /\ deadline <= now w
    | _ => waiting s !! d = None
    end
}.
Lemma stands_for_init : stands_for init spec_init.
Proof. split; try done; cbn; by rewrite ?dom_empty_L. Qed.

(** A change of one [Drain] call's place, with the abstract state beside it. *)
Lemma stands_for_drain w d pc wt rt s :
  stands_for w s ->
  rt = match returned_of pc with Some n => <[d := n]> (returned s) | None => delete d (returned s) end ->
  (forall d', d' <> d -> wt !! d' = waiting s !! d') ->
  match pc with
  | DrainWait _ deadline => wt !! d = Some deadline
  | DrainTimedOut => exists deadline, wt !! d = Some deadline /\ deadline <= now w
  | DrainReturned _ => wt !! d = None
  end ->
  stands_for (set_drain d pc w) (mkSpec (begun s) (jobs s) (refusing s) (starting s) wt rt (clock s)).
Proof.
  intros [] -> Hne Hd. split; cbn; try done.
  - rewrite omap_insert, sf_returned0. by destruct (returned_of pc).
  - intros d'. destruct (decide (d' = d)) as [->|Hd'].
    + rewrite lookup_insert_eq. by destruct pc.
    + rewrite lookup_insert_ne, Hne by done. apply sf_waiting0.
Qed.

Lemma returned_none w s d : stands_for w s -> answer_of d w = None -> returned s !! d = None.
Proof. intros S H. by rewrite (sf_returned _ _ S), lookup_omap. Qed.

Lemma obs_begin_sim w s :
  inv w -> stands_for w s -> exists s', spec_step (OBegin (Begin w).1) s s' /\ stands_for (Begin w).2 s'.
Proof.
  intros I S. unfold Begin. destruct (draining (tr w)) eqn:Hd.
  { exists s. split; [|done]. apply spec_begin_draining. by rewrite (sf_refusing _ _ S). }
  destruct (held (tr w)) eqn:Hh.
  { exists s. split; [|done]. apply spec_begin_starting; [by rewrite (sf_refusing _ _ S)|by rewrite (sf_starting _ _ S)]. }
  cbn. set (u := fresh (dom (onces w))). assert (u ∉ dom (onces w)) as Hf by apply is_fresh.
  destruct s as [bs js r h wt rt t]. destruct S; cbn in *; subst. rewrite Hd, Hh.
  eexists. split; [by apply spec_begin|]. split; cbn; try done; [by rewrite dom_insert_L|by rewrite running_begin].
Qed.

Lemma obs_end_sim w s u w' :
  stands_for w s -> end_fn u w = Some w' -> exists s', spec_step (OEnd u) s s' /\ stands_for w' s'.
Proof.
  intros S H. assert (exists b, onces w !! u = Some b) as [b Hu].
  { unfold end_fn in H. destruct (onces w !! u); [by eexists|done]. }
  assert (onces w' = <[u := true]> (onces w) /\ drains w' = drains w /\ now w' = now w /\
          draining (tr w') = draining (tr w) /\ held (tr w') = held (tr w)) as (E1 & E2 & E3 & E4 & E5).
  { unfold end_fn, finish, close_chan in H. rewrite Hu in H. simpl in H.
    destruct b; [injection H as <-; by rewrite insert_id|]. cases; done. }
  destruct s as [bs js r h wt rt t]. destruct S; cbn in *; subst.
  eexists. split; [apply spec_end; apply elem_of_dom; by eexists|].
  split; cbn; try by rewrite ?E2, ?E3, ?E4, ?E5.
  - rewrite E1, dom_insert_lookup_L; [done|by eexists].
  - by rewrite (running_ended w w' u E1).
Qed.

Lemma no_jobs w : inv w -> (inFlight (tr w) = 0 <-> running w = ∅).
Proof.
  intros I. rewrite (inv_count _ I). split.
  - intros H. apply leibniz_equiv, size_empty_inv. lia.
  - intros ->. by rewrite size_empty.
Qed.

Lemma obs_drain_sim w s d timeout :
  inv w -> stands_for w s -> drains w !! d = None ->
  exists s', spec_step (ODrain d timeout (answer_of d (Drain_enter d timeout w))) s s' /\
    stands_for (Drain_enter d timeout w) s'.
Proof.
  intros I S Hn. pose proof (returned_none w s d S) as Hr. unfold answer_of in Hr at 1. rewrite Hn in Hr. specialize (Hr eq_refl).
  pose proof (sf_waiting _ _ S d) as Hw. rewrite Hn in Hw.
  set (w1 := set_tr (mkTracker (inFlight (tr w)) true (held (tr w)) (idle (tr w))) w).
  assert (stands_for w1 (mkSpec (begun s) (jobs s) true (starting s) (waiting s) (returned s) (clock s))) as S1 by (by destruct S; split).
  unfold Drain_enter. destruct (Z.eqb_spec (inFlight (tr w)) 0) as [H0|H0].
  - unfold answer_of. cbn. rewrite lookup_insert_eq. cbn.
    apply (no_jobs w I) in H0. rewrite <-(sf_jobs _ _ S) in H0. destruct s as [bs js r h wt rt t]. cbn in *. subst js.
    eexists. split; [by apply spec_drain_idle|].
    apply (stands_for_drain w1 d (DrainReturned 0) wt _ _ S1); done.
  - assert (jobs s <> ∅) as Hj by (rewrite (sf_jobs _ _ S); by rewrite <-(no_jobs w I)).
    assert (forall ch w2, stands_for w2 (mkSpec (begun s) (jobs s) true (starting s) (waiting s) (returned s) (clock s)) ->
      exists s', spec_step (ODrain d timeout (answer_of d (set_drain d (DrainWait ch (now w + timeout)) w2))) s s' /\
        stands_for (set_drain d (DrainWait ch (now w + timeout)) w2) s') as Hwait.
    { intros ch w2 S2. unfold answer_of. cbn. rewrite lookup_insert_eq. cbn. destruct s as [bs js r h wt rt t]. cbn in *.
      eexists. split; [by apply spec_drain_busy|].
      apply (stands_for_drain w2 d (DrainWait ch (now w + timeout)) _ _ _ S2); cbn.
      - by rewrite delete_id.
      - intros d' Hd'. by rewrite lookup_insert_ne.
      - rewrite <-(sf_clock _ _ S). apply lookup_insert_eq. }
    destruct (idle (tr w)) as [ch|] eqn:Hi.
    + by apply (Hwait ch).
    + apply Hwait. by destruct S1; split.
Qed.

(** A waiting call returns, with the number of running units. *)
Lemma obs_return_sim w s d deadline n :
  inv w -> stands_for w s -> answer_of d w = None -> waiting s !! d = Some deadline ->
  n = inFlight (tr w) -> n = 0 \/ deadline <= now w ->
  exists s', spec_step (OReturn d n) s s' /\ stands_for (set_drain d (DrainReturned n) w) s'.
Proof.
  intros I S Ha Hw Hn Hd. rewrite <-(sf_clock _ _ S) in Hd.
  assert (n = Z.of_nat (size (jobs s))) as Hj by (rewrite (sf_jobs _ _ S), Hn; by apply inv_count).
  eexists. split; [|apply (stands_for_drain w d (DrainReturned n) (delete d (waiting s)) (<[d := n]> (returned s)) _ S); [reflexivity|..]].
  - destruct s as [bs js r h wt rt t]. cbn in *. by apply spec_return with deadline.
  - intros d' Hd'. by rewrite lookup_delete_ne.
  - apply lookup_delete_eq.
Qed.

Lemma obs_sim o w w' s :
  inv w -> stands_for w s -> obs_step o w w' ->
  match o with
  | None => stands_for w' s
  | Some o => exists s', spec_step o s s' /\ stands_for w' s'
  end.
Proof.
  intros I S Hs. destruct Hs as [w|w u w' H|w d t Hn|w b d w' H|w d w' H|w|w|w dt Hdt].
  - by apply obs_begin_sim.
  - by eapply obs_end_sim.
  - by apply obs_drain_sim.
  - unfold Drain_select in H. destruct (drains w !! d) as [[ch dl| |]|] eqn:Hd; try done.
    assert (answer_of d w = None) as Ha by (unfold answer_of; by rewrite Hd).
    pose proof (sf_waiting _ _ S d) as Hw. rewrite Hd in Hw.
    destruct b; case_match eqn:Hb; try done; injection H as <-; unfold answer_of; cbn; rewrite lookup_insert_eq; cbn.
    + apply Z.leb_le in Hb. destruct s as [bs js r h wt rt t]. cbn in *.
      apply (stands_for_drain w d DrainTimedOut wt rt _ S); cbn; [|done|by exists dl].
      symmetry. apply delete_id. by apply (returned_none w _ d S).
    + apply bool_decide_eq_true in Hb. destruct (inv_closed _ I _ Hb) as [H0 _].
      apply (obs_return_sim w s d dl); auto.
  - unfold Drain_return in H. destruct (drains w !! d) as [[ch dl| |]|] eqn:Hd; try done. injection H as <-.
    assert (answer_of d w = None) as Ha by (unfold answer_of; by rewrite Hd).
    pose proof (sf_waiting _ _ S d) as Hw. rewrite Hd in Hw. destruct Hw as (dl & Hw & Hle).
    unfold answer_of; cbn; rewrite lookup_insert_eq; cbn. apply (obs_return_sim w s d dl); auto.
  - destruct s as [bs js r h wt rt t]. eexists. split; [apply spec_hold|]. by destruct S; split.
  - destruct s as [bs js r h wt rt t]. eexists. split; [apply spec_release|]. by destruct S; split.
  - destruct s as [bs js r h wt rt t]. eexists. split; [by apply spec_tick|]. destruct S; split; cbn in *; try done; [by subst|].
    intros d. specialize (sf_waiting0 d). destruct (drains w !! d) as [[]|]; try done.
    destruct sf_waiting0 as (dl & ? & ?). exists dl. split; [done|lia].
Qed.

(** C6: Refinement. Whatever the goroutines interleave, the answers callers get
    from the mutex-protected tracker with its counter, its once-guarded end
    functions and its idle channel are answers of the abstract machine, in the
    same order and one step each: a [Begin] is admitted, with a new unit, exactly
    when no drain has begun and the agent is not held, and is otherwise refused
    with the error that tells which; a unit that ended is never running again; a
    [Drain] that finds nothing running returns zero at once and otherwise waits;
    and a waiting one returns exactly the number of units running then, zero or
    not before its deadline. The running units, the waiting calls and what was
    returned agree at the end. *)
Theorem drain_refines_spec trace w :
  obs_run init trace w -> exists s, spec_run spec_init trace s /\ stands_for w s.
Proof.
  intros Hr. assert (forall w0 s0, inv w0 -> stands_for w0 s0 -> w0 = init -> s0 = spec_init ->
    exists s, spec_run s0 trace s /\ stands_for w s) as H.
  { intros w0 s0 I S E _. rewrite <-E in Hr. clear E. revert s0 I S. induction Hr as [w|w w1 w2 tr Ho Hr IH|w o w1 w2 tr Ho Hr IH]; intros s0 I S.
    - exists s0. split; [constructor|done].
    - pose proof (obs_sim _ _ _ _ I S Ho) as S1. apply IH; [|done]. apply (step_inv w); [done|]. apply obs_step_step. by eexists.
    - destruct (obs_sim _ _ _ _ I S Ho) as (s1 & Hs & S1). destruct (IH s1) as (s & Hs' & Hf); [|done|].
      + apply (step_inv w); [done|]. apply obs_step_step. by eexists.
      + exists s. split; [by econstructor|done]. }
  apply (H init spec_init); [apply init_inv|apply stands_for_init|done|done].
Qed.

(** Two units begin, a drain starts with a timeout of five, one unit ends. *)
Definition demo1 : World := (Begin (Begin init).2).2.
Definition demo2 : World := Drain_enter 0 5 demo1.
Definition demo3 : World := default demo2 (end_fn 0 demo2).
Definition demo4 : World := default demo3 (end_fn 1 demo3).
Definition demo5 : World := default demo4 (Drain_select false 0 demo4).

Lemma demo2_reachable : reachable demo2.
Proof.
  eapply rtc_l; [apply step_begin|]. eapply rtc_l; [apply step_begin|].
  apply rtc_once. apply step_drain. reflexivity.
Qed.

Lemma demo4_reachable : reachable demo4.
Proof.
  unfold reachable. etrans; [apply demo2_reachable|].
  eapply rtc_l; [apply (step_end demo2 0 demo3); vm_compute; reflexivity|].
  apply rtc_once, (step_end demo3 1 demo4). vm_compute; reflexivity.
Qed.

Lemma demo5_step : step demo4 demo5.
Proof. apply (step_select demo4 false 0). vm_compute; reflexivity. Qed.

Lemma demo5_reachable : reachable demo5.
Proof. eapply rtc_r; [apply demo4_reachable|apply demo5_step]. Qed.

(** The agent is held, two calls are refused and let in; a drain waits for the
    two units and returns through its channel. *)
Definition demo_trace : list Obs :=
  [OHold; OBegin (Err ErrStarting); ORelease; OBegin (Ok 0%nat); OBegin (Ok 1%nat); ODrain 0 5 None;
   OBegin (Err ErrDraining); OEnd 0; OEnd 1; OReturn 0 0].

Lemma drain_refines_spec_witness : exists s, spec_run spec_init demo_trace s /\ jobs s = ∅ /\ returned s !! 0%nat = Some 0.
Proof.
  assert (obs_run init demo_trace demo5) as Hr.
  { unfold demo_trace. eapply run_seen; [apply obs_hold|]. eapply run_seen; [apply (obs_begin (Hold init))|].
    eapply run_seen; [apply obs_release|]. eapply run_seen; [apply (obs_begin init)|].
    eapply run_seen; [apply (obs_begin (Begin init).2)|]. eapply run_seen; [apply (obs_drain demo1 0 5); reflexivity|].
    eapply run_seen; [apply (obs_begin demo2)|].
    eapply run_seen; [apply (obs_end demo2 0 demo3); vm_compute; reflexivity|].
    eapply run_seen; [apply (obs_end demo3 1 demo4); vm_compute; reflexivity|].
    eapply run_seen; [apply (obs_select demo4 false 0 demo5); vm_compute; reflexivity|]. apply run_nil. }
  destruct (drain_refines_spec demo_trace demo5 Hr) as (s & Hs & Hf). exists s. split; [done|].
  rewrite (sf_jobs _ _ Hf), (sf_returned _ _ Hf). split; vm_compute; reflexivity.
Defined.

(** C7: Safety of a clean drain. Once any [Drain] call has returned zero, in
    every later state of every interleaving no unit of work is running and
    every [Begin] is refused with ErrDraining, also after a [Release]. *)
Theorem drain_clean_is_final w d w' :
  reachable w -> drains w !! d = Some (DrainReturned 0) -> rtc step w w' ->
  running w' = ∅ /\ Begin w' = (Err ErrDraining, w').
Proof.
  intros I%reachable_inv Hd Hs.
  pose proof (steps_inv _ _ I Hs) as I'.
  pose proof (inv_drains _ I _ _ Hd) as Hdr.
  pose proof (steps_draining _ _ Hs Hdr) as Hdr'.
  pose proof (steps_running_draining _ _ Hs Hdr) as Hsub.
  pose proof (inv_returned _ I _ Hd) as H0. rewrite (inv_count _ I) in H0.
  assert (running w = ∅) by (apply leibniz_equiv, size_empty_inv; lia).
  split; [set_solver|]. unfold Begin. by rewrite Hdr'.
Qed.

Lemma drain_clean_is_final_witness :
  running (Release demo5) = ∅ /\ Begin (Release demo5) = (Err ErrDraining, Release demo5).
Proof.
  apply (drain_clean_is_final demo5 0);
    [apply demo5_reachable|vm_compute; reflexivity|apply rtc_once, step_release].
Defined.

(** Liveness of a waiting drain: no wake-up is lost and no wait outlives its
    timeout. A [Drain] blocked in its [select] can return zero as soon as no
    work is in flight (its channel is closed by then), and once its deadline
    has passed it can always return, with the number still in flight. *)
Theorem drain_wait_never_stuck w d ch deadline :
  reachable w -> drains w !! d = Some (DrainWait ch deadline) ->
  (InFlight w = 0 ->
     exists w', Drain_select false d w = Some w' /\ drains w' !! d = Some (DrainReturned 0)) /\
  (deadline <= now w ->
     exists w1 w2, Drain_select true d w = Some w1 /\ Drain_return d w1 = Some w2 /\
       drains w2 !! d = Some (DrainReturned (Z.of_nat (size (running w))))).
Proof.
  intros I%reachable_inv Hd. unfold Drain_select, InFlight. rewrite Hd. split.
  - intros H0. destruct (inv_wait _ I _ _ _ Hd) as [Hi|Hc].
    + destruct (inv_idle _ I _ Hi). lia.
    + rewrite bool_decide_true by done. eexists; split; [done|]. apply lookup_insert_eq.
  - intros Hdl. apply Z.leb_le in Hdl. rewrite Hdl. do 2 eexists. split; [done|].
    unfold Drain_return; simpl. rewrite lookup_insert_eq. split; [done|].
    simpl. rewrite lookup_insert_eq. unfold InFlight; simpl. by rewrite (inv_count _ I).
Qed.

Lemma drain_wait_never_stuck_witness :
  (exists w', Drain_select false 0 demo4 = Some w' /\ drains w' !! 0%nat = Some (DrainReturned 0)) /\
  (exists w1 w2, Drain_select true 0 (tick 9 demo2) = Some w1 /\ Drain_return 0 w1 = Some w2 /\
     drains w2 !! 0%nat = Some (DrainReturned 2)).
Proof.
  split.
  - apply (drain_wait_never_stuck demo4 0 0 5);
      [apply demo4_reachable|vm_compute; reflexivity|vm_compute; reflexivity].
  - apply (drain_wait_never_stuck (tick 9 demo2) 0 0 5);
      [eapply rtc_r; [apply demo2_reachable|apply step_tick; lia]
      |vm_compute; reflexivity|vm_compute; discriminate].
Defined.

(** The end function of a unit never panics (the idle channel is closed at
    most once, the counter never goes below zero), takes exactly its own unit
    off the running set, and calling it again changes nothing. *)
Theorem end_fn_once w u b :
  reachable w -> onces w !! u = Some b ->
  exists w', end_fn u w = Some w' /\ running w' = running w ∖ {[u]} /\
    0 <= InFlight w' /\ end_fn u w' = Some w'.
Proof.
  intros I%reachable_inv Hu.
  destruct (end_fn_inv w u b I Hu) as (w' & E & I'). exists w'. split; [done|].
  assert (onces w' = <[u := true]> (onces w)) as Ho.
  { unfold end_fn, finish, close_chan in E. rewrite Hu in E. simpl in E.
    destruct b; [injection E as <-; by rewrite insert_id|]. cases; done. }
  split; [by apply running_ended|]. split.
  - unfold InFlight. rewrite (inv_count _ I'). lia.
  - unfold end_fn. by rewrite Ho, lookup_insert_eq.
Qed.

Lemma end_fn_once_witness :
  exists w', end_fn 1 demo2 = Some w' /\ running w' = running demo2 ∖ {[1%nat]} /\
    0 <= InFlight w' /\ end_fn 1 w' = Some w'.
Proof. apply (end_fn_once demo2 1 false); [apply demo2_reachable|reflexivity]. Defined.
