(* ===== verification/Db.v ===== *)
(** * The datastore's tables and the database behind them

    The row types of [src/datastore/models.go], and the interface the query
    functions use: GORM on PostgreSQL is not part of the repository, so it is a
    class, [Database], over an abstract connection state. Its laws are what a
    SQL statement promises: it has its documented effect on the tables, or it
    reports an error and leaves them alone; a transaction commits all of its
    statements or none. Two things a real server can do are outside these laws:
    a commit whose acknowledgement is lost is reported as an error although it
    happened, and other sessions' statements fall between those of a
    transaction. [MemDb] is an executable instance with injected faults;
    the witnesses of the datastore's theorems run on it. *)
From S2P Require Import Prelude.

(** ** The models *)

Record BuildKitJobModel := mkJob {
  job_row_id : Z;
  JobID : string;
  OSID : string;
  Repo : string;
  Branch : string;
  CommitHash : string;
  Status : string;
  CreatedAt : Z;
  UpdatedAt : Z;
  CompletedAt : option Z
}.

Record BuildKitLogModel := mkLog {
  log_row_id : Z;
  LogJobID : string;
  LogEntry : string;
  LogCreatedAt : Z
}.

Record BuildKitJobArgModel := mkArg {
  arg_row_id : Z;
  BuildJobID : string;
  ArgKey : string;
  ArgValue : string;
  ArgSource : string;
  ArgCreatedAt : Z
}.

Record UploadTokenModel := mkToken {
  tok_row_id : Z;
  TokenHash : string;
  DeployConfig : string;
  Dockerfile : string;
  BuildArgs : string;
  BuildTarget : string;
  ExpiresAt : Z;
  Used : bool;
  TokCreatedAt : Z;
  Purpose : string
}.

Record SQLSchemaCacheModel := mkSchema {
  schema_row_id : Z;
  ConnectionHash : string;
  SchemaJSON : string;
  SchemaCreatedAt : Z;
  SchemaUpdatedAt : Z
}.

Record OneShotJobModel := mkRun {
  run_row_id : Z;
  RunID : string;
  RunOSID : string;
  RunNamespace : string;
  RunImage : string;
  RunCommand : string;
  K8sJobName : string;
  RunStatus : string;
  ExitCode : option Z;
  Actor : string;
  TimeoutSeconds : Z;
  RunCreatedAt : Z;
  RunUpdatedAt : Z;
  RunCompletedAt : option Z
}.

(** The tables [allModels] migrates, in its order. *)
Record Tables := mkTables {
  jobs_t : list BuildKitJobModel;
  logs_t : list BuildKitLogModel;
  args_t : list BuildKitJobArgModel;
  tokens_t : list UploadTokenModel;
  schemas_t : list SQLSchemaCacheModel;
  runs_t : list OneShotJobModel
}.

Definition empty_tables : Tables := mkTables [] [] [] [] [] [].

Definition set_jobs l (t : Tables) := mkTables l (logs_t t) (args_t t) (tokens_t t) (schemas_t t) (runs_t t).
Definition set_logs l (t : Tables) := mkTables (jobs_t t) l (args_t t) (tokens_t t) (schemas_t t) (runs_t t).
Definition set_args l (t : Tables) := mkTables (jobs_t t) (logs_t t) l (tokens_t t) (schemas_t t) (runs_t t).
Definition set_tokens l (t : Tables) := mkTables (jobs_t t) (logs_t t) (args_t t) l (schemas_t t) (runs_t t).
Definition set_schemas l (t : Tables) := mkTables (jobs_t t) (logs_t t) (args_t t) (tokens_t t) l (runs_t t).
Definition set_runs l (t : Tables) := mkTables (jobs_t t) (logs_t t) (args_t t) (tokens_t t) (schemas_t t) l.

(** ** Statements *)

(** What the server supplies to a statement: CURRENT_TIMESTAMP and the values
    of the autoincrement sequence ([serial i] is the i-th one drawn). *)
Record Stamp := mkStamp { at_time : Z; serial : nat -> Z }.

(** The effect of one SQL statement: its answer and the tables after it. *)
Definition Stmt (A : Type) := Stamp -> Tables -> result string A * Tables.

(** UPDATE .. WHERE: every matching row is changed; the answer is RowsAffected. *)
Definition update_where {R} (p : R -> bool) (f : R -> R) (rows : list R) : list R * nat :=
  (map (fun r => if p r then f r else r) rows, length (List.filter p rows)).

(** INSERT of several rows, each built with its own sequence value. *)
Definition insert_rows {R} (mk : list (Z -> R)) (s : Stamp) (rows : list R) : list R :=
  rows ++ imap (fun i f => f (serial s i)) mk.

(** ** The interface *)

Class Database (DB : Type) := {
  tables : DB -> Tables;
  handle : DB -> bool;               (* the atomic pointer to the connection is set *)
  stamp : DB -> Stamp;
  stmt : forall {A}, Stmt A -> DB -> result string A * DB;
  transaction : forall {A}, (DB -> result string A * DB) -> DB -> result string A * DB
}.

Class DatabaseLaws (DB : Type) `{Database DB} := {
  (** A statement takes effect, or errors and leaves the tables as they were. *)
  stmt_spec : forall A (s : Stmt A) db,
    ((stmt s db).1 = (s (stamp db) (tables db)).1 /\
     tables (stmt s db).2 = (s (stamp db) (tables db)).2) \/
    (exists e, (stmt s db).1 = Err e /\ tables (stmt s db).2 = tables db);
  (** A transaction keeps the effects of a body that succeeds and whose commit
      succeeds; otherwise it errors and leaves no effect. *)
  transaction_spec : forall A (body : DB -> result string A * DB) db,
    (exists a, (body db).1 = Ok a /\ (transaction body db).1 = Ok a /\
       tables (transaction body db).2 = tables (body db).2) \/
    (exists e, (transaction body db).1 = Err e /\
       tables (transaction body db).2 = tables db);
  (** Sequence values increase. *)
  serial_increasing : forall db i j, (i < j)%nat -> serial (stamp db) i < serial (stamp db) j
}.

Definition ErrNotReady : string := "datastore: system database not connected yet".

(** [activeDB] of [src/datastore/database.go], as a guard of every query. *)
Definition activeDB {DB A} `{Database DB} (k : DB -> result string A * DB) (db : DB)
  : result string A * DB :=
  if handle db then k db else (Err ErrNotReady, db).

(** ** Shared lemmas *)

(** Either the statement's effect happened, or an error and no effect. *)
Ltac stmt_cases s db :=
  let H := fresh "Hstmt" in
  let e := fresh "e" in let Hr := fresh "Hres" in let Ht := fresh "Htab" in
  pose proof (stmt_spec _ s db) as H;
  destruct (stmt s db) as [? ?] eqn:?;
  cbn [fst snd] in H;
  destruct H as [[Hr Ht] | (e & Hr & Ht)]; cbn [fst snd] in *; subst.

Lemma update_where_length {R} p (f : R -> R) rows :
  length (update_where p f rows).1 = length rows.
Proof. apply length_map. Qed.

Lemma update_where_none {R} p (f : R -> R) rows :
  (update_where p f rows).2 = 0%nat -> (update_where p f rows).1 = rows.
Proof.
  unfold update_where; simpl. induction rows as [|r rows IH]; simpl; [done|].
  destruct (p r) eqn:Hp; simpl; [lia|]. intros. f_equal. auto.
Qed.

Lemma elem_of_update_where {R} p (f : R -> R) rows x :
  x ∈ (update_where p f rows).1 ->
  exists y, y ∈ rows /\ x = if p y then f y else y.
Proof. intros (y & -> & Hy)%list_elem_of_fmap. eauto. Qed.

(** ** An executable instance with injected faults *)

Record MemDb := mkMem {
  mem_tables : Tables;
  mem_up : bool;
  mem_now : Z;
  mem_next : Z;
  mem_faults : list (option string)   (* the outcome of each coming statement *)
}.

Definition mem_stamp (db : MemDb) : Stamp :=
  mkStamp (mem_now db) (fun i => mem_next db + Z.of_nat i).

Definition mem_after (t : Tables) (db : MemDb) : MemDb :=
  mkMem t (mem_up db) (mem_now db + 1)
    (mem_next db + Z.of_nat (length (jobs_t t) + length (logs_t t) + length (args_t t) +
       length (tokens_t t) + length (schemas_t t) + length (runs_t t)) + 1)
    (tail (mem_faults db)).

Definition mem_stmt {A} (s : Stmt A) (db : MemDb) : result string A * MemDb :=
  match head (mem_faults db) with
  | Some (Some e) => (Err e, mem_after (mem_tables db) db)
  | _ => let '(r, t) := s (mem_stamp db) (mem_tables db) in (r, mem_after t db)
  end.

Definition mem_transaction {A} (body : MemDb -> result string A * MemDb) (db : MemDb)
  : result string A * MemDb :=
  match body db with
  | (Ok a, db') => (Ok a, db')
  | (Err e, db') => (Err e, mem_after (mem_tables db) db')
  end.

#[export] Instance MemDb_database : Database MemDb := {
  tables := mem_tables;
  handle := mem_up;
  stamp := mem_stamp;
  stmt := @mem_stmt;
  transaction := @mem_transaction
}.

#[export] Instance MemDb_laws : DatabaseLaws MemDb.
Proof.
  split.
  - intros A s db. simpl. unfold mem_stmt.
    destruct (head (mem_faults db)) as [[e|]|].
    + right. by exists e.
    + left. by destruct (s _ _).
    + left. by destruct (s _ _).
  - intros A body db. simpl. unfold mem_transaction.
    destruct (body db) as [[a|e] db'] eqn:E; [left|right]; eauto.
  - intros db i j H. simpl. lia.
Qed.

Definition mem_ready (t : Tables) : MemDb := mkMem t true 1000 100 [].
