(* ===== verification/BuildJobs.v ===== *)
(** * Build job rows, their logs and their arguments

    [src/datastore/buildkit_jobs.go], [buildkit_logs.go] and
    [buildkit_job_args.go], over the database interface of [Db]. *)
From stdpp Require Import sorting.
From S2P Require Import Prelude Db.

Definition JobStatusPending : string := "pending".
Definition JobStatusBusy : string := "busy".
Definition JobStatusSuccess : string := "success".
Definition JobStatusFailed : string := "failed".

(** The caller's view of a row: [BuildKitJob] has the columns of the model. *)
Definition BuildKitJob : Type := BuildKitJobModel.
Definition job_toDTO (m : BuildKitJobModel) : BuildKitJob := m.
Definition BuildKitLog : Type := BuildKitLogModel.
Definition log_toDTO (m : BuildKitLogModel) : BuildKitLog := m.

Record BuildArg := mkBuildArg { Key : string; Value : string; Source : string }.

#[export] Instance BuildArg_eq_dec : EqDecision BuildArg.
Proof. solve_decision. Defined.

(** ** Statements *)

Definition has_job (jobID : string) (m : BuildKitJobModel) : bool :=
  String.eqb (JobID m) jobID.

(** INSERT of a job row; the unique index on job_id rejects a duplicate. *)
Definition insert_job (mk : Z -> Z -> BuildKitJobModel) (jobID : string) : Stmt unit :=
  fun s t =>
    if existsb (has_job jobID) (jobs_t t)
    then (Err "duplicate key value violates unique constraint idx_buildkit_jobs_job_id", t)
    else (Ok tt, set_jobs (insert_rows [mk (at_time s)] s (jobs_t t)) t).

Definition is_terminal (status : string) : bool :=
  String.eqb status JobStatusSuccess || String.eqb status JobStatusFailed.

Definition is_open (m : BuildKitJobModel) : bool :=
  String.eqb (Status m) JobStatusPending || String.eqb (Status m) JobStatusBusy.

Definition set_status (status : string) (completed : bool) (now : Z) (m : BuildKitJobModel)
  : BuildKitJobModel :=
  mkJob (job_row_id m) (JobID m) (OSID m) (Repo m) (Branch m) (CommitHash m)
    status (CreatedAt m) now (if completed then Some now else CompletedAt m).

Definition update_jobs (p : BuildKitJobModel -> bool) (status : string) (completed : bool)
  : Stmt nat :=
  fun s t =>
    let '(rows, n) := update_where p (set_status status completed (at_time s)) (jobs_t t) in
    (Ok n, set_jobs rows t).

Definition pluck_open_jobs : Stmt (list string) :=
  fun _ t => (Ok (map JobID (List.filter is_open (jobs_t t))), t).

Definition insert_logs (entries : list (string * string)) : Stmt unit :=
  fun s t =>
    (Ok tt,
     set_logs (insert_rows
       (map (fun e i => mkLog i e.1 e.2 (at_time s)) entries) s (logs_t t)) t).

Definition first_job (jobID : string) : Stmt (option BuildKitJobModel) :=
  fun _ t => (Ok (List.find (has_job jobID) (jobs_t t)), t).

Section BuildJobs.
Context {DB : Type} {DBI : Database DB} {DBL : DatabaseLaws DB}.

(** ** Operations *)

Definition CreateBuildKitJob (jobID osid repo branch commitHash : string)
  : DB -> result string unit * DB :=
  activeDB (stmt (insert_job
    (fun now i => mkJob i jobID osid repo branch commitHash JobStatusPending now now None)
    jobID)).

Definition UpdateBuildKitJobStatus (jobID status : string) : DB -> result string unit * DB :=
  activeDB (fun gdb =>
    match stmt (update_jobs (has_job jobID) status (is_terminal status)) gdb with
    | (Err e, gdb) => (Err e, gdb)
    | (Ok n, gdb) =>
        if Nat.eqb n 0 then (Err ("job not found: " ++ jobID)%string, gdb) else (Ok tt, gdb)
    end).

Definition in_list (ids : list string) (m : BuildKitJobModel) : bool :=
  existsb (String.eqb (JobID m)) ids.

(** The body of the transaction of [FailNonTerminalBuildKitJobs]: it answers
    the value of [closed]. *)
Definition fail_body (reason : string) (tx : DB) : result string nat * DB :=
  match stmt pluck_open_jobs tx with
  | (Err e, tx) => (Err e, tx)
  | (Ok jobIDs, tx) =>
      match jobIDs with
      | [] => (Ok 0%nat, tx)
      | _ =>
          match stmt (update_jobs (in_list jobIDs) JobStatusFailed true) tx with
          | (Err e, tx) => (Err e, tx)
          | (Ok _, tx) =>
              match stmt (insert_logs (map (fun id => (id, "ERROR: " ++ reason)%string) jobIDs)) tx with
              | (Err e, tx) => (Err e, tx)
              | (Ok _, tx) => (Ok (length jobIDs), tx)
              end
          end
      end
  end.

Definition FailNonTerminalBuildKitJobs (reason : string) : DB -> result string nat * DB :=
  activeDB (transaction (fail_body reason)).

Definition GetBuildKitJob (jobID : string) : DB -> result string BuildKitJob * DB :=
  activeDB (fun gdb =>
    match stmt (first_job jobID) gdb with
    | (Err e, gdb) => (Err e, gdb)
    | (Ok None, gdb) => (Err "record not found", gdb)
    | (Ok (Some m), gdb) => (Ok (job_toDTO m), gdb)
    end).

Definition InsertBuildKitLog (jobID logEntry : string) : DB -> result string unit * DB :=
  activeDB (stmt (insert_logs [(jobID, logEntry)])).

Definition insert_args (buildJobID : string) (args : list BuildArg) : Stmt unit :=
  fun s t =>
    (Ok tt,
     set_args (insert_rows
       (map (fun a i => mkArg i buildJobID (Key a) (Value a) (Source a) (at_time s)) args)
       s (args_t t)) t).

Definition InsertBuildKitJobArgs (buildJobID : string) (args : list BuildArg)
  (db : DB) : result string unit * DB :=
  match args with
  | [] => (Ok tt, db)
  | _ => activeDB (stmt (insert_args buildJobID args)) db
  end.

(** *** Queries *)

Record QueryBuildKitJobsOptions := mkJobQuery {
  QStatus : string; QOSID : string; QCreatedAt : option Z; QLimit : Z; QDesc : bool }.

Definition job_matches (o : QueryBuildKitJobsOptions) (m : BuildKitJobModel) : bool :=
  (String.eqb (QStatus o) "" || String.eqb (Status m) (QStatus o)) &&
  (String.eqb (QOSID o) "" || String.eqb (OSID m) (QOSID o)) &&
  match QCreatedAt o with None => true | Some c => c <=? CreatedAt m end.

(** ORDER BY a key, ascending or descending; rows that tie keep their table
    order (SQL leaves it open). *)
Definition order_le {R} (desc : bool) (key : R -> Z) (a b : R) : Prop :=
  if desc then key b <= key a else key a <= key b.

#[export] Instance order_le_dec {R} desc (key : R -> Z) : RelDecision (order_le desc key).
Proof. intros a b. unfold order_le. destruct desc; apply _. Defined.

Definition limit_rows {R} (limit : Z) (rows : list R) : list R :=
  if 0 <? limit then take (Z.to_nat limit) rows else rows.

Definition select_jobs (o : QueryBuildKitJobsOptions) : Stmt (list BuildKitJobModel) :=
  fun _ t =>
    (Ok (limit_rows (QLimit o)
           (merge_sort (order_le (QDesc o) CreatedAt) (List.filter (job_matches o) (jobs_t t)))), t).

Definition QueryBuildKitJobs (o : QueryBuildKitJobsOptions)
  : DB -> result string (list BuildKitJob) * DB :=
  activeDB (fun gdb =>
    match stmt (select_jobs o) gdb with
    | (Err e, gdb) => (Err e, gdb)
    | (Ok models, gdb) => (Ok (map job_toDTO models), gdb)
    end).

Record QueryBuildKitLogsOptions := mkLogQuery {
  LJobID : string; LSinceID : Z; LLimit : Z; LDesc : bool }.

Definition log_matches (o : QueryBuildKitLogsOptions) (m : BuildKitLogModel) : bool :=
  String.eqb (LogJobID m) (LJobID o) &&
  (if 0 <? LSinceID o then LSinceID o <? log_row_id m else true).

Definition select_logs (o : QueryBuildKitLogsOptions) : Stmt (list BuildKitLogModel) :=
  fun _ t =>
    (Ok (limit_rows (LLimit o)
           (merge_sort (order_le (LDesc o) log_row_id) (List.filter (log_matches o) (logs_t t)))), t).

Definition QueryBuildKitLogs (o : QueryBuildKitLogsOptions)
  : DB -> result string (list BuildKitLog) * DB :=
  activeDB (fun gdb =>
    match stmt (select_logs o) gdb with
    | (Err e, gdb) => (Err e, gdb)
    | (Ok models, gdb) => (Ok (map log_toDTO models), gdb)
    end).

(** ** Lemmas *)

(** Every operation is either refused for lack of a connection or runs. *)
Lemma activeDB_cases A (k : DB -> result string A * DB) db :
  (handle db = false /\ activeDB k db = (Err ErrNotReady, db)) \/
  (handle db = true /\ activeDB k db = k db).
Proof. unfold activeDB. destruct (handle db); auto. Qed.

Lemma in_open_ids rows m :
  NoDup (map JobID rows) -> m ∈ rows ->
  in_list (map JobID (List.filter is_open rows)) m = is_open m.
Proof.
  intros Hnd Hm. unfold in_list. apply Bool.eq_iff_eq_true.
  rewrite existsb_exists. split.
  - intros (id & Hid & E%String.eqb_eq).
    apply in_map_iff in Hid as (m' & <- & [Hin Ho]%List.filter_In).
    assert (m' = m) as ->; [|done].
    apply list_elem_of_In in Hin.
    apply list_elem_of_lookup in Hin as [i Hi], Hm as [j Hj].
    assert (i = j); [|congruence].
    eapply (NoDup_lookup (map JobID rows)); [done| |]; rewrite list_lookup_fmap.
    + by rewrite Hi.
    + rewrite Hj. simpl. by rewrite E.
  - intros Ho. exists (JobID m). split; [|apply String.eqb_refl].
    apply in_map, List.filter_In. split; [by apply list_elem_of_In|done].
Qed.

Definition close_row (now : Z) (m : BuildKitJobModel) : BuildKitJobModel :=
  if is_open m then set_status JobStatusFailed true now m else m.

Definition log_text (l : BuildKitLogModel) : string * string := (LogJobID l, LogEntry l).

Lemma insert_logs_text entries s t :
  map log_text (logs_t (insert_logs entries s t).2) = map log_text (logs_t t) ++ entries.
Proof.
  simpl. unfold insert_rows. rewrite map_app. f_equal.
  generalize (serial s). generalize (at_time s). intros now.
  induction entries as [|[i l] es IH]; intros f; [done|].
  simpl. f_equal. apply IH.
Qed.

(** What a body of the transaction that succeeds has done. *)
Lemma fail_body_ok reason tx n tx' :
  NoDup (map JobID (jobs_t (tables tx))) ->
  fail_body reason tx = (Ok n, tx') ->
  let ids := map JobID (List.filter is_open (jobs_t (tables tx))) in
  n = length ids /\
  (exists now, jobs_t (tables tx') = map (close_row now) (jobs_t (tables tx))) /\
  map log_text (logs_t (tables tx')) =
    map log_text (logs_t (tables tx)) ++ map (fun id => (id, "ERROR: " ++ reason)%string) ids.
Proof.
  intros Hnd H. unfold fail_body in H.
  stmt_cases pluck_open_jobs tx; [|discriminate].
  rename d into tx1. simpl in Htab. rewrite <-Htab in *.
  cbn [pluck_open_jobs fst] in H. simpl.
  set (rows := jobs_t (tables tx1)) in *.
  destruct (map JobID (List.filter is_open rows)) as [|id ids] eqn:Hids.
  { simplify_eq. split; [done|]. split; [exists 0|by rewrite app_nil_r].
    assert (List.filter is_open rows = []) as Hf by (by apply map_eq_nil in Hids).
    fold rows. clear - Hf. induction rows as [|m rows IH]; [done|]. simpl in *.
    unfold close_row at 1. destruct (is_open m); [done|]. f_equal. auto. }
  rewrite <-Hids in *.
  stmt_cases (update_jobs (in_list (map JobID (List.filter is_open rows))) JobStatusFailed true) tx1;
    [|discriminate].
  simpl in H. rename d into tx2. simpl in Htab0.
  set (es := map (fun id => (id, "ERROR: " ++ reason)%string) _) in *.
  stmt_cases (insert_logs es) tx2; [|discriminate]. simplify_eq/=.
  split; [done|]. split.
  - exists (at_time (stamp tx1)). rewrite Htab1, Htab0. simpl. fold rows.
    apply list_fmap_ext. intros i m Hi%list_elem_of_lookup_2.
    unfold close_row. by rewrite (in_open_ids rows m Hnd Hi).
  - rewrite Htab1. etrans; [exact (insert_logs_text es (stamp tx2) (tables tx2))|]. by rewrite Htab0.
Qed.

(** ** The invariant of the build rows *)

Record jobs_wf (t : Tables) : Prop := {
  wf_unique : NoDup (map JobID (jobs_t t));
  wf_completed m : m ∈ jobs_t t -> is_terminal (Status m) = true -> is_Some (CompletedAt m)
}.

Lemma jobs_wf_same t t' : jobs_t t' = jobs_t t -> jobs_wf t -> jobs_wf t'.
Proof. intros E [H1 H2]. split; rewrite E; auto. Qed.

Lemma map_JobID_update p status completed now rows :
  map JobID (update_where p (set_status status completed now) rows).1 = map JobID rows.
Proof.
  simpl. rewrite map_map. apply map_ext. intros m. by destruct (p m).
Qed.

(** A status write keeps the invariant when it stamps the completion time of a
    terminal status. *)
Lemma update_jobs_wf p status completed s t :
  (is_terminal status = true -> completed = true) ->
  jobs_wf t -> jobs_wf (update_jobs p status completed s t).2.
Proof.
  intros Hc [H1 H2]. split.
  - pose proof (map_JobID_update p status completed (at_time s) (jobs_t t)) as E.
    unfold update_jobs, update_where in *. simpl in *. by rewrite E.
  - unfold update_jobs. simpl. intros m (y & -> & Hy)%list_elem_of_fmap.
    destruct (p y) eqn:Hp; [|by auto]. simpl.
    intros Hs. rewrite (Hc Hs). eauto.
Qed.

Lemma insert_job_wf mk jobID s t :
  (forall now i, JobID (mk now i) = jobID /\ is_terminal (Status (mk now i)) = false) ->
  jobs_wf t -> jobs_wf (insert_job mk jobID s t).2.
Proof.
  intros Hmk [H1 H2]. unfold insert_job.
  destruct (existsb _ _) eqn:Hex; [by split|]. simpl. split; simpl.
  - unfold insert_rows. simpl. rewrite map_app. simpl. apply NoDup_app.
    split; [done|]. split; [|apply NoDup_singleton].
    intros id Hid ->%list_elem_of_singleton. destruct (Hmk (at_time s) (serial s 0)) as [Ej _].
    apply list_elem_of_fmap in Hid as (m & Em & Hm).
    assert (existsb (has_job jobID) (jobs_t t) = true) as Hc; [|congruence].
    apply existsb_exists. exists m. split; [by apply list_elem_of_In|].
    unfold has_job. apply String.eqb_eq. congruence.
  - intros m. unfold insert_rows. simpl. rewrite elem_of_app, list_elem_of_singleton.
    intros [Hm| ->]; [by apply H2|]. by destruct (Hmk (at_time s) (serial s 0)) as [_ ->].
Qed.

Lemma stmt_wf {A} (st : Stmt A) db :
  jobs_wf (st (stamp db) (tables db)).2 -> jobs_wf (tables db) -> jobs_wf (tables (stmt st db).2).
Proof. intros Hs H. destruct (stmt_spec _ st db) as [[_ ->]|(e & _ & ->)]; done. Qed.

Lemma CreateBuildKitJob_wf j o r b c db :
  jobs_wf (tables db) -> jobs_wf (tables (CreateBuildKitJob j o r b c db).2).
Proof.
  intros W. unfold CreateBuildKitJob, activeDB. destruct (handle db); [|done].
  apply stmt_wf; [|done]. by apply insert_job_wf.
Qed.

Lemma UpdateBuildKitJobStatus_wf j st db :
  jobs_wf (tables db) -> jobs_wf (tables (UpdateBuildKitJobStatus j st db).2).
Proof.
  intros W. unfold UpdateBuildKitJobStatus, activeDB. destruct (handle db); [|done].
  pose proof (stmt_wf (update_jobs (has_job j) st (is_terminal st)) db) as H.
  destruct (stmt _ db) as [[n|e] db']; [destruct (Nat.eqb n 0)|]; simpl in *;
    (apply H; [by apply (update_jobs_wf (has_job j) st (is_terminal st) (stamp db))|done]).
Qed.

Lemma close_row_closed now m : is_open (close_row now m) = false.
Proof. unfold close_row. destruct (is_open m) eqn:E; [reflexivity|done]. Qed.

Lemma close_rows_wf now t t' :
  jobs_t t' = map (close_row now) (jobs_t t) -> jobs_wf t -> jobs_wf t'.
Proof.
  intros E [H1 H2]. split; rewrite E.
  - rewrite map_map, (map_ext _ JobID); [done|]. intros m. unfold close_row. by destruct (is_open m).
  - intros m (y & -> & Hy)%list_elem_of_fmap. unfold close_row.
    destruct (is_open y); [by eauto|by auto].
Qed.

Lemma FailNonTerminal_cases reason db :
  jobs_wf (tables db) ->
  let '(r, db') := FailNonTerminalBuildKitJobs reason db in
  (exists n tx', r = Ok n /\ fail_body reason db = (Ok n, tx') /\ tables db' = tables tx') \/
  (exists e, r = Err e /\ tables db' = tables db).
Proof.
  intros W. unfold FailNonTerminalBuildKitJobs, activeDB.
  destruct (handle db); [|right; eauto].
  pose proof (transaction_spec _ (fail_body reason) db) as Ht.
  destruct (transaction _ db) as [r db'], (fail_body reason db) as [r' tx'] eqn:Eb. simpl in *.
  destruct Ht as [(a & -> & -> & ?)|(e & -> & ?)]; [left; eauto 6|right; eauto].
Qed.

Lemma FailNonTerminal_wf reason db :
  jobs_wf (tables db) -> jobs_wf (tables (FailNonTerminalBuildKitJobs reason db).2).
Proof.
  intros W. pose proof (FailNonTerminal_cases reason db W) as H.
  destruct (FailNonTerminalBuildKitJobs reason db) as [r db'].
  destruct H as [(n & tx & -> & Hb & Ht)|(e & -> & Ht)]; simpl.
  - apply fail_body_ok in Hb as (_ & [now Hj] & _); [|apply W].
    rewrite <-Ht in Hj. eauto using close_rows_wf.
  - by apply (jobs_wf_same (tables db)); [rewrite Ht|].
Qed.

End BuildJobs.

(** ** Properties *)

Section Properties.
Context {DB : Type} {DBI : Database DB} {DBL : DatabaseLaws DB}.

(** C11: Closing the orphaned build rows is all or nothing. On an error (no
    connection, any failing statement, a failing commit) no row and no log line
    has changed. On success the answer is the number of rows that were pending
    or busy; afterwards no row is pending or busy, exactly those rows became
    failed with a completion time, all other rows are as they were, and the log
    gained exactly one ERROR line with the reason per closed job. *)
Theorem fail_non_terminal_spec reason (db : DB) :
  jobs_wf (tables db) ->
  let '(r, db') := FailNonTerminalBuildKitJobs reason db in
  let ids := map JobID (List.filter is_open (jobs_t (tables db))) in
  match r with
  | Err _ => tables db' = tables db
  | Ok n =>
      n = length ids /\
      (forall m, m ∈ jobs_t (tables db') -> is_open m = false) /\
      (exists now, jobs_t (tables db') =
         map (fun m => if is_open m then set_status JobStatusFailed true now m else m)
             (jobs_t (tables db))) /\
      map log_text (logs_t (tables db')) =
        map log_text (logs_t (tables db)) ++ map (fun id => (id, "ERROR: " ++ reason)%string) ids
  end.
Proof.
  intros W. pose proof (FailNonTerminal_cases reason db W) as H.
  destruct (FailNonTerminalBuildKitJobs reason db) as [r db'].
  destruct H as [(n & tx & -> & Hb & Ht)|(e & -> & Ht)]; [|done].
  apply fail_body_ok in Hb as (Hn & [now Hj] & Hl); [|apply W].
  rewrite Ht. split; [done|]. split; [|eauto].
  rewrite Hj. intros m (y & -> & _)%list_elem_of_fmap. apply close_row_closed.
Qed.

(** The operations that write build rows, in any order. *)
Inductive jobs_step : DB -> DB -> Prop :=
| js_create j o r b c db : jobs_step db (CreateBuildKitJob j o r b c db).2
| js_status j st db : jobs_step db (UpdateBuildKitJobStatus j st db).2
| js_fail reason db : jobs_step db (FailNonTerminalBuildKitJobs reason db).2
| js_log j l db : jobs_step db (InsertBuildKitLog j l db).2
| js_args j a db : jobs_step db (InsertBuildKitJobArgs j a db).2.

(** C32: Every sequence of the datastore's writes to build rows, with failing
    statements anywhere in it, keeps the table's invariant: job ids are unique,
    and a row whose status is success or failed carries its completion time. *)
Theorem jobs_wf_invariant (db db' : DB) :
  jobs_wf (tables db) -> rtc jobs_step db db' -> jobs_wf (tables db').
Proof.
  intros W Hs. induction Hs as [|x y z Hxy _ IH]; [done|]. apply IH. destruct Hxy.
  - by apply CreateBuildKitJob_wf.
  - by apply UpdateBuildKitJobStatus_wf.
  - by apply FailNonTerminal_wf.
  - unfold InsertBuildKitLog, activeDB. destruct (handle db); [|done].
    apply stmt_wf; [|done]. by apply (jobs_wf_same (tables db)).
  - unfold InsertBuildKitJobArgs. destruct a; [done|].
    unfold activeDB. destruct (handle db); [|done].
    apply stmt_wf; [|done]. by apply (jobs_wf_same (tables db)).
Qed.

(** A status update touches exactly the row of its job. When it reports
    success the row had existed and now has the new status, with a completion
    time when the status is success or failed and with its previous one
    otherwise; every other row is unchanged. When the job does not exist the
    answer is the not-found error, and on any error no row has changed. *)
Theorem update_status_spec jobID status (db : DB) :
  jobs_wf (tables db) ->
  let '(r, db') := UpdateBuildKitJobStatus jobID status db in
  match r with
  | Ok _ =>
      jobID ∈ map JobID (jobs_t (tables db)) /\
      exists now, jobs_t (tables db') =
        map (fun m => if String.eqb (JobID m) jobID
                      then set_status status (is_terminal status) now m else m)
            (jobs_t (tables db))
  | Err e =>
      tables db' = tables db /\
      (e = ("job not found: " ++ jobID)%string \/ e = ErrNotReady \/
       exists db1, stmt (update_jobs (has_job jobID) status (is_terminal status)) db = (Err e, db1))
  end.
Proof.
  intros W. unfold UpdateBuildKitJobStatus, activeDB. destruct (handle db); [|auto].
  stmt_cases (update_jobs (has_job jobID) status (is_terminal status)) db; [|split; eauto].
  simpl. destruct (Nat.eqb_spec (length (List.filter (has_job jobID) (jobs_t (tables db)))) 0) as [H0|H0].
  - split; [|auto]. rewrite Htab. unfold update_jobs, update_where. simpl.
    pose proof (update_where_none (has_job jobID)
      (set_status status (is_terminal status) (at_time (stamp db))) _ H0) as E.
    unfold update_where in E. simpl in E. rewrite E. by destruct (tables db).
  - split; [|eexists; by rewrite Htab].
    destruct (List.filter (has_job jobID) (jobs_t (tables db))) as [|m l] eqn:Ef; [done|].
    assert (In m (m :: l)) as Hm by (by left). rewrite <-Ef in Hm.
    apply List.filter_In in Hm as [Hin Hj%String.eqb_eq].
    apply list_elem_of_fmap. exists m. split; [done|]. by apply list_elem_of_In.
Qed.

(** A job query answers the matching rows in the requested order: its
    answer, extended by the rows the limit cut off, is a sorted permutation of
    all matching rows, and the limit (when positive) is used up before a
    matching row is left out. *)
Theorem query_jobs_spec o (db : DB) :
  match QueryBuildKitJobs o db with
  | (Err _, db') => tables db' = tables db
  | (Ok rows, db') =>
      tables db' = tables db /\
      exists rest,
        Permutation (rows ++ rest) (List.filter (job_matches o) (jobs_t (tables db))) /\
        Sorted (order_le (QDesc o) CreatedAt) (rows ++ rest) /\
        (rest <> [] -> 0 < QLimit o /\ Z.of_nat (length rows) = QLimit o)
  end.
Proof.
  unfold QueryBuildKitJobs, activeDB. destruct (handle db); [|done].
  stmt_cases (select_jobs o) db; [|done]. simpl. split; [done|].
  unfold BuildKitJob. set (l := merge_sort _ _). rewrite map_id. unfold limit_rows.
  assert (Permutation l (List.filter (job_matches o) (jobs_t (tables db)))) as Hp
    by apply merge_sort_Permutation.
  assert (Sorted (order_le (QDesc o) CreatedAt) l) as Hs.
  { apply Sorted_merge_sort. intros a b. unfold order_le. destruct (QDesc o); lia. }
  destruct (Z.ltb_spec 0 (QLimit o)) as [Hl|Hl].
  - exists (drop (Z.to_nat (QLimit o)) l). rewrite take_drop. split; [done|]. split; [done|].
    intros Hne. split; [done|]. rewrite length_take.
    assert (Z.to_nat (QLimit o) < length l)%nat; [|lia].
    destruct (decide (Z.to_nat (QLimit o) < length l)%nat); [done|].
    destruct Hne. apply drop_ge. lia.
  - exists []. rewrite app_nil_r. by repeat split.
Qed.

End Properties.

(** ** Witnesses *)

Definition demo_rows : Tables :=
  mkTables
    [ mkJob 1 "a" "app1" "r" "main" "c1" JobStatusBusy 10 10 None;
      mkJob 2 "b" "app1" "r" "main" "c2" JobStatusSuccess 11 12 (Some 12);
      mkJob 3 "c" "app2" "r" "main" "c3" JobStatusPending 13 13 None ]
    [] [] [] [] [].

Lemma demo_rows_wf : jobs_wf demo_rows.
Proof.
  split; simpl.
  - repeat constructor; set_solver.
  - intros m. rewrite !elem_of_cons. intros [-> |[-> |[-> |?%not_elem_of_nil]]]; done.
Qed.

Definition demo_db : MemDb := mem_ready demo_rows.

Lemma fail_non_terminal_spec_witness :
  (FailNonTerminalBuildKitJobs "restart" demo_db).1 = Ok 2%nat /\
  let '(r, db') := FailNonTerminalBuildKitJobs "restart" demo_db in
  forall m, m ∈ jobs_t (tables db') -> is_open m = false.
Proof.
  split; [reflexivity|].
  pose proof (fail_non_terminal_spec "restart" demo_db demo_rows_wf) as H.
  destruct (FailNonTerminalBuildKitJobs "restart" demo_db) as [r db'] eqn:E.
  assert (r = Ok 2%nat) as ->.
  { change r with (r, db').1. rewrite <-E. reflexivity. }
  apply H.
Defined.

Lemma jobs_wf_invariant_witness :
  jobs_wf (tables (UpdateBuildKitJobStatus "a" "success" (CreateBuildKitJob "d" "o" "r" "b" "c" demo_db).2).2).
Proof.
  apply (jobs_wf_invariant demo_db); [apply demo_rows_wf|].
  eapply rtc_l; [apply js_create|]. apply rtc_once. apply (js_status "a" "success").
Defined.

Lemma update_status_spec_witness :
  let '(r, db') := UpdateBuildKitJobStatus "a" "failed" demo_db in
  r = Ok tt /\ "a" ∈ map JobID (jobs_t (tables demo_db)).
Proof.
  pose proof (update_status_spec "a" "failed" demo_db demo_rows_wf) as H.
  vm_compute in H |- *. destruct H as [H _]. auto.
Defined.

Lemma query_jobs_spec_witness :
  match QueryBuildKitJobs (mkJobQuery "" "app1" None 1 true) demo_db with
  | (Ok rows, _) => map JobID rows = ["b"] /\ exists rest, length (rows ++ rest) = 2%nat
  | _ => False
  end.
Proof.
  pose proof (query_jobs_spec (mkJobQuery "" "app1" None 1 true) demo_db) as H.
  destruct (QueryBuildKitJobs _ _) as [r db'] eqn:E.
  vm_compute in E. injection E as <- <-.
  destruct H as (_ & rest & Hp & _). split; [reflexivity|].
  exists rest. apply Permutation_length in Hp. rewrite Hp. reflexivity.
Defined.
