(* ===== verification/Lifecycle.v ===== *)
(** * Startup and shutdown of the process ([src/lifecycle.go], [src/main.go])

    The functions of [lifecycle.go] take the drain and the row-closing function
    as arguments, and so do their models. The state they act on is an argument
    [S] with a clock; the last section runs them on the datastore of
    [BuildJobs] and on the tracker of [Drain], as [main] wires them. *)
From S2P Require Import Prelude Db BuildJobs Drain.

Definition defaultDrainTimeout : Z := 35 * Minute.
Definition reconcileRetryEvery : Z := 3 * Second.
Definition reconcileMaxWait : Z := 2 * Minute.
Definition reasonRestart : string :=
  "build interrupted by agent restart: the previous agent process ended while the build ran".

(** [drainTimeout]: [v] is the value of CLUSTER_AGENT_DRAIN_TIMEOUT, and
    [ParseDuration] is the [time] package's parser ([None] is its error). *)
Definition drainTimeout (ParseDuration : string -> option Z) (v : string) : Z :=
  if String.eqb v "" then defaultDrainTimeout
  else match ParseDuration v with
       | None => defaultDrainTimeout
       | Some d => if d <=? 0 then defaultDrainTimeout else d
       end.

Section Shutdown.
Context {S : Type}.
Variable DurationString : Z -> string.
Variable drainFn : Z -> S -> Z * S.
Variable failRows : string -> S -> result string nat * S.

Definition shutdown_reason (timeout : Z) : string :=
  ("build interrupted by agent shutdown: it still ran after the " ++ DurationString timeout
   ++ " drain wait")%string.

Definition shutdown (timeout : Z) (s : S) : S :=
  let '(remaining, s) := drainFn timeout s in
  if remaining =? 0 then s
  else
    match failRows (shutdown_reason timeout) s with
    | (Err _, s) => s
    | (Ok _, s) => s
    end.
End Shutdown.

Definition reconcileOrphanedBuilds {S} (failRows : string -> S -> result string nat * S) (s : S)
  : result string nat * S :=
  match failRows reasonRestart s with
  | (Err e, s) => (Err e, s)
  | (Ok closed, s) => (Ok closed, s)
  end.

(** A state with a clock: [time.Now] reads it, [time.Sleep] moves it. *)
Class Clock (S : Type) := {
  clock : S -> Z;
  sleep : Z -> S -> S
}.

Section Reconcile.
Context {S : Type} {SC : Clock S}.
Variable failRows : string -> S -> result string nat * S.
Variable release : S -> S.

Fixpoint reconcile_loop (fuel : nat) (start every maxWait : Z) (s : S) : option S :=
  match fuel with
  | O => None
  | Datatypes.S fuel =>
      match reconcileOrphanedBuilds failRows s with
      | (Ok _, s) => Some (release s)
      | (Err _, s) =>
          if maxWait <=? clock s - start then Some (release s)
          else reconcile_loop fuel start every maxWait (sleep every s)
      end
  end.

Definition reconcileUntilDone (fuel : nat) (every maxWait : Z) (s : S) : option S :=
  reconcile_loop fuel (clock s) every maxWait s.

(** The states a run of failing attempts goes through: [attempts n s s'] when
    [n] attempts have failed, each followed by its sleep. No release in it. *)
Inductive attempts (every : Z) : nat -> S -> S -> Prop :=
| attempts_0 s : attempts every 0 s s
| attempts_S n s e s1 s2 :
    reconcileOrphanedBuilds failRows s = (Err e, s1) ->
    attempts every n (sleep every s1) s2 -> attempts every (Datatypes.S n) s s2.

(** Time does not run backwards, and a sleep lasts at least its duration. *)
Class ClockLaws : Prop := {
  sleep_clock d s : clock s + d <= clock (sleep d s);
  failRows_clock reason s : clock s <= clock (failRows reason s).2
}.

Context {SL : ClockLaws}.

Lemma reconcile_clock s : clock s <= clock (reconcileOrphanedBuilds failRows s).2.
Proof.
  unfold reconcileOrphanedBuilds. pose proof (failRows_clock reasonRestart s).
  destruct (failRows reasonRestart s) as [[]]; done.
Qed.

Lemma reconcile_loop_spec every maxWait start fuel s :
  0 < every -> (0 < fuel)%nat -> maxWait - (clock s - start) <= every * (Z.of_nat fuel - 1) ->
  exists n s1 r s2,
    (n < fuel)%nat /\ attempts every n s s1 /\
    reconcileOrphanedBuilds failRows s1 = (r, s2) /\
    (is_ok r = true \/ maxWait <= clock s2 - start) /\
    reconcile_loop fuel start every maxWait s = Some (release s2).
Proof.
  intros Hev. revert s. induction fuel as [|fuel IH]; intros s H0 Hf; [lia|].
  simpl. pose proof (reconcile_clock s) as Hc.
  destruct (reconcileOrphanedBuilds failRows s) as [[c|e] s1] eqn:E; simpl in Hc.
  - exists 0%nat, s, (Ok c), s1. split_and!; [lia|constructor|done|auto|done].
  - destruct (Z.leb_spec maxWait (clock s1 - start)) as [Hm|Hm].
    + exists 0%nat, s, (Err e), s1. split_and!; [lia|constructor|done|auto|done].
    + pose proof (sleep_clock every s1).
      destruct (IH (sleep every s1)) as (n & s2 & r & s3 & ? & ? & ? & ? & ?); [nia|nia|].
      exists (Datatypes.S n), s2, r, s3. split_and!; [lia|econstructor; eauto|done|auto|done].
Qed.

(** C26: The startup reconcile ends and releases exactly once. With the code's
    constants (a retry every 3 s, at most 2 minutes) the loop returns after at
    most 41 attempts, whatever the database does: it is some number of failed
    attempts, each followed by its sleep, then one last attempt that succeeded
    or found the two minutes over, and then one call of [release], which is the
    last thing that happens. *)
Theorem reconcileUntilDone_releases_once s :
  exists n s1 r s2,
    (n <= 40)%nat /\ attempts reconcileRetryEvery n s s1 /\
    reconcileOrphanedBuilds failRows s1 = (r, s2) /\
    (is_ok r = true \/ reconcileMaxWait <= clock s2 - clock s) /\
    reconcileUntilDone 41 reconcileRetryEvery reconcileMaxWait s = Some (release s2).
Proof.
  destruct (reconcile_loop_spec reconcileRetryEvery reconcileMaxWait (clock s) 41 s)
    as (n & s1 & r & s2 & Hn & H); [reflexivity|lia| |].
  - unfold reconcileMaxWait, reconcileRetryEvery, Minute, Second. lia.
  - exists n, s1, r, s2. split; [lia|done].
Qed.
End Reconcile.

(** A datastore that is down until its third call, with a clock, and a counter
    of releases. *)
Record DemoState := mkDemo { demo_clock : Z; demo_calls : nat; demo_released : nat }.
#[export] Instance DemoClock : Clock DemoState := {
  clock := demo_clock;
  sleep d s := mkDemo (demo_clock s + d) (demo_calls s) (demo_released s)
}.
Definition demo_failRows (_ : string) (s : DemoState) : result string nat * DemoState :=
  let s' := mkDemo (demo_clock s + 1) (Datatypes.S (demo_calls s)) (demo_released s) in
  if (2 <=? demo_calls s)%nat then (Ok 4%nat, s') else (Err ErrNotReady, s').
Definition demo_release (s : DemoState) : DemoState :=
  mkDemo (demo_clock s) (demo_calls s) (Datatypes.S (demo_released s)).

Lemma demo_clock_laws : ClockLaws demo_failRows.
Proof.
  split; simpl; intros; [lia|]. unfold demo_failRows. destruct (2 <=? demo_calls s)%nat; simpl; lia.
Qed.

Lemma reconcileUntilDone_releases_once_witness :
  option_map demo_released
    (reconcileUntilDone demo_failRows demo_release 41 reconcileRetryEvery reconcileMaxWait (mkDemo 0 0 0))
    = Some 1%nat /\
  exists s2, reconcileUntilDone demo_failRows demo_release 41 reconcileRetryEvery reconcileMaxWait
               (mkDemo 0 0 0) = Some (demo_release s2).
Proof.
  split; [reflexivity|].
  destruct (@reconcileUntilDone_releases_once _ _ demo_failRows demo_release demo_clock_laws (mkDemo 0 0 0))
    as (n & s1 & r & s2 & _ & _ & _ & _ & E).
  eauto.
Defined.

(** The drain timeout is always positive, equals the configured duration
    when that parses to a positive one, and is 35 minutes otherwise. *)
Theorem drainTimeout_spec ParseDuration v :
  0 < drainTimeout ParseDuration v /\
  (forall d, v <> "" -> ParseDuration v = Some d -> 0 < d -> drainTimeout ParseDuration v = d) /\
  (v = "" \/ ParseDuration v = None \/ (exists d, ParseDuration v = Some d /\ d <= 0) ->
   drainTimeout ParseDuration v = defaultDrainTimeout).
Proof.
  assert (0 < defaultDrainTimeout) by reflexivity.
  unfold drainTimeout. destruct (String.eqb_spec v "") as [->|Hv].
  - split_and!; [done|by intros|done].
  - destruct (ParseDuration v) as [d|]; [destruct (Z.leb_spec d 0)|];
      (split_and!; [done|intros d' _ E Hpos|]); try (intros [?|[?|(d' & ? & ?)]]);
      simplify_eq; done || lia.
Qed.

(** ** Shutdown on the datastore *)

Section OnDatastore.
Context {DB : Type} {DBI : Database DB} {DBL : DatabaseLaws DB}.
Variable DurationString : Z -> string.
Variable drainFn : Z -> DB -> Z * DB.

(** Shutdown closes what did not finish and nothing else. After a drain
    that left no work, the rows stay as the drain left them. After a drain that
    timed out with work running, either the datastore failed and the rows stay
    as they were, or no row is pending or busy any more and the rows that were
    already terminal are untouched. *)
Theorem shutdown_rows timeout (db : DB) :
  let '(remaining, db1) := drainFn timeout db in
  let db2 := shutdown DurationString drainFn FailNonTerminalBuildKitJobs timeout db in
  jobs_wf (tables db1) ->
  (remaining = 0 -> db2 = db1) /\
  (remaining <> 0 ->
     (tables db2 = tables db1 /\
      exists e db3, FailNonTerminalBuildKitJobs (shutdown_reason DurationString timeout) db1 = (Err e, db3)) \/
     ((forall m, m ∈ jobs_t (tables db2) -> is_open m = false) /\
      (forall m, m ∈ jobs_t (tables db1) -> is_open m = false -> m ∈ jobs_t (tables db2)))).
Proof.
  unfold shutdown. destruct (drainFn timeout db) as [remaining db1]. intros W.
  destruct (Z.eqb_spec remaining 0) as [H0|H0]; [split; [done|lia]|split; [lia|]]. intros _.
  pose proof (FailNonTerminal_cases (shutdown_reason DurationString timeout) db1 W) as H.
  destruct (FailNonTerminalBuildKitJobs _ db1) as [r db3].
  destruct H as [(n & tx & -> & Hb & Ht)|(e & -> & Ht)]; [right|left; eauto].
  apply fail_body_ok in Hb as (_ & [now Hj] & _); [|apply W]. rewrite Ht, Hj. split.
  - intros m (y & -> & _)%list_elem_of_fmap. apply close_row_closed.
  - intros m Hm Ho. apply list_elem_of_fmap. exists m. split; [|done].
    unfold close_row. by rewrite Ho.
Qed.
End OnDatastore.

Lemma shutdown_rows_witness :
  let db2 := shutdown (fun _ => "35m0s") (fun _ db => (1, db)) FailNonTerminalBuildKitJobs 5 demo_db in
  map Status (jobs_t (tables db2)) = ["failed"; "success"; "failed"] /\
  (forall m, m ∈ jobs_t (tables db2) -> is_open m = false).
Proof.
  split; [reflexivity|].
  pose proof (shutdown_rows (DB := MemDb) (fun _ => "35m0s") (fun _ db => (1, db)) 5 demo_db) as H.
  specialize (H demo_rows_wf) as [_ H]. destruct H as [[_ (e & db3 & E)]|[H _]]; [done| |exact H].
  apply (f_equal fst) in E. vm_compute in E. discriminate.
Defined.

(** ** The startup hold on the tracker *)

(** A step of any goroutine other than [Release]. *)
Definition step_before_release (w w' : World) : Prop := step w w' /\ w' <> Release w.

Lemma step_held w w' :
  step w w' -> held (tr w) = true -> w' = Release w \/ (held (tr w') = true /\ running w' ⊆ running w).
Proof.
  intros Hs Hh. destruct Hs; try (by left); right.
  - unfold Begin. rewrite Hh. by destruct (draining (tr w)).
  - unfold end_fn in H. destruct (onces w !! u) as [[]|] eqn:Hu; try done; [by simplify_eq|].
    rewrite (running_ended w w' u);
      [|unfold finish, close_chan in H; simpl in H; cases; done].
    split; [|set_solver]. unfold finish, close_chan in H; simpl in H; cases; done.
  - unfold Drain_enter. cases; done.
  - unfold Drain_select in H. cases; done.
  - unfold Drain_return in H. cases; done.
  - done.
  - done.
Qed.

(** The startup hold. From [Hold] until the [Release] that follows the
    startup reconcile, whatever else the goroutines do, no unit of work starts:
    every [Begin] is refused and the running set only shrinks. So a row that the
    reconcile closes cannot belong to a build of this process. *)
Theorem startup_hold_admits_nothing w w' :
  rtc step_before_release (Hold w) w' ->
  running w' ⊆ running w /\ is_ok (Begin w').1 = false /\ (Begin w').2 = w'.
Proof.
  intros Hs.
  assert (held (tr (Hold w)) = true) as Hh by done.
  assert (running (Hold w) = running w) as <- by done. revert Hs Hh.
  generalize (Hold w). clear w. induction 1 as [w|w w1 w2 [Hst Hne] _ IH]; intros Hh.
  - split; [done|]. unfold Begin. rewrite Hh. by destruct (draining (tr w)).
  - destruct (step_held _ _ Hst Hh) as [?|[Hh1 Hsub]]; [done|].
    destruct (IH Hh1) as [? ?]. split; [set_solver|done].
Qed.

Lemma startup_hold_admits_nothing_witness :
  running (tick 3 (Hold Drain.init)) ⊆ running Drain.init /\
  is_ok (Begin (tick 3 (Hold Drain.init))).1 = false /\
  (Begin (tick 3 (Hold Drain.init))).2 = tick 3 (Hold Drain.init).
Proof.
  apply startup_hold_admits_nothing. apply rtc_once. split; [apply step_tick; lia|].
  intros E. apply (f_equal (fun w => held (tr w))) in E. discriminate.
Defined.
