(* ===== verification/Retry.v ===== *)
(** * Retry and reconnect ([src/agentstream/retry.go], and the loops of
      [src/agentstream/agent.go] that use it)

    Durations are int64 nanoseconds; the shift and the product of [nextBackoff]
    wrap as Go's do. The loops take their operation, their sleep and their
    random draws as arguments, as the code does for its tests. *)
From S2P Require Import Prelude GoStrings.

Definition bootstrapBaseDelay : Z := 1 * Second.
Definition bootstrapMaxDelay : Z := 30 * Second.
Definition stableConnection : Z := 60 * Second.

(** ** Error classification *)

(** What [isRetryable] asks of an error: the predicates of [k8serrors], the
    gRPC status, [errors.Is]/[errors.As] and the message belong to libraries. *)
Class ErrorFacts (E : Type) := {
  is_malformed_cert : E -> bool;          (* errors.Is(err, errMalformedCert) *)
  is_not_found : E -> bool;
  is_service_unavailable : E -> bool;
  is_server_timeout : E -> bool;
  is_timeout : E -> bool;
  is_too_many_requests : E -> bool;
  grpc_code : E -> option Z;              (* status.FromError *)
  is_deadline_exceeded : E -> bool;
  net_timeout : E -> option bool;         (* errors.As(&netErr), netErr.Timeout() *)
  is_dns_error : E -> bool;
  is_op_error : E -> bool;
  lower_message : E -> string             (* strings.ToLower(err.Error()) *)
}.

Definition code_DeadlineExceeded : Z := 4.
Definition code_Unavailable : Z := 14.

Definition retryable_fragments : list string :=
  [ "connection refused"; "connection reset"; "no such host"; "i/o timeout";
    "context deadline exceeded"; "transport: error while dialing";
    "server closed the stream"; "stream was canceled" ]%string.

Definition isRetryable {E} `{ErrorFacts E} (err : option E) : bool :=
  match err with
  | None => false
  | Some err =>
      if is_malformed_cert err then false
      else if is_not_found err || is_service_unavailable err || is_server_timeout err ||
              is_timeout err || is_too_many_requests err then true
      else if match grpc_code err with
              | Some c => (c =? code_Unavailable) || (c =? code_DeadlineExceeded)
              | None => false
              end then true
      else if is_deadline_exceeded err then true
      else if match net_timeout err with Some t => t | None => false end then true
      else if is_dns_error err then true
      else if is_op_error err then true
      else if existsb (Contains (lower_message err)) retryable_fragments then true
      else true
  end.

(** ** Backoff and jitter *)

Definition nextBackoff (attempt : Z) : Z :=
  let attempt := if attempt <? 1 then 1 else attempt in
  let maxShift := 62 in
  let shift := wrap64 (attempt - 1) in
  let shift := if maxShift <? shift then maxShift else shift in
  let delay := wrap64 (bootstrapBaseDelay * wrap64 (Z.shiftl 1 shift)) in
  if (delay <=? 0) || (bootstrapMaxDelay <? delay) then bootstrapMaxDelay else delay.

(** [randInt63n n] draws from [0, n). *)
Definition fullJitter (limit : Z) (randInt63n : Z -> Z) : Z :=
  if limit <=? 0 then 0 else randInt63n (wrap64 (limit + 1)).

Record reconnectBackoff := mkBackoff { attempt : Z }.
Definition newReconnectBackoff : reconnectBackoff := mkBackoff 0.

Definition next (rand : Z -> Z) (b : reconnectBackoff) : Z * reconnectBackoff :=
  let a := wrap64 (attempt b + 1) in (fullJitter (nextBackoff a) rand, mkBackoff a).

Definition connectionEnded (upFor : Z) (b : reconnectBackoff) : reconnectBackoff :=
  if stableConnection <=? upFor then mkBackoff 0 else b.

(** What the draw relies on: [rand.Int64N n] is in [0, n) for a positive n. *)
Definition good_rand (rand : Z -> Z) : Prop := forall n, 0 < n -> 0 <= rand n < n.

(** The schedule the comment describes, without machine arithmetic. *)
Definition backoff_spec (attempt : Z) : Z :=
  Z.min (Second * 2 ^ (Z.max attempt 1 - 1)) (30 * Second).

Lemma backoff_small n : (n <= 4)%nat -> nextBackoff (Z.of_nat n + 1) = Second * 2 ^ Z.of_nat n.
Proof. intros. do 5 (destruct n as [|n]; [reflexivity|]). lia. Qed.

Lemma backoff_shifts :
  forallb (fun n => nextBackoff (Z.of_nat n + 1) =? 30 * Second) (seq 5 58) = true.
Proof. vm_compute. reflexivity. Qed.

Lemma backoff_middle n : (5 <= n <= 62)%nat -> nextBackoff (Z.of_nat n + 1) = 30 * Second.
Proof.
  intros H. pose proof backoff_shifts as B. rewrite forallb_forall in B.
  apply Z.eqb_eq, B, in_seq. lia.
Qed.

Lemma backoff_large a : 63 <= a -> a <= max_int64 -> nextBackoff a = 30 * Second.
Proof.
  intros H1 H2. unfold nextBackoff.
  destruct (Z.ltb_spec a 1); [lia|].
  rewrite (wrap64_id (a - 1)) by (unfold is_int64, min_int64, max_int64, two63 in *; lia).
  destruct (Z.ltb_spec 62 (a - 1)).
  - reflexivity.
  - assert (a = 63) as -> by lia. reflexivity.
Qed.

Lemma backoff_spec_large a : 6 <= a -> backoff_spec a = 30 * Second.
Proof.
  intros H. unfold backoff_spec. rewrite (Z.max_l a 1) by lia.
  assert (2 ^ 5 <= 2 ^ (a - 1)) by (apply Z.pow_le_mono_r; lia).
  unfold Second in *. lia.
Qed.

Lemma nextBackoff_eq a : is_int64 a -> nextBackoff a = backoff_spec a.
Proof.
  intros [H1 H2].
  destruct (Z.ltb_spec a 1) as [Hs|Hs].
  { unfold nextBackoff, backoff_spec. destruct (Z.ltb_spec a 1); [|lia].
    rewrite Z.max_r by lia. reflexivity. }
  destruct (Z.ltb_spec a 6) as [H6|H6].
  { assert (exists n, a = Z.of_nat n + 1 /\ (n <= 4)%nat) as (n & -> & Hn)
      by (exists (Z.to_nat (a - 1)); lia).
    rewrite backoff_small by done. unfold backoff_spec. rewrite Z.max_l by lia.
    replace (Z.of_nat n + 1 - 1) with (Z.of_nat n) by lia.
    do 5 (destruct n as [|n]; [reflexivity|]). lia. }
  rewrite backoff_spec_large by lia.
  destruct (Z.ltb_spec a 63); [|by apply backoff_large].
  assert (exists n, a = Z.of_nat n + 1 /\ (5 <= n <= 62)%nat) as (n & -> & Hn)
    by (exists (Z.to_nat (a - 1)); lia).
  by apply backoff_middle.
Qed.

Lemma backoff_spec_range a : Second <= backoff_spec a <= 30 * Second.
Proof.
  unfold backoff_spec.
  assert (2 ^ 0 <= 2 ^ (Z.max a 1 - 1)) by (apply Z.pow_le_mono_r; lia).
  unfold Second in *. lia.
Qed.

Lemma fullJitter_range limit rand :
  good_rand rand -> is_int64 limit -> limit < max_int64 ->
  0 <= fullJitter limit rand <= Z.max limit 0.
Proof.
  intros Hr Hl Hm. unfold fullJitter. destruct (Z.leb_spec limit 0); [lia|].
  rewrite wrap64_id by (unfold is_int64, min_int64, max_int64, two63 in *; lia).
  pose proof (Hr (limit + 1)). lia.
Qed.

Lemma jittered_backoff_range a rand :
  good_rand rand -> is_int64 a -> 0 <= fullJitter (nextBackoff a) rand <= backoff_spec a.
Proof.
  intros Hr Ha. rewrite nextBackoff_eq by done. pose proof (backoff_spec_range a).
  pose proof (fullJitter_range (backoff_spec a) rand Hr).
  unfold is_int64, min_int64, max_int64, two63, Second in *. lia.
Qed.

(** The retry schedule. For every 64-bit attempt number, the wrapped shift
    and product of [nextBackoff] give exactly min(2^(n-1) seconds, 30 seconds)
    (n = 1 for attempts below one), which lies between one and thirty seconds
    and never decreases with the attempt number. *)
Theorem nextBackoff_schedule a b :
  is_int64 a -> is_int64 b -> a <= b ->
  nextBackoff a = backoff_spec a /\ Second <= nextBackoff a <= 30 * Second /\
  nextBackoff a <= nextBackoff b.
Proof.
  intros Ha Hb Hab. rewrite !nextBackoff_eq by done. split; [done|].
  split; [apply backoff_spec_range|]. unfold backoff_spec.
  apply Z.min_le_compat_r, Z.mul_le_mono_nonneg_l; [unfold Second; lia|].
  apply Z.pow_le_mono_r; lia.
Qed.

Lemma nextBackoff_schedule_witness :
  nextBackoff 4 = backoff_spec 4 /\ Second <= nextBackoff 4 <= 30 * Second /\
  nextBackoff 4 <= nextBackoff 1000000.
Proof.
  apply nextBackoff_schedule; [split; vm_compute; discriminate|split; vm_compute; discriminate|lia].
Defined.

Lemma isRetryable_some {E} `{ErrorFacts E} (e : E) :
  isRetryable (Some e) = negb (is_malformed_cert e).
Proof.
  unfold isRetryable. destruct (is_malformed_cert e); [done|].
  by repeat match goal with |- (if ?b then _ else _) = _ => destruct b end.
Qed.

(** An error is retried exactly when there is one and it is not the
    malformed-certificate sentinel: no combination of the typed errors, status
    codes and message fragments the function looks at changes the answer. *)
Theorem isRetryable_iff {E} `{ErrorFacts E} (err : option E) :
  isRetryable err = true <-> exists e, err = Some e /\ is_malformed_cert e = false.
Proof.
  destruct err as [e|]; [|split; [discriminate|by intros (e & ? & _)]].
  rewrite isRetryable_some, negb_true_iff. split; [eauto|by intros (e' & [= <-] & ?)].
Qed.

(** ** The bootstrap retry loop *)

Inductive Outcome (E A : Type) :=
| Returned (a : A)
| Fatal (e : E)       (* log.Fatalf *)
| OutOfFuel.
Arguments Returned {E A}. Arguments Fatal {E A}. Arguments OutOfFuel {E A}.

Section RetryStep.
Context {E A S : Type} `{EF : ErrorFacts E}.
Variable op : S -> result E A * S.
Variable sleep : Z -> S -> S.
Variable rand : Z -> Z.

(** The body of [retryStepWith]'s loop from [attempt] on; the second component
    is the list of waits. *)
Fixpoint retry_loop (fuel : nat) (attempt : Z) (s : S) : Outcome E A * list Z * S :=
  match fuel with
  | O => (OutOfFuel, [], s)
  | Datatypes.S fuel =>
      let attempt := wrap64 (attempt + 1) in
      match op s with
      | (Ok val, s) => (Returned val, [], s)
      | (Err err, s) =>
          if isRetryable (Some err) then
            let delay := fullJitter (nextBackoff attempt) rand in
            let '(o, waits, s) := retry_loop fuel attempt (sleep delay s) in
            (o, delay :: waits, s)
          else (Fatal err, [], s)
      end
  end.

Definition retryStepWith (fuel : nat) (s : S) : Outcome E A * list Z * S :=
  retry_loop fuel 0 s.

(** [op] fails [k] times in a row with retryable errors, from [s] to [s'], where
    [a] attempts came before. *)
Inductive failing : nat -> Z -> S -> S -> Prop :=
| failing_0 a s : failing 0 a s s
| failing_S k a s err s1 s2 :
    op s = (Err err, s1) -> is_malformed_cert err = false ->
    failing k (a + 1) (sleep (fullJitter (nextBackoff (a + 1)) rand) s1) s2 ->
    failing (Datatypes.S k) a s s2.

Lemma retry_loop_failing k a s s' fuel :
  good_rand rand -> 0 <= a -> a + Z.of_nat k + 1 <= max_int64 ->
  failing k a s s' ->
  exists waits,
    (forall i d, waits !! i = Some d -> 0 <= d <= backoff_spec (a + Z.of_nat i + 1)) /\
    length waits = k /\
    retry_loop (k + fuel) a s =
      let '(o, ws, s2) := retry_loop fuel (a + Z.of_nat k) s' in (o, waits ++ ws, s2).
Proof.
  intros Hr Ha Hmax Hf. revert Ha Hmax.
  induction Hf as [a s|k a s err s1 s2 Hop Hm _ IH]; intros Ha Hmax.
  - exists []. split; [by intros []|]. split; [done|]. simpl.
    rewrite Z.add_0_r. by destruct (retry_loop fuel a s) as [[]].
  - destruct IH as (ws & Hws & Hlen & Heq); [lia|lia|].
    assert (is_int64 (a + 1)) as H64.
    { unfold is_int64, min_int64, two63 in *. lia. }
    exists (fullJitter (nextBackoff (a + 1)) rand :: ws). split; [|split; [simpl; lia|]].
    + intros [|i] d; simpl.
      * intros [= <-]. rewrite Z.add_0_r. by apply jittered_backoff_range.
      * intros Hd. apply Hws in Hd. replace (a + Z.of_nat (Datatypes.S i) + 1) with (a + 1 + Z.of_nat i + 1) by lia. done.
    + cbn [retry_loop Nat.add]. rewrite wrap64_id by done.
      rewrite Hop, isRetryable_some, Hm. cbn [negb]. rewrite Heq.
      replace (a + 1 + Z.of_nat k) with (a + Z.of_nat (Datatypes.S k)) by lia.
      by destruct (retry_loop fuel (a + Z.of_nat (Datatypes.S k)) s2) as [[]].
Qed.
End RetryStep.

(** ** The reconnect loop *)

(** One turn of the loop, as the environment plays it: how long [establish]
    ran, what it returned, the random source of this turn, and what the dial
    gave (a connection identity, or its error). *)
Record Round (E : Type) := mkRound {
  up_for : Z;
  establish_err : option E;
  draw : Z -> Z;
  dialed : result E nat
}.
Arguments mkRound {E}. Arguments up_for {E}. Arguments establish_err {E}.
Arguments draw {E}. Arguments dialed {E}.

(** [streamManager.conn], the connections open in the process, the backoff and
    the waits so far (newest first). *)
Record LoopState := mkLoop {
  sm_conn : option nat;
  open_conns : gset nat;
  bo : reconnectBackoff;
  waits : list Z
}.

(** The rest of a turn after [establish] failed. *)
Definition reconnect_round {E} (r : Round E) (st : LoopState) : LoopState :=
  let b := connectionEnded (up_for r) (bo st) in
  let '(delay, b) := next (draw r) b in
  let ws := delay :: waits st in
  match dialed r with
  | Err _ => mkLoop (sm_conn st) (open_conns st) b ws
  | Ok conn =>
      let opened := {[conn]} ∪ open_conns st in
      let opened := match sm_conn st with Some old => opened ∖ {[old]} | None => opened end in
      mkLoop (Some conn) opened b ws
  end.

(** [true] when the loop returned. *)
Fixpoint reconnectLoop {E} (rounds : list (Round E)) (st : LoopState) : bool * LoopState :=
  match rounds with
  | [] => (false, st)
  | r :: rounds =>
      match establish_err r with
      | None => (true, st)
      | Some _ => reconnectLoop rounds (reconnect_round r st)
      end
  end.

(** The number of turns since the last connection that was up long enough. *)
Fixpoint unstable_turns {E} (rounds : list (Round E)) (n : Z) : Z :=
  match rounds with
  | [] => n
  | r :: rounds => unstable_turns rounds ((if stableConnection <=? up_for r then 0 else n) + 1)
  end.

Definition fresh_dials {E} (rounds : list (Round E)) (st : LoopState) : Prop :=
  NoDup (omap (fun r => match dialed r with Ok c => Some c | Err _ => None end) rounds) /\
  forall r c, r ∈ rounds -> dialed r = Ok c -> sm_conn st <> Some c.

(** What holds at the top of every turn: the open connections are the current
    one, and every wait was within its cap. *)
Record loop_inv (st : LoopState) : Prop := {
  li_conns : exists c, sm_conn st = Some c /\ open_conns st = {[c]};
  li_attempt : 0 <= attempt (bo st);
  li_waits : Forall (fun d => 0 <= d <= 30 * Second) (waits st)
}.

Lemma reconnect_round_attempt {E} (r : Round E) st :
  attempt (bo (reconnect_round r st)) =
  wrap64 ((if stableConnection <=? up_for r then 0 else attempt (bo st)) + 1).
Proof.
  unfold reconnect_round, connectionEnded, next.
  by destruct (stableConnection <=? up_for r), (dialed r).
Qed.

Lemma reconnect_round_inv {E} (r : Round E) st :
  good_rand (draw r) -> attempt (bo st) < max_int64 ->
  (forall c, dialed r = Ok c -> sm_conn st <> Some c) ->
  loop_inv st -> loop_inv (reconnect_round r st).
Proof.
  intros Hr Hmax Hfresh [(c & Hc & Ho) Ha Hw].
  assert (is_int64 ((if stableConnection <=? up_for r then 0 else attempt (bo st)) + 1)) as H64.
  { unfold is_int64, min_int64, max_int64, two63 in *. case_match; lia. }
  split.
  - unfold reconnect_round, next. destruct (dialed r) as [c'|e] eqn:Hd; simpl; [|eauto].
    exists c'. split; [done|]. rewrite Hc, Ho.
    assert (c' <> c) by (intros ->; by apply (Hfresh c)). set_solver.
  - rewrite reconnect_round_attempt, wrap64_id by done. case_match; lia.
  - assert (exists b, is_int64 (attempt b + 1) /\
      waits (reconnect_round r st) = fullJitter (nextBackoff (wrap64 (attempt b + 1))) (draw r) :: waits st)
      as (b & Hb & ->).
    { exists (connectionEnded (up_for r) (bo st)). split.
      - unfold connectionEnded. by destruct (stableConnection <=? up_for r).
      - unfold reconnect_round, next. by destruct (dialed r). }
    constructor; [|done]. rewrite wrap64_id by done.
    pose proof (jittered_backoff_range (attempt b + 1) (draw r) Hr Hb).
    pose proof (backoff_spec_range (attempt b + 1)). lia.
Qed.

Lemma fresh_dials_tail {E} (r : Round E) rounds st :
  fresh_dials (r :: rounds) st -> fresh_dials rounds (reconnect_round r st).
Proof.
  intros [Hnd Hne]. unfold fresh_dials, reconnect_round, next. simpl in Hnd.
  destruct (dialed r) as [c|e] eqn:Hd; simpl.
  - apply NoDup_cons in Hnd as [Hni Hnd]. split; [done|].
    intros r' c' Hr' Hd' [= ->]. apply Hni. apply list_elem_of_omap. exists r'. by rewrite Hd'.
  - split; [done|]. intros r' c' Hr'. apply Hne. by right.
Qed.

(** C25: The control link never gives up and never leaks. Over any sequence of
    disconnects, with dials that fail or succeed, the loop returns only when
    [establish] ends without an error; at every turn exactly one connection is
    open, the current one, because each successful reconnect closes the one it
    replaces; every wait is between zero and thirty seconds; and the attempt
    counter is the number of turns since a connection last stayed up for a
    minute. *)
Theorem reconnectLoop_spec {E} (rounds : list (Round E)) st :
  Forall (fun r => good_rand (draw r)) rounds ->
  fresh_dials rounds st -> loop_inv st ->
  attempt (bo st) + Z.of_nat (length rounds) < max_int64 ->
  let '(returned, st') := reconnectLoop rounds st in
  (returned = true <-> exists r, r ∈ rounds /\ establish_err r = None) /\
  loop_inv st' /\
  (returned = false -> attempt (bo st') = unstable_turns rounds (attempt (bo st)) /\
     length (waits st') = (length rounds + length (waits st))%nat).
Proof.
  intros Hr. revert st. induction Hr as [|r rounds Hgood _ IH]; intros st Hfresh Hinv Hmax.
  - simpl. split; [|by auto]. split; [discriminate|by intros (r & Hr & _); inversion Hr].
  - cbn [reconnectLoop]. destruct (establish_err r) as [e|] eqn:He.
    + assert (attempt (bo (reconnect_round r st)) =
        (if stableConnection <=? up_for r then 0 else attempt (bo st)) + 1) as Hat.
      { rewrite reconnect_round_attempt. apply wrap64_id.
        pose proof (li_attempt _ Hinv). cbn [length] in Hmax.
        unfold is_int64, min_int64, max_int64, two63 in *. case_match; lia. }
      assert (loop_inv (reconnect_round r st)) as Hinv'.
      { apply reconnect_round_inv; [done|cbn [length] in Hmax; lia| |done].
        intros c Hc. apply (proj2 Hfresh r); [by left|done]. }
      assert (attempt (bo (reconnect_round r st)) + Z.of_nat (length rounds) < max_int64) as Hmax'.
      { rewrite Hat. pose proof (li_attempt _ Hinv). cbn [length] in Hmax. case_match; lia. }
      specialize (IH (reconnect_round r st) (fresh_dials_tail _ _ _ Hfresh) Hinv' Hmax').
      destruct (reconnectLoop rounds (reconnect_round r st)) as [b st'].
      destruct IH as (IH1 & IH2 & IH3). split; [|split; [done|]].
      * rewrite IH1. split.
        -- intros (r' & ? & ?). exists r'. split; [by right|done].
        -- intros (r' & [->|?]%elem_of_cons & ?); [congruence|eauto].
      * intros Hb. destruct (IH3 Hb) as [-> ->]. simpl. rewrite Hat. split; [done|].
        unfold reconnect_round, next. destruct (dialed r); simpl; lia.
    + split; [|split; [done|discriminate]]. split; [|done]. intros _. exists r. split; [by left|done].
Qed.

Definition demo_rounds : list (Round unit) :=
  [ mkRound 5 (Some tt) (fun n => n - 1) (Err tt);
    mkRound (90 * Second) (Some tt) (fun n => n - 1) (Ok 8%nat);
    mkRound 7 (Some tt) (fun n => 0) (Ok 9%nat) ].
Definition demo_loop : LoopState := mkLoop (Some 7%nat) {[7%nat]} newReconnectBackoff [].

Lemma reconnectLoop_spec_witness :
  let '(returned, st') := reconnectLoop demo_rounds demo_loop in
  (returned = true <-> exists r, r ∈ demo_rounds /\ establish_err r = None) /\
  loop_inv st' /\
  (returned = false -> attempt (bo st') = unstable_turns demo_rounds (attempt (bo demo_loop)) /\
     length (waits st') = (length demo_rounds + length (waits demo_loop))%nat).
Proof.
  apply reconnectLoop_spec.
  - repeat constructor; simpl; lia.
  - split; [vm_compute; repeat constructor; rewrite ?list_elem_of_singleton; set_solver|].
    intros r c. unfold demo_rounds. rewrite !elem_of_cons.
    intros [-> |[-> |[-> |?%not_elem_of_nil]]]; simpl; congruence.
  - split; [exists 7%nat; done|done|constructor].
  - reflexivity.
Defined.

(** A bootstrap step that fails [k] times with errors other than the
    malformed-certificate one and then succeeds is retried to the end: it
    returns that value after [k] waits, the i-th of them between zero and
    min(2^i, 30) seconds (counting from zero). When the next attempt fails with
    the malformed certificate instead, the process exits with that error. *)
Theorem retryStepWith_spec {E A S} `{ErrorFacts E} (op : S -> result E A * S)
  (sleep : Z -> S -> S) (rand : Z -> Z) k s s1 r s2 :
  good_rand rand -> Z.of_nat k + 1 <= max_int64 ->
  failing op sleep rand k 0 s s1 -> op s1 = (r, s2) ->
  match r with Ok _ => True | Err e => is_malformed_cert e = true end ->
  exists ws,
    length ws = k /\
    (forall i d, ws !! i = Some d -> 0 <= d <= Z.min (Second * 2 ^ Z.of_nat i) (30 * Second)) /\
    retryStepWith op sleep rand (k + 1) s =
      (match r with Ok a => Returned a | Err e => Fatal e end, ws, s2).
Proof.
  intros Hrand Hk Hf Hop Hr.
  destruct (retry_loop_failing op sleep rand k 0 s s1 1 Hrand) as (ws & Hws & Hlen & Heq);
    [lia|lia|done|].
  exists ws. split; [done|]. split.
  - intros i d Hd. specialize (Hws i d Hd). unfold backoff_spec in Hws.
    replace (Z.max (0 + Z.of_nat i + 1) 1 - 1) with (Z.of_nat i) in Hws by lia. done.
  - unfold retryStepWith. rewrite Heq. cbn [retry_loop]. rewrite Hop. destruct r as [a|e].
    + by rewrite app_nil_r.
    + rewrite isRetryable_some, Hr. simpl. by rewrite app_nil_r.
Qed.

(** Errors of a demonstration: [true] is the malformed certificate. *)
Definition demo_facts : ErrorFacts bool := {|
  is_malformed_cert b := b; is_not_found b := negb b; is_service_unavailable _ := false;
  is_server_timeout _ := false; is_timeout _ := false; is_too_many_requests _ := false;
  grpc_code _ := None; is_deadline_exceeded _ := false; net_timeout _ := None;
  is_dns_error _ := false; is_op_error _ := false; lower_message _ := "" |}.

Definition demo_op (s : nat) : result bool nat * nat :=
  if (s <? 2)%nat then (Err false, Datatypes.S s) else (Ok 42%nat, s).

Lemma retryStepWith_spec_witness :
  exists ws, length ws = 2%nat /\
    (forall i d, ws !! i = Some d -> 0 <= d <= Z.min (Second * 2 ^ Z.of_nat i) (30 * Second)) /\
    @retryStepWith bool nat nat demo_facts demo_op (fun _ s => s) (fun n => n - 1) 3 0%nat
    = (Returned 42%nat, ws, 2%nat).
Proof.
  apply (@retryStepWith_spec bool nat nat demo_facts demo_op (fun _ s => s) (fun n => n - 1)
           2 0%nat 2%nat (Ok 42%nat) 2%nat).
  - intros n Hn. lia.
  - vm_compute. discriminate.
  - eapply failing_S; [reflexivity|reflexivity|]. eapply failing_S; [reflexivity|reflexivity|].
    apply failing_0.
  - reflexivity.
  - exact I.
Defined.
