(* ===== verification/AgentStream.v ===== *)
(** * The control stream ([src/agentstream/agent.go], [progress.go])

    Two models of the same code. [Section Instructions] is the handling of one
    instruction as a function: what is sent on the stream, on every path, the
    recovered panic included. [Section Pending] is the request/response
    protocol over [pendingResponses] as a step relation: requesters
    ([sendAndWait]), deliverers ([handleInstruction]) and the clean-up of a
    dropped stream interleave at the granularity of the map's and the channels'
    operations. The heartbeat loop is at the end. *)
From stdpp Require Import pretty.
From S2P Require Import Prelude.

(** [l2sec.FromClusterAgent] and [l2sec.ToClusterAgent] have the same fields. *)
Record Msg := mkMsg { Type_ : string; JsonB64 : string; Tag : string }.

#[export] Instance Msg_eq_dec : EqDecision Msg.
Proof. solve_decision. Defined.

(** What a handler of [instructions.Map] does with a payload. *)
Inductive HandlerResult :=
| Reply (replyType jsonB64 : string)
| Failure (err : string)
| Panic (value : string).

(** ** Sending *)

(** The stream the process holds, whether it counts as connected, and what was
    sent so far, newest first, each with the stream it went out on. *)
Record Link := mkLink {
  globalStream : option nat;
  streamConnected : bool;
  wire : list (nat * Msg);
  uuids : nat                     (* how many fresh UUIDs were drawn *)
}.

Section Instructions.
(** [uuid.Parse] (its canonical text), [uuid.New], the JSON+base64 encoding of
    an error response, and [stream.Send]. *)
Variable uuid_parse : string -> option string.
Variable uuid_new : nat -> string.
Variable encode_err : string -> result string string.
Variable stream_send : nat -> Msg -> option string.

Definition sendOnStream (stream : option nat) (msg : Msg) (w : Link)
  : result string unit * Link :=
  match stream with
  | None => (Err "stream not initialized", w)
  | Some st =>
      let fresh := String.eqb (Tag msg) "" in
      let msg := if fresh then mkMsg (Type_ msg) (JsonB64 msg) (uuid_new (uuids w)) else msg in
      let n := if fresh then S (uuids w) else uuids w in
      match stream_send st msg with
      | Some e => (Err e, mkLink (globalStream w) (streamConnected w) (wire w) n)
      | None => (Ok tt, mkLink (globalStream w) (streamConnected w) ((st, msg) :: wire w) n)
      end
  end.

Definition SendToServer (msg : Msg) (w : Link) : result string unit * Link :=
  sendOnStream (globalStream w) msg w.

Definition respond (jsonB64 replyType tagID : string) (w : Link) : Link :=
  (SendToServer (mkMsg replyType jsonB64 tagID) w).2.

Definition respondWithErr (errMsg tagID : string) (w : Link) : Link :=
  let jsonB64 := match encode_err errMsg with Ok j => j | Err _ => "" end in
  respond jsonB64 "ERROR" tagID w.

(** *** The progress tagger *)

Record progressTagger := mkTagger { instructionTag : string; enabled : bool; tag_n : N }.

Definition newProgressTagger (tag : string) (progressTags : option bool) : progressTagger :=
  mkTagger tag (match progressTags with Some b => b | None => false end) 0.

(** [fmt.Sprintf("%s/%d", ...)] of the incremented counter, a uint64. *)
Definition nextTag (p : progressTagger) : string * progressTagger :=
  if enabled p then
    let k := ((tag_n p + 1) mod 2 ^ 64)%N in
    ((instructionTag p ++ "/" ++ pretty k)%string, mkTagger (instructionTag p) true k)
  else ("", p).

Definition tagger_send (msgType jsonB64 : string) (st : progressTagger * Link)
  : progressTagger * Link :=
  let '(tag, p) := nextTag st.1 in (p, (SendToServer (mkMsg msgType jsonB64 tag) st.2).2).

(** *** Dispatch *)

(** [instructions.Map], [instructions.StreamingMap] (the messages the handler
    streams, then its result) and the [progressTags] field of a payload. *)
Variable handlers : gmap string (string -> HandlerResult).
Variable streaming : gmap string (string -> list (string * string) * HandlerResult).
Variable progress_tags : string -> option bool.

Definition run_handler (ins : Msg) (w : Link) : option (HandlerResult * Link) :=
  match handlers !! Type_ ins with
  | Some h => Some (h (JsonB64 ins), w)
  | None =>
      match streaming !! Type_ ins with
      | Some h =>
          let '(msgs, r) := h (JsonB64 ins) in
          let p := newProgressTagger (Tag ins) (progress_tags (JsonB64 ins)) in
          Some (r, (foldl (fun st m => tagger_send m.1 m.2 st) (p, w) msgs).2)
      | None => None
      end
  end.

(** The dispatch part of [handleInstruction]: [Some v] is a panic that unwinds. *)
Definition dispatch (ins : Msg) (tagID : string) (w : Link) : option string * Link :=
  match run_handler ins w with
  | None =>
      (None, respondWithErr ("No handler found for message type: " ++ Type_ ins) tagID w)
  | Some (Panic v, w) => (Some v, w)
  | Some (Failure err, w) =>
      (None, respondWithErr ("Error processing " ++ Type_ ins ++ ": " ++ err) tagID w)
  | Some (Reply replyType jsonB64, w) =>
      let replyType := if String.eqb replyType "" then "ACK" else replyType in
      (None, respond jsonB64 replyType tagID w)
  end%string.

(** [handleInstruction] when no pending response has the tag; [deliver] is the
    hand-over when one has. *)
Definition handleInstruction (deliver : option (Link -> option string * Link)) (ins : Msg) (w : Link)
  : option string * Link :=
  match uuid_parse (Tag ins) with
  | None => (None, w)
  | Some tagID =>
      match deliver with
      | Some d => d w
      | None => dispatch ins tagID w
      end
  end.

(** [None] is the nil instruction, whose first field access panics. *)
Definition safeHandleInstruction (deliver : option (Link -> option string * Link)) (ins : option Msg) (w : Link)
  : Link :=
  let '(p, w) := match ins with
                 | Some i => handleInstruction deliver i w
                 | None => (Some "runtime error: invalid memory address or nil pointer dereference", w)
                 end in
  match p with
  | None => w
  | Some r =>
      let tag := match ins with Some i => Tag i | None => "" end in
      match uuid_parse tag with
      | Some tagID => respondWithErr ("internal error handling instruction: " ++ r)%string tagID w
      | None => w
      end
  end.

(** ** Lemmas *)

Lemma SendToServer_up st msg w :
  globalStream w = Some st -> Tag msg <> "" -> stream_send st msg = None ->
  (SendToServer msg w).2 = mkLink (globalStream w) (streamConnected w) ((st, msg) :: wire w) (uuids w).
Proof.
  intros Hg Ht Hs. unfold SendToServer, sendOnStream. rewrite Hg.
  destruct (String.eqb_spec (Tag msg) ""); [done|]. by rewrite Hs.
Qed.

Lemma SendToServer_stream msg w : globalStream (SendToServer msg w).2 = globalStream w.
Proof. unfold SendToServer, sendOnStream. destruct (globalStream w) as [st|] eqn:Hg; [|done].
  by case_match.
Qed.

Lemma run_handler_stream ins w r w' :
  run_handler ins w = Some (r, w') -> globalStream w' = globalStream w.
Proof.
  unfold run_handler. destruct (handlers !! Type_ ins); [by intros [= _ <-]|].
  destruct (streaming !! Type_ ins) as [h|]; [|done].
  destruct (h (JsonB64 ins)) as [msgs r']. intros [= _ <-].
  set (p := newProgressTagger _ _). clearbody p. revert p w.
  induction msgs as [|m msgs IH]; intros p w; [done|]. simpl.
  unfold tagger_send at 2. simpl. destruct (nextTag p) as [t p'].
  rewrite IH. apply SendToServer_stream.
Qed.

(** The single reply an instruction gets after its handler ran. *)
Definition reply_of (ins : Msg) (tagID : string) (r : option HandlerResult) : Msg :=
  let err e := mkMsg "ERROR" (match encode_err e with Ok j => j | Err _ => "" end) tagID in
  match r with
  | None => err ("No handler found for message type: " ++ Type_ ins)
  | Some (Failure e) => err ("Error processing " ++ Type_ ins ++ ": " ++ e)
  | Some (Panic v) => err ("internal error handling instruction: " ++ v)
  | Some (Reply t j) => mkMsg (if String.eqb t "" then "ACK" else t) j tagID
  end%string.

(** The link after the messages the handler streamed itself, or as it was. *)
Definition after_handler (ins : Msg) (w : Link) : Link :=
  match run_handler ins w with Some (_, w') => w' | None => w end.

Lemma respond_up st t j tagID w :
  globalStream w = Some st -> tagID <> "" -> (forall m, stream_send st m = None) ->
  respond j t tagID w =
  mkLink (globalStream w) (streamConnected w) ((st, mkMsg t j tagID) :: wire w) (uuids w).
Proof. intros. unfold respond. rewrite (SendToServer_up st); auto. Qed.

(** What is on the wire after an instruction. *)
Lemma safeHandleInstruction_wire ins w st tagID :
  globalStream w = Some st -> (forall m, stream_send st m = None) ->
  uuid_parse (Tag ins) = Some tagID -> tagID <> "" ->
  wire (safeHandleInstruction None (Some ins) w) =
    (st, reply_of ins tagID (option_map fst (run_handler ins w))) :: wire (after_handler ins w).
Proof.
  intros Hg Hs Hp Ht. unfold safeHandleInstruction, handleInstruction. rewrite Hp.
  unfold dispatch, after_handler.
  destruct (run_handler ins w) as [[r w']|] eqn:Hr; simpl.
  - apply run_handler_stream in Hr. rewrite Hg in Hr.
    destruct r; simpl; unfold respondWithErr; rewrite ?Hp; simpl;
      rewrite (respond_up st) by done; done.
  - unfold respondWithErr. by rewrite (respond_up st).
Qed.

Lemma SendToServer_down msg w : globalStream w = None -> (SendToServer msg w).2 = w.
Proof. intros Hg. unfold SendToServer, sendOnStream. by rewrite Hg. Qed.

Lemma run_handler_down ins w r w' :
  globalStream w = None -> run_handler ins w = Some (r, w') -> w' = w.
Proof.
  intros Hg. unfold run_handler. destruct (handlers !! Type_ ins); [by intros [= _ <-]|].
  destruct (streaming !! Type_ ins) as [h|]; [|done].
  destruct (h (JsonB64 ins)) as [msgs r']. intros [= _ <-].
  set (p := newProgressTagger _ _). clearbody p. revert p.
  induction msgs as [|m msgs IH]; intros p; [done|]. simpl.
  unfold tagger_send at 2. simpl. destruct (nextTag p) as [t p']. by rewrite SendToServer_down.
Qed.

(** C22: At most one reply per instruction, and one whenever it can be sent. An
    instruction whose tag is no UUID is dropped: nothing is sent, nothing
    changes. One whose tag a pending request waits for is handed to that request
    and to nothing else; an error goes out only when the hand-over panics. For
    any other instruction, without a stream nothing is sent, and on a stream
    whose sends succeed the agent sends, after whatever the handler streamed,
    exactly one message: to this tag, the handler's reply (ACK when it names no
    type), or an ERROR when no handler has the type, when the handler fails, and
    when it panics. A panic never leaves the function. *)
Theorem safeHandleInstruction_one_reply deliver ins w :
  match uuid_parse (Tag ins), deliver with
  | None, _ => safeHandleInstruction deliver (Some ins) w = w
  | Some tagID, Some d =>
      safeHandleInstruction deliver (Some ins) w =
      match d w with
      | (None, w') => w'
      | (Some v, w') => respondWithErr ("internal error handling instruction: " ++ v)%string tagID w'
      end
  | Some tagID, None =>
      (globalStream w = None -> safeHandleInstruction deliver (Some ins) w = w) /\
      forall st, globalStream w = Some st -> (forall m, stream_send st m = None) -> tagID <> "" ->
        wire (safeHandleInstruction deliver (Some ins) w) =
          (st, reply_of ins tagID (option_map fst (run_handler ins w))) :: wire (after_handler ins w)
  end.
Proof.
  destruct (uuid_parse (Tag ins)) as [tagID|] eqn:Hp.
  2: { unfold safeHandleInstruction, handleInstruction. by rewrite Hp. }
  destruct deliver as [d|].
  { unfold safeHandleInstruction, handleInstruction. rewrite Hp. by destruct (d w) as [[v|] w']. }
  split; [|intros st Hg Hs Ht; by apply safeHandleInstruction_wire].
  intros Hg. unfold safeHandleInstruction, handleInstruction, dispatch. rewrite Hp.
  assert (forall j t, respond j t tagID w = w) as Hr by (intros j t; unfold respond; by rewrite SendToServer_down).
  destruct (run_handler ins w) as [[r w']|] eqn:Hrun; [|apply Hr].
  apply run_handler_down in Hrun as ->; [|done]. destruct r; cbn; rewrite ?Hp; apply Hr.
Qed.

End Instructions.

Definition demo_handlers : gmap string (string -> HandlerResult) :=
  <["PING" := fun p => Reply "" p]> (<["BOOM" := fun _ => Panic "boom"]> ∅).

Lemma safeHandleInstruction_one_reply_witness :
  wire (safeHandleInstruction Some (fun _ => "u") Ok (fun _ _ => None) demo_handlers ∅ (fun _ => None)
          None (Some (mkMsg "BOOM" "x" "t")) (mkLink (Some 1%nat) true [] 0))
  = [(1%nat, mkMsg "ERROR" "internal error handling instruction: boom" "t")].
Proof.
  destruct (safeHandleInstruction_one_reply Some (fun _ => "u") Ok (fun _ _ => None) demo_handlers ∅
             (fun _ => None) None (mkMsg "BOOM" "x" "t") (mkLink (Some 1%nat) true [] 0)) as [_ H].
  rewrite (H 1%nat); reflexivity || discriminate.
Defined.

(** ** Requests and their responses *)

(** A response channel has a buffer of one message. *)
Record Chan := mkChan { buf : option Msg; chan_closed : bool }.

Inductive WaitError := SendFailed | ChannelClosed | ContextDone.

(** A goroutine in [sendAndWait], with the tag and the channel it made. *)
Inductive Req :=
| ReqStored (tag : string) (ch : nat)
| ReqWaiting (tag : string) (ch : nat)
| ReqDone (tag : string) (r : result WaitError Msg).

Record Pend := mkPend {
  pendingResponses : gmap string nat;
  heap : gmap nat Chan;
  reqs : gmap nat Req;
  loads : gmap nat (string * nat * Msg);   (* deliverers between Load and send *)
  cleaning : option (string * nat * bool); (* the entry the clean-up is at, and whether it closed it *)
  used_tags : gset string;
  panics : nat                             (* sends on a closed channel, recovered *)
}.

Definition pend_init : Pend := mkPend ∅ ∅ ∅ ∅ None ∅ 0.

Section Pending.
Variable uuid_parse : string -> option string.

Inductive pend_step : Pend -> Pend -> Prop :=
(* tagID := uuid.New(); the channel; pendingResponses.Store *)
| ps_store s r tag ch :
    reqs s !! r = None -> tag ∉ used_tags s -> heap s !! ch = None ->
    pend_step s (mkPend (<[tag := ch]> (pendingResponses s)) (<[ch := mkChan None false]> (heap s))
      (<[r := ReqStored tag ch]> (reqs s)) (loads s) (cleaning s) ({[tag]} ∪ used_tags s) (panics s))
(* send(msg) fails; the deferred Delete *)
| ps_send_err s r tag ch :
    reqs s !! r = Some (ReqStored tag ch) ->
    pend_step s (mkPend (delete tag (pendingResponses s)) (heap s)
      (<[r := ReqDone tag (Err SendFailed)]> (reqs s)) (loads s) (cleaning s) (used_tags s) (panics s))
| ps_send_ok s r tag ch :
    reqs s !! r = Some (ReqStored tag ch) ->
    pend_step s (mkPend (pendingResponses s) (heap s)
      (<[r := ReqWaiting tag ch]> (reqs s)) (loads s) (cleaning s) (used_tags s) (panics s))
(* case response, ok := <-responseChan *)
| ps_receive s r tag ch m c :
    reqs s !! r = Some (ReqWaiting tag ch) -> heap s !! ch = Some (mkChan (Some m) c) ->
    pend_step s (mkPend (delete tag (pendingResponses s)) (<[ch := mkChan None c]> (heap s))
      (<[r := ReqDone tag (Ok m)]> (reqs s)) (loads s) (cleaning s) (used_tags s) (panics s))
| ps_receive_closed s r tag ch :
    reqs s !! r = Some (ReqWaiting tag ch) -> heap s !! ch = Some (mkChan None true) ->
    pend_step s (mkPend (delete tag (pendingResponses s)) (heap s)
      (<[r := ReqDone tag (Err ChannelClosed)]> (reqs s)) (loads s) (cleaning s) (used_tags s) (panics s))
(* case <-ctx.Done() *)
| ps_ctx_done s r tag ch :
    reqs s !! r = Some (ReqWaiting tag ch) ->
    pend_step s (mkPend (delete tag (pendingResponses s)) (heap s)
      (<[r := ReqDone tag (Err ContextDone)]> (reqs s)) (loads s) (cleaning s) (used_tags s) (panics s))
(* handleInstruction: pendingResponses.Load(tagID.String()) *)
| ps_load s d m tag ch :
    loads s !! d = None -> uuid_parse (Tag m) = Some tag -> pendingResponses s !! tag = Some ch ->
    pend_step s (mkPend (pendingResponses s) (heap s) (reqs s)
      (<[d := (tag, ch, m)]> (loads s)) (cleaning s) (used_tags s) (panics s))
(* case responseChan <- instruction *)
| ps_deliver s d tag ch m :
    loads s !! d = Some (tag, ch, m) -> heap s !! ch = Some (mkChan None false) ->
    pend_step s (mkPend (pendingResponses s) (<[ch := mkChan (Some m) false]> (heap s)) (reqs s)
      (delete d (loads s)) (cleaning s) (used_tags s) (panics s))
(* default: the buffer is full; pendingResponses.Delete *)
| ps_full s d tag ch m m' :
    loads s !! d = Some (tag, ch, m) -> heap s !! ch = Some (mkChan (Some m') false) ->
    pend_step s (mkPend (delete tag (pendingResponses s)) (heap s) (reqs s)
      (delete d (loads s)) (cleaning s) (used_tags s) (panics s))
(* the send on a closed channel panics and is recovered *)
| ps_panic s d tag ch m b :
    loads s !! d = Some (tag, ch, m) -> heap s !! ch = Some (mkChan b true) ->
    pend_step s (mkPend (pendingResponses s) (heap s) (reqs s)
      (delete d (loads s)) (cleaning s) (used_tags s) (S (panics s)))
(* the clean-up of a dropped stream: Range visits an entry *)
| ps_clean_range s tag ch :
    cleaning s = None -> pendingResponses s !! tag = Some ch ->
    pend_step s (mkPend (pendingResponses s) (heap s) (reqs s)
      (loads s) (Some (tag, ch, false)) (used_tags s) (panics s))
(* close(respChan) *)
| ps_clean_close s tag ch b :
    cleaning s = Some (tag, ch, false) -> heap s !! ch = Some (mkChan b false) ->
    pend_step s (mkPend (pendingResponses s) (<[ch := mkChan b true]> (heap s)) (reqs s)
      (loads s) (Some (tag, ch, true)) (used_tags s) (panics s))
(* pendingResponses.Delete(key) *)
| ps_clean_delete s tag ch :
    cleaning s = Some (tag, ch, true) ->
    pend_step s (mkPend (delete tag (pendingResponses s)) (heap s) (reqs s)
      (loads s) None (used_tags s) (panics s)).

Definition req_chan (r : Req) : option (string * nat) :=
  match r with
  | ReqStored t c | ReqWaiting t c => Some (t, c)
  | ReqDone _ _ => None
  end.

(** [owner] is the ghost assignment of channels to the tag they were made for. *)
Record pend_inv (owner : nat -> string) (s : Pend) : Prop := {
  pi_map tag ch : pendingResponses s !! tag = Some ch ->
    owner ch = tag /\ tag ∈ used_tags s /\
    (exists c, heap s !! ch = Some c /\ (chan_closed c = true -> cleaning s = Some (tag, ch, true))) /\
    (exists r q, reqs s !! r = Some q /\ req_chan q = Some (tag, ch));
  pi_req r q tag ch : reqs s !! r = Some q -> req_chan q = Some (tag, ch) ->
    owner ch = tag /\ is_Some (heap s !! ch);
  pi_load d tag ch m : loads s !! d = Some (tag, ch, m) ->
    owner ch = tag /\ uuid_parse (Tag m) = Some tag /\ is_Some (heap s !! ch);
  pi_buf ch m c : heap s !! ch = Some (mkChan (Some m) c) -> uuid_parse (Tag m) = Some (owner ch);
  pi_done r tag m : reqs s !! r = Some (ReqDone tag (Ok m)) -> uuid_parse (Tag m) = Some tag;
  pi_clean tag ch b : cleaning s = Some (tag, ch, b) ->
    owner ch = tag /\ exists c, heap s !! ch = Some c /\ chan_closed c = b
}.

Lemma pend_init_inv : pend_inv (fun _ => "") pend_init.
Proof. split; simpl; intros; rewrite ?lookup_empty in *; done. Qed.

(** A requester that finishes: its own map entry goes, its outcome is recorded,
    and the channel contents may only lose their message. *)
Lemma pend_finish owner s r q tag ch o h :
  pend_inv owner s -> reqs s !! r = Some q -> req_chan q = Some (tag, ch) ->
  (forall m, o = Ok m -> uuid_parse (Tag m) = Some tag) ->
  (forall c x, h !! c = Some x -> exists y, heap s !! c = Some y /\ chan_closed x = chan_closed y /\
     (buf x = buf y \/ buf x = None)) ->
  (forall c, is_Some (heap s !! c) -> is_Some (h !! c)) ->
  pend_inv owner (mkPend (delete tag (pendingResponses s)) h (<[r := ReqDone tag o]> (reqs s))
                    (loads s) (cleaning s) (used_tags s) (panics s)).
Proof.
  intros I Hr Hq Ho Hh Hdom. split; simpl.
  - intros t c [Hne Hp]%lookup_delete_Some.
    destruct (pi_map _ _ I _ _ Hp) as (E & Hu & (x & Hx & Hc) & (r' & q' & Hr' & Hq')).
    split; [done|]. split; [done|]. split.
    + destruct (Hdom c) as [y Hy]; [eauto|]. exists y. split; [done|].
      destruct (Hh _ _ Hy) as (y' & Hy' & -> & _). simplify_eq. auto.
    + exists r', q'. split; [|done]. rewrite lookup_insert_ne; [done|]. intros <-. congruence.
  - intros r' q' t c [[_ <-]|[_ Hr']]%lookup_insert_Some Hq'; [done|].
    destruct (pi_req _ _ I _ _ _ _ Hr' Hq'). eauto.
  - intros d t c m Hl. destruct (pi_load _ _ I _ _ _ _ Hl) as (?&?&?). eauto.
  - intros c m b Hc. destruct (Hh _ _ Hc) as ([b' c'] & Hy & _ & [Hb|Hb]); simplify_eq/=.
    eapply pi_buf; eauto.
  - intros r' t m [[_ [= <- ->]]|[_ Hr']]%lookup_insert_Some; [auto|eapply pi_done; eauto].
  - intros t c b Hc. destruct (pi_clean _ _ I _ _ _ Hc) as (? & x & Hx & <-). split; [done|].
    destruct (Hdom c) as [y Hy]; [eauto|]. exists y. split; [done|].
    destruct (Hh _ _ Hy) as (y' & Hy' & -> & _). congruence.
Qed.

Lemma pend_finish_err owner s r q tag ch e :
  pend_inv owner s -> reqs s !! r = Some q -> req_chan q = Some (tag, ch) ->
  pend_inv owner (mkPend (delete tag (pendingResponses s)) (heap s) (<[r := ReqDone tag (Err e)]> (reqs s))
                    (loads s) (cleaning s) (used_tags s) (panics s)).
Proof.
  intros I Hr Hq. apply (pend_finish _ _ _ _ _ _ _ _ I Hr Hq); [done| |done].
  intros c x Hx. exists x. auto.
Qed.

(** A map entry or a loaded deliverer that goes, or a channel whose contents
    change to a message for its owner. *)
Lemma pend_shrink owner s pm h ld cl p :
  pend_inv owner s -> pm ⊆ pendingResponses s -> ld ⊆ loads s ->
  (forall c, is_Some (heap s !! c) -> is_Some (h !! c)) ->
  (forall c x, h !! c = Some x -> exists y, heap s !! c = Some y /\
     (forall m, buf x = Some m -> uuid_parse (Tag m) = Some (owner c))) ->
  (forall tag ch x, pm !! tag = Some ch -> h !! ch = Some x -> chan_closed x = true ->
     cl = Some (tag, ch, true)) ->
  (forall tag ch b, cl = Some (tag, ch, b) -> owner ch = tag /\ exists x, h !! ch = Some x /\ chan_closed x = b) ->
  pend_inv owner (mkPend pm h (reqs s) ld cl (used_tags s) p).
Proof.
  intros I Hpm Hld Hdom Hh Hcl Hcn. split; simpl; [..|done].
  - intros t c Hp. pose proof (lookup_weaken _ _ _ _ Hp Hpm) as Hp'.
    destruct (pi_map _ _ I _ _ Hp') as (E & Hu & (x & Hx & _) & Hreq).
    split; [done|]. split; [done|]. split; [|done].
    destruct (Hdom c) as [y Hy]; [eauto|]. exists y. eauto.
  - intros r q t c Hr Hq. destruct (pi_req _ _ I _ _ _ _ Hr Hq). eauto.
  - intros d t c m Hl. pose proof (lookup_weaken _ _ _ _ Hl Hld) as Hl'.
    destruct (pi_load _ _ I _ _ _ _ Hl') as (?&?&?). eauto.
  - intros c m b Hc. destruct (Hh _ _ Hc) as (y & _ & Hb). by apply Hb.
  - intros. eapply pi_done; eauto.
Qed.

Lemma heap_same owner s c x :
  pend_inv owner s -> heap s !! c = Some x ->
  exists y, heap s !! c = Some y /\ (forall m, buf x = Some m -> uuid_parse (Tag m) = Some (owner c)).
Proof.
  intros I Hx. exists x. split; [done|]. intros m Hm. destruct x as [b cl]; simpl in *; subst.
  eapply pi_buf; eauto.
Qed.

Lemma pend_store_inv owner s r tag ch :
  pend_inv owner s -> reqs s !! r = None -> tag ∉ used_tags s -> heap s !! ch = None ->
  pend_inv (fun c => if decide (c = ch) then tag else owner c)
    (mkPend (<[tag := ch]> (pendingResponses s)) (<[ch := mkChan None false]> (heap s))
       (<[r := ReqStored tag ch]> (reqs s)) (loads s) (cleaning s) ({[tag]} ∪ used_tags s) (panics s)).
Proof.
  intros I Hr Ht Hch.
  assert (forall c, is_Some (heap s !! c) -> c <> ch) as Hne by (intros c [x Hx] ->; congruence).
  split; simpl.
  - intros t c [[<- <-]|[Htt Hp]]%lookup_insert_Some.
    + rewrite decide_True by done. split; [done|]. split; [set_solver|]. split.
      * exists (mkChan None false). rewrite lookup_insert_eq. done.
      * exists r, (ReqStored tag ch). by rewrite lookup_insert_eq.
    + destruct (pi_map _ _ I _ _ Hp) as (E & Hu & (x & Hx & Hc) & (r' & q & Hr' & Hq)).
      pose proof (Hne c ltac:(eauto)). rewrite decide_False by done.
      split; [done|]. split; [set_solver|]. split.
      * exists x. rewrite lookup_insert_ne by congruence. auto.
      * exists r', q. rewrite lookup_insert_ne by congruence. done.
  - intros r' q t c [[<- <-]|[_ Hr']]%lookup_insert_Some Hq.
    + simplify_eq/=. rewrite decide_True, lookup_insert_eq by done. eauto.
    + destruct (pi_req _ _ I _ _ _ _ Hr' Hq) as [? Hs]. pose proof (Hne _ Hs).
      rewrite decide_False, lookup_insert_ne by congruence. eauto.
  - intros d t c m Hl. destruct (pi_load _ _ I _ _ _ _ Hl) as (?&?&Hs). pose proof (Hne _ Hs).
    rewrite decide_False, lookup_insert_ne by congruence. eauto.
  - intros c m b [[<- ?]|[? Hc]]%lookup_insert_Some; [done|].
    rewrite decide_False by congruence. eapply pi_buf; eauto.
  - intros r' t m [[_ ?]|[_ Hr']]%lookup_insert_Some; [done|]. eapply pi_done; eauto.
  - intros t c b Hc. destruct (pi_clean _ _ I _ _ _ Hc) as (? & x & Hx & ?). pose proof (Hne c ltac:(eauto)).
    rewrite decide_False, lookup_insert_ne by congruence. eauto.
Qed.

Lemma pend_send_ok_inv owner s r tag ch :
  pend_inv owner s -> reqs s !! r = Some (ReqStored tag ch) ->
  pend_inv owner (mkPend (pendingResponses s) (heap s) (<[r := ReqWaiting tag ch]> (reqs s))
                    (loads s) (cleaning s) (used_tags s) (panics s)).
Proof.
  intros I Hr. split; simpl; try apply I.
  - intros t c Hp. destruct (pi_map _ _ I _ _ Hp) as (E & Hu & Hc & (r' & q & Hr' & Hq)).
    split; [done|]. split; [done|]. split; [done|]. destruct (decide (r = r')) as [<-|Hne].
    + exists r, (ReqWaiting tag ch). rewrite lookup_insert_eq. simplify_eq/=. done.
    + exists r', q. by rewrite lookup_insert_ne.
  - intros r' q t c [[<- <-]|[_ Hr']]%lookup_insert_Some Hq.
    + simplify_eq/=. by apply (pi_req _ _ I r (ReqStored t c)).
    + eapply pi_req; eauto.
  - intros r' t m [[_ ?]|[_ Hr']]%lookup_insert_Some; [done|]. eapply pi_done; eauto.
Qed.

Lemma pend_load_inv owner s d tag ch m :
  pend_inv owner s -> uuid_parse (Tag m) = Some tag -> pendingResponses s !! tag = Some ch ->
  pend_inv owner (mkPend (pendingResponses s) (heap s) (reqs s) (<[d := (tag, ch, m)]> (loads s))
                    (cleaning s) (used_tags s) (panics s)).
Proof.
  intros I Hp Hm. split; simpl; try apply I.
  intros d' t c m' [[<- [= <- <- <-]]|[_ Hl]]%lookup_insert_Some.
  - destruct (pi_map _ _ I _ _ Hm) as (E & _ & (x & Hx & _) & _). eauto.
  - eapply pi_load; eauto.
Qed.

Lemma closed_cleaning owner s tag ch x :
  pend_inv owner s -> pendingResponses s !! tag = Some ch -> heap s !! ch = Some x -> chan_closed x = true ->
  cleaning s = Some (tag, ch, true).
Proof. intros I Hp Hx Hc. destruct (pi_map _ _ I _ _ Hp) as (_ & _ & (y & Hy & Hcl) & _). simplify_eq. auto. Qed.

Lemma pend_step_inv owner s s' :
  pend_inv owner s -> pend_step s s' -> exists owner', pend_inv owner' s'.
Proof.
  intros I Hs. destruct Hs.
  - eexists. by apply pend_store_inv.
  - exists owner. by eapply pend_finish_err.
  - exists owner. by apply pend_send_ok_inv.
  - exists owner. apply (pend_finish _ _ _ _ _ ch _ _ I H); [done| | |].
    + intros m' [= <-]. destruct (pi_req _ _ I _ _ tag ch H) as [<- _]; [done|].
      eapply pi_buf; eauto.
    + intros c' x [[<- <-]|[_ Hx]]%lookup_insert_Some;
        [exists (mkChan (Some m) c)|exists x]; auto.
    + intros c' Hc'. apply lookup_insert_is_Some'. auto.
  - exists owner. by eapply pend_finish_err.
  - exists owner. by eapply pend_finish_err.
  - exists owner. by apply pend_load_inv.
  - exists owner. destruct (pi_load _ _ I _ _ _ _ H) as (Eo & Hu & _).
    apply pend_shrink; [done|done|apply delete_subseteq| | | |].
    + intros c' Hc'. apply lookup_insert_is_Some'. auto.
    + intros c' x [[<- <-]|[_ Hx]]%lookup_insert_Some; [|by eapply heap_same].
      exists (mkChan None false). split; [done|]. simpl. intros m' [= <-]. by rewrite Eo.
    + intros t c' x Hp [[<- <-]|[_ Hx]]%lookup_insert_Some Hc; [done|]. by eapply closed_cleaning.
    + intros t c' b Hc. destruct (pi_clean _ _ I _ _ _ Hc) as (? & x & Hx & <-). split; [done|].
      destruct (decide (c' = ch)) as [->|Hne]; [|rewrite lookup_insert_ne by done; eauto].
      rewrite lookup_insert_eq. simplify_eq/=. eauto.
  - exists owner. apply pend_shrink; [done|apply delete_subseteq|apply delete_subseteq|done| | |apply I].
    + intros c' x Hx. by eapply heap_same.
    + intros t c' x [_ Hp]%lookup_delete_Some Hx Hc. by eapply closed_cleaning.
  - exists owner. apply pend_shrink; [done|done|apply delete_subseteq|done| | |apply I].
    + intros c' x Hx. by eapply heap_same.
    + intros t c' x Hp Hx Hc. by eapply closed_cleaning.
  - exists owner. destruct (pi_map _ _ I _ _ H0) as (Eo & _ & (c & Hc & Hcl) & _).
    assert (chan_closed c = false) as Hopen by (destruct (chan_closed c); [rewrite Hcl in H by done; done|done]).
    apply pend_shrink; [done|done|done|done| | |].
    + intros c' x Hx. by eapply heap_same.
    + intros t c' x Hp Hx Hc'. rewrite (closed_cleaning _ _ _ _ _ I Hp Hx Hc') in H. done.
    + intros t c' b [= <- <- <-]. eauto.
  - exists owner. destruct (pi_clean _ _ I _ _ _ H) as (Eo & _).
    apply pend_shrink; [done|done|done| | | |].
    + intros c' Hc'. apply lookup_insert_is_Some'. auto.
    + intros c' x [[<- <-]|[_ Hx]]%lookup_insert_Some; [|by eapply heap_same].
      eapply heap_same in H0; eauto.
    + intros t c' x Hp [[<- <-]|[_ Hx]]%lookup_insert_Some Hc.
      * destruct (pi_map _ _ I _ _ Hp) as (<- & _). by rewrite Eo.
      * rewrite (closed_cleaning _ _ _ _ _ I Hp Hx Hc) in H. done.
    + intros t c' b' [= <- <- <-]. split; [done|]. rewrite lookup_insert_eq. eauto.
  - exists owner. apply pend_shrink; [done|apply delete_subseteq|done|done| | |done].
    + intros c' x Hx. by eapply heap_same.
    + intros t c' x [Hne Hp]%lookup_delete_Some Hx Hc. rewrite (closed_cleaning _ _ _ _ _ I Hp Hx Hc) in H. congruence.
Qed.

Definition pend_reachable (s : Pend) : Prop := rtc pend_step pend_init s.

Lemma pend_reachable_inv s : pend_reachable s -> exists owner, pend_inv owner s.
Proof.
  intros Hs. pose proof pend_init_inv as I. revert I. generalize (fun _ : nat => "").
  unfold pend_reachable in Hs. induction Hs as [s|s1 s2 s3 H1 _ IH]; intros owner I; [eauto|].
  destruct (pend_step_inv _ _ _ I H1) as [o2 I2]. eauto.
Qed.

(** C23: Responses go to their own request. In every interleaving of requests,
    deliveries, timeouts and stream clean-ups, a request that returns a message
    returns one whose tag parses to the very tag the request was sent with; the
    map only holds entries of requests still in progress (no entry is leaked);
    and the clean-up finds every channel it visits open, and the one it is about
    to close still open, whatever happened since it was visited, so that its
    close never panics. *)
Theorem pending_responses_correlated s :
  pend_reachable s ->
  (forall r tag m, reqs s !! r = Some (ReqDone tag (Ok m)) -> uuid_parse (Tag m) = Some tag) /\
  (forall tag ch, pendingResponses s !! tag = Some ch ->
     exists r q, reqs s !! r = Some q /\ req_chan q = Some (tag, ch)) /\
  (cleaning s = None -> forall tag ch, pendingResponses s !! tag = Some ch ->
     exists b, heap s !! ch = Some (mkChan b false)) /\
  (forall tag ch, cleaning s = Some (tag, ch, false) -> exists b, heap s !! ch = Some (mkChan b false)).
Proof.
  intros [owner I]%pend_reachable_inv. split_and!.
  - intros. eapply pi_done; eauto.
  - intros tag ch Hp. by destruct (pi_map _ _ I _ _ Hp) as (_ & _ & _ & ?).
  - intros Hc tag ch Hp. destruct (pi_map _ _ I _ _ Hp) as (_ & _ & ([b cl] & Hx & Hcl) & _).
    exists b. destruct cl; [|done]. rewrite Hcl in Hc by done. done.
  - intros tag ch Hc. destruct (pi_clean _ _ I _ _ _ Hc) as (_ & [b cl] & Hx & Hcl). cbn in Hcl. subst. eauto.
Qed.
End Pending.

(** A request whose response is delivered and received. *)
Definition demo_pend1 : Pend :=
  mkPend {["t" := 0%nat]} {[0%nat := mkChan None false]} {[1%nat := ReqStored "t" 0]} ∅ None ({["t"]} ∪ ∅) 0.

Lemma pending_responses_correlated_witness :
  exists s, reqs s !! 1%nat = Some (ReqDone "t" (Ok (mkMsg "PONG" "" "t"))) /\
    (forall r tag m, reqs s !! r = Some (ReqDone tag (Ok m)) -> Some (Tag m) = Some tag).
Proof.
  eexists. refine (_ : _ /\ _). split; cycle 1.
  - refine (proj1 (pending_responses_correlated (fun t => Some t) _ _)).
    unfold pend_reachable.
    eapply rtc_l; [apply (ps_store _ _ 1 "t" 0); [done|set_solver|done]|].
    eapply rtc_l; [eapply (ps_send_ok _ _ 1 "t" 0); reflexivity|].
    eapply rtc_l; [eapply (ps_load _ _ 5 (mkMsg "PONG" "" "t") "t" 0); reflexivity|].
    eapply rtc_l; [eapply (ps_deliver _ _ 5 "t" 0 (mkMsg "PONG" "" "t")); reflexivity|].
    eapply rtc_l; [eapply (ps_receive _ _ 1 "t" 0 (mkMsg "PONG" "" "t") false); reflexivity|].
    apply rtc_refl.
  - reflexivity.
Defined.

(** ** The heartbeat *)

Inductive HeartbeatEnd := CtxDone | TooManyFailures.

(** What one tick of [runHeartbeat] sees: the context is done (before the tick
    or after the exchange), or the exchange failed or succeeded. *)
Inductive Beat := BeatCtxDone | BeatFailed | BeatOk.

Definition maxConsecutiveFailures : nat := 3.

Fixpoint runHeartbeat (consecutiveFailures : nat) (beats : list Beat) : option HeartbeatEnd :=
  match beats with
  | [] => None
  | BeatCtxDone :: _ => Some CtxDone
  | BeatFailed :: rest =>
      let f := S consecutiveFailures in
      if (maxConsecutiveFailures <=? f)%nat then Some TooManyFailures else runHeartbeat f rest
  | BeatOk :: rest => runHeartbeat 0 rest
  end.

Definition is_failed (b : Beat) : bool := match b with BeatFailed => true | _ => false end.

Lemma heartbeat_three_aux beats : forall f,
  (f < 3)%nat -> Forall (fun b => b <> BeatCtxDone) beats ->
  (runHeartbeat f beats = Some TooManyFailures <->
   exists pre post, replicate f BeatFailed ++ beats = pre ++ replicate 3 BeatFailed ++ post).
Proof.
  induction beats as [|b beats IH]; intros f Hf Hc.
  - simpl. rewrite app_nil_r. split; [done|]. intros (pre & post & E).
    apply (f_equal length) in E. rewrite !length_app, !length_replicate in E. simpl in E. lia.
  - inversion Hc as [|? ? Hb Hc']; subst. destruct b; [done| |]; simpl.
    + destruct f as [|[|[|f]]]; [| | |lia]; unfold maxConsecutiveFailures; simpl.
      * rewrite (IH 1%nat) by (lia || done). done.
      * rewrite (IH 2%nat) by (lia || done). done.
      * split; [|done]. intros _. exists [], beats. done.
    + rewrite (IH 0%nat) by (lia || done). simpl. split.
      * intros (pre & post & E). exists (replicate f BeatFailed ++ BeatOk :: pre), post.
        rewrite E, <-app_assoc. done.
      * intros (pre & post & E).
        destruct (decide (length pre <= f)%nat) as [Hle|Hgt].
        -- exfalso. assert ((replicate f BeatFailed ++ BeatOk :: beats) !! f = Some BeatOk) as Hl.
           { rewrite lookup_app_r by (rewrite length_replicate; lia).
             by rewrite length_replicate, Nat.sub_diag. }
           rewrite E, lookup_app_r in Hl by lia.
           destruct (f - length pre)%nat as [|[|[|k]]] eqn:Ek; [done|done|done|lia].
        -- exists (drop (S f) pre), post.
           apply (f_equal (drop (S f))) in E.
           rewrite (drop_app_ge (replicate f BeatFailed)) in E by (rewrite length_replicate; lia).
           rewrite length_replicate in E. replace (S f - f)%nat with 1%nat in E by lia.
           simpl in E. rewrite drop_0 in E. rewrite E. apply drop_app_le. lia.
Qed.

(** While its stream lives, the heartbeat gives up exactly when three
    heartbeats in a row have failed: any success in between starts the count
    again, and no other sequence of outcomes ends the stream. *)
Theorem runHeartbeat_three_in_a_row beats :
  Forall (fun b => b <> BeatCtxDone) beats ->
  (runHeartbeat 0 beats = Some TooManyFailures <->
   exists pre post, beats = pre ++ [BeatFailed; BeatFailed; BeatFailed] ++ post) /\
  (runHeartbeat 0 beats <> Some TooManyFailures -> runHeartbeat 0 beats = None).
Proof.
  intros Hc. split; [apply (heartbeat_three_aux beats 0); [lia|done]|].
  generalize 0%nat. revert Hc. induction 1 as [|b beats Hb _ IH]; intros f; [done|].
  destruct b; [done| |apply IH]. cbn [runHeartbeat]. destruct (maxConsecutiveFailures <=? S f)%nat;
    [congruence|apply IH].
Qed.

Lemma runHeartbeat_three_in_a_row_witness :
  runHeartbeat 0 [BeatFailed; BeatFailed; BeatOk; BeatFailed; BeatFailed] = None.
Proof.
  apply runHeartbeat_three_in_a_row; [repeat constructor; done|vm_compute; discriminate].
Defined.
