(* ===== verification/TokenStore.v ===== *)
(** * Single-use upload and pull tokens ([src/datastore/upload_tokens.go])

    The token functions over the database interface. Section variables: the
    SHA-256 of [hashToken], the JSON codecs of build arguments and of the build
    target ([encoding/json]), and the clock of [time.Now]. *)
From S2P Require Import Prelude GoStrings Db BuildJobs.

Definition PurposeUpload : string := "upload".
Definition PurposePull : string := "pull".
Definition PurposeBuildImage : string := "build_image".

Record BuildTargetSpec := mkTarget { TargetRepo : string; TargetTags : list string }.

#[export] Instance BuildTargetSpec_eq_dec : EqDecision BuildTargetSpec.
Proof. solve_decision. Defined.

Record UploadToken := mkUploadToken {
  ut_id : Z;
  ut_token : string;
  ut_deployConfig : string;
  ut_dockerfile : string;
  ut_buildArgs : list BuildArg;
  ut_expiresAt : Z;
  ut_used : bool;
  ut_createdAt : Z;
  ut_purpose : string;
  ut_buildTarget : option BuildTargetSpec
}.

(** The codecs and the hash the store is built on. *)
Class TokenCodec := {
  sha256_hex : string -> string;
  marshal_args : list BuildArg -> result string string;
  unmarshal_args : string -> result string (list BuildArg);
  marshal_target : BuildTargetSpec -> result string string;
  unmarshal_target : string -> result string BuildTargetSpec
}.

Section Tokens.
Context {DB : Type} {DBI : Database DB} {TC : TokenCodec}.

Definition hashToken (raw : string) : string := sha256_hex raw.
Definition constantTimeEqualHash (a b : string) : bool := String.eqb a b.

Definition encodeBuildArgs (buildArgs : list BuildArg) : result string string :=
  match buildArgs with
  | [] => Ok "[]"
  | _ => match marshal_args buildArgs with
         | Err e => Err ("marshal build args: " ++ e)%string
         | Ok j => Ok j
         end
  end.

(** *** Statements *)

Definition has_hash (h : string) (m : UploadTokenModel) : bool := String.eqb (TokenHash m) h.

(** INSERT; the unique index on token_hash rejects a duplicate. *)
Definition insert_token (h : string) (mk : Z -> Z -> UploadTokenModel) : Stmt unit :=
  fun s t =>
    if existsb (has_hash h) (tokens_t t)
    then (Err "duplicate key value violates unique constraint idx_upload_tokens_token_hash", t)
    else (Ok tt, set_tokens (insert_rows [mk (at_time s)] s (tokens_t t)) t).

Definition matches_purposes (h : string) (purposes : list string) (m : UploadTokenModel) : bool :=
  has_hash h m && existsb (String.eqb (Purpose m)) purposes.

Definition first_token (h : string) (purposes : list string) : Stmt (option UploadTokenModel) :=
  fun _ t => (Ok (List.find (matches_purposes h purposes) (tokens_t t)), t).

Definition unused_with_hash (h : string) (m : UploadTokenModel) : bool :=
  has_hash h m && negb (Used m).

Definition set_used (m : UploadTokenModel) : UploadTokenModel :=
  mkToken (tok_row_id m) (TokenHash m) (DeployConfig m) (Dockerfile m) (BuildArgs m)
    (BuildTarget m) (ExpiresAt m) true (TokCreatedAt m) (Purpose m).

Definition mark_used (h : string) : Stmt nat :=
  fun _ t =>
    let '(rows, n) := update_where (unused_with_hash h) set_used (tokens_t t) in
    (Ok n, set_tokens rows t).

Definition delete_expired (now : Z) : Stmt unit :=
  fun _ t => (Ok tt, set_tokens (List.filter (fun m => negb (ExpiresAt m <? now)) (tokens_t t)) t).

(** *** Operations *)

Definition CreateUploadToken (token osid cliUploadID dockerfile : string)
  (buildArgs : list BuildArg) (expiresAt : Z) : DB -> result string unit * DB :=
  activeDB (fun gdb =>
    let deployConfig := if String.eqb cliUploadID "" then osid else (osid ++ ":" ++ cliUploadID)%string in
    match encodeBuildArgs buildArgs with
    | Err e => (Err e, gdb)
    | Ok argsJSON =>
        stmt (insert_token (hashToken token)
          (fun now i => mkToken i (hashToken token) deployConfig dockerfile argsJSON "" expiresAt
                          false now PurposeUpload)) gdb
    end).

Definition CreateBuildImageToken (token uploadID repo : string) (tags : list string)
  (dockerfile : string) (buildArgs : list BuildArg) (expiresAt : Z) : DB -> result string unit * DB :=
  activeDB (fun gdb =>
    let deployConfig := (repo ++ ":" ++ uploadID)%string in
    match encodeBuildArgs buildArgs with
    | Err e => (Err e, gdb)
    | Ok argsJSON =>
        match marshal_target (mkTarget repo tags) with
        | Err e => (Err ("marshal build target: " ++ e)%string, gdb)
        | Ok targetJSON =>
            stmt (insert_token (hashToken token)
              (fun now i => mkToken i (hashToken token) deployConfig dockerfile argsJSON targetJSON
                              expiresAt false now PurposeBuildImage)) gdb
        end
    end).

(** The columns the row leaves out take their declared defaults. *)
Definition CreatePullToken (token osid cliUploadID : string) (expiresAt : Z)
  : DB -> result string unit * DB :=
  activeDB (stmt (insert_token (hashToken token)
    (fun now i => mkToken i (hashToken token) (osid ++ ":" ++ cliUploadID)%string "" "[]" ""
                    expiresAt false now PurposePull))).

(** The part of [getTokenByPurposes] after the row was found. *)
Definition token_of_row (token : string) (m : UploadTokenModel) : result string UploadToken :=
  if negb (constantTimeEqualHash (TokenHash m) (hashToken token)) then Err "token not found"
  else
    let args :=
      if negb (String.eqb (BuildArgs m) "") && negb (String.eqb (BuildArgs m) "[]") then
        match unmarshal_args (BuildArgs m) with
        | Err e => Err ("unmarshal build args for token: " ++ e)%string
        | Ok a => Ok a
        end
      else Ok [] in
    match args with
    | Err e => Err e
    | Ok args =>
        let bt := TrimSpace (BuildTarget m) in
        let target :=
          if negb (String.eqb bt "") && negb (String.eqb bt "{}") then
            match unmarshal_target bt with
            | Err e => Err ("unmarshal build target for token: " ++ e)%string
            | Ok spec => Ok (Some spec)
            end
          else Ok None in
        match target with
        | Err e => Err e
        | Ok target =>
            Ok (mkUploadToken (tok_row_id m) token (DeployConfig m) (Dockerfile m) args
                  (ExpiresAt m) (Used m) (TokCreatedAt m) (Purpose m) target)
        end
    end.

Definition getTokenByPurposes (token : string) (purposes : list string) (db : DB)
  : result string UploadToken * DB :=
  match purposes with
  | [] => (Err "no purpose specified", db)
  | _ =>
      activeDB (fun gdb =>
        match stmt (first_token (hashToken token) purposes) gdb with
        | (Err e, gdb) => (Err e, gdb)
        | (Ok None, gdb) => (Err "token not found", gdb)
        | (Ok (Some m), gdb) => (token_of_row token m, gdb)
        end) db
  end.

Definition getTokenByPurpose (token purpose : string) := getTokenByPurposes token [purpose].
Definition GetUploadToken (token : string) := getTokenByPurpose token PurposeUpload.
Definition GetPullToken (token : string) := getTokenByPurpose token PurposePull.
Definition GetUploadableToken (token : string) :=
  getTokenByPurposes token [PurposeUpload; PurposeBuildImage].

Definition MarkUploadTokenUsed (token : string) : DB -> result string unit * DB :=
  activeDB (fun gdb =>
    match stmt (mark_used (hashToken token)) gdb with
    | (Err e, gdb) => (Err e, gdb)
    | (Ok n, gdb) => if Nat.eqb n 0 then (Err "token not found or already used", gdb) else (Ok tt, gdb)
    end).

Definition DeleteExpiredUploadTokens (now : Z) : DB -> result string unit * DB :=
  activeDB (stmt (delete_expired now)).
End Tokens.

(** ** Lemmas *)

Section Lemmas.
Context {DB : Type} {DBI : Database DB} {DBL : DatabaseLaws DB} {TC : TokenCodec}.

(** Every row with this hash is used (there may be none). *)
Definition spent (h : string) (t : Tables) : Prop :=
  forall m, m ∈ tokens_t t -> TokenHash m = h -> Used m = true.

Lemma stmt_spent {A} h (s : Stmt A) (db : DB) :
  (forall st t, spent h t -> spent h (s st t).2) ->
  spent h (tables db) -> spent h (tables (stmt s db).2).
Proof. intros Hs H. destruct (stmt_spec _ s db) as [[_ ->]|(e & _ & ->)]; auto. Qed.

Lemma mark_used_rows h h' t :
  tokens_t (mark_used h (mkStamp 0 (fun _ => 0)) t).2 =
    map (fun m => if unused_with_hash h m then set_used m else m) (tokens_t t) /\
  (spent h' t -> spent h' (mark_used h (mkStamp 0 (fun _ => 0)) t).2).
Proof.
  split; [done|]. intros Hs m (y & -> & Hy)%list_elem_of_fmap.
  destruct (unused_with_hash h y); [done|]. by apply Hs.
Qed.

Lemma mark_used_spends h st t : spent h (mark_used h st t).2.
Proof.
  intros m (y & -> & Hy)%list_elem_of_fmap. destruct (unused_with_hash h y) eqn:E; [done|].
  unfold unused_with_hash, has_hash in E. intros <-.
  rewrite String.eqb_refl in E. simpl in E. by apply negb_false_iff in E.
Qed.

Lemma mark_used_spent h st t : spent h t -> (mark_used h st t).1 = Ok 0%nat.
Proof.
  intros Hs. simpl. f_equal. replace (List.filter (unused_with_hash h) (tokens_t t))
    with (@nil UploadTokenModel); [done|]. symmetry.
  assert (forall m, In m (tokens_t t) -> unused_with_hash h m = false) as Hf.
  { intros m Hm%list_elem_of_In. unfold unused_with_hash, has_hash.
    destruct (String.eqb_spec (TokenHash m) h) as [E|]; [|done]. by rewrite (Hs m Hm E). }
  clear Hs. induction (tokens_t t) as [|m l IH]; [done|]. simpl.
  rewrite Hf by (by left). apply IH. intros. apply Hf. by right.
Qed.

Lemma insert_token_spent h h' mk st t :
  h' <> h -> (forall now i, TokenHash (mk now i) = h') ->
  spent h t -> spent h (insert_token h' mk st t).2.
Proof.
  intros Hne Hmk Hs. unfold insert_token. destruct (existsb _ _); [done|].
  intros m. simpl. unfold insert_rows. simpl. rewrite elem_of_app, list_elem_of_singleton.
  intros [Hm| ->]; [by apply Hs|]. by rewrite Hmk.
Qed.

Lemma delete_expired_spent h now st t : spent h t -> spent h (delete_expired now st t).2.
Proof.
  intros Hs m. simpl. rewrite list_elem_of_In, List.filter_In, <-list_elem_of_In.
  intros [Hm _]. by apply Hs.
Qed.

(** Token operations of any other goroutine: requests with any token, new
    tokens other than this one, the expiry sweep. *)
Inductive token_step (h : string) : DB -> DB -> Prop :=
| ts_upload tk o c d a e db : hashToken tk <> h -> token_step h db (CreateUploadToken tk o c d a e db).2
| ts_image tk u r tags d a e db :
    hashToken tk <> h -> token_step h db (CreateBuildImageToken tk u r tags d a e db).2
| ts_pull tk o c e db : hashToken tk <> h -> token_step h db (CreatePullToken tk o c e db).2
| ts_get tk ps db : token_step h db (getTokenByPurposes tk ps db).2
| ts_mark tk db : token_step h db (MarkUploadTokenUsed tk db).2
| ts_sweep now db : token_step h db (DeleteExpiredUploadTokens now db).2.

Lemma mark_state tk (db : DB) :
  (MarkUploadTokenUsed tk db).2 = if handle db then (stmt (mark_used (hashToken tk)) db).2 else db.
Proof.
  unfold MarkUploadTokenUsed, activeDB. destruct (handle db); [|done].
  destruct (stmt _ db) as [[n|e] db']; [by destruct (Nat.eqb n 0)|done].
Qed.

Lemma get_state tk ps (db : DB) : tables (getTokenByPurposes tk ps db).2 = tables db.
Proof.
  unfold getTokenByPurposes. destruct ps as [|p ps]; [done|].
  unfold activeDB. destruct (handle db); [|done].
  stmt_cases (first_token (hashToken tk) (p :: ps)) db; [|done].
  simpl. by destruct (List.find _ _).
Qed.

Lemma token_step_spent h (db db' : DB) :
  token_step h db db' -> spent h (tables db) -> spent h (tables db').
Proof.
  intros Hst Hs. destruct Hst.
  - unfold CreateUploadToken, activeDB. destruct (handle db), (encodeBuildArgs a); try done.
    apply stmt_spent; [|done]. intros. by apply insert_token_spent.
  - unfold CreateBuildImageToken, activeDB.
    destruct (handle db), (encodeBuildArgs a), (marshal_target (mkTarget r tags)); try done.
    apply stmt_spent; [|done]. intros. by apply insert_token_spent.
  - unfold CreatePullToken, activeDB. destruct (handle db); [|done].
    apply stmt_spent; [|done]. intros. by apply insert_token_spent.
  - by rewrite get_state.
  - rewrite mark_state. destruct (handle db); [|done].
    apply stmt_spent; [|done]. intros st t. apply (mark_used_rows (hashToken tk) h t).
  - unfold DeleteExpiredUploadTokens, activeDB. destruct (handle db); [|done].
    apply stmt_spent; [|done]. intros st t. apply delete_expired_spent.
Qed.

Lemma token_steps_spent h (db db' : DB) :
  rtc (token_step h) db db' -> spent h (tables db) -> spent h (tables db').
Proof. induction 1; eauto using token_step_spent. Qed.

Lemma mark_ok_spends tk (db db' : DB) :
  MarkUploadTokenUsed tk db = (Ok tt, db') -> spent (hashToken tk) (tables db').
Proof.
  unfold MarkUploadTokenUsed, activeDB. destruct (handle db); [|done].
  stmt_cases (mark_used (hashToken tk)) db; [|done]. simpl.
  intros Hm. assert (db' = d) as -> by (by destruct (Nat.eqb _ 0); simplify_eq).
  rewrite Htab. apply mark_used_spends.
Qed.

Lemma mark_spent_fails tk (db : DB) :
  spent (hashToken tk) (tables db) -> is_ok (MarkUploadTokenUsed tk db).1 = false.
Proof.
  intros Hs. unfold MarkUploadTokenUsed, activeDB. destruct (handle db); [|done].
  stmt_cases (mark_used (hashToken tk)) db; [|done].
  by rewrite mark_used_spent.
Qed.
End Lemmas.

Lemma find_last {A} (p : A -> bool) l x :
  existsb p l = false -> p x = true -> List.find p (l ++ [x]) = Some x.
Proof.
  induction l as [|y l IH]; simpl; [by intros _ ->|].
  destruct (p y); [done|]. by apply IH.
Qed.

Lemma existsb_weaken {A} (p q : A -> bool) l :
  (forall x, q x = true -> p x = true) -> existsb p l = false -> existsb q l = false.
Proof.
  intros Hpq. induction l as [|y l IH]; simpl; [done|].
  destruct (p y) eqn:Hp; [done|]. intros H. destruct (q y) eqn:Hq; [|by apply IH].
  rewrite (Hpq y Hq) in Hp. done.
Qed.

(** ** Properties *)

Section Properties.
Context {DB : Type} {DBI : Database DB} {DBL : DatabaseLaws DB} {TC : TokenCodec}.

(** What a lookup that answers has found. *)
Lemma lookup_row token purposes (db : DB) :
  match getTokenByPurposes token purposes db with
  | (Err _, db') => tables db' = tables db
  | (Ok t, db') =>
      tables db' = tables db /\ ut_purpose t ∈ purposes /\ ut_token t = token /\
      exists m, m ∈ tokens_t (tables db) /\ TokenHash m = hashToken token /\
        Purpose m = ut_purpose t /\ DeployConfig m = ut_deployConfig t /\
        ExpiresAt m = ut_expiresAt t /\ Used m = ut_used t
  end.
Proof.
  pose proof (get_state token purposes db) as Ht.
  unfold getTokenByPurposes, activeDB in *. destruct purposes as [|p ps]; [done|].
  destruct (handle db); [|done].
  stmt_cases (first_token (hashToken token) (p :: ps)) db; [|done].
  simpl in *. destruct (List.find _ _) as [m|] eqn:Hf; [|done]. simpl in *.
  apply List.find_some in Hf as [Hin [Hh%String.eqb_eq Hp]%andb_prop].
  apply list_elem_of_In in Hin. rewrite existsb_exists in Hp.
  destruct Hp as (p' & Hp'%list_elem_of_In & <-%String.eqb_eq).
  unfold token_of_row. cases; try done; (split_and!; [done|done|done|]; eauto 10).
Qed.

(** C10: Tokens are single-use. After one request has marked a token used, no
    later request can: whatever tokens other goroutines look up, mark or create
    (other than minting this very token again) and whatever the expiry sweep
    deletes, with database errors anywhere, a second mark is an error. *)
Theorem token_single_use token (db db1 db2 : DB) :
  MarkUploadTokenUsed token db = (Ok tt, db1) ->
  rtc (token_step (hashToken token)) db1 db2 ->
  is_ok (MarkUploadTokenUsed token db2).1 = false.
Proof.
  intros Hm Hs. apply mark_spent_fails. eauto using token_steps_spent, mark_ok_spends.
Qed.

(** Purpose isolation. A token the pull lookup answers comes from a stored
    row of purpose pull with the hash of the presented token, and a token the
    upload lookup answers from such a row of purpose upload or build_image, so
    neither endpoint ever serves the other's tokens (when two lookups of one
    token in one database state both answer, their rows have different
    purposes); the answer carries the row's configuration, expiry and used flag,
    and no lookup changes the database. *)
Theorem token_purpose_isolation token (db : DB) :
  (match GetPullToken token db with
   | (Err _, db') => tables db' = tables db
   | (Ok t, db') => tables db' = tables db /\ ut_purpose t = PurposePull /\
       exists m, m ∈ tokens_t (tables db) /\ TokenHash m = hashToken token /\ Purpose m = PurposePull /\
         DeployConfig m = ut_deployConfig t /\ ExpiresAt m = ut_expiresAt t /\ Used m = ut_used t
   end) /\
  (match GetUploadableToken token db with
   | (Err _, db') => tables db' = tables db
   | (Ok t, db') => tables db' = tables db /\ ut_purpose t <> PurposePull /\
       exists m, m ∈ tokens_t (tables db) /\ TokenHash m = hashToken token /\
         (Purpose m = PurposeUpload \/ Purpose m = PurposeBuildImage) /\
         DeployConfig m = ut_deployConfig t /\ ExpiresAt m = ut_expiresAt t /\ Used m = ut_used t
   end).
Proof.
  split.
  - pose proof (lookup_row token [PurposePull] db) as H. unfold GetPullToken, getTokenByPurpose.
    destruct (getTokenByPurposes _ _ _) as [[t|e] db']; [|done].
    destruct H as (? & Hin%list_elem_of_singleton & _ & m & Hm). rewrite Hin in *. eauto 10.
  - pose proof (lookup_row token [PurposeUpload; PurposeBuildImage] db) as H. unfold GetUploadableToken.
    destruct (getTokenByPurposes _ _ _) as [[t|e] db']; [|done].
    destruct H as (? & Hin & _ & m & Hm1 & Hm2 & Ep & Hm). rewrite <-Ep in *. rewrite !elem_of_cons in Hin.
    destruct Hin as [E|[E|Hin%not_elem_of_nil]]; [| |done]; (split_and!; [done|by rewrite E|]); eauto 10.
Qed.

(** What a CLI deploy token carries survives the gap between minting and
    upload. After a successful mint, the upload lookup answers exactly the
    minted values (unused, no build target), unless the lookup statement itself
    fails, and the pull lookup never answers it. The hypothesis is that
    encoding/json decodes what it encoded. *)
Theorem upload_token_roundtrip token osid cli dockerfile args expires (db db1 : DB) :
  (forall j, marshal_args args = Ok j -> j <> "" /\ j <> "[]" /\ unmarshal_args j = Ok args) ->
  CreateUploadToken token osid cli dockerfile args expires db = (Ok tt, db1) ->
  (match GetUploadableToken token db1 with
   | (Ok t, _) => exists i created,
       t = mkUploadToken i token (if String.eqb cli "" then osid else osid ++ ":" ++ cli)%string
             dockerfile args expires false created PurposeUpload None
   | (Err e, _) => e = ErrNotReady \/
       exists db2, stmt (first_token (hashToken token) [PurposeUpload; PurposeBuildImage]) db1 = (Err e, db2)
   end) /\
  is_ok (GetPullToken token db1).1 = false.
Proof.
  intros Hcodec Hc. unfold CreateUploadToken, activeDB in Hc. destruct (handle db); [|done].
  destruct (encodeBuildArgs args) as [j|] eqn:Hj; [|done].
  set (mk := fun now i => _) in Hc. stmt_cases (insert_token (hashToken token) mk) db; [|done].
  unfold insert_token in *. destruct (existsb (has_hash (hashToken token)) (tokens_t (tables db))) eqn:Hex; [done|].
  simplify_eq/=. unfold insert_rows in Htab. simpl in Htab.
  set (row := mk _ _) in Htab. split.
  - unfold GetUploadableToken, getTokenByPurposes, activeDB. destruct (handle db1); [|by left].
    stmt_cases (first_token (hashToken token) [PurposeUpload; PurposeBuildImage]) db1; [|eauto].
    simpl. rewrite Htab. simpl. rewrite find_last.
    + unfold token_of_row. simpl. unfold constantTimeEqualHash. rewrite String.eqb_refl. simpl.
      unfold encodeBuildArgs in Hj. destruct args as [|a args].
      { simplify_eq/=. eauto. }
      destruct (marshal_args (a :: args)) as [j'|]; [|done]. simplify_eq/=.
      destruct (Hcodec j eq_refl) as (H1 & H2 & ->).
      apply String.eqb_neq in H1 as ->. apply String.eqb_neq in H2 as ->. simpl. eauto.
    + eapply existsb_weaken; [|done]. by intros x [? _]%andb_prop.
    + unfold matches_purposes, has_hash. simpl. by rewrite String.eqb_refl.
  - unfold GetPullToken, getTokenByPurpose, getTokenByPurposes, activeDB.
    destruct (handle db1); [|done].
    stmt_cases (first_token (hashToken token) [PurposePull]) db1; [|done].
    simpl. rewrite Htab. simpl. destruct (List.find _ _) as [m|] eqn:Hf; [|done].
    exfalso. apply List.find_some in Hf as [[Hin|[<-|[]]]%in_app_iff [Hh Hp]%andb_prop].
    + assert (existsb (has_hash (hashToken token)) (tokens_t (tables db)) = true); [|congruence].
      apply existsb_exists. eauto.
    + done.
Qed.

(** The expiry sweep deletes the tokens that have expired and no others:
    after it succeeds the remaining rows are, in order, the rows whose expiry is
    not before the sweep's clock; after an error the rows are unchanged. *)
Theorem delete_expired_spec now (db : DB) :
  match DeleteExpiredUploadTokens now db with
  | (Ok _, db') => tokens_t (tables db') = List.filter (fun m => now <=? ExpiresAt m) (tokens_t (tables db))
  | (Err _, db') => tables db' = tables db
  end.
Proof.
  unfold DeleteExpiredUploadTokens, activeDB. destruct (handle db); [|done].
  stmt_cases (delete_expired now) db; [|done]. simpl. rewrite Htab. simpl.
  apply List.filter_ext. intros m. symmetry. apply Z.leb_antisym.
Qed.
End Properties.

(** ** Witnesses *)

Definition demo_args : list BuildArg := [mkBuildArg "NODE_ENV" "production" "yaml"].

#[export] Instance demo_codec : TokenCodec := {
  sha256_hex s := ("sha:" ++ s)%string;
  marshal_args _ := Ok "[{NODE_ENV}]";
  unmarshal_args _ := Ok demo_args;
  marshal_target _ := Ok "{runos}";
  unmarshal_target _ := Ok (mkTarget "runos" ["latest"])
}.

Definition demo_created : MemDb :=
  (CreateUploadToken "secret" "app1" "cli1" "Dockerfile" demo_args 5000 (mem_ready empty_tables)).2.

Lemma token_single_use_witness :
  is_ok (MarkUploadTokenUsed "secret" (MarkUploadTokenUsed "other" (MarkUploadTokenUsed "secret" demo_created).2).2).1
  = false.
Proof.
  apply (token_single_use (DB := MemDb) "secret" demo_created (MarkUploadTokenUsed "secret" demo_created).2);
    [vm_compute; reflexivity|]. apply rtc_once. apply ts_mark.
Defined.

Lemma token_purpose_isolation_witness :
  match GetUploadableToken "secret" demo_created with
  | (Ok t, _) => ut_purpose t <> PurposePull
  | _ => False
  end.
Proof.
  pose proof (proj2 (token_purpose_isolation (DB := MemDb) "secret" demo_created)) as H.
  destruct (GetUploadableToken _ _) as [[t|e] db'] eqn:E; [apply H|].
  apply (f_equal (fun x => is_ok x.1)) in E. vm_compute in E. discriminate.
Defined.

Lemma upload_token_roundtrip_witness :
  is_ok (GetUploadableToken "secret" demo_created).1 = true /\
  is_ok (GetPullToken "secret" demo_created).1 = false.
Proof.
  split; [vm_compute; reflexivity|].
  apply (upload_token_roundtrip (DB := MemDb) "secret" "app1" "cli1" "Dockerfile" demo_args 5000
           (mem_ready empty_tables) demo_created); [|vm_compute; reflexivity].
  intros j [= <-]. split_and!; [discriminate|discriminate|reflexivity].
Defined.

Lemma delete_expired_spec_witness :
  match DeleteExpiredUploadTokens 6000 demo_created with
  | (Ok _, db') => tokens_t (tables db') = []
  | _ => False
  end.
Proof.
  pose proof (delete_expired_spec (DB := MemDb) 6000 demo_created) as H.
  vm_compute in H |- *. exact H.
Defined.
