(* ===== verification/Paths.v ===== *)
(** * Unix paths and the containment guards

    [path/filepath] as far as the agent uses it (lexical cleaning, joining,
    [Dir], [Base], [Rel]), and the two guards built on it:
    [resolveInsideWorkdir] of [src/agentstream/instructions/vcs_fetch_source.go]
    and the check [extractTarball] and [splitTarballDockerfile] of
    [src/webhook/cli_deploy_handler.go] make. *)
From S2P Require Import Prelude GoStrings.
Local Open Scope string_scope.

Definition slash : ascii := "/"%char.

(** A path split into whether it is rooted and its elements. *)
Definition is_rooted (p : string) : bool := HasPrefix p "/".
Definition IsAbs (p : string) : bool := is_rooted p.

(** One element of the path pushed on the reversed list of kept elements. *)
Definition push_elem (rooted : bool) (stack : list string) (e : string) : list string :=
  if String.eqb e "" || String.eqb e "." then stack
  else if String.eqb e ".." then
    match stack with
    | top :: rest => if String.eqb top ".." then ".." :: stack else rest
    | [] => if rooted then [] else [".."]
    end
  else e :: stack.

Definition clean_elems (p : string) : list string :=
  rev (foldl (push_elem (is_rooted p)) [] (Split slash p)).

Definition render (rooted : bool) (elems : list string) : string :=
  let s := (if rooted then "/" else "") ++ Join elems "/" in
  if String.eqb s "" then "." else s.

Definition Clean (p : string) : string := render (is_rooted p) (clean_elems p).

(** [filepath.Join] of two elements. *)
Definition Join2 (a b : string) : string :=
  if String.eqb a "" then if String.eqb b "" then "" else Clean b
  else Clean (a ++ "/" ++ b).

(** Up to and after the last slash ([filepath.Split]). *)
Fixpoint split_last (s : string) : string * string :=
  match s with
  | EmptyString => ("", "")
  | String c s' =>
      let '(d, f) := split_last s' in
      if String.eqb d "" && negb (Ascii.eqb c slash) then ("", String c f) else (String c d, f)
  end.

Definition Dir (p : string) : string := Clean (split_last p).1.

Fixpoint strip_slashes (s : string) : string :=   (* of a reversed string *)
  match s with
  | String c s' => if Ascii.eqb c slash then strip_slashes s' else s
  | EmptyString => ""
  end.

Definition Base (p : string) : string :=
  if String.eqb p "" then "."
  else
    let q := rev_string (strip_slashes (rev_string p)) in
    let b := (split_last q).2 in
    if String.eqb b "" then "/" else b.

(** The common elements dropped from both lists. *)
Fixpoint strip_common (b t : list string) : list string * list string :=
  match b, t with
  | x :: b', y :: t' => if String.eqb x y then strip_common b' t' else (b, t)
  | _, _ => (b, t)
  end.

(** [filepath.Rel]. *)
Definition Rel (basepath targpath : string) : option string :=
  if String.eqb (Clean basepath) (Clean targpath) then Some "."
  else if negb (eqb (is_rooted basepath) (is_rooted targpath)) then None
  else
    let '(b, t) := strip_common (clean_elems basepath) (clean_elems targpath) in
    if match b with x :: _ => String.eqb x ".." | [] => false end then None
    else Some (Join (map (fun _ => "..") b ++ t)%list "/").

(** ** The guards *)

(** The check of [extractTarball] and of [resolveInsideWorkdir]:
    [cleanTarget != cleanDest && !HasPrefix(cleanTarget, cleanDest + "/")]. *)
Definition escapes (cleanTarget cleanDest : string) : bool :=
  negb (String.eqb cleanTarget cleanDest) && negb (HasPrefix cleanTarget (cleanDest ++ "/")).

Definition resolveInsideWorkdir (workdir rel : string) : result string string :=
  if IsAbs rel then Err "absolute paths not allowed"
  else
    let cleaned := Clean (Join2 workdir rel) in
    let cleanedWorkdir := Clean workdir in
    if escapes cleaned cleanedWorkdir then Err "path escapes workdir" else Ok cleaned.

Definition relTo (parent child : string) : string :=
  match Rel parent child with None => Clean child | Some rel => rel end.

Inductive StatResult := StatErr (e : string) | StatRegular | StatOther.

(** [splitTarballDockerfile] on an absolute [tarballRoot] (it is the path of a
    temporary directory), so that [filepath.Abs] is [Clean]; [stat] is
    [os.Stat]. *)
Definition splitTarballDockerfile (stat : string -> StatResult) (tarballRoot dockerfile : string)
  : result string (string * string) :=
  let trimmed := TrimSpace dockerfile in
  if String.eqb trimmed "" then Ok ("", "")
  else if IsAbs trimmed then
    Err ("dockerfile must be relative to the tarball root, got absolute path " ++ trimmed)
  else
    let absRoot := Clean tarballRoot in
    let joined := Join2 absRoot trimmed in
    let resolved := Clean joined in
    match Rel absRoot resolved with
    | None => Err ("dockerfile " ++ trimmed ++ " escapes tarball root")
    | Some rel =>
        if HasPrefix rel ".." || String.eqb rel ".." then
          Err ("dockerfile " ++ trimmed ++ " escapes tarball root")
        else
          match stat resolved with
          | StatErr e => Err ("dockerfile " ++ trimmed ++ " not found inside tarball: " ++ e)
          | StatOther => Err ("dockerfile " ++ trimmed ++ " is not a regular file")
          | StatRegular => Ok (Dir resolved, Base resolved)
          end
    end.

(** ** Lemmas on splitting and joining *)

Definition no_slash (e : string) : bool := negb (contains_char slash e).

Lemma Split_no_slash e : no_slash e = true -> Split slash e = [e].
Proof.
  unfold no_slash, contains_char. rewrite negb_involutive.
  induction e as [|c e IH]; [done|]. simpl. rewrite andb_true_iff, negb_true_iff.
  intros [-> He]. by rewrite IH.
Qed.

Lemma Split_slash_app a b : Split slash (a ++ String slash b) = (Split slash a ++ Split slash b)%list.
Proof.
  induction a as [|c a IH]; [done|]. simpl. destruct (Ascii.eqb c slash); [by rewrite IH|].
  rewrite IH. pose proof (Split_nonempty slash a). by destruct (Split slash a).
Qed.

Lemma Split_slash_Join es :
  es <> [] -> Forall (fun e => no_slash e = true) es -> Split slash (Join es "/") = es.
Proof.
  intros Hne H. induction H as [|e es He Hes IH]; [done|].
  destruct es as [|e' es]; [by apply Split_no_slash|].
  change (Join (e :: e' :: es) "/") with (e ++ String slash (Join (e' :: es) "/")).
  rewrite Split_slash_app, (Split_no_slash e He), IH by done. done.
Qed.

Lemma Split_elems s : Forall (fun e => no_slash e = true) (Split slash s).
Proof.
  induction s as [|c s IH]; [by repeat constructor|]. simpl.
  destruct (Ascii.eqb_spec c slash) as [->|Hc]; [by constructor|].
  pose proof (Split_nonempty slash s). destruct (Split slash s) as [|x xs]; [done|].
  inversion IH as [|? ? Hx Hxs]; subst. constructor; [|done].
  unfold no_slash, contains_char in *. rewrite negb_involutive in *. simpl.
  apply Ascii.eqb_neq in Hc. by rewrite Hc, Hx.
Qed.

(** ** Elements of a cleaned path *)

(** A proper element: not empty, not a dot or a double dot, without a slash. *)
Definition proper (e : string) : bool :=
  negb (String.eqb e "") && negb (String.eqb e ".") && negb (String.eqb e "..") && no_slash e.

Lemma push_rooted_proper st e :
  no_slash e = true -> Forall (fun e => proper e = true) st ->
  Forall (fun e => proper e = true) (push_elem true st e).
Proof.
  intros He H. unfold push_elem, proper.
  destruct (String.eqb e "") eqn:E1; [done|]. destruct (String.eqb e ".") eqn:E2; [done|].
  simpl. destruct (String.eqb e "..") eqn:E3.
  - destruct H as [|top rest Ht Hr]; [done|].
    unfold proper in Ht. destruct (String.eqb top ".."); [|done].
    by rewrite andb_false_r in Ht.
  - constructor; [|done]. by rewrite E1, E2, E3, He.
Qed.

Lemma fold_rooted_proper es st :
  Forall (fun e => no_slash e = true) es -> Forall (fun e => proper e = true) st ->
  Forall (fun e => proper e = true) (foldl (push_elem true) st es).
Proof.
  intros He. revert st. induction He as [|e es He _ IH]; intros st Hst; [done|].
  simpl. apply IH, push_rooted_proper; done.
Qed.

Lemma clean_elems_proper p :
  is_rooted p = true -> Forall (fun e => proper e = true) (clean_elems p).
Proof.
  intros Hr. unfold clean_elems. rewrite Hr. apply Forall_rev, fold_rooted_proper; [|done].
  apply Split_elems.
Qed.

(** Pushing proper elements keeps them all. *)
Lemma fold_proper_push r es st :
  Forall (fun e => proper e = true) es -> foldl (push_elem r) st es = (rev es ++ st)%list.
Proof.
  intros H. revert st. induction H as [|e es He _ IH]; intros st; [done|]. simpl. rewrite IH.
  rewrite <-app_assoc. f_equal. unfold push_elem, proper in *.
  destruct (String.eqb e ""), (String.eqb e "."), (String.eqb e ".."); done.
Qed.

Lemma proper_no_slash1 e : proper e = true -> no_slash e = true.
Proof. unfold proper. rewrite !andb_true_iff. tauto. Qed.

Lemma proper_no_slash es :
  Forall (fun e => proper e = true) es -> Forall (fun e => no_slash e = true) es.
Proof. intros H. eapply Forall_impl; [exact H|]. apply proper_no_slash1. Qed.

Definition abs_path (es : list string) : string := "/" ++ Join es "/".

Lemma is_rooted_slash s : is_rooted (String slash s) = true.
Proof. by destruct s. Qed.

Lemma Clean_rooted p : is_rooted p = true -> Clean p = abs_path (clean_elems p).
Proof. intros Hr. unfold Clean, render. by rewrite Hr. Qed.

Lemma Split_abs_path es :
  Forall (fun e => proper e = true) es -> es <> [] -> Split slash (abs_path es) = "" :: es.
Proof.
  intros H Hne. change (abs_path es) with ("" ++ String slash (Join es "/")).
  rewrite Split_slash_app, Split_slash_Join by (done || by apply proper_no_slash). done.
Qed.

Lemma clean_abs_path es :
  Forall (fun e => proper e = true) es -> clean_elems (abs_path es) = es.
Proof.
  intros H. destruct es as [|e es]; [done|].
  unfold clean_elems. rewrite (Split_abs_path (e :: es)) by done.
  rewrite (is_rooted_slash (Join (e :: es) "/") : is_rooted (abs_path (e :: es)) = true).
  change (foldl (push_elem true) [] ("" :: e :: es)) with (foldl (push_elem true) [] (e :: es)).
  rewrite fold_proper_push by done. by rewrite app_nil_r, rev_involutive.
Qed.

Lemma Clean_idem p : is_rooted p = true -> Clean (Clean p) = Clean p.
Proof.
  intros Hr. rewrite (Clean_rooted p Hr). rewrite Clean_rooted by apply is_rooted_slash.
  by rewrite clean_abs_path by (by apply clean_elems_proper).
Qed.

Lemma clean_elems_Clean p : is_rooted p = true -> clean_elems (Clean p) = clean_elems p.
Proof. intros Hr. rewrite Clean_rooted by done. by apply clean_abs_path, clean_elems_proper. Qed.

Lemma Clean_is_rooted p : is_rooted p = true -> is_rooted (Clean p) = true.
Proof. intros Hr. rewrite Clean_rooted by done. apply is_rooted_slash. Qed.

Lemma is_rooted_app p q : is_rooted p = true -> is_rooted (p ++ q) = true.
Proof. unfold is_rooted, HasPrefix. rewrite !prefix_app. intros [r ->]. exists (r ++ q). done. Qed.

Lemma is_rooted_nonempty p : is_rooted p = true -> String.eqb p "" = false.
Proof. by destruct p. Qed.

(** Joining walks the elements of the second path from the end of the first. *)
Lemma Join2_elems root name :
  is_rooted root = true ->
  is_rooted (Join2 root name) = true /\
  clean_elems (Join2 root name) =
    rev (foldl (push_elem true) (rev (clean_elems root)) (Split slash name)).
Proof.
  intros Hr. unfold Join2. rewrite is_rooted_nonempty by done.
  assert (is_rooted (root ++ "/" ++ name) = true) as Hr' by by apply is_rooted_app.
  split; [by apply Clean_is_rooted|]. rewrite clean_elems_Clean by done.
  unfold clean_elems. rewrite Hr, Hr'.
  change ("/" ++ name) with (String slash name).
  by rewrite Split_slash_app, foldl_app, rev_involutive.
Qed.

Lemma abs_path_inj es fs :
  Forall (fun e => proper e = true) es -> Forall (fun e => proper e = true) fs ->
  abs_path es = abs_path fs -> es = fs.
Proof. intros He Hf E. rewrite <-(clean_abs_path es He), E. by apply clean_abs_path. Qed.

Lemma Join_app es fs : es <> [] -> fs <> [] -> Join (es ++ fs)%list "/" = Join es "/" ++ "/" ++ Join fs "/".
Proof.
  intros He Hf. induction es as [|e es IH]; [done|].
  destruct es as [|e' es].
  - destruct fs; done.
  - change (Join ((e :: e' :: es) ++ fs)%list "/") with (e ++ "/" ++ Join ((e' :: es) ++ fs)%list "/").
    rewrite IH by done.
    change (Join (e :: e' :: es) "/") with (e ++ "/" ++ Join (e' :: es) "/").
    by rewrite !append_assoc.
Qed.

(** The string check is containment of element lists. *)
Lemma escapes_iff es fs :
  Forall (fun e => proper e = true) es -> Forall (fun e => proper e = true) fs -> es <> [] ->
  escapes (abs_path fs) (abs_path es) = false <-> es `prefix_of` fs.
Proof.
  intros He Hf Hne. unfold escapes. rewrite andb_false_iff, !negb_false_iff, String.eqb_eq.
  unfold HasPrefix. rewrite prefix_app. split.
  - intros [E|[r E]]; [by rewrite (abs_path_inj fs es)|].
    rewrite append_assoc in E. change ("/" ++ r) with (String slash r) in E.
    apply (f_equal (Split slash)) in E. rewrite Split_slash_app, (Split_abs_path es) in E by done.
    destruct fs as [|f fs].
    + pose proof (Split_nonempty slash r). apply (f_equal length) in E.
      rewrite length_app in E. destruct es, (Split slash r); simpl in E; done || lia.
    + rewrite Split_abs_path in E by done. simplify_list_eq. exists (Split slash r). by simplify_list_eq.
  - intros [rest ->]. destruct rest as [|x rest]; [left; by rewrite app_nil_r|right].
    exists (Join (x :: rest) "/"). unfold abs_path. rewrite Join_app by done.
    by rewrite !append_assoc.
Qed.

(** ** Containment *)

(** [p] lies in the tree at [root]: its elements extend the root's. *)
Definition inside (root p : string) : Prop := clean_elems root `prefix_of` clean_elems p.

(** The walk of [name] from [root] never needs to leave [root]; the guards
    accept exactly the walks that end inside. *)
Lemma guard_inside root p :
  is_rooted root = true -> clean_elems root <> [] -> is_rooted p = true ->
  escapes (Clean p) (Clean root) = false <-> inside root p.
Proof.
  intros Hr Hne Hp. rewrite (Clean_rooted p Hp), (Clean_rooted root Hr).
  apply escapes_iff; [by apply clean_elems_proper|by apply clean_elems_proper|done].
Qed.

(** C31: The workdir guard. For an absolute workdir other than the root
    directory, [resolveInsideWorkdir] accepts a relative path exactly when the
    path it denotes, after resolving every "." and ".." lexically, lies in the
    workdir's tree; then it returns that path, absolute and clean; every other
    path, an absolute one included, is refused. *)
Theorem resolveInsideWorkdir_spec workdir rel :
  is_rooted workdir = true -> clean_elems workdir <> [] ->
  (forall p, resolveInsideWorkdir workdir rel = Ok p ->
     inside workdir p /\ Clean p = p /\ is_rooted p = true /\
     clean_elems p = rev (foldl (push_elem true) (rev (clean_elems workdir)) (Split slash rel))) /\
  (is_ok (resolveInsideWorkdir workdir rel) = true <->
     IsAbs rel = false /\ inside workdir (Join2 workdir rel)).
Proof.
  intros Hr Hne. destruct (Join2_elems workdir rel Hr) as [Hj He].
  pose proof (guard_inside workdir (Join2 workdir rel) Hr Hne Hj) as Hg.
  unfold resolveInsideWorkdir. destruct (IsAbs rel); [split; [done|by split; [|intros [? _]]]|].
  destruct (escapes _ _) eqn:Hesc.
  - split; [done|]. split; [done|]. intros [_ Hi]. apply Hg in Hi. done.
  - split; [|by split; [split; [|apply Hg]|]].
    intros p [= <-]. split; [|split; [|split]].
    + unfold inside. rewrite clean_elems_Clean by done. by apply Hg.
    + by apply Clean_idem.
    + by apply Clean_is_rooted.
    + by rewrite clean_elems_Clean.
Qed.

Lemma resolveInsideWorkdir_spec_witness :
  resolveInsideWorkdir "/tmp/w" "apps/../env/.env" = Ok "/tmp/w/env/.env" /\
  inside "/tmp/w" "/tmp/w/env/.env" /\
  resolveInsideWorkdir "/tmp/w" "../w-evil/x" = Err "path escapes workdir".
Proof.
  split; [reflexivity|]. split; [|reflexivity].
  apply (resolveInsideWorkdir_spec "/tmp/w" "apps/../env/.env"); [reflexivity|discriminate|reflexivity].
Defined.

(** ** [Dir], [Base] and [Rel] of clean absolute paths *)

Lemma split_last_no_slash e : no_slash e = true -> split_last e = ("", e).
Proof.
  unfold no_slash, contains_char. rewrite negb_involutive.
  induction e as [|c e IH]; [done|]. simpl. rewrite andb_true_iff, negb_true_iff.
  intros [Hc He]. rewrite IH by done. simpl. by rewrite Hc.
Qed.

Lemma split_last_app a e :
  no_slash e = true -> split_last (a ++ String slash e) = (a ++ "/", e).
Proof.
  intros He. induction a as [|c a IH].
  - simpl. by rewrite split_last_no_slash.
  - cbn [split_last String.append]. rewrite IH. by destruct a.
Qed.

Lemma abs_path_snoc es e :
  abs_path (es ++ [e])%list = (if decide (es = []) then "" else abs_path es) ++ String slash e.
Proof.
  case_decide as Hd; [by subst|]. unfold abs_path. rewrite Join_app by done. by rewrite append_assoc.
Qed.

Lemma clean_trailing es :
  Forall (fun e => proper e = true) es ->
  clean_elems ((if decide (es = []) then "" else abs_path es) ++ "/") = es.
Proof.
  intros H. case_decide as Hd; [by subst|].
  unfold clean_elems. rewrite is_rooted_app by apply is_rooted_slash.
  rewrite Split_slash_app, foldl_app, (Split_abs_path es) by done. simpl.
  rewrite fold_proper_push by done.
  change (rev (rev es ++ []) = es). by rewrite app_nil_r, rev_involutive.
Qed.

Lemma Dir_abs es e :
  Forall (fun e => proper e = true) (es ++ [e]) -> Dir (abs_path (es ++ [e])%list) = abs_path es.
Proof.
  intros [Hes He]%Forall_app. apply (proj1 (Forall_singleton _ _)) in He; cbv beta in He.
  pose proof (proper_no_slash1 e He).
  unfold Dir. rewrite abs_path_snoc, split_last_app by done. cbn [fst].
  rewrite Clean_rooted, clean_trailing; [done|done|].
  case_decide; [done|]. apply is_rooted_app, is_rooted_slash.
Qed.

Lemma strip_slashes_rev e :
  e <> "" -> no_slash e = true -> forall a, strip_slashes (rev_string (a ++ e)) = rev_string (a ++ e).
Proof.
  intros Hne Hs a. rewrite rev_string_app.
  assert (exists c r, rev_string e = String c r /\ Ascii.eqb c slash = false) as (c & r & -> & Hc);
    [|simpl; by rewrite Hc].
  destruct (rev_string e) as [|c r] eqn:E.
  - destruct Hne. by rewrite <-(rev_string_involutive e), E.
  - exists c, r. split; [done|].
    assert (no_slash (rev_string e) = true) as Hr.
    { unfold no_slash, contains_char in *. rewrite negb_involutive in *. by rewrite all_chars_rev. }
    rewrite E in Hr. unfold no_slash, contains_char in Hr. rewrite negb_involutive in Hr.
    simpl in Hr. apply andb_prop in Hr as [Hr _]. by apply negb_true_iff in Hr.
Qed.

Lemma Base_abs es e :
  Forall (fun e => proper e = true) (es ++ [e]) -> Base (abs_path (es ++ [e])%list) = e.
Proof.
  intros [_ He]%Forall_app. apply (proj1 (Forall_singleton _ _)) in He; cbv beta in He.
  pose proof (proper_no_slash1 e He) as Hs.
  assert (String.eqb e "" = false) as H1 by (by destruct e).
  unfold Base. replace (String.eqb (abs_path (es ++ [e])%list) "") with false by done.
  rewrite abs_path_snoc. change (String slash e) with ("/" ++ e). rewrite <-append_assoc.
  rewrite strip_slashes_rev, rev_string_involutive; [|by apply String.eqb_neq|done].
  rewrite append_assoc. change ("/" ++ e) with (String slash e).
  rewrite split_last_app by done. cbn [snd]. by rewrite H1.
Qed.

Lemma strip_common_spec b t b' t' :
  strip_common b t = (b', t') -> exists pre, b = (pre ++ b')%list /\ t = (pre ++ t')%list.
Proof.
  revert t. induction b as [|x b IH]; intros [|y t]; simpl;
    [intros [= <- <-]; by exists []|intros [= <- <-]; by exists []|intros [= <- <-]; by exists []|].
  destruct (String.eqb_spec x y) as [->|]; [|intros [= <- <-]; by exists []].
  intros H. destruct (IH _ H) as (pre & -> & ->). by exists (y :: pre).
Qed.

Lemma Rel_inside root p rel :
  is_rooted root = true -> is_rooted p = true ->
  Rel root p = Some rel -> HasPrefix rel ".." = false -> inside root p.
Proof.
  intros Hr Hp Hrel Hpre. unfold Rel in Hrel.
  destruct (String.eqb_spec (Clean root) (Clean p)) as [E|_].
  { unfold inside. by rewrite <-(clean_elems_Clean root Hr), E, clean_elems_Clean. }
  rewrite Hr, Hp in Hrel. cbn [eqb negb] in Hrel.
  destruct (strip_common _ _) as [b t] eqn:Hs.
  destruct (strip_common_spec _ _ _ _ Hs) as (pre & Hb & Ht).
  destruct b as [|x b].
  - unfold inside. rewrite Hb, Ht, app_nil_r. by exists t.
  - exfalso. assert (HasPrefix (Join (map (fun _ => "..") (x :: b) ++ t)%list "/") ".." = true) as Hd.
    { unfold HasPrefix. apply prefix_app. cbn [map List.app].
      destruct (map (fun _ => "..") b ++ t)%list as [|y l]; [by exists ""|].
      exists ("/" ++ Join (y :: l) "/"). done. }
    assert (Join (map (fun _ => "..") (x :: b) ++ t)%list "/" = rel) by (by destruct (String.eqb x ".."); simplify_eq).
    congruence.
Qed.

(** The Dockerfile guard. For an absolute tarball root that is a directory,
    a Dockerfile path the function accepts is empty (BuildKit's defaults) or
    names a regular file inside the root: the directory it returns lies in the
    root's tree, the file name has no slash and is not a dot entry, and joining
    the two gives back the file that was found. *)
Theorem splitTarballDockerfile_spec stat root dockerfile dir base :
  is_rooted root = true -> stat (Clean root) <> StatRegular ->
  splitTarballDockerfile stat root dockerfile = Ok (dir, base) ->
  (TrimSpace dockerfile = "" /\ dir = "" /\ base = "") \/
  (stat (Join2 dir base) = StatRegular /\ inside root dir /\ proper base = true /\
   Join2 dir base = Join2 (Clean root) (TrimSpace dockerfile)).
Proof.
  intros Hr Hst. unfold splitTarballDockerfile.
  destruct (String.eqb_spec (TrimSpace dockerfile) "") as [->|_]; [intros [= <- <-]; by left|].
  destruct (IsAbs (TrimSpace dockerfile)); [done|]. set (df := TrimSpace dockerfile).
  destruct (Join2_elems (Clean root) df (Clean_is_rooted _ Hr)) as [Hj He].
  set (res := Join2 (Clean root) df) in *.
  assert (Clean res = res) as Hcl.
  { unfold res, Join2. rewrite is_rooted_nonempty by (by apply Clean_is_rooted).
    apply Clean_idem, is_rooted_app. by apply Clean_is_rooted. }
  rewrite Hcl. destruct (Rel (Clean root) res) as [rel|] eqn:Hrel; [|done].
  destruct (HasPrefix rel "..") eqn:Hpre; [done|]. simpl.
  destruct (String.eqb rel ".."); [done|]. destruct (stat res) eqn:Hs; [done| |done].
  intros [= <- <-]. right.
  apply Rel_inside in Hrel; [|by apply Clean_is_rooted|done|done].
  unfold inside in Hrel. rewrite clean_elems_Clean in Hrel by done.
  pose proof (clean_elems_proper res Hj) as Hp.
  rewrite <-Hcl, Clean_rooted in Hs |- * by done.
  destruct Hrel as [rest Hrest].
  destruct rest as [|x rest _] using rev_ind.
  { destruct Hst. rewrite Clean_rooted by done. rewrite app_nil_r in Hrest. by rewrite <-Hrest. }
  rewrite app_assoc in Hrest. rewrite Hrest in *.
  rewrite Dir_abs, Base_abs by done.
  apply Forall_app in Hp as [Hp1 Hp2]. apply (proj1 (Forall_singleton _ _)) in Hp2; cbv beta in Hp2.
  assert (Join2 (abs_path (clean_elems root ++ rest)%list) x =
          abs_path ((clean_elems root ++ rest) ++ [x])%list) as Hjoin.
  { destruct (Join2_elems (abs_path (clean_elems root ++ rest)%list) x) as [Hj2 He2]; [apply is_rooted_slash|].
    unfold Join2. change (String.eqb (abs_path _) "") with false. cbv iota.
    assert (is_rooted (abs_path (clean_elems root ++ rest)%list ++ "/" ++ x) = true)
      by apply is_rooted_app, is_rooted_slash.
    rewrite Clean_rooted by done. f_equal. unfold Join2 in He2.
    change (String.eqb (abs_path _) "") with false in He2. cbv iota in He2.
    rewrite clean_elems_Clean in He2 by done. rewrite He2, clean_abs_path by done.
    rewrite Split_no_slash by (by apply proper_no_slash1).
    rewrite fold_proper_push by (by constructor). simpl. by rewrite rev_involutive. }
  rewrite Hjoin. split; [done|]. split; [|done].
  unfold inside. rewrite clean_abs_path by done. by exists rest.
Qed.

Lemma splitTarballDockerfile_spec_witness :
  splitTarballDockerfile (fun p => if String.eqb p "/tmp/x/apps/api/Dockerfile" then StatRegular else StatOther)
    "/tmp/x" " apps/./api/Dockerfile" = Ok ("/tmp/x/apps/api", "Dockerfile") /\
  inside "/tmp/x" "/tmp/x/apps/api".
Proof.
  split; [reflexivity|].
  destruct (splitTarballDockerfile_spec
    (fun p => if String.eqb p "/tmp/x/apps/api/Dockerfile" then StatRegular else StatOther)
    "/tmp/x" " apps/./api/Dockerfile" "/tmp/x/apps/api" "Dockerfile") as [(H & _)|(_ & H & _)];
    [reflexivity|discriminate|reflexivity|discriminate|exact H].
Defined.
