(* ===== verification/Tarball.v ===== *)
(** * Extraction of an uploaded tarball
      ([extractTarball] of [src/webhook/cli_deploy_handler.go])

    The archive is the list of what [tarReader.Next] answers; a regular entry
    carries the number of bytes its data decompresses to. The file system is a
    log of the operations performed, each of which may fail. A file is created
    and then written, so a copy that fails, also because the archive ends inside
    an entry, leaves a file with the bytes written so far. *)
From S2P Require Import Prelude GoStrings Paths.
Local Open Scope string_scope.
Local Open Scope Z_scope.

Definition MaxFileSize : Z := 500 * 1024 * 1024.
Definition MaxTotalExtractedBytes : Z := 2 * 1024 * 1024 * 1024.
Definition MaxEntryCount : Z := 50000.

Inductive Typeflag := TypeDir | TypeReg (size : Z) | TypeSymlink (linkname : string) | TypeOther.

Record Header := mkHeader { Name : string; Flag : Typeflag }.

Inductive Action :=
| MkdirAll (path : string)
| CreateFile (path : string)
| WriteFile (path : string) (written : Z)      (* io.Copy *)
| Chmod (path : string)
| Symlink (linkname path : string).

Section Extract.
(** [os] operations: the error of an action, given what was done before, and
    how much of a file was written by then. *)
Variable os : list Action -> Action -> option (string * Z).

(** Performs an action: the log gains it when it succeeds. *)
Definition perform (msg : string) (a : Action) (log : list Action) (k : list Action -> result string unit * list Action)
  : result string unit * list Action :=
  match os log a with
  | Some (e, _) => (Err (msg ++ ": " ++ e), log)
  | None => k (a :: log)%list
  end.

(** [io.Copy] of [size] bytes: what it wrote is there also when it fails. *)
Definition copy_file (path : string) (size : Z) (log : list Action) (k : list Action -> result string unit * list Action)
  : result string unit * list Action :=
  match os log (WriteFile path size) with
  | Some (e, n) => (Err ("failed to write file: " ++ e), (WriteFile path (Z.max 0 (Z.min n size)) :: log)%list)
  | None => k (WriteFile path size :: log)%list
  end.

(** The [for] loop, with the bytes and entries counted so far; the log is
    newest first. *)
Fixpoint extract_loop (destDir : string) (entries : list (result string Header))
  (totalBytes entryCount : Z) (log : list Action) : result string unit * list Action :=
  match entries with
  | [] => (Ok tt, log)
  | Err e :: _ => (Err ("tar read error: " ++ e), log)
  | Ok header :: rest =>
      let entryCount := entryCount + 1 in
      if MaxEntryCount <? entryCount then (Err "tarball has too many entries", log)
      else if String.eqb (Name header) "./" || String.eqb (Name header) "." then
        extract_loop destDir rest totalBytes entryCount log
      else
        let targetPath := Join2 destDir (Name header) in
        let cleanTarget := Clean targetPath in
        let cleanDest := Clean destDir in
        if escapes cleanTarget cleanDest then (Err ("invalid file path in tarball: " ++ Name header), log)
        else
          match Flag header with
          | TypeDir =>
              perform "failed to create directory" (MkdirAll targetPath) log (extract_loop destDir rest totalBytes entryCount)
          | TypeReg size =>
              perform "failed to create parent directory" (MkdirAll (Dir targetPath)) log (fun log =>
              perform "failed to create file" (CreateFile targetPath) log (fun log =>
              let written := Z.min size MaxFileSize in
              copy_file targetPath written log (fun log =>
              let totalBytes := totalBytes + written in
              if MaxTotalExtractedBytes <? totalBytes then
                (Err "tarball decompresses to more than the limit", log)
              else
                let log := match os log (Chmod targetPath) with
                           | None => (Chmod targetPath :: log)%list | Some _ => log end in
                extract_loop destDir rest totalBytes entryCount log)))
          | TypeSymlink linkname =>
              if IsAbs linkname then (Err ("symlink target is absolute: " ++ Name header), log)
              else
                let resolvedLink := Clean (Join2 (Dir targetPath) linkname) in
                if escapes resolvedLink cleanDest then
                  (Err ("symlink escapes destination: " ++ Name header), log)
                else perform "failed to create symlink" (Symlink linkname targetPath) log (extract_loop destDir rest totalBytes entryCount)
          | TypeOther => extract_loop destDir rest totalBytes entryCount log
          end
  end.

(** [archive] is what the gzip and tar readers make of the data. *)
Definition extractTarball (archive : result string (list (result string Header))) (destDir : string)
  : result string unit * list Action :=
  match archive with
  | Err e => (Err ("failed to create gzip reader: " ++ e), [])
  | Ok entries => extract_loop destDir entries 0 0 []
  end.

(** ** Safety *)

Definition action_path (a : Action) : string :=
  match a with MkdirAll p | CreateFile p | WriteFile p _ | Chmod p | Symlink _ p => p end.

(** An action stays, lexically, in the tree at [dest]; so does the target of a
    link, and a file is within the size limit. A parent directory may be the
    destination's own parent when the entry is the destination itself. *)
Definition safe_action (dest : string) (a : Action) : Prop :=
  match a with
  | MkdirAll p => inside dest p \/ (exists t, p = Dir t /\ inside dest t)
  | WriteFile p n => inside dest p /\ n <= MaxFileSize
  | CreateFile p | Chmod p => inside dest p
  | Symlink l p => inside dest p /\ IsAbs l = false /\ inside dest (Join2 (Dir p) l)
  end.

Definition bytes_of (a : Action) : Z := match a with WriteFile _ n => n | _ => 0 end.
Definition bytes_written (log : list Action) : Z := foldr (fun a n => bytes_of a + n) 0 log.

Lemma Dir_rooted p : is_rooted p = true -> is_rooted (Dir p) = true.
Proof.
  intros Hp. unfold Dir. apply Clean_is_rooted.
  unfold is_rooted, HasPrefix in *. apply prefix_app in Hp as [r ->].
  change ("/" ++ r) with (String slash r). cbn [split_last].
  destruct (split_last r) as [d f].
  change (Ascii.eqb slash slash) with true. rewrite andb_false_r. cbn [fst]. apply is_rooted_slash.
Qed.

(** What a run over [len] more entries may do to the log. *)
Definition good_run (dest : string) (total count : Z) (len : nat) (log : list Action)
  (r : result string unit * list Action) : Prop :=
  exists new,
    r.2 = (new ++ log)%list /\ Forall (safe_action dest) new /\
    0 <= bytes_written new <= MaxTotalExtractedBytes - total + MaxFileSize /\
    (is_ok r.1 = true ->
       bytes_written new <= MaxTotalExtractedBytes - total /\
       count + Z.of_nat len <= Z.max count MaxEntryCount).

Lemma good_stop dest total count len log e :
  total <= MaxTotalExtractedBytes -> good_run dest total count len log (Err e, log).
Proof.
  intros. exists []. split; [done|]. split; [done|]. split; [|done].
  unfold MaxFileSize. simpl. lia.
Qed.

Lemma good_action dest total total' count len a log r :
  safe_action dest a -> total' = total + bytes_of a -> 0 <= bytes_of a ->
  good_run dest total' count len (a :: log) r -> good_run dest total count len log r.
Proof.
  intros Ha -> Hb (new & E & Hs & Hw & Hok). exists (new ++ [a])%list.
  assert (bytes_written (new ++ [a])%list = bytes_written new + bytes_of a) as Hsum.
  { clear. unfold bytes_written. rewrite foldr_app. simpl.
    induction new as [|x new IH]; simpl; [lia|]. rewrite IH. lia. }
  rewrite Hsum. split; [by rewrite <-app_assoc|].
  split; [apply Forall_app; split; [done|by constructor]|]. split; [lia|].
  intros H. destruct (Hok H). lia.
Qed.

Lemma good_perform dest total count len msg a log k :
  total <= MaxTotalExtractedBytes -> safe_action dest a -> bytes_of a = 0 ->
  (forall log, good_run dest total count len log (k log)) ->
  good_run dest total count len log (perform msg a log k).
Proof.
  intros Ht Ha Hb Hk. unfold perform. destruct (os log a) as [[]|]; [by apply good_stop|].
  eapply good_action; [done| |lia|apply Hk]. lia.
Qed.

Definition sized (e : result string Header) : Prop :=
  match e with Ok h => match Flag h with TypeReg n => 0 <= n | _ => True end | Err _ => True end.

Lemma good_next dest total count len log r :
  count + 1 <= MaxEntryCount -> good_run dest total (count + 1) len log r ->
  good_run dest total count (S len) log r.
Proof.
  intros Hc (new & E & Hs & Hw & Hok). exists new. split_and!; try done; [lia|lia|].
  intros H. destruct (Hok H). split; [done|]. lia.
Qed.

(** Stopping after the contents of one more file, whole or in part. *)
Lemma good_written dest total count len p n e log :
  inside dest p -> 0 <= n <= MaxFileSize -> total <= MaxTotalExtractedBytes ->
  good_run dest total count len log (Err e, WriteFile p n :: log).
Proof.
  intros Hp Hn Ht. exists [WriteFile p n]. split; [done|]. split; [constructor; [cbn; split; [done|lia]|done]|].
  split; [simpl; lia|done].
Qed.

(** A regular file: parent directory, contents, the total cap, permissions. *)
Lemma good_regular dest total count len msg msg' p size log k :
  inside dest p -> 0 <= size -> total <= MaxTotalExtractedBytes ->
  (forall total log, total <= MaxTotalExtractedBytes -> good_run dest total count len log (k total log)) ->
  good_run dest total count len log
    (perform msg (MkdirAll (Dir p)) log (fun log =>
     perform msg' (CreateFile p) log (fun log =>
     copy_file p (Z.min size MaxFileSize) log (fun log =>
       if MaxTotalExtractedBytes <? total + Z.min size MaxFileSize then
         (Err "tarball decompresses to more than the limit", log)
       else k (total + Z.min size MaxFileSize)
              (match os log (Chmod p) with None => (Chmod p :: log)%list | Some _ => log end))))).
Proof.
  intros Hp Hsz Ht Hk. set (w := Z.min size MaxFileSize).
  assert (0 <= w <= MaxFileSize) as Hw by (unfold w, MaxFileSize; lia).
  apply good_perform; [done|right; eauto|done|]. intros log0. apply good_perform; [done..|]. intros log1. unfold copy_file.
  destruct (os log1 (WriteFile p w)) as [[e n]|]; [by apply good_written; [|lia|]|].
  destruct (Z.ltb_spec MaxTotalExtractedBytes (total + w)) as [Hover|Hfit]; [by apply good_written; [|lia|]|].
  apply (good_action _ _ (total + w) _ _ (WriteFile p w)); [cbn; split; [done|lia]|done|simpl; lia|].
  destruct (os _ (Chmod p)); [by apply Hk|].
  apply (good_action _ _ (total + w) _ _ (Chmod p)); [done|simpl; lia|done|by apply Hk].
Qed.

Lemma extract_loop_good dest entries : forall total count log,
  is_rooted dest = true -> clean_elems dest <> [] -> Forall sized entries ->
  total <= MaxTotalExtractedBytes ->
  good_run dest total count (length entries) log (extract_loop dest entries total count log).
Proof.
  intros total count log Hr Hne Hsz. revert total count log.
  induction Hsz as [|e entries He _ IH]; intros total count log Ht.
  { exists []. simpl. split_and!; try done; unfold MaxFileSize; lia. }
  destruct e as [h|e]; [|by apply good_stop]. cbn [extract_loop length].
  destruct (Z.ltb_spec MaxEntryCount (count + 1)) as [Hc|Hc]; [by apply good_stop|].
  apply good_next; [done|].
  destruct (String.eqb (Name h) "./" || String.eqb (Name h) "."); [by apply IH|].
  destruct (Join2_elems dest (Name h) Hr) as [Hj _].
  destruct (escapes (Clean (Join2 dest (Name h))) (Clean dest)) eqn:Hesc; [by apply good_stop|].
  apply guard_inside in Hesc; [|done|done|done].
  unfold sized in He. destruct (Flag h) as [|size|link|].
  - apply good_perform; [done|by left|done|]. intros log'. by apply IH.
  - apply (good_regular _ _ _ _ _ _ _ _ _ (fun total log => extract_loop dest entries total (count + 1) log));
      [done|done|done|]. intros total' log' Ht'. by apply IH.
  - destruct (IsAbs link) eqn:Habs; [by apply good_stop|].
    destruct (escapes (Clean (Join2 (Dir (Join2 dest (Name h))) link)) (Clean dest)) eqn:Hl; [by apply good_stop|].
    apply guard_inside in Hl; [|done|done|by apply Join2_elems, Dir_rooted].
    apply good_perform; [done|done|done|]. intros log'. by apply IH.
  - by apply IH.
Qed.

(** C15: What extraction can do, for any archive and any file-system errors, a
    copy that fails half-way included.
    Into an absolute destination (not the root directory): every directory,
    file and link is created at a path lexically inside the destination, link
    targets are relative and resolve, lexically, inside it; no file exceeds
    500 MB; the bytes written never exceed 2 GB by more than one file, and not
    at all when extraction succeeds; success means at most 50000 entries. *)
Theorem extractTarball_safe entries destDir :
  is_rooted destDir = true -> clean_elems destDir <> [] -> Forall sized entries ->
  let '(r, log) := extractTarball (Ok entries) destDir in
  Forall (safe_action destDir) log /\
  0 <= bytes_written log <= MaxTotalExtractedBytes + MaxFileSize /\
  (is_ok r = true ->
     bytes_written log <= MaxTotalExtractedBytes /\ Z.of_nat (length entries) <= MaxEntryCount).
Proof.
  intros Hr Hne Hsz. unfold extractTarball.
  destruct (extract_loop_good destDir entries 0 0 [] Hr Hne Hsz) as (new & E & Hs & Hw & Hok);
    [unfold MaxTotalExtractedBytes; lia|].
  destruct (extract_loop destDir entries 0 0 []) as [r log]. simpl in E. rewrite app_nil_r in E. subst.
  simpl in *. split_and!; [done|lia|lia|].
  intros H. destruct (Hok H). unfold MaxEntryCount in *. lia.
Qed.
End Extract.

Definition demo_entries : list (result string Header) :=
  [ Ok (mkHeader "./" TypeDir); Ok (mkHeader "src" TypeDir);
    Ok (mkHeader "src/main.go" (TypeReg 1200)); Ok (mkHeader "latest" (TypeSymlink "src/main.go")) ].

Lemma extractTarball_safe_witness :
  let '(r, log) := extractTarball (fun _ _ => None) (Ok demo_entries) "/tmp/x" in
  r = Ok tt /\ length log = 6%nat /\ Forall (safe_action "/tmp/x") log.
Proof.
  pose proof (extractTarball_safe (fun _ _ => None) demo_entries "/tmp/x") as H.
  destruct (extractTarball _ _ _) as [r log] eqn:E. vm_compute in E. injection E as <- <-.
  split; [reflexivity|]. split; [reflexivity|]. apply H; [reflexivity|discriminate|].
  repeat constructor. simpl. lia.
Defined.

(** ** Where the kernel puts the files

    The guards are lexical: the operating system resolves a path through the
    links that exist. [walk] is that resolution (POSIX path lookup, every link
    followed), on the links an extraction has made. *)

Fixpoint walk (fuel : nat) (links : gmap (list string) string) (cur todo : list string)
  : option (list string) :=
  match fuel with
  | O => None
  | S fuel =>
      match todo with
      | [] => Some cur
      | c :: todo =>
          if String.eqb c "" || String.eqb c "." then walk fuel links cur todo
          else if String.eqb c ".." then walk fuel links (removelast cur) todo
          else
            match links !! (cur ++ [c])%list with
            | None => walk fuel links (cur ++ [c])%list todo
            | Some target =>
                walk fuel links (if IsAbs target then [] else cur) (Split slash target ++ todo)%list
            end
      end
  end.

Definition lookup_path (links : gmap (list string) string) (p : string) : option (list string) :=
  walk 1000 links [] (Split slash p).

(** The links an extraction leaves, and where its files were written. *)
Fixpoint replay (log : list Action) : gmap (list string) string * list (list string) :=
  match log with
  | [] => (∅, [])
  | a :: log =>
      let '(links, files) := replay log in
      match a with
      | Symlink l p =>
          match lookup_path links (Dir p) with
          | Some d => (<[(d ++ [Base p])%list := l]> links, files)
          | None => (links, files)
          end
      | WriteFile p _ =>
          match lookup_path links p with
          | Some f => (links, f :: files)
          | None => (links, files)
          end
      | _ => (links, files)
      end
  end.

Definition chain_entries : list (result string Header) :=
  [ Ok (mkHeader "a" (TypeSymlink ".")); Ok (mkHeader "a/b" (TypeSymlink ".."));
    Ok (mkHeader "b/evil.sh" (TypeReg 1)) ].

(** The lexical link check does not contain the extraction physically: an
    archive with the link a -> ".", then the link a/b -> ".." and then the file
    b/evil.sh passes every check, and its file lands outside the destination,
    next to it, because a/b is created through the first link. *)
Theorem extractTarball_symlink_chain_escapes :
  let '(r, log) := extractTarball (fun _ _ => None) (Ok chain_entries) "/tmp/x" in
  r = Ok tt /\ (replay log).2 = [["tmp"; "evil.sh"]] /\
  ~ clean_elems "/tmp/x" `prefix_of` ["tmp"; "evil.sh"].
Proof.
  vm_compute. split; [reflexivity|]. split; [reflexivity|]. intros [k Hk]. discriminate.
Qed.
