(* ===== verification/BuildKit.v ===== *)
(** * Image builds ([src/buildkitclient/client.go], [ephemeral.go],
      [buildauth.go])

    The pure parts are functions. [Build] and the pod start are functions from
    what the environment answers (a record) to their outcome and the list of
    effects they perform, oldest first: datastore writes, the build slot, the
    build pod and the buildctl call. The results of the datastore writes that
    the code ignores are not inputs; the one it checks is. *)
From stdpp Require Import pretty sorting.
From S2P Require Import Prelude GoStrings Paths BuildJobs.
Local Open Scope string_scope.
Local Open Scope Z_scope.

(** ** Settings *)

Definition defaultBuildTimeout : Z := 45 * Minute.

Definition buildTimeout (ParseDuration : string -> option Z) (v : string) : Z :=
  if negb (String.eqb v "") then
    match ParseDuration v with
    | Some d => if 0 <? d then d else defaultBuildTimeout
    | None => defaultBuildTimeout
    end
  else defaultBuildTimeout.

Definition defaultMaxConcurrentBuilds : Z := 3.
Definition defaultBuildCacheSizeGb : Z := 50.
Definition defaultBuildkitImage : string := "moby/buildkit:v0.30.0".

Definition buildkitImage (v : string) : string := if negb (String.eqb v "") then v else defaultBuildkitImage.

(** [v] is BUILDKIT_MAX_CONCURRENT_BUILDS. *)
Definition maxConcurrentBuilds (v : string) : Z :=
  if negb (String.eqb v "") then
    match Atoi v with
    | Some n => if 0 <? n then n else defaultMaxConcurrentBuilds
    | None => defaultMaxConcurrentBuilds
    end
  else defaultMaxConcurrentBuilds.

Record BuildSettings := mkSettings {
  MaxConcurrentBuilds : Z;
  CPURequestMc : Z;
  CPULimitMc : Z;
  MemoryRequestMb : Z;
  MemoryLimitMb : Z;
  BuildCacheSizeGb : Z;
  BuildCacheStorageClass : string
}.

Definition defaultBuildSettings (v : string) : BuildSettings :=
  mkSettings (maxConcurrentBuilds v) 100 1000 256 2048 defaultBuildCacheSizeGb "".

(** A map lookup of Go: the zero value when the key is absent. *)
Definition get (data : gmap string string) (k : string) : string := default "" (data !! k).

(** [if n, err := strconv.Atoi(data[k]); err == nil && n > 0 { field = n }] *)
Definition positive_or (data : gmap string string) (k : string) (old : Z) : Z :=
  match Atoi (get data k) with
  | Some n => if 0 <? n then n else old
  | None => old
  end.

Definition parseBuildSettings (v : string) (data : gmap string string) : BuildSettings :=
  let d := defaultBuildSettings v in
  let mx := positive_or data "maxConcurrentBuilds" (MaxConcurrentBuilds d) in
  let cpuReq := positive_or data "cpuRequestMc" (CPURequestMc d) in
  let cpuLim := positive_or data "cpuLimitMc" (CPULimitMc d) in
  let memReq := positive_or data "memoryRequestMb" (MemoryRequestMb d) in
  let memLim := positive_or data "memoryLimitMb" (MemoryLimitMb d) in
  let size := positive_or data "buildCacheSizeGb" (BuildCacheSizeGb d) in
  let class := TrimSpace (get data "buildCacheStorageClass") in
  let cpuReq := if cpuLim <? cpuReq then cpuLim else cpuReq in
  let memReq := if memLim <? memReq then memLim else memReq in
  mkSettings mx cpuReq cpuLim memReq memLim size class.

(** The answer of the ConfigMap read: the data, not found, or another error. *)
Inductive ConfigMapRead := CmData (data : gmap string string) | CmNotFound | CmError.

Definition ReadBuildSettings (v : string) (cm : ConfigMapRead) : BuildSettings :=
  match cm with
  | CmData data => parseBuildSettings v data
  | _ => defaultBuildSettings v
  end.

(** ** References and names *)

Definition StripRegistryProtocol (harborURL : string) : string :=
  TrimPrefix (TrimPrefix harborURL "https://") "http://".

Definition HarborProject : string := "runos-apps".

Definition TargetImageRefs (harborRegistry repo : string) (tags : list string) : list string :=
  map (fun tag => harborRegistry ++ "/" ++ HarborProject ++ "/" ++ repo ++ ":" ++ tag) tags.

Definition cacheRefForPushRef (pushRef : string) : string :=
  let i := LastIndex pushRef ":" in
  let repo := if LastIndex pushRef "/" <? i then take_string (Z.to_nat i) pushRef else pushRef in
  repo ++ ":buildcache".

Definition dquote : string := String "034" "".

Definition imageOutputArg (pushRefs : list string) : string :=
  match pushRefs with
  | [r] => "type=image,name=" ++ r ++ ",push=true"
  | _ => "type=image," ++ dquote ++ "name=" ++ Join pushRefs "," ++ dquote ++ ",push=true"
  end.

Definition redactURLCredentials (urlStr : string) : string :=
  let idx := Index urlStr "://" in
  if negb (idx =? -1) then
    let afterProtocol := drop_string (Z.to_nat (idx + 3)) urlStr in
    let atIdx := Index afterProtocol "@" in
    if negb (atIdx =? -1) then
      take_string (Z.to_nat (idx + 3)) urlStr ++ "***:***" ++ drop_string (Z.to_nat atIdx) afterProtocol
    else urlStr
  else urlStr.

(** One rune of [sanitizeK8sName]; a rune of several bytes is outside every
    range of the switch. *)
Definition sanitize_rune (r : string) : string :=
  match r with
  | String c "" =>
      if in_range 97 122 c || in_range 48 57 c || Ascii.eqb c "-" then r
      else if in_range 65 90 c then String (ascii_of_nat (nat_of_ascii c + 32)) ""
      else "-"
  | _ => "-"
  end.

Definition concat_all (l : list string) : string := foldr String.append "" l.

Definition sanitizeK8sName (s : string) : string := concat_all (map sanitize_rune (rune_list s)).

Definition builderPodPrefix : string := "buildkit-build-".

Definition builderPodName (jobID : string) : string :=
  let name := builderPodPrefix ++ sanitizeK8sName jobID in
  let name := if 63 <? slen name then take_string 63 name else name in
  TrimRightChar name "-".

Definition labelValue (s : string) : string :=
  let v := sanitizeK8sName s in
  let v := if 63 <? slen v then take_string 63 v else v in
  TrimChar v "-".

(** ** Build slots *)

(** One pass of the loop of [acquireBuildSlot] under the mutex. *)
Definition try_acquire (limit activeBuilds : Z) : option Z :=
  if activeBuilds <? limit then Some (activeBuilds + 1) else None.
Definition releaseBuildSlot (activeBuilds : Z) : Z := activeBuilds - 1.
Definition activeBuildCount (activeBuilds : Z) : Z := activeBuilds.

(** ** Build auth *)

Record buildAuth := mkAuth { sshKeyPath : string; secretPaths : gmap string string }.

Definition buildAuthArgs (auth : buildAuth) : list string :=
  let ssh := if negb (String.eqb (sshKeyPath auth) "") then ["--ssh"; "default=" ++ sshKeyPath auth] else [] in
  let ids := merge_sort string_le (map fst (map_to_list (secretPaths auth))) in
  (ssh ++ mjoin (map (fun id => ["--secret"; ("id=" ++ id ++ ",src=" ++ get (secretPaths auth) id)%string]) ids))%list.

Definition describeBuildAuth (auth : buildAuth) : string :=
  let n := N.of_nat (size (secretPaths auth)) in
  if negb (String.eqb (sshKeyPath auth) "") && (0 <? n)%N then
    "Forwarding build SSH key (id default) and " ++ pretty n ++ " build secret(s)"
  else if negb (String.eqb (sshKeyPath auth) "") then "Forwarding build SSH key (id default)"
  else if (0 <? n)%N then "Forwarding " ++ pretty n ++ " build secret(s)"
  else "".

(** ** The build *)

Record BuildConfig := mkBuildConfig {
  bc_JobID : string; bc_OSID : string; bc_Commit : string; bc_CommitShort : string;
  bc_HarborURL : string; bc_LocalContextPath : string; bc_ContextPath : string;
  bc_DockerfileDir : string; bc_DockerfileFilename : string;
  bc_BuildArgs : list BuildArg; bc_Repo : string; bc_Branch : string;
  bc_TargetImages : list string
}.

(** The effects of a build. *)
Inductive Effect :=
| Log (entry : string)
| SetStatus (status : string)
| AcquireSlot
| ReleaseSlot
| StartPod
| StopPod
| MakeDockerConfig
| RemoveDockerConfig
| StageAuth
| RemoveAuth
| RunBuildctl (args : list string).

(** What the environment answers, in the order [Build] asks. *)
Record BuildEnv := mkBuildEnv {
  be_settings : BuildSettings;
  be_active : Z;                              (* activeBuildCount *)
  be_slot : option string;                    (* acquireBuildSlot *)
  be_busy : option string;                    (* UpdateBuildKitJobStatus busy *)
  be_builder : result string string;          (* StartEphemeralBuilder *)
  be_tmpdir : option string;                  (* os.MkdirTemp *)
  be_marshal : option string;                 (* json.Marshal *)
  be_write : option string;                   (* os.WriteFile *)
  be_auth : result string buildAuth;          (* readBuildAuth *)
  be_stdout : list string;
  be_stderr : list string;                    (* split at newlines *)
  be_run : option string;                     (* cmd.Run *)
  be_timed_out : bool;
  be_pod_state : string;                      (* builderStateSummary *)
  be_timeout_text : string                    (* the timeout, printed *)
}.

Definition push_refs (config : BuildConfig) : list string :=
  match bc_TargetImages config with
  | [] => [StripRegistryProtocol (bc_HarborURL config) ++ "/runos-apps/" ++ bc_OSID config ++ ":" ++ bc_Commit config]
  | refs => refs
  end.

Definition or_default (s d : string) : string := if String.eqb s "" then d else s.

(** The argument list given to buildctl. *)
Definition buildctl_args (config : BuildConfig) (auth : buildAuth) : list string :=
  let pushRefs := push_refs config in
  let contextPath := or_default (bc_ContextPath config) (bc_LocalContextPath config) in
  let dockerfileDir := or_default (bc_DockerfileDir config) contextPath in
  let dockerfileFilename := or_default (bc_DockerfileFilename config) "Dockerfile" in
  let cacheRef := cacheRefForPushRef (hd "" pushRefs) in
  ([ "build"; "--frontend"; "dockerfile.v0"; "--local"; ("context=" ++ contextPath)%string;
     "--local"; ("dockerfile=" ++ dockerfileDir)%string;
     "--opt"; ("filename=" ++ dockerfileFilename)%string; "--output"; imageOutputArg pushRefs ]
   ++ buildAuthArgs auth
   ++ [ "--export-cache";
        ("type=registry,ref=" ++ cacheRef ++
         ",mode=max,image-manifest=true,oci-mediatypes=true,compression=zstd")%string;
        "--import-cache"; ("type=registry,ref=" ++ cacheRef)%string ]
   ++ mjoin (map (fun ba => ["--opt"; ("build-arg:" ++ Key ba ++ "=" ++ Value ba)%string])
                 (bc_BuildArgs config)))%list.

Definition redact_arg (arg : string) : string :=
  if Contains arg "@" && Contains arg "://" then redactURLCredentials arg else arg.

Definition output_logs (lines : list string) : list Effect :=
  map (fun l => Log (redactURLCredentials l)) (List.filter (fun l => negb (String.eqb l "")) lines).

(** After the buildctl arguments are complete. *)
Definition build_run (env : BuildEnv) (config : BuildConfig) (auth : buildAuth)
  : option string * list Effect :=
  let args := buildctl_args config auth in
  let head :=
    (Log ("Executing: buildctl " ++ Join (map redact_arg args) " ") :: RunBuildctl args ::
     output_logs (be_stdout env) ++ output_logs (be_stderr env))%list in
  match be_run env with
  | Some err =>
      (Some ("build failed: " ++ err),
       (head ++ [Log ("Build pod state at failure: " ++ be_pod_state env)%string]
        ++ (if be_timed_out env
            then [Log ("ERROR: build timed out after " ++ be_timeout_text env ++ "; marking failed")%string]
            else [])
        ++ [SetStatus JobStatusFailed; Log ("ERROR: Build failed: " ++ err)%string])%list)
  | None =>
      (None, (head ++ [SetStatus JobStatusSuccess;
                       Log ("Build completed successfully. Image: " ++ Join (push_refs config) ", ")%string])%list)
  end.

(** With the Docker configuration directory in place. *)
Definition build_with_config (env : BuildEnv) (config : BuildConfig) : option string * list Effect :=
  match be_marshal env with
  | Some e => (Some ("failed to marshal docker config: " ++ e), [])
  | None =>
  match be_write env with
  | Some e => (Some ("failed to write docker config: " ++ e), [])
  | None =>
      let pre := [Log ("Created Harbor credentials for " ++ StripRegistryProtocol (bc_HarborURL config))] in
      if String.eqb (bc_LocalContextPath config) "" then
        (Some "LocalContextPath is required", pre)
      else
        match be_auth env with
        | Err e =>
            (Some ("failed to read build auth: " ++ e),
             (pre ++ [StageAuth; SetStatus JobStatusFailed;
                      Log ("ERROR: failed to read build auth: " ++ e)%string; RemoveAuth])%list)
        | Ok auth =>
            let summary := describeBuildAuth auth in
            let '(r, effs) := build_run env config auth in
            (r, (pre ++ [StageAuth] ++ (if String.eqb summary "" then [] else [Log summary])
                 ++ effs ++ [RemoveAuth])%list)
        end
  end
  end.

(** With the build pod running. *)
Definition build_with_pod (env : BuildEnv) (config : BuildConfig) (addr : string)
  : option string * list Effect :=
  let pre := [Log ("BuildKit pod ready at " ++ addr);
              Log ("Building image: " ++ Join (push_refs config) ", ")] in
  match be_tmpdir env with
  | Some e => (Some ("failed to create temp directory: " ++ e), pre)
  | None =>
      let '(r, effs) := build_with_config env config in
      (r, (pre ++ [MakeDockerConfig] ++ effs ++ [RemoveDockerConfig])%list)
  end.

(** With the slot held. *)
Definition build_with_slot (env : BuildEnv) (config : BuildConfig) : option string * list Effect :=
  match be_busy env with
  | Some e => (Some ("failed to update job status: " ++ e), [])
  | None =>
      let pre := [SetStatus JobStatusBusy; Log "Starting ephemeral BuildKit pod"] in
      match be_builder env with
      | Err e =>
          (Some ("failed to start build pod: " ++ e),
           (pre ++ [SetStatus JobStatusFailed; Log ("ERROR: failed to start BuildKit pod: " ++ e)%string])%list)
      | Ok addr =>
          let '(r, effs) := build_with_pod env config addr in
          (r, (pre ++ [StartPod] ++ effs ++ [StopPod])%list)
      end
  end.

Definition Build (env : BuildEnv) (config : BuildConfig) : option string * list Effect :=
  let limit := MaxConcurrentBuilds (be_settings env) in
  let pre :=
    (Log ("Starting build for " ++ bc_OSID config ++ ":" ++ bc_CommitShort config) ::
     if limit <=? be_active env
     then [Log ("Waiting for a build slot (" ++ pretty (be_active env) ++ " builds running, limit " ++ pretty limit ++ ")")]
     else []) in
  match be_slot env with
  | Some e => (Some e, (pre ++ [SetStatus JobStatusFailed; Log ("ERROR: " ++ e)%string])%list)
  | None =>
      let '(r, effs) := build_with_slot env config in
      (r, (pre ++ [AcquireSlot] ++ effs ++ [ReleaseSlot])%list)
  end.

(** ** Outcome and status *)

Definition status_of (e : Effect) : option string := match e with SetStatus s => Some s | _ => None end.
Definition statuses (effs : list Effect) : list string := omap status_of effs.

Lemma statuses_app a b : statuses (a ++ b)%list = (statuses a ++ statuses b)%list.
Proof. apply omap_app. Qed.

Lemma statuses_output l : statuses (output_logs l) = [].
Proof. unfold output_logs. induction l as [|x l IH]; [done|]. simpl. by destruct (negb _). Qed.

(** Setting up the client side failed after the pod had started. *)
Definition setup_failed (env : BuildEnv) (config : BuildConfig) : bool :=
  bool_decide (is_Some (be_tmpdir env)) || bool_decide (is_Some (be_marshal env)) ||
  bool_decide (is_Some (be_write env)) || String.eqb (bc_LocalContextPath config) "".

Lemma build_run_statuses env config auth :
  match build_run env config auth with
  | (None, effs) => statuses effs = [JobStatusSuccess]
  | (Some _, effs) => statuses effs = [JobStatusFailed]
  end.
Proof.
  unfold build_run. destruct (be_run env);
    rewrite !statuses_app; cbn [statuses omap list_omap status_of List.app];
    rewrite !omap_app; fold (statuses (output_logs (be_stdout env)));
    fold (statuses (output_logs (be_stderr env))); rewrite !statuses_output; [|done].
  by destruct (be_timed_out env).
Qed.

Lemma build_with_pod_statuses env config addr :
  match build_with_pod env config addr with
  | (None, effs) => statuses effs = [JobStatusSuccess] /\ setup_failed env config = false
  | (Some _, effs) => statuses effs = if setup_failed env config then [] else [JobStatusFailed]
  end.
Proof.
  unfold build_with_pod, build_with_config, setup_failed.
  destruct (be_tmpdir env); [done|]. destruct (be_marshal env); [done|].
  destruct (be_write env); [done|]. destruct (String.eqb (bc_LocalContextPath config) ""); [done|].
  destruct (be_auth env) as [auth|e]; [|done].
  pose proof (build_run_statuses env config auth) as Hr.
  destruct (build_run env config auth) as [[e|] effs];
    rewrite !statuses_app, Hr; by destruct (String.eqb (describeBuildAuth auth) "").
Qed.

(** Every status write of a build. A build that succeeds has set the row busy
    and then success; one that fails has set it failed last, except when the
    write of busy itself failed and when the client-side set-up failed. *)
Lemma build_statuses env config :
  match Build env config with
  | (None, effs) => statuses effs = [JobStatusBusy; JobStatusSuccess]
  | (Some _, effs) =>
      if bool_decide (is_Some (be_slot env)) then statuses effs = [JobStatusFailed]
      else if bool_decide (is_Some (be_busy env)) then statuses effs = []
      else if is_ok (be_builder env) && setup_failed env config then statuses effs = [JobStatusBusy]
      else statuses effs = [JobStatusBusy; JobStatusFailed]
  end.
Proof.
  unfold Build. set (pre := Log _ :: _).
  assert (statuses pre = []) as Hpre by (unfold pre; by destruct (_ <=? _)).
  destruct (be_slot env); [by rewrite statuses_app, Hpre|].
  unfold build_with_slot. destruct (be_busy env); [by rewrite !statuses_app, Hpre|].
  destruct (be_builder env) as [addr|e]; [|by rewrite !statuses_app, Hpre].
  pose proof (build_with_pod_statuses env config addr) as Hp.
  destruct (build_with_pod env config addr) as [[e|] effs]; rewrite !statuses_app, Hpre; simpl.
  - rewrite Hp. by destruct (setup_failed env config).
  - destruct Hp as [-> _]. done.
Qed.

(** A build whose client-side set-up fails after its pod has started (no
    temporary directory, no credentials file, an empty context path) returns an
    error and leaves its row busy: no later write of the build marks it failed. *)
Theorem build_setup_failure_leaves_busy env config :
  be_slot env = None -> be_busy env = None -> is_ok (be_builder env) = true ->
  setup_failed env config = true ->
  exists e effs, Build env config = (Some e, effs) /\ statuses effs = [JobStatusBusy].
Proof.
  intros Hs Hb Hp Hf. pose proof (build_statuses env config) as H.
  destruct (Build env config) as [[e|] effs] eqn:E.
  - rewrite Hs, Hb, Hp, Hf in H. simpl in H. eauto.
  - exfalso. unfold Build, build_with_slot in E. rewrite Hs, Hb in E.
    destruct (be_builder env) as [addr|]; [|done].
    pose proof (build_with_pod_statuses env config addr) as Hw.
    destruct (build_with_pod env config addr) as [[?|] ?]; [done|].
    destruct Hw as [_ Hw]. congruence.
Qed.

Definition demo_env : BuildEnv :=
  mkBuildEnv (defaultBuildSettings "") 0 None None (Ok "tcp://10.0.0.1:1234") None None
    (Some "no space left on device") (Ok (mkAuth "" ∅)) [] [] None false "" "45m0s".
Definition demo_config : BuildConfig :=
  mkBuildConfig "j" "app1" "c" "c" "https://harbor" "/tmp/x" "" "" "" [] "" "" [].

Lemma build_setup_failure_leaves_busy_witness :
  exists e effs, Build demo_env demo_config = (Some e, effs) /\ statuses effs = [JobStatusBusy].
Proof. apply build_setup_failure_leaves_busy; reflexivity. Defined.

(** ** Resources *)

Inductive Res := RSlot | RPod | RConfig | RAuth.

#[export] Instance Res_eq_dec : EqDecision Res.
Proof. solve_decision. Defined.

(** Runs the effects against the stack of held resources; [None] when one is
    released out of order or buildctl runs without all of them. *)
Definition res_step (st : list Res) (e : Effect) : option (list Res) :=
  match e, st with
  | AcquireSlot, _ => Some (RSlot :: st)
  | StartPod, _ => Some (RPod :: st)
  | MakeDockerConfig, _ => Some (RConfig :: st)
  | StageAuth, _ => Some (RAuth :: st)
  | ReleaseSlot, RSlot :: st => Some st
  | StopPod, RPod :: st => Some st
  | RemoveDockerConfig, RConfig :: st => Some st
  | RemoveAuth, RAuth :: st => Some st
  | RunBuildctl _, [RAuth; RConfig; RPod; RSlot] => Some st
  | Log _, _ | SetStatus _, _ => Some st
  | _, _ => None
  end.

Fixpoint res_run (st : list Res) (effs : list Effect) : option (list Res) :=
  match effs with
  | [] => Some st
  | e :: effs => res_step st e ≫= fun st => res_run st effs
  end.

Lemma res_run_app a b st : res_run st (a ++ b)%list = res_run st a ≫= fun st => res_run st b.
Proof. revert st. induction a as [|e a IH]; intros st; [done|].
  cbn [List.app res_run]. destruct (res_step st e) as [st'|]; [apply IH|done].
Qed.

Lemma res_run_logs l st : Forall (fun e => exists s, e = Log s) l -> res_run st l = Some st.
Proof. induction 1 as [|e l [s ->] _ IH]; [done|]. done. Qed.

Lemma output_logs_logs l : Forall (fun e => exists s, e = Log s) (output_logs l).
Proof. apply Forall_fmap, Forall_true. eauto. Qed.

Lemma build_run_res env config auth :
  res_run [RAuth; RConfig; RPod; RSlot] (build_run env config auth).2 = Some [RAuth; RConfig; RPod; RSlot].
Proof.
  assert (forall l, res_run [RAuth; RConfig; RPod; RSlot] (output_logs l) = Some [RAuth; RConfig; RPod; RSlot])
    as Ho by (intros l; apply res_run_logs, output_logs_logs).
  unfold build_run. destruct (be_run env); cbn [snd];
    rewrite !res_run_app; cbn [res_run res_step mbind option_bind];
    rewrite !res_run_app, Ho; cbn [mbind option_bind]; rewrite Ho; [|done].
  by destruct (be_timed_out env).
Qed.

(** C28: A build gives back everything it took. On every path, success or any
    failure, the slot, the build pod, the registry credentials directory and the
    staged build secrets are released exactly once, in the reverse order of
    their acquisition, and buildctl runs only while all four are held. *)
Theorem build_releases_resources env config : res_run [] (Build env config).2 = Some [].
Proof.
  unfold Build. set (pre := Log _ :: _).
  assert (forall st, res_run st pre = Some st) as Hpre by (intros st; unfold pre; by destruct (_ <=? _)).
  destruct (be_slot env); cbn [snd]; [by rewrite res_run_app, Hpre|].
  unfold build_with_slot. destruct (be_busy env); cbn [snd]; [by rewrite res_run_app, Hpre|].
  destruct (be_builder env) as [addr|e]; cbn [snd]; [|by rewrite res_run_app, Hpre].
  assert (res_run [RPod; RSlot] (build_with_pod env config addr).2 = Some [RPod; RSlot]) as Hp.
  { unfold build_with_pod, build_with_config. destruct (be_tmpdir env); [done|].
    destruct (be_marshal env); [done|]. destruct (be_write env); [done|].
    destruct (String.eqb (bc_LocalContextPath config) ""); [done|].
    destruct (be_auth env) as [auth|e]; [|done].
    pose proof (build_run_res env config auth) as Hr.
    destruct (build_run env config auth) as [r effs]. cbn [snd] in *.
    rewrite !res_run_app. cbn [res_run res_step mbind option_bind List.app].
    rewrite !res_run_app. cbn [res_run res_step mbind option_bind].
    destruct (String.eqb (describeBuildAuth auth) "");
      cbn [res_run res_step mbind option_bind]; rewrite res_run_app, Hr; done. }
  destruct (build_with_pod env config addr) as [r effs]. cbn [snd] in *.
  rewrite res_run_app, Hpre. cbn [res_run res_step mbind option_bind List.app].
  rewrite !res_run_app. cbn [res_run res_step mbind option_bind]. rewrite Hp. done.
Qed.

(** ** Names, settings and references *)

Definition dns_char (c : ascii) : bool := in_range 97 122 c || in_range 48 57 c || Ascii.eqb c "-".

Lemma in_range_iff lo hi c : in_range lo hi c = true <-> lo <= byte_val c <= hi.
Proof. unfold in_range. rewrite andb_true_iff, !Z.leb_le. done. Qed.

Lemma sanitize_rune_dns r : all_chars dns_char (sanitize_rune r) = true.
Proof.
  destruct r as [|c [|d r]]; [done| |done]. simpl.
  destruct (in_range 97 122 c || in_range 48 57 c || Ascii.eqb c "-") eqn:E1.
  { simpl. unfold dns_char. by rewrite E1. }
  destruct (in_range 65 90 c) eqn:E2; [|done].
  apply in_range_iff in E2. unfold byte_val in E2. simpl. rewrite andb_true_r.
  unfold dns_char. replace (in_range 97 122 _) with true; [done|]. symmetry.
  apply in_range_iff. unfold byte_val. rewrite nat_ascii_embedding; lia.
Qed.

Lemma sanitize_dns s : all_chars dns_char (sanitizeK8sName s) = true.
Proof.
  unfold sanitizeK8sName. induction (rune_list s) as [|r l IH]; [done|].
  cbn [map concat_all foldr]. rewrite all_chars_app, sanitize_rune_dns. apply IH.
Qed.

Lemma all_chars_take p n s : all_chars p s = true -> all_chars p (take_string n s) = true.
Proof.
  rewrite <-(take_drop_string n s) at 1. rewrite all_chars_app. by intros [? _]%andb_prop.
Qed.

Lemma drop_leading_suffix c s : exists p, s = p ++ drop_leading c s.
Proof.
  induction s as [|d s [p IH]]; [by exists ""|]. simpl. destruct (Ascii.eqb d c).
  - exists (String d p). simpl. by rewrite <-IH.
  - by exists "".
Qed.

Lemma drop_leading_head c s d r : drop_leading c s = String d r -> d <> c.
Proof.
  induction s as [|e s IH]; [done|]. simpl. destruct (Ascii.eqb_spec e c); [done|]. by intros [= <- _].
Qed.

(** Trimming on the right keeps a prefix, and the last byte is another one. *)
Lemma TrimRightChar_prefix s c : exists q, s = TrimRightChar s c ++ q.
Proof.
  unfold TrimRightChar. destruct (drop_leading_suffix c (rev_string s)) as [p Hp].
  exists (rev_string p). rewrite <-rev_string_app, <-Hp. by rewrite rev_string_involutive.
Qed.

Lemma TrimRightChar_last s c a d : TrimRightChar s c = a ++ String d "" -> d <> c.
Proof.
  unfold TrimRightChar. intros E. apply (f_equal rev_string) in E.
  rewrite rev_string_involutive, rev_string_app in E. eapply drop_leading_head. exact E.
Qed.

Lemma take_append_le n a b :
  (String.length a <= n)%nat -> take_string n (a ++ b) = a ++ take_string (n - String.length a) b.
Proof.
  revert n. induction a as [|c a IH]; intros n Hn; simpl; [by rewrite Nat.sub_0_r|].
  destruct n; simpl in Hn; [lia|]. simpl. by rewrite IH by lia.
Qed.

Lemma prefix_cases p s q r :
  p ++ s = q ++ r -> (String.length p <= String.length q)%nat -> exists x, q = p ++ x.
Proof.
  revert q. induction p as [|c p IH]; intros q E Hl; [by exists q|].
  destruct q as [|d q]; simpl in Hl; [lia|]. simpl in E. injection E as <- E.
  destruct (IH q E) as [x ->]; [lia|]. by exists x.
Qed.

(** The pod-name prefix without its final dash survives the trim. *)
Lemma trim_keeps_core core s :
  (exists a d, core = a ++ String d "" /\ d <> "-"%char) -> exists x, TrimRightChar (core ++ s) "-" = core ++ x.
Proof.
  intros (a & d & -> & Hd).
  destruct (TrimRightChar_prefix ((a ++ String d "") ++ s) "-") as [q Hq].
  destruct (decide (String.length (a ++ String d "") <= String.length (TrimRightChar ((a ++ String d "") ++ s) "-"))%nat)
    as [Hl|Hl]; [by eapply prefix_cases|].
  exfalso.
  assert (exists y, drop_leading "-" (rev_string s ++ rev_string (a ++ String d "")) = y ++ rev_string (a ++ String d ""))
    as [y Hy].
  { clear Hq Hl. induction (rev_string s) as [|e t IH]; simpl.
    - exists "". rewrite rev_string_app. simpl. apply Ascii.eqb_neq in Hd. by rewrite Hd.
    - destruct (Ascii.eqb e "-"); [done|]. by exists (String e t). }
  unfold TrimRightChar in Hl. rewrite (rev_string_app (a ++ String d "") s), Hy in Hl.
  rewrite rev_string_length, (length_append y), rev_string_length in Hl. lia.
Qed.

(** A build pod's name is always a valid DNS-1123 label: it consists of
    lower-case letters, digits and dashes, is at most 63 bytes long, starts
    with "buildkit-build" and does not end in a dash, for any job id. *)
Theorem builderPodName_valid jobID :
  all_chars dns_char (builderPodName jobID) = true /\ slen (builderPodName jobID) <= 63 /\
  (exists x, builderPodName jobID = "buildkit-build" ++ x) /\
  (forall a d, builderPodName jobID = a ++ String d "" -> d <> "-"%char).
Proof.
  unfold builderPodName. set (name := builderPodPrefix ++ sanitizeK8sName jobID).
  set (cut := if 63 <? slen name then take_string 63 name else name).
  assert (all_chars dns_char name = true) as Hn.
  { unfold name. rewrite all_chars_app, sanitize_dns. done. }
  assert (all_chars dns_char cut = true /\ slen cut <= 63) as [Hc Hl].
  { unfold cut. destruct (Z.ltb_spec 63 (slen name)); [|split; [done|lia]].
    split; [by apply all_chars_take|]. unfold slen. rewrite length_take_string. lia. }
  assert (exists x, cut = "buildkit-build" ++ x) as [x Hx].
  { assert (name = "buildkit-build" ++ ("-" ++ sanitizeK8sName jobID)) as E by done.
    unfold cut. rewrite E. destruct (63 <? _); [|eauto].
    rewrite take_append_le by (simpl; lia). eauto. }
  destruct (TrimRightChar_prefix cut "-") as [q Hq]. split_and!.
  - rewrite Hq, all_chars_app in Hc. by apply andb_prop in Hc as [? _].
  - unfold slen in *. rewrite Hq, length_append in Hl. lia.
  - rewrite Hx. apply trim_keeps_core. by exists "buildkit-buil", "d"%char.
  - intros a d. apply TrimRightChar_last.
Qed.

(** The name is cut one byte short of a VCS job id: two job ids of the
    documented shape (a 40-digit commit hash, a dash and eight hex digits) that
    differ only in the last digit get the same pod name. *)
Theorem builderPodName_collision :
  let sha := "0123456789abcdef0123456789abcdef01234567" in
  builderPodName (sha ++ "-89abcdef") = builderPodName (sha ++ "-89abcde0") /\
  slen (builderPodPrefix ++ sha ++ "-89abcdef") = 64.
Proof. vm_compute. done. Qed.

Lemma positive_or_pos data k d : 0 < d -> 0 < positive_or data k d.
Proof.
  intros Hd. unfold positive_or. destruct (Atoi _); [|done]. destruct (Z.ltb_spec 0 z); done.
Qed.

(** Whatever the settings ConfigMap and the environment variable hold, the
    settings a build uses are usable: every number is positive and neither
    request exceeds its limit, so Kubernetes accepts the pod. *)
Theorem build_settings_usable v cm :
  let s := ReadBuildSettings v cm in
  0 < MaxConcurrentBuilds s /\ 0 < CPURequestMc s <= CPULimitMc s /\
  0 < MemoryRequestMb s <= MemoryLimitMb s /\ 0 < BuildCacheSizeGb s.
Proof.
  assert (0 < maxConcurrentBuilds v) as Hm.
  { unfold maxConcurrentBuilds, defaultMaxConcurrentBuilds. destruct (String.eqb v ""); simpl; [lia|].
    destruct (Atoi v); [|lia]. destruct (Z.ltb_spec 0 z); lia. }
  destruct cm as [data| |]; simpl; [|repeat split; done || lia|repeat split; done || lia].
  pose proof (positive_or_pos data "maxConcurrentBuilds" _ Hm).
  pose proof (positive_or_pos data "cpuRequestMc" 100 eq_refl).
  pose proof (positive_or_pos data "cpuLimitMc" 1000 eq_refl).
  pose proof (positive_or_pos data "memoryRequestMb" 256 eq_refl).
  pose proof (positive_or_pos data "memoryLimitMb" 2048 eq_refl).
  pose proof (positive_or_pos data "buildCacheSizeGb" defaultBuildCacheSizeGb eq_refl).
  case_match eqn:E1; case_match eqn:E2; rewrite ?Z.ltb_lt, ?Z.ltb_ge in *; lia.
Qed.
