(* ===== verification/Upload.v ===== *)
(** * The upload and pull endpoints
      ([src/webhook/cli_deploy_handler.go], [cli_pull_handler.go],
       [upload_failure.go])

    A handler is a function of the request, of what the cluster answers, and of
    the state it shares with the other goroutines: the drain tracker and the
    database. It answers a response and, when it accepts an upload, the job its
    goroutine will run. *)
From S2P Require Import Prelude GoStrings Drain Db BuildJobs TokenStore Paths Tarball BuildKit.
Local Open Scope string_scope.
Local Open Scope Z_scope.

Definition MaxUploadSize : Z := 100 * 1024 * 1024.
Definition drainRetryAfterSeconds : string := "30".

Record Request := mkRequest {
  Method : string;
  Path : string;
  req_now : Z;                          (* time.Now at the expiry check *)
  Body : result string Z                (* bytes the body reader delivers, or its error *)
}.

(** What the cluster answers while the request is handled. *)
Record Cluster := mkCluster {
  k8s_client : option string;           (* error of NewK8sClient *)
  buildkit_config : option string;      (* error of GetBuildKitConfig *)
  push_archive : option string;         (* error of PushArchive *)
  pull_archive : option string;         (* error of PullArchive *)
  new_uuid : string
}.

Inductive JobKind :=
| CLIDeploy
| BuildImage (repo : string) (tags : list string).

Record Job := mkUploadJob {
  job_unit : nat;                       (* the drain unit the goroutine ends *)
  job_kind : JobKind;
  job_osid : string;
  job_id : string;
  job_dockerfile : string;
  job_args : list BuildArg
}.

(** [Panicked] is the run-time panic of slicing a short token for the log; the
    HTTP server recovers it and drops the connection. *)
Inductive Response :=
| Answer (status : Z) (body : string)
| Panicked.

Section Handlers.
Context {DB : Type} {DBI : Database DB} {TC : TokenCodec}.

Record Server := mkServer { tracker : World; store : DB }.

(** *** upload_failure.go *)

Definition recordFailedUpload (jobID osid message : string) (db : DB) : result string unit * DB :=
  match CreateBuildKitJob jobID osid "" "" jobID db with
  | (Err e, db) => (Err ("create build row: " ++ e), db)
  | (Ok _, db) =>
      match InsertBuildKitLog jobID ("ERROR: " ++ message) db with
      | (Err e, db) => (Err ("insert build log: " ++ e), db)
      | (Ok _, db) => UpdateBuildKitJobStatus jobID JobStatusFailed db
      end
  end.

Definition archiveStoreFailure (err : string) : string :=
  "Failed to store archive in the cluster registry: " ++ err.

Definition failUpload (osid uploadID : string) (status : Z) (message : string) (db : DB) : Response * DB :=
  (Answer status message, (recordFailedUpload uploadID osid message db).2).

(** *** The upload handler *)

(** The deferred [if !started { end() }]. *)
Definition end_unit (u : nat) (w : World) : World := default w (end_fn u w).

Definition token_of_path (prefix path : string) : string := hd "" (Split slash (TrimPrefix path prefix)).

Definition short (token : string) : bool := slen token <? 8.

(** http.MaxBytesReader and io.ReadAll. *)
Definition read_body (r : Request) : result string Z :=
  match Body r with
  | Err e => Err e
  | Ok n => if MaxUploadSize <? n then Err "http: request body too large" else Ok n
  end.

(** From the validated token on: the job to start, or a response. *)
Definition accept_upload (token : string) (c : Cluster) (t : UploadToken) (u : nat) (db : DB)
  : result Response Job * DB :=
  let '(osid, uploadID) := match Cut ":" (ut_deployConfig t) with
                           | Some (o, i) => (o, if String.eqb i "" then new_uuid c else i)
                           | None => (ut_deployConfig t, new_uuid c)
                           end in
  let fail msg := let '(r, db) := failUpload osid uploadID 500 msg db in (Err r, db) in
  match k8s_client c with
  | Some e => fail ("Internal error: create Kubernetes client: " ++ e)
  | None =>
  match buildkit_config c with
  | Some e => fail ("Internal error: read the build config: " ++ e)
  | None =>
      if String.eqb (ut_purpose t) PurposeBuildImage then
        match ut_buildTarget t with
        | Some (mkTarget repo (_ :: _ as tags)) =>
            if String.eqb repo "" then
              if short token then (Err Panicked, db) else (Err (Answer 400 "Invalid build target"), db)
            else if short token then (Err Panicked, db)
            else (Ok (mkUploadJob u (BuildImage repo tags) osid uploadID (ut_dockerfile t) (ut_buildArgs t)), db)
        | _ => if short token then (Err Panicked, db) else (Err (Answer 400 "Invalid build target"), db)
        end
      else if short token then (Err Panicked, db)
      else
        match push_archive c with
        | Some e => fail (archiveStoreFailure e)
        | None => (Ok (mkUploadJob u CLIDeploy osid uploadID (ut_dockerfile t) (ut_buildArgs t)), db)
        end
  end
  end.

(** After the tracker admitted the request as unit [u]. *)
Definition upload_admitted (r : Request) (c : Cluster) (token : string) (u : nat) (db : DB)
  : result Response Job * DB :=
  match GetUploadableToken token db with
  | (Err _, db) => (Err (Answer 401 "Invalid token"), db)
  | (Ok t, db) =>
      if ut_expiresAt t <? req_now r then
        (Err (if short token then Panicked else Answer 401 "Token expired"), db)
      else if ut_used t then
        (Err (if short token then Panicked else Answer 401 "Token already used"), db)
      else
        match MarkUploadTokenUsed token db with
        | (Err _, db) => (Err (Answer 500 "Token validation failed"), db)
        | (Ok _, db) =>
            match read_body r with
            | Err _ => (Err (Answer 400 "Failed to read upload"), db)
            | Ok _ => accept_upload token c t u db
            end
        end
  end.

Definition accepted_body (k : JobKind) : string :=
  match k with
  | CLIDeploy => "Upload received, processing CLI deployment"
  | BuildImage _ _ => "Upload received, processing build-image"
  end.

Definition begin_error (e : DrainError) : string :=
  match e with
  | ErrDraining => "cluster agent is draining for a restart and takes no new builds or jobs"
  | ErrStarting => "cluster agent is starting and takes no new builds or jobs yet"
  end.

Definition HandleCLIDeployUpload (r : Request) (c : Cluster) (s : Server)
  : Response * option Job * Server :=
  if negb (String.eqb (Method r) "POST") then (Answer 405 "Method not allowed", None, s)
  else
    let token := token_of_path "/cli-deploy/" (Path r) in
    if String.eqb token "" then (Answer 400 "Token required", None, s)
    else
      match Begin (tracker s) with
      | (Err e, w) => (Answer 503 (begin_error e), None, mkServer w (store s))
      | (Ok u, w) =>
          match upload_admitted r c token u (store s) with
          | (Err resp, db) => (resp, None, mkServer (end_unit u w) db)
          | (Ok job, db) => (Answer 202 (accepted_body (job_kind job)), Some job, mkServer w db)
          end
      end.

(** *** The pull handler *)

Definition HandleCLIPullDownload (r : Request) (c : Cluster) (db : DB)
  : Response * option (string * string) * DB :=
  if negb (String.eqb (Method r) "GET") then (Answer 405 "Method not allowed", None, db)
  else
    let token := token_of_path "/cli-pull/" (Path r) in
    if String.eqb token "" then (Answer 400 "Token required", None, db)
    else
      match GetPullToken token db with
      | (Err _, db) => (Answer 401 "Invalid token", None, db)
      | (Ok t, db) =>
          if ut_expiresAt t <? req_now r then
            (if short token then Panicked else Answer 401 "Token expired", None, db)
          else if ut_used t then
            (if short token then Panicked else Answer 401 "Token already used", None, db)
          else
            match MarkUploadTokenUsed token db with
            | (Err _, db) => (Answer 500 "Token validation failed", None, db)
            | (Ok _, db) =>
                match Cut ":" (ut_deployConfig t) with
                | Some (osid, cli) =>
                    if String.eqb osid "" || String.eqb cli "" then
                      (Answer 500 "Token payload invalid", None, db)
                    else if bool_decide (is_Some (k8s_client c)) || bool_decide (is_Some (buildkit_config c)) then
                      (Answer 500 "Internal error", None, db)
                    else
                      (* the archive is streamed; an error truncates the body *)
                      (if short token && negb (bool_decide (is_Some (pull_archive c))) then Panicked
                       else Answer 200 "", Some (osid, cli), db)
                | None => (Answer 500 "Token payload invalid", None, db)
                end
            end
      end.
End Handlers.

(** ** Lemmas *)

Section Lemmas.
Context {DB : Type} {DBI : Database DB} {DBL : DatabaseLaws DB} {TC : TokenCodec}.

Lemma accept_upload_ok token c t u (db db' : DB) j :
  accept_upload token c t u db = (Ok j, db') ->
  db' = db /\ job_unit j = u /\ job_dockerfile j = ut_dockerfile t /\ job_args j = ut_buildArgs t /\
  (job_kind j = CLIDeploy <-> ut_purpose t <> PurposeBuildImage).
Proof.
  unfold accept_upload. set (ids := match Cut _ _ with Some _ => _ | None => _ end).
  destruct ids as [osid uploadID]. unfold failUpload.
  destruct (k8s_client c); [done|]. destruct (buildkit_config c); [done|].
  destruct (String.eqb_spec (ut_purpose t) PurposeBuildImage) as [Ep|Ep].
  - destruct (ut_buildTarget t) as [[repo [|tag tags]]|];
      [by destruct (short token)| |by destruct (short token)].
    destruct (String.eqb repo ""); [by destruct (short token)|].
    destruct (short token); [done|]. intros [= <- <-]. by repeat split.
  - destruct (short token); [done|]. destruct (push_archive c); [done|].
    intros [= <- <-]. by repeat split.
Qed.

Lemma upload_admitted_ok r c token u (db db' : DB) j :
  upload_admitted r c token u db = (Ok j, db') ->
  exists t db1, GetUploadableToken token db = (Ok t, db1) /\
    req_now r <= ut_expiresAt t /\ ut_used t = false /\
    MarkUploadTokenUsed token db1 = (Ok tt, db') /\ is_ok (read_body r) = true /\
    accept_upload token c t u db' = (Ok j, db').
Proof.
  unfold upload_admitted. destruct (GetUploadableToken token db) as [[t|e] db1] eqn:Hg; [|done].
  destruct (Z.ltb_spec (ut_expiresAt t) (req_now r)); [by destruct (short token)|].
  destruct (ut_used t) eqn:Hu; [by destruct (short token)|].
  destruct (MarkUploadTokenUsed token db1) as [[[]|e] db2] eqn:Hm; [|done].
  destruct (read_body r) eqn:Hb; [|done]. intros Ha.
  destruct (accept_upload_ok _ _ _ _ _ _ _ Ha) as [-> _]. by exists t, db1.
Qed.

Lemma upload_cases r c (s : @Server DB) :
  let '(resp, job, s') := HandleCLIDeployUpload r c s in
  let token := token_of_path "/cli-deploy/" (Path r) in
  (job = None /\ s' = s /\ (resp = Answer 405 "Method not allowed" \/ resp = Answer 400 "Token required")) \/
  (exists e, Begin (tracker s) = (Err e, tracker s) /\ job = None /\ s' = s /\ resp = Answer 503 (begin_error e)) \/
  (exists u w, Begin (tracker s) = (Ok u, w) /\
     ((job = None /\ tracker s' = end_unit u w /\ upload_admitted r c token u (store s) = (Err resp, store s')) \/
      (exists j, job = Some j /\ tracker s' = w /\ resp = Answer 202 (accepted_body (job_kind j)) /\
         upload_admitted r c token u (store s) = (Ok j, store s')))).
Proof.
  unfold HandleCLIDeployUpload. destruct s as [w0 db0]. simpl.
  destruct (String.eqb (Method r) "POST"); simpl; [|left; auto].
  destruct (String.eqb _ ""); simpl; [left; auto|].
  destruct (Begin w0) as [[u|e] w] eqn:Hb.
  - destruct (upload_admitted _ _ _ _ db0) as [[j|resp] db] eqn:Ha; simpl;
      right; right; exists u, w; (split; [done|]); [right; exists j|left]; done.
  - simpl. right; left. assert (w = w0) as -> by (unfold Begin in Hb; cases; congruence). eauto.
Qed.

Lemma Begin_unit w u w' :
  Begin w = (Ok u, w') -> running w' = ({[u]} ∪ running w) /\ (u ∉ running w) /\ onces w' !! u = Some false.
Proof.
  unfold Begin. destruct (draining (tr w)); [done|]. destruct (held (tr w)); [done|].
  intros [= <- <-]. pose proof (is_fresh (dom (onces w))) as Hf.
  split; [by apply running_begin|]. split; [|apply lookup_insert_eq].
  intros Hu%elem_of_running. apply Hf, elem_of_dom; eauto.
Qed.

(** Ending the unit that was just begun restores the running set. *)
Lemma begin_end w u w' :
  reachable w -> Begin w = (Ok u, w') -> running (end_unit u w') = running w.
Proof.
  intros Hw Hb. destruct (Begin_unit _ _ _ Hb) as (Hr & Hn & Ho).
  assert (inv w') as I.
  { pose proof (Begin_inv _ (reachable_inv _ Hw)) as I. by rewrite Hb in I. }
  destruct (end_fn_inv w' u false I Ho) as (w2 & E & _). unfold end_unit. rewrite E. simpl.
  assert (onces w2 = <[u := true]> (onces w')) as Ho2.
  { unfold end_fn, finish, close_chan in E. rewrite Ho in E. simpl in E. cases; done. }
  rewrite (running_ended w' w2 u Ho2), Hr. set_solver.
Qed.
End Lemmas.

(** ** Properties *)

Section Properties.
Context {DB : Type} {DBI : Database DB} {DBL : DatabaseLaws DB} {TC : TokenCodec}.

(** A request holds the agent's restart back exactly while it has work. On
    every path of the upload handler, from a refused method to a panic, either
    it answers 202 and hands a job over that owns one new unit of the drain
    tracker, or it has no job, does not answer 202, and the tracker's running
    set is what it was before the request. *)
Theorem upload_unit_accounting r c (s : @Server DB) :
  reachable (tracker s) ->
  let '(resp, job, s') := HandleCLIDeployUpload r c s in
  match job with
  | Some j => resp = Answer 202 (accepted_body (job_kind j)) /\
      (job_unit j ∉ running (tracker s)) /\
      running (tracker s') = ({[job_unit j]} ∪ running (tracker s))
  | None => running (tracker s') = running (tracker s)
  end.
Proof.
  intros Hw. pose proof (upload_cases r c s) as H.
  destruct (HandleCLIDeployUpload r c s) as [[resp job] s'].
  destruct H as [(-> & -> & _)|[(e & _ & -> & -> & _)|(u & w & Hb & [(-> & Ht & _)|(j & -> & Ht & -> & Ha)])]];
    [done|done| |].
  - rewrite Ht. by apply begin_end.
  - destruct (upload_admitted_ok _ _ _ _ _ _ _ Ha) as (t & db1 & _ & _ & _ & _ & _ & Hac).
    destruct (accept_upload_ok _ _ _ _ _ _ _ Hac) as (_ & -> & _).
    destruct (Begin_unit _ _ _ Hb) as (Hr & Hn & _). rewrite Ht. auto.
Qed.

(** A draining or starting agent burns no token: it answers 503 to an
    upload and leaves the tracker and the database exactly as they were. *)
Theorem upload_refusal_keeps_token r c (s : @Server DB) :
  Method r = "POST" -> token_of_path "/cli-deploy/" (Path r) <> "" ->
  draining (tr (tracker s)) = true \/ held (tr (tracker s)) = true ->
  exists e, HandleCLIDeployUpload r c s = (Answer 503 (begin_error e), None, s).
Proof.
  intros Hm Ht Hd. unfold HandleCLIDeployUpload. rewrite Hm. cbn [negb String.eqb Ascii.eqb Bool.eqb].
  apply String.eqb_neq in Ht as ->. unfold Begin. destruct s as [w db]. simpl in *.
  destruct (draining (tr w)); [eauto|]. destruct (held (tr w)); [eauto|]. by destruct Hd.
Qed.

(** C9: An accepted upload was authorised, once. When the handler starts a job,
    the database held, at lookup time, a row with the hash of the presented
    token, of purpose upload or build_image, unexpired and unused; the job
    carries that row's Dockerfile and is a build-image job exactly for the
    build_image purpose; the token is now spent, and after any further token
    operations of other goroutines no request presenting it is accepted. *)
Theorem upload_authorised_once r c r2 c2 (s s' s2 : @Server DB) resp j :
  HandleCLIDeployUpload r c s = (resp, Some j, s') ->
  token_of_path "/cli-deploy/" (Path r2) = token_of_path "/cli-deploy/" (Path r) ->
  rtc (token_step (hashToken (token_of_path "/cli-deploy/" (Path r)))) (store s') (store s2) ->
  (exists m, m ∈ tokens_t (tables (store s)) /\
     TokenHash m = hashToken (token_of_path "/cli-deploy/" (Path r)) /\
     (Purpose m = PurposeUpload \/ Purpose m = PurposeBuildImage) /\
     req_now r <= ExpiresAt m /\ Used m = false /\
     (job_kind j = CLIDeploy <-> Purpose m = PurposeUpload)) /\
  (HandleCLIDeployUpload r2 c2 s2).1.2 = None.
Proof.
  intros H Htok Hs. pose proof (upload_cases r c s) as Hc. rewrite H in Hc. simpl in Hc.
  destruct Hc as [(? & _)|[(e & _ & ? & _)|(u & w & Hb & [(? & _)|(j' & [= <-] & Ht & _ & Ha)])]]; try done.
  destruct (upload_admitted_ok _ _ _ _ _ _ _ Ha) as (t & db1 & Hg & Hexp & Hused & Hmark & _ & Hac).
  destruct (accept_upload_ok _ _ _ _ _ _ _ Hac) as (_ & _ & _ & _ & Hk). split.
  - pose proof (lookup_row (token_of_path "/cli-deploy/" (Path r)) [PurposeUpload; PurposeBuildImage] (store s)) as Hp.
    unfold GetUploadableToken in Hg. rewrite Hg in Hp.
    destruct Hp as (_ & Hin & _ & m & Hm & Hh & Epur & _ & Eexp & Eused).
    exists m. rewrite Epur, Eexp, Eused, Hused. split_and!; [done|done| |done|done| ].
    + rewrite !elem_of_cons in Hin. destruct Hin as [?|[?|Hin%not_elem_of_nil]]; [by left|by right|done].
    + rewrite Hk. split; [|by intros ->]. intros Hp. rewrite !elem_of_cons in Hin.
      by destruct Hin as [?|[?|Hin%not_elem_of_nil]].
  - pose proof (upload_cases r2 c2 s2) as Hc2.
    destruct (HandleCLIDeployUpload r2 c2 s2) as [[resp2 job2] s3]. cbn [fst snd].
    destruct Hc2 as [(? & _)|[(e & _ & ? & _)|(u2 & w2 & _ & [(? & _)|(j2 & _ & _ & _ & Ha2)])]]; try done.
    rewrite Htok in Ha2.
    destruct (upload_admitted_ok _ _ _ _ _ _ _ Ha2) as (t2 & db2 & Hg2 & _ & _ & Hmark2 & _).
    exfalso. assert (is_ok (MarkUploadTokenUsed (token_of_path "/cli-deploy/" (Path r)) db2).1 = false) as Hf;
      [|by rewrite Hmark2 in Hf].
    apply mark_spent_fails. apply mark_ok_spends in Hmark.
    assert (spent (hashToken (token_of_path "/cli-deploy/" (Path r))) (tables (store s2))) as Hsp.
    { eauto using token_steps_spent. }
    pose proof (get_state (token_of_path "/cli-deploy/" (Path r)) [PurposeUpload; PurposeBuildImage] (store s2)) as Hgs.
    unfold GetUploadableToken in Hg2. rewrite Hg2 in Hgs. simpl in Hgs. by rewrite Hgs.
Qed.
End Properties.

(** ** Witnesses *)

Definition demo_store : MemDb :=
  (CreateUploadToken "secret-token" "app1" "cli1" "Dockerfile" demo_args 5000 (mem_ready empty_tables)).2.
Definition demo_server : @Server MemDb := mkServer Drain.init demo_store.
Definition demo_request : Request := mkRequest "POST" "/cli-deploy/secret-token" 2000 (Ok 4096).
Definition demo_cluster : Cluster := mkCluster None None None None "fresh".

(** [recordFailedUpload] is documented to end the job failed instead of leaving
    it waiting. When its log line cannot be written it returns before the status,
    and the row it has just made stays pending. *)
Lemma failed_upload_left_pending :
  let '(r, d) := recordFailedUpload "cli1" "app1" "registry down" (mkMem empty_tables true 1000 100 [None; Some "connection reset"]) in
  is_ok r = false /\ map Status (jobs_t (tables d)) = [JobStatusPending].
Proof. vm_compute. auto. Qed.

Lemma init_reachable : reachable Drain.init.
Proof. apply rtc_refl. Qed.

Lemma upload_unit_accounting_witness :
  let '(resp, job, s') := HandleCLIDeployUpload demo_request demo_cluster demo_server in
  resp = Answer 202 "Upload received, processing CLI deployment" /\
  exists j, job = Some j /\ job_id j = "cli1" /\ job_args j = demo_args /\
    running (tracker s') = {[job_unit j]} ∪ running (tracker demo_server).
Proof.
  pose proof (upload_unit_accounting demo_request demo_cluster demo_server init_reachable) as H.
  destruct (HandleCLIDeployUpload demo_request demo_cluster demo_server) as [[resp job] s'] eqn:E.
  vm_compute in E. injection E as <- <- <-. destruct H as (_ & _ & H).
  split; [reflexivity|]. eexists. split; [reflexivity|]. split; [reflexivity|]. split; [reflexivity|]. exact H.
Defined.

Lemma upload_refusal_keeps_token_witness :
  exists e, HandleCLIDeployUpload demo_request demo_cluster (mkServer (Hold Drain.init) demo_store)
    = (Answer 503 (begin_error e), None, mkServer (Hold Drain.init) demo_store).
Proof.
  apply upload_refusal_keeps_token; [reflexivity|discriminate|right; reflexivity].
Defined.

Lemma upload_authorised_once_witness :
  (HandleCLIDeployUpload demo_request demo_cluster
     (HandleCLIDeployUpload demo_request demo_cluster demo_server).2).1.2 = None.
Proof.
  destruct (HandleCLIDeployUpload demo_request demo_cluster demo_server) as [[resp [j|]] s'] eqn:E.
  - exact (proj2 (upload_authorised_once demo_request demo_cluster demo_request demo_cluster
             demo_server s' s' resp j E eq_refl (rtc_refl _ _))).
  - exfalso. apply (f_equal (fun x => bool_decide (is_Some x.1.2))) in E. vm_compute in E. discriminate.
Defined.
