(* ===== verification/Servers.v ===== *)
(** * The HTTP servers ([src/webhook/server.go], [upload_server.go])

    Two servers of [net/http]: the liveness server with one route, and the
    public upload server in front of the handlers of [Upload.v]. Routing is
    [http.ServeMux]'s: the path of the request line is cleaned, a path that is
    not clean or misses the slash of a subtree is redirected, and a handler gets
    the unescaped path. Either server is started again five seconds after its
    listener ends. *)
From stdpp Require Import list.
From S2P Require Import Prelude GoStrings Drain Db BuildJobs TokenStore Paths Upload.
Local Open Scope string_scope.
Local Open Scope Z_scope.

(** ** Paths of a request *)

Definition unhex (c : ascii) : option nat :=
  let n := nat_of_ascii c in
  if (48 <=? n)%nat && (n <=? 57)%nat then Some (n - 48)%nat
  else if (97 <=? n)%nat && (n <=? 102)%nat then Some (n - 87)%nat
  else if (65 <=? n)%nat && (n <=? 70)%nat then Some (n - 55)%nat
  else None.

Definition percent : ascii := "%"%char.

(** [url.PathUnescape]; the parser of the request line has refused a percent
    sign that starts no escape. *)
Fixpoint pathUnescape (s : string) : string :=
  match s with
  | "" => ""
  | String c s1 =>
      if Ascii.eqb c percent then
        match s1 with
        | String a (String b s2) =>
            match unhex a, unhex b with
            | Some x, Some y => String (ascii_of_nat (16 * x + y)) (pathUnescape s2)
            | _, _ => String c (pathUnescape s1)
            end
        | _ => String c (pathUnescape s1)
        end
      else String c (pathUnescape s1)
  end.

(** [cleanPath] of net/http: [path.Clean], with the last slash kept. *)
Definition cleanPath (p : string) : string :=
  if String.eqb p "" then "/"
  else
    let p := if is_rooted p then p else "/" ++ p in
    let np := Clean p in
    if HasSuffix p "/" && negb (String.eqb np "/") then np ++ "/" else np.

(** ** ServeMux *)

(** A pattern of one segment: itself, or everything below it. *)
Inductive Pattern := Exact (name : string) | Subtree (name : string).

Definition matches (pt : Pattern) (path : string) : bool :=
  match Split slash path with
  | "" :: seg :: rest =>
      match pt, rest with
      | Exact name, [] => String.eqb (pathUnescape seg) name
      | Subtree name, _ :: _ => String.eqb (pathUnescape seg) name
      | _, _ => false
      end
  | _ => false
  end.

(** The match leaves nothing over. *)
Definition exactMatch (pt : Pattern) (path : string) : bool :=
  match pt with
  | Exact _ => true
  | Subtree _ => HasSuffix path "/" && (length (Split slash path) =? 3)%nat
  end.

Inductive Routed (H : Type) := Handle (h : H) | RedirectTo (path : string) | NoRoute.
Arguments Handle {H}. Arguments RedirectTo {H}. Arguments NoRoute {H}.

Definition route {H} (mux : list (Pattern * H)) (method path : string) : Routed H :=
  let connect := String.eqb method "CONNECT" in
  let p := if connect then path else cleanPath path in
  let n := List.find (fun '(pt, _) => matches pt p) mux in
  let exact := match n with Some (pt, _) => exactMatch pt p | None => false end in
  if negb exact && negb (HasSuffix p "/") && negb (String.eqb p "") &&
     existsb (fun '(pt, _) => matches pt (p ++ "/") && exactMatch pt (p ++ "/")) mux
  then RedirectTo (cleanPath (pathUnescape path) ++ "/")
  else if negb connect && negb (String.eqb p path) then RedirectTo p
  else match n with Some (_, h) => Handle h | None => NoRoute end.

(** ** The two servers *)

Inductive Route := CLIDeployUpload | CLIPullDownload | Health.

Definition webhook_mux : list (Pattern * Route) := [(Exact "health", Health)].
Definition upload_mux : list (Pattern * Route) :=
  [(Subtree "cli-deploy", CLIDeployUpload); (Subtree "cli-pull", CLIPullDownload); (Exact "health", Health)].

(** A liveness probe: the state of the stream is only shown. The line end of a
    body is left out, here as in [Upload.v]. *)
Definition HandleHealth (streamConnected : bool) : Response :=
  Answer 200 (if streamConnected then "OK connected" else "OK disconnected").

Record HttpRequest := mkHttp { hr_method : string; hr_path : string; hr_now : Z; hr_body : result string Z }.

Definition to_request (r : HttpRequest) : Request := mkRequest (hr_method r) (pathUnescape (hr_path r)) (hr_now r) (hr_body r).

Section Serve.
Context {DB : Type} {DBI : Database DB} {TC : TokenCodec}.

Definition serve (mux : list (Pattern * Route)) (streamConnected : bool) (r : HttpRequest) (c : Cluster) (s : Server (DB := DB))
  : Response * option Job * Server (DB := DB) :=
  match route mux (hr_method r) (hr_path r) with
  | NoRoute => (Answer 404 "404 page not found", None, s)
  | RedirectTo path => (Answer 301 path, None, s)
  | Handle Health => (HandleHealth streamConnected, None, s)
  | Handle CLIDeployUpload => HandleCLIDeployUpload (to_request r) c s
  | Handle CLIPullDownload =>
      let '(resp, _, db) := HandleCLIPullDownload (to_request r) c (store s) in (resp, None, mkServer (tracker s) db)
  end.
End Serve.

(** ** Starting again *)

Definition bindRetryDelay : Z := 5 * Second.

(** When the listener is opened for the [n]-th time, if it was up for [up i]
    the [i]-th time. *)
Fixpoint bind_at (start : Z) (up : nat -> Z) (n : nat) : Z :=
  match n with
  | O => start
  | S n => bind_at start up n + up n + bindRetryDelay
  end.

(** A port that is held until some instant is taken within five seconds of it. *)
Lemma server_comes_up start up free :
  start <= free -> (forall n, bind_at start up n < free -> up n = 0) ->
  exists n, free <= bind_at start up n < free + bindRetryDelay.
Proof.
  intros Hs Hheld.
  assert (forall n, (exists m, (m <= n)%nat /\ free <= bind_at start up m < free + bindRetryDelay) \/
    (bind_at start up n < free /\ bind_at start up n = start + Z.of_nat n * bindRetryDelay)) as Hn.
  { assert (0 < bindRetryDelay) by (unfold bindRetryDelay, Second; lia).
    induction n as [|n IH].
    - destruct (Z.eq_dec start free); [left; exists 0%nat; cbn; lia|right; cbn; lia].
    - destruct IH as [(m & Hm & Hx)|[Hlt Heq]]; [left; exists m; split; [lia|done]|].
      pose proof (Hheld n Hlt) as Hu. cbn [bind_at]. rewrite Hu.
      destruct (Z.lt_ge_cases (bind_at start up n + 0 + bindRetryDelay) free) as [Hl|Hl]; [right; lia|].
      left. exists (S n). split; [lia|]. cbn [bind_at]. rewrite Hu. lia. }
  destruct (Hn (Z.to_nat (free - start))) as [(m & _ & Hx)|[Hlt Heq]]; [by exists m|].
  unfold bindRetryDelay, Second in *. lia.
Qed.

(** ** Lemmas *)

Lemma unhex_slash : unhex slash = None.
Proof. reflexivity. Qed.

Lemma pathUnescape_slash a b : pathUnescape (a ++ String slash b) = pathUnescape a ++ String slash (pathUnescape b).
Proof.
  remember (String.length a) as n eqn:Hn. revert a Hn. induction (lt_wf n) as [n _ IH]. intros a ->.
  destruct a as [|c a]; [reflexivity|]. cbn [append pathUnescape].
  assert (String c (pathUnescape (a ++ String slash b)) = String c (pathUnescape a ++ String slash (pathUnescape b))) as Hc
    by (by rewrite (IH (String.length a)) by (done || cbn; lia)).
  destruct (Ascii.eqb c percent); [|exact Hc].
  destruct a as [|x [|y a]]; cbn [append].
  - destruct b as [|y b]; [exact Hc|]. rewrite unhex_slash. exact Hc.
  - rewrite unhex_slash. destruct (unhex x); exact Hc.
  - destruct (unhex x), (unhex y); try exact Hc. cbn [append]. by rewrite (IH (String.length a)) by (done || cbn; lia).
Qed.

Lemma Split_cons_inv s x y l : Split slash s = x :: y :: l -> exists r, s = x ++ String slash r /\ Split slash r = y :: l.
Proof.
  intros Hs. exists (Join (y :: l) "/"). pose proof (Join_Split slash s) as Hj. rewrite Hs in Hj. split; [by rewrite <-Hj|].
  apply Split_slash_Join; [done|]. pose proof (Split_elems s) as Hf. rewrite Hs in Hf. by inversion Hf.
Qed.

(** A subtree pattern matches the paths below its segment. *)
Lemma matches_subtree name path :
  matches (Subtree name) path = true ->
  exists seg rest, path = "/" ++ seg ++ "/" ++ rest /\ pathUnescape seg = name.
Proof.
  unfold matches. destruct (Split slash path) as [|[|] [|seg [|y l]]] eqn:Hs; try done. intros Hu%String.eqb_eq. apply Split_cons_inv in Hs as (r & -> & Hr).
  apply Split_cons_inv in Hr as (rest & -> & _). by exists seg, rest.
Qed.

Lemma route_handle {H} (mux : list (Pattern * H)) method path h :
  route mux method path = Handle h -> method <> "CONNECT" ->
  cleanPath path = path /\ exists pt, (pt, h) ∈ mux /\ matches pt path = true.
Proof.
  unfold route. intros Hr Hm. apply String.eqb_neq in Hm. rewrite Hm in Hr. cbn [negb andb] in Hr.
  destruct (_ && existsb _ _); [done|]. destruct (String.eqb_spec (cleanPath path) path) as [Hc|]; [|done].
  split; [done|]. rewrite Hc in Hr. cbn [negb] in Hr. destruct (List.find _ mux) as [[pt h']|] eqn:Hf; [|done].
  apply find_some in Hf as [Hin Hmt]. injection Hr as ->. exists pt. split; [by apply list_elem_of_In|done].
Qed.

Lemma upload_mux_routes pt h : (pt, h) ∈ upload_mux ->
  match h with
  | CLIDeployUpload => pt = Subtree "cli-deploy"
  | CLIPullDownload => pt = Subtree "cli-pull"
  | Health => pt = Exact "health"
  end.
Proof. unfold upload_mux. rewrite !elem_of_cons. intros [[= -> ->]|[[= -> ->]|[[= -> ->]|[]%elem_of_nil]]]; done. Qed.

(** What a handler reads out of the path below its segment. *)
Lemma token_below name seg rest :
  pathUnescape seg = name ->
  token_of_path ("/" ++ name ++ "/") (pathUnescape ("/" ++ seg ++ "/" ++ rest)) = hd "" (Split slash (pathUnescape rest)).
Proof.
  intros Hu. unfold token_of_path.
  assert (pathUnescape ("/" ++ seg ++ "/" ++ rest) = ("/" ++ name ++ "/") ++ pathUnescape rest) as ->.
  { change ("/" ++ seg ++ "/" ++ rest) with ("" ++ String slash (seg ++ String slash rest)).
    rewrite !pathUnescape_slash, Hu. cbn. by rewrite append_assoc. }
  by rewrite TrimPrefix_app.
Qed.

Section ServerFacts.
Context {DB : Type} {DBI : Database DB} {TC : TokenCodec}.

Lemma deploy_not_post r c (s : Server (DB := DB)) :
  Method r <> "POST" -> HandleCLIDeployUpload r c s = (Answer 405 "Method not allowed", None, s).
Proof. intros Hm%String.eqb_neq. unfold HandleCLIDeployUpload. by rewrite Hm. Qed.

Lemma pull_not_get r c (d : DB) :
  Method r <> "GET" -> HandleCLIPullDownload r c d = (Answer 405 "Method not allowed", None, d).
Proof. intros Hm%String.eqb_neq. unfold HandleCLIPullDownload. by rewrite Hm. Qed.

(** The liveness server answers and does nothing else. *)
Lemma webhook_server_inert streamConnected r c (s : Server (DB := DB)) :
  exists resp, serve webhook_mux streamConnected r c s = (resp, None, s).
Proof.
  unfold serve. destruct (route webhook_mux (hr_method r) (hr_path r)) as [h|p|] eqn:Hr; [|by eexists..].
  assert (h = Health) as ->; [|by eexists]. revert Hr. unfold route.
  destruct (_ && existsb _ _); [done|]. destruct (_ && negb _); [done|]. cbn. destruct (matches _ _); [by intros [= <-]|done].
Qed.

(** C8: The public server does only what its routes are for. Whatever request
    reaches it, escaped, unclean or of any method, the tracker or the database
    changes and a job starts only through one of two ways: a POST to a clean
    path below cli-deploy, which is exactly the upload handler with the first
    segment after it as its token; or a GET to a clean path below cli-pull,
    which starts no job and leaves the tracker alone. Every other request
    changes nothing; and the health path answers 200 whether or not the control
    stream is connected. *)
Theorem upload_server_routes streamConnected r c (s : Server (DB := DB)) :
  let '(resp, job, s') := serve upload_mux streamConnected r c s in
  (job <> None \/ s' <> s ->
   cleanPath (hr_path r) = hr_path r /\
   exists seg rest, hr_path r = "/" ++ seg ++ "/" ++ rest /\
     let token := hd "" (Split slash (pathUnescape rest)) in
     token <> "" /\
     ((pathUnescape seg = "cli-deploy" /\ hr_method r = "POST" /\
       token_of_path "/cli-deploy/" (Path (to_request r)) = token /\
       HandleCLIDeployUpload (to_request r) c s = (resp, job, s')) \/
      (pathUnescape seg = "cli-pull" /\ hr_method r = "GET" /\
       token_of_path "/cli-pull/" (Path (to_request r)) = token /\
       job = None /\ tracker s' = tracker s))) /\
  (hr_path r = "/health" -> resp = HandleHealth streamConnected /\ job = None /\ s' = s).
Proof.
  assert (hr_path r = "/health" -> serve upload_mux streamConnected r c s = (HandleHealth streamConnected, None, s)) as Hh.
  { intros Hp. unfold serve. rewrite Hp. unfold route. by destruct (String.eqb (hr_method r) "CONNECT"). }
  destruct (serve upload_mux streamConnected r c s) as [[resp job] s'] eqn:Hs. split; [|intros Hp; specialize (Hh Hp); by simplify_eq].
  clear Hh. intros Hch. unfold serve in Hs.
  destruct (route upload_mux (hr_method r) (hr_path r)) as [[]|p|] eqn:Hr; [| |simplify_eq; tauto..].
  - destruct (decide (hr_method r = "POST")) as [Hm|Hm]; [|rewrite deploy_not_post in Hs by done; simplify_eq; tauto].
    apply route_handle in Hr as (Hc & pt & Hin%upload_mux_routes & Hmt); [|by rewrite Hm]. subst pt.
    apply matches_subtree in Hmt as (seg & rest & Hp & Hu). split; [done|]. exists seg, rest. cbv zeta. split; [done|].
    pose proof (token_below _ _ rest Hu) as Ht. rewrite <-Hp in Ht. split; [|left; split_and!; done].
    intros He. cbn [append] in Ht. unfold HandleCLIDeployUpload, to_request in Hs. cbn [Method Path] in Hs.
    rewrite Ht, He, Hm in Hs. cbn in Hs. simplify_eq. tauto.
  - destruct (HandleCLIPullDownload (to_request r) c (store s)) as [[resp' x] db] eqn:Hd. simplify_eq.
    destruct (decide (hr_method r = "GET")) as [Hm|Hm];
      [|rewrite pull_not_get in Hd by done; simplify_eq; destruct s; tauto].
    apply route_handle in Hr as (Hc & pt & Hin%upload_mux_routes & Hmt); [|by rewrite Hm]. subst pt.
    apply matches_subtree in Hmt as (seg & rest & Hp & Hu). split; [done|]. exists seg, rest. cbv zeta. split; [done|].
    pose proof (token_below _ _ rest Hu) as Ht. rewrite <-Hp in Ht. split; [|right; split_and!; done].
    intros He. cbn [append] in Ht. unfold HandleCLIPullDownload, to_request in Hd. cbn [Method Path] in Hd.
    rewrite Ht, He, Hm in Hd. cbn in Hd. simplify_eq. destruct s; tauto.
Qed.
End ServerFacts.

(** ** Requests *)

Definition http (method path : string) : HttpRequest := mkHttp method path 2000 (Ok 4096).

(** An escaped segment reaches the handler; a path with a double slash, or
    without the last one, is redirected; below the health path there is nothing. *)
Lemma demo_requests :
  (exists j, (serve upload_mux true (http "POST" "/cli%2ddeploy/secret-token") demo_cluster demo_server).1.2 = Some j) /\
  (serve upload_mux true (http "POST" "//cli-deploy/secret-token") demo_cluster demo_server).1.1 = Answer 301 "/cli-deploy/secret-token" /\
  (serve upload_mux true (http "POST" "/cli-deploy") demo_cluster demo_server).1.1 = Answer 301 "/cli-deploy/" /\
  (serve upload_mux false (http "GET" "/health") demo_cluster demo_server).1.1 = Answer 200 "OK disconnected" /\
  (serve upload_mux false (http "GET" "/health/x") demo_cluster demo_server).1.1 = Answer 404 "404 page not found" /\
  (serve webhook_mux false (http "POST" "/cli-deploy/secret-token") demo_cluster demo_server).1.1 = Answer 404 "404 page not found".
Proof. split; [eexists|split_and!]; vm_compute; reflexivity. Qed.
