(* ===== verification/Deploy.v ===== *)
(** * From an accepted upload to a rolled-out image
      ([src/webhook/cli_deploy_handler.go], [vcs_build_executor.go])

    The job goroutines as functions from what the environment answers to the
    list of their effects, oldest first. A build's effects are those of
    [BuildKit]. *)
From S2P Require Import Prelude GoStrings BuildJobs Paths Tarball BuildKit.
Local Open Scope string_scope.
Local Open Scope Z_scope.

(** ** Patching the deployment *)

(** One attempt of [patchDeploymentImage]. *)
Inductive Attempt :=
| GetFailed (e : string)
| NoContainers
| UpdateFailed (e : string)
| Updated.

Definition maxRetries : nat := 60.
Definition retryInterval : Z := 5 * Second.

(** The loop with [todo] attempts to go; [answers] is what the cluster answers,
    attempt after attempt. The second component is the time slept. *)
Fixpoint patch_loop (todo : nat) (lastErr : string) (answers : nat -> Attempt) (attempt : nat)
  : option string * Z :=
  match todo with
  | O => (Some ("failed after 60 attempts: " ++ lastErr), 0)
  | S todo =>
      match answers attempt with
      | GetFailed e =>
          let '(r, t) := patch_loop todo ("deployment not found: " ++ e) answers (S attempt) in
          (r, retryInterval + t)
      | NoContainers => (Some "deployment has no containers", 0)
      | UpdateFailed e =>
          let '(r, t) := patch_loop todo ("failed to update deployment: " ++ e) answers (S attempt) in
          (r, retryInterval + t)
      | Updated => (None, 0)
      end
  end.

Definition patchDeploymentImage (answers : nat -> Attempt) : option string * Z :=
  patch_loop maxRetries "" answers 1.

Definition is_retry (a : Attempt) : bool :=
  match a with GetFailed _ | UpdateFailed _ => true | _ => false end.

Lemma patch_loop_spec answers : forall todo lastErr attempt,
  (exists k, (k < todo)%nat /\ (forall i, (i < k)%nat -> is_retry (answers (attempt + i)%nat) = true) /\
     is_retry (answers (attempt + k)%nat) = false /\
     (patch_loop todo lastErr answers attempt).2 = retryInterval * Z.of_nat k /\
     ((patch_loop todo lastErr answers attempt).1 = None <-> answers (attempt + k)%nat = Updated)) \/
  ((forall i, (i < todo)%nat -> is_retry (answers (attempt + i)%nat) = true) /\
   (patch_loop todo lastErr answers attempt).2 = retryInterval * Z.of_nat todo /\
   (patch_loop todo lastErr answers attempt).1 <> None).
Proof.
  induction todo as [|todo IH]; intros lastErr attempt; [right; split; [lia|by split]|].
  assert (forall e,
    is_retry (answers attempt) = true ->
    patch_loop (S todo) lastErr answers attempt =
      (let '(r, t) := patch_loop todo e answers (S attempt) in (r, retryInterval + t)) ->
    (exists k, (k < S todo)%nat /\ (forall i, (i < k)%nat -> is_retry (answers (attempt + i)%nat) = true) /\
       is_retry (answers (attempt + k)%nat) = false /\
       (patch_loop (S todo) lastErr answers attempt).2 = retryInterval * Z.of_nat k /\
       ((patch_loop (S todo) lastErr answers attempt).1 = None <-> answers (attempt + k)%nat = Updated)) \/
    ((forall i, (i < S todo)%nat -> is_retry (answers (attempt + i)%nat) = true) /\
     (patch_loop (S todo) lastErr answers attempt).2 = retryInterval * Z.of_nat (S todo) /\
     (patch_loop (S todo) lastErr answers attempt).1 <> None)) as Hretry.
  { intros e Hr ->. specialize (IH e (S attempt)).
    destruct (patch_loop todo e answers (S attempt)) as [r t]. cbn [fst snd Nat.add] in IH |- *.
    assert (forall n, (forall i, (i < n)%nat -> is_retry (answers (S (attempt + i))) = true) ->
      forall i, (i < S n)%nat -> is_retry (answers (attempt + i)%nat) = true) as Hshift.
    { intros n Hn [|i] Hi; [by rewrite Nat.add_0_r|]. rewrite Nat.add_succ_r. apply Hn. lia. }
    destruct IH as [(k & Hk & Hall & Hnot & Ht & Hres)|(Hall & Ht & Hres)].
    - left. exists (S k). rewrite Nat.add_succ_r. rewrite Ht, Nat2Z.inj_succ.
      split_and!; [lia|by apply Hshift|done|ring|done].
    - right. rewrite Ht, Nat2Z.inj_succ. split_and!; [by apply Hshift|ring|done]. }
  destruct (answers attempt) as [e| |e|] eqn:Ha; cbn [patch_loop].
  - apply (Hretry ("deployment not found: " ++ e)); [done|]. cbn [patch_loop]. by rewrite Ha.
  - left. exists 0%nat. rewrite Nat.add_0_r. cbn [patch_loop]. rewrite Ha. split_and!; [lia|lia|done|done|done].
  - apply (Hretry ("failed to update deployment: " ++ e)); [done|]. cbn [patch_loop]. by rewrite Ha.
  - left. exists 0%nat. rewrite Nat.add_0_r. cbn [patch_loop]. rewrite Ha. split_and!; [lia|lia|done|done|done].
Qed.

(** Patching ends: it makes at most 60 attempts and sleeps five seconds
    after each failed one, five minutes at most. It succeeds exactly when one of
    the first 60 attempts updates the deployment and every attempt before it
    failed to read or to update it; a deployment without containers ends it at
    once with an error. *)
Theorem patchDeploymentImage_spec answers :
  ((patchDeploymentImage answers).1 = None <->
   exists k, (1 <= k <= 60)%nat /\ answers k = Updated /\
     forall i, (1 <= i < k)%nat -> is_retry (answers i) = true) /\
  0 <= (patchDeploymentImage answers).2 <= 5 * Minute.
Proof.
  unfold patchDeploymentImage.
  destruct (patch_loop_spec answers maxRetries "" 1)
    as [(k & Hk & Hall & Hnot & Ht & Hres)|(Hall & Ht & Hres)]; rewrite Ht; unfold maxRetries in *.
  - split; [|unfold retryInterval, Minute, Second; lia]. rewrite Hres. split.
    + intros HU. exists (1 + k)%nat. split_and!; [lia|lia|done|].
      intros i Hi. replace i with (1 + (i - 1))%nat by lia. apply Hall. lia.
    + intros (j & Hj & HU & Hbefore). assert (j = 1 + k)%nat as <-; [|done].
      destruct (decide (j < 1 + k)%nat) as [Hlt|].
      * specialize (Hall (j - 1)%nat ltac:(lia)). replace (1 + (j - 1))%nat with j in Hall by lia.
        by rewrite HU in Hall.
      * destruct (decide (1 + k < j)%nat) as [Hgt|]; [|lia].
        rewrite (Hbefore (1 + k)%nat) in Hnot by lia. done.
  - split; [|unfold retryInterval, Minute, Second; lia]. split; [done|].
    intros (j & Hj & HU & _). specialize (Hall (j - 1)%nat ltac:(lia)).
    replace (1 + (j - 1))%nat with j in Hall by lia. by rewrite HU in Hall.
Qed.

(** ** Build and deploy *)

Record BuildAndDeployInput := mkDeployInput {
  Workdir : string; di_OSID : string; di_JobID : string; di_Tag : string;
  di_ContextPath : string; di_DockerfileDir : string; di_DockerfileFilename : string;
  di_BuildArgs : list BuildArg; BuildOnly : bool; di_Repo : string; di_Branch : string;
  TargetRepo : string; TargetTags : list string
}.

Inductive DeployEffect :=
| CreateRow (jobID osid commit : string)
| InsertArgs (args : list BuildArg)
| RowLog (entry : string)
| RowStatus (status : string)
| MakeTmp
| RemoveTmp
| ExtractArchive
| OfBuild (e : Effect)
| PatchDeployment (image : string).

(** What the environment answers to the shared tail. *)
Record DeployEnv := mkDeployEnv {
  de_harborURL : string;
  de_insert_args : option string;
  de_build : BuildEnv;
  de_patch : nat -> Attempt
}.

Definition image_tag (in_ : BuildAndDeployInput) : string :=
  if String.eqb (di_Tag in_) "" then di_JobID in_ else di_Tag in_.

Definition target_images (env : DeployEnv) (in_ : BuildAndDeployInput) : list string :=
  if negb (String.eqb (TargetRepo in_) "") then
    TargetImageRefs (StripRegistryProtocol (de_harborURL env)) (TargetRepo in_) (TargetTags in_)
  else [].

Definition build_config (env : DeployEnv) (in_ : BuildAndDeployInput) : BuildConfig :=
  let tag := image_tag in_ in
  mkBuildConfig (di_JobID in_) (di_OSID in_) tag (if 7 <? slen tag then take_string 7 tag else tag)
    (de_harborURL env) (Workdir in_) (di_ContextPath in_) (di_DockerfileDir in_) (di_DockerfileFilename in_)
    (di_BuildArgs in_) (di_Repo in_) (di_Branch in_) (target_images env in_).

Definition image_ref (env : DeployEnv) (in_ : BuildAndDeployInput) : string :=
  match target_images env in_ with
  | [] => StripRegistryProtocol (de_harborURL env) ++ "/runos-apps/" ++ di_OSID in_ ++ ":" ++ image_tag in_
  | imgs => Join imgs ", "
  end.

Definition args_effects (env : DeployEnv) (in_ : BuildAndDeployInput) : list DeployEffect :=
  InsertArgs (di_BuildArgs in_) ::
  match de_insert_args env with
  | Some _ => []
  | None => match di_BuildArgs in_ with
            | [] => []
            | args => [RowLog ("Applying " ++ pretty.pretty (Z.of_nat (length args)) ++ " build arg(s)")]
            end
  end.

Definition ProcessBuildAndDeploy (env : DeployEnv) (in_ : BuildAndDeployInput) : list DeployEffect :=
  let pre := args_effects env in_ in
  let '(err, effs) := Build (de_build env) (build_config env in_) in
  (pre ++ map OfBuild effs ++
   match err with
   | Some _ => []
   | None =>
       let image := image_ref env in_ in
       if BuildOnly in_ then
         [RowLog ("Image built and pushed: " ++ image ++ " (build-only, deployment not patched)")%string]
       else
         PatchDeployment image ::
         match (patchDeploymentImage (de_patch env)).1 with
         | Some e => [RowLog ("ERROR: Failed to patch deployment: " ++ e)%string; RowStatus JobStatusFailed]
         | None => [RowLog ("Deployment patched successfully with image: " ++ image)%string]
         end
   end)%list.

(** The front of the CLI flows: what the environment answers before the tail. *)
Record FrontEnv := mkFrontEnv {
  fe_k8s : option string;
  fe_create : option string;
  fe_tmp : result string string;                               (* os.MkdirTemp *)
  fe_archive : result string (list (result string Header));
  fe_os : list Action -> Action -> option (string * Z);
  fe_stat : string -> StatResult;
  fe_deploy : DeployEnv
}.

(** The front shared, line for line, by the two CLI flows. [build_only],
    [repo] and [tags] are what differs. *)
Definition process_upload (success_log : string) (build_only : bool) (repo : string) (tags : list string)
  (env : FrontEnv) (osid jobID dockerfile : string) (args : list BuildArg) : list DeployEffect :=
  match fe_k8s env with
  | Some _ => []
  | None =>
  match fe_create env with
  | Some _ => [CreateRow jobID osid jobID]
  | None =>
      let pre := [CreateRow jobID osid jobID] in
      match fe_tmp env with
      | Err e => (pre ++ [RowStatus JobStatusFailed; RowLog ("ERROR: Failed to create temp directory: " ++ e)%string])%list
      | Ok tmpDir =>
          let body :=
            match (extractTarball (fe_os env) (fe_archive env) tmpDir).1 with
            | Err e => [RowStatus JobStatusFailed; RowLog ("ERROR: Failed to extract tarball: " ++ e)]
            | Ok _ =>
                RowLog success_log ::
                match splitTarballDockerfile (fe_stat env) tmpDir dockerfile with
                | Err e => [RowStatus JobStatusFailed; RowLog ("ERROR: invalid dockerfile " ++ dockerfile ++ ": " ++ e)]
                | Ok (dir, file) =>
                    ProcessBuildAndDeploy (fe_deploy env)
                      (mkDeployInput tmpDir osid jobID "" "" dir file args build_only "" "" repo tags)
                end
            end in
          (pre ++ [MakeTmp; ExtractArchive] ++ body ++ [RemoveTmp])%list
      end
  end
  end.

Definition processCLIDeployment := process_upload "Tarball extracted successfully" false "" [].

Definition processBuildImageDeployment (env : FrontEnv) (osid jobID repo : string) (tags : list string)
  (dockerfile : string) (args : list BuildArg) : list DeployEffect :=
  process_upload "Build context extracted successfully" true repo tags env osid jobID dockerfile args.

(** *** The VCS executor *)

Record VcsBuildExecutorInput := mkVcsInput {
  vi_Workdir : string; vi_OSID : string; vi_JobID : string; vi_SHA : string;
  vi_ContextPath : string; vi_DockerfileDir : string; vi_DockerfileFilename : string;
  vi_BuildArgs : list BuildArg; vi_BuildOnly : bool; vi_Repo : string; vi_Branch : string
}.

(** [k8s] and [cfg] are the errors of the client and of the configuration; the
    last effect is the deferred [input.Cleanup]. *)
Definition RunVcsBuild (k8s cfg : option string) (env : DeployEnv) (i : VcsBuildExecutorInput)
  : list DeployEffect :=
  ((match k8s with
    | Some _ => [RowStatus JobStatusFailed; RowLog "ERROR: could not initialise k8s client"]
    | None =>
    match cfg with
    | Some _ => [RowStatus JobStatusFailed; RowLog "ERROR: could not read buildkit config"]
    | None =>
        ProcessBuildAndDeploy env
          (mkDeployInput (vi_Workdir i) (vi_OSID i) (vi_JobID i) (vi_SHA i) (vi_ContextPath i)
             (vi_DockerfileDir i) (vi_DockerfileFilename i) (vi_BuildArgs i) (vi_BuildOnly i)
             (vi_Repo i) (vi_Branch i) "" [])
    end
    end) ++ [RemoveTmp])%list.

(** ** Final status *)

Definition row_status_of (e : DeployEffect) : option string :=
  match e with RowStatus s => Some s | OfBuild e => status_of e | _ => None end.
Definition row_statuses (effs : list DeployEffect) : list string := omap row_status_of effs.

Lemma row_statuses_app a b : row_statuses (a ++ b)%list = (row_statuses a ++ row_statuses b)%list.
Proof. apply omap_app. Qed.

Lemma row_statuses_build effs : row_statuses (map OfBuild effs) = statuses effs.
Proof.
  induction effs as [|e effs IH]; [done|]. unfold row_statuses, statuses in *. cbn. rewrite IH. done.
Qed.

Lemma args_effects_statuses env in_ : row_statuses (args_effects env in_) = [].
Proof. unfold args_effects. by destruct (de_insert_args env), (di_BuildArgs in_). Qed.

Lemma process_statuses env in_ :
  let '(err, effs) := Build (de_build env) (build_config env in_) in
  row_statuses (ProcessBuildAndDeploy env in_) =
    (statuses effs ++
     if bool_decide (err = None) && negb (BuildOnly in_) &&
        bool_decide ((patchDeploymentImage (de_patch env)).1 <> None)
     then [JobStatusFailed] else [])%list.
Proof.
  unfold ProcessBuildAndDeploy.
  destruct (Build (de_build env) (build_config env in_)) as [err effs].
  rewrite !row_statuses_app, row_statuses_build, args_effects_statuses. cbn [List.app]. f_equal.
  destruct err as [e|]; [done|]. rewrite bool_decide_true by done.
  destruct (BuildOnly in_); [done|]. by destruct ((patchDeploymentImage (de_patch env)).1).
Qed.

Lemma last_snoc_str (l : list string) x : last (l ++ [x])%list = Some x.
Proof. apply last_snoc. Qed.

Lemma build_ok_statuses env config effs :
  Build env config = (None, effs) -> statuses effs = [JobStatusBusy; JobStatusSuccess].
Proof. intros E. pose proof (build_statuses env config) as H. by rewrite E in H. Qed.

Lemma build_err_statuses env config e effs :
  Build env config = (Some e, effs) -> last (statuses effs) <> Some JobStatusSuccess.
Proof.
  intros E. pose proof (build_statuses env config) as H. rewrite E in H.
  repeat case_match; rewrite H; done.
Qed.

(** The row tells the truth about the whole pipeline. The last status a
    build-and-deploy writes is success exactly when the image was built and
    pushed and, unless the caller asked for a build only, the deployment was
    patched; in particular a failed patch overwrites the build's success with
    failed. *)
Theorem deploy_final_status env in_ :
  last (row_statuses (ProcessBuildAndDeploy env in_)) = Some JobStatusSuccess <->
  (Build (de_build env) (build_config env in_)).1 = None /\
  (BuildOnly in_ = true \/ (patchDeploymentImage (de_patch env)).1 = None).
Proof.
  pose proof (process_statuses env in_) as H. revert H.
  generalize (patchDeploymentImage (de_patch env)). intros [patched t].
  generalize (row_statuses (ProcessBuildAndDeploy env in_)). intros sts. cbn [fst].
  destruct (Build (de_build env) (build_config env in_)) as [[e|] effs] eqn:E; intros ->; cbn [fst].
  - rewrite bool_decide_false by done. cbn [andb]. rewrite app_nil_r.
    split; [|by intros [? _]]. intros Hl. by apply build_err_statuses in E.
  - rewrite (build_ok_statuses _ _ _ E), bool_decide_true by done.
    destruct (BuildOnly in_), patched as [e|]; cbn; split; auto; try done.
    intros [_ [?|?]]; done.
Qed.

(** The set-up of the client side can succeed. *)
Definition setup_ok (env : BuildEnv) : Prop :=
  be_busy env = None /\ be_tmpdir env = None /\ be_marshal env = None /\ be_write env = None.

Lemma process_terminal env in_ :
  setup_ok (de_build env) -> Workdir in_ <> "" ->
  exists st, last (row_statuses (ProcessBuildAndDeploy env in_)) = Some st /\ is_terminal st = true.
Proof.
  intros (Hb & Ht & Hm & Hw) Hwd. pose proof (process_statuses env in_) as H.
  pose proof (build_statuses (de_build env) (build_config env in_)) as Hs.
  assert (setup_failed (de_build env) (build_config env in_) = false) as Hf.
  { unfold setup_failed. rewrite Ht, Hm, Hw. simpl. by apply String.eqb_neq. }
  destruct (Build (de_build env) (build_config env in_)) as [err effs]. rewrite H.
  destruct (bool_decide (err = None) && _ && _);
    [exists JobStatusFailed; split; [apply last_snoc|done]|]. rewrite app_nil_r.
  destruct err as [e|].
  - exists JobStatusFailed. split; [|done]. rewrite Hb, Hf, andb_false_r in Hs.
    simpl in Hs. case_match; rewrite Hs; done.
  - exists JobStatusSuccess. by rewrite Hs.
Qed.

(** Log lines and the temporary directory around a run do not touch its last
    status. *)
Lemma last_after_log l effs P :
  (exists st, last (row_statuses effs) = Some st /\ P st) ->
  exists st, last (row_statuses (RowLog l :: effs)) = Some st /\ P st.
Proof. done. Qed.

Lemma last_wrapped j o c body P :
  (exists st, last (row_statuses body) = Some st /\ P st) ->
  exists st, last (row_statuses ([CreateRow j o c] ++ [MakeTmp; ExtractArchive] ++ body ++ [RemoveTmp])%list)
    = Some st /\ P st.
Proof.
  intros H. rewrite !row_statuses_app. simpl. rewrite app_nil_r. exact H.
Qed.

Lemma last_wrapped_tmp (pre mid body : list DeployEffect) :
  last (pre ++ mid ++ body ++ [RemoveTmp])%list = Some RemoveTmp.
Proof. rewrite !app_assoc. apply last_snoc. Qed.

(** An accepted CLI upload never leaves its row open. Once its build row is
    created, every path of the deployment goroutine (no temporary directory, a
    bad archive, a Dockerfile outside the tree, no build slot, a failed build, a
    failed patch, or success) ends with the row failed or success, provided the
    agent can write the row busy and its own credentials file; and the
    extraction directory is removed last. *)
Theorem cli_deployment_closes_row env osid jobID dockerfile args :
  fe_k8s env = None -> fe_create env = None -> fe_tmp env <> Ok "" ->
  setup_ok (de_build (fe_deploy env)) ->
  let effs := processCLIDeployment env osid jobID dockerfile args in
  (exists st, last (row_statuses effs) = Some st /\ is_terminal st = true) /\
  (is_ok (fe_tmp env) = true -> last effs = Some RemoveTmp).
Proof.
  intros Hk Hc Htmp Hset. unfold processCLIDeployment, process_upload. rewrite Hk, Hc.
  destruct (fe_tmp env) as [tmpDir|e]; [|split; [exists JobStatusFailed; done|done]].
  set (body := match (extractTarball _ _ _).1 with Ok _ => _ | Err _ => _ end).
  assert (exists st, last (row_statuses body) = Some st /\ is_terminal st = true) as Hbody.
  { unfold body. destruct (extractTarball _ _ _).1; [|by exists JobStatusFailed].
    destruct (splitTarballDockerfile _ _ _) as [[dir file]|e]; [|by exists JobStatusFailed].
    apply last_after_log, process_terminal; [done|]. simpl. congruence. }
  clearbody body. split; [by apply last_wrapped|]. intros _. apply last_wrapped_tmp.
Qed.

Definition demo_deploy_env : DeployEnv :=
  mkDeployEnv "https://harbor" None
    (mkBuildEnv (defaultBuildSettings "") 0 None None (Ok "tcp://10.0.0.1:1234") None None
       None (Ok (mkAuth "" ∅)) [] [] None false "" "45m0s")
    (fun i => if (i <? 3)%nat then GetFailed "not yet" else Updated).
Definition demo_front : FrontEnv :=
  mkFrontEnv None None (Ok "/tmp/x") (Ok demo_entries) (fun _ _ => None) (fun _ => StatRegular) demo_deploy_env.

Lemma cli_deployment_closes_row_witness :
  last (row_statuses (processCLIDeployment demo_front "app1" "j" "" [])) = Some JobStatusSuccess /\
  exists st, last (row_statuses (processCLIDeployment demo_front "app1" "j" "" [])) = Some st /\ is_terminal st = true.
Proof.
  split; [vm_compute; reflexivity|].
  apply (cli_deployment_closes_row demo_front "app1" "j" "" []); [reflexivity|reflexivity|discriminate|].
  repeat split.
Defined.
