(* ===== verification/Conninfo.v ===== *)
(** * Keyword/value connection strings

    The quoting rules of libpq's connection strings and a reader for them,
    shared by the two places that build such strings: the SQL instructions
    ([Sql.v]) and the agent's own store ([Datastore.v]). *)
From stdpp Require Import pretty.
From S2P Require Import Prelude GoStrings.
Local Open Scope string_scope.
Local Open Scope Z_scope.

Definition quote : ascii := "'"%char.
Definition backslash : ascii := "\"%char.

(** How a keyword/value connection string is read, as documented for libpq: a
    value in single quotes runs to the next quote, with a backslash taking the
    next character as it is; a bare value runs to the next white space, with
    backslashes likewise. *)
Fixpoint read_quoted (s : string) : option (string * string) :=
  match s with
  | EmptyString => None
  | String c r =>
      if Ascii.eqb c quote then Some ("", r)
      else if Ascii.eqb c backslash then
        match r with
        | EmptyString => None
        | String d r => '(v, rest) ← read_quoted r; Some (String d v, rest)
        end
      else '(v, rest) ← read_quoted r; Some (String c v, rest)
  end.

Definition is_space (c : ascii) : bool := Ascii.eqb c " " || in_range 9 13 c.

Fixpoint read_bare (s : string) : string * string :=
  match s with
  | EmptyString => ("", "")
  | String c r =>
      if is_space c then ("", s)
      else if Ascii.eqb c backslash then
        match r with
        | EmptyString => ("", "")
        | String d r => let '(v, rest) := read_bare r in (String d v, rest)
        end
      else let '(v, rest) := read_bare r in (String c v, rest)
  end.

Definition read_value (s : string) : option (string * string) :=
  match s with
  | String c r => if Ascii.eqb c quote then read_quoted r else Some (read_bare s)
  | EmptyString => Some ("", "")
  end.

(** The fuel is the number of pairs; a string with more pairs is rejected. *)
Fixpoint read_conninfo (fuel : nat) (s : string) : option (list (string * string)) :=
  match drop_while is_space s with
  | EmptyString => Some []
  | s =>
      match fuel with
      | O => None
      | S fuel =>
          '(k, r) ← Cut "=" s;
          '(v, r) ← read_value r;
          kvs ← read_conninfo fuel r;
          Some ((k, v) :: kvs)
      end
  end.

Lemma read_quoted_escaped v rest :
  read_quoted (ReplaceAll (ReplaceAll v backslash "\\") quote "\'" ++ String quote rest) = Some (v, rest).
Proof.
  induction v as [|c v IH]; [done|]. cbn [ReplaceAll].
  destruct (Ascii.eqb c backslash) eqn:Hb.
  - apply Ascii.eqb_eq in Hb as ->. simpl. by rewrite IH.
  - cbn [ReplaceAll]. destruct (Ascii.eqb c quote) eqn:Hq.
    + apply Ascii.eqb_eq in Hq as ->. simpl. by rewrite IH.
    + simpl. by rewrite Hq, Hb, IH.
Qed.

Definition bare_char (c : ascii) : bool :=
  negb (is_space c) && negb (Ascii.eqb c backslash) && negb (Ascii.eqb c quote).

Lemma read_bare_app v rest :
  all_chars bare_char v = true -> read_bare (v ++ String " " rest) = (v, String " " rest).
Proof.
  induction v as [|c v IH]; [done|]. simpl. intros [Hc Hv]%andb_prop. rewrite (IH Hv).
  unfold bare_char in Hc. by destruct (is_space c), (Ascii.eqb c backslash).
Qed.

Lemma read_value_bare v rest :
  all_chars bare_char v = true -> read_value (v ++ String " " rest) = Some (v, String " " rest).
Proof.
  intros Hv. rewrite <- (read_bare_app v rest Hv). destruct v as [|c v]; [done|].
  simpl in *. apply andb_prop in Hv as [Hc _]. unfold bare_char in Hc.
  by destruct (Ascii.eqb c quote); [destruct (is_space c), (Ascii.eqb c backslash)|].
Qed.

Lemma pretty_N_go_bare x s : all_chars bare_char s = true -> all_chars bare_char (pretty_N_go x s) = true.
Proof.
  revert s. induction (N.lt_wf_0 x) as [x _ IH]; intros s Hs.
  assert (x = 0 \/ 0 < x)%N as [->|?] by lia; [by rewrite pretty_N_go_0|].
  rewrite pretty_N_go_step by done. apply IH; [by apply N.div_lt|]. simpl. rewrite Hs.
  unfold pretty_N_char. by repeat case_match.
Qed.

Lemma pretty_Z_bare (z : Z) : all_chars bare_char (pretty z) = true.
Proof.
  assert (forall x : N, all_chars bare_char (pretty x) = true) as HN.
  { intros x. unfold pretty, pretty_N. case_decide; [done|]. by apply pretty_N_go_bare. }
  destruct z as [|x|x]; [done|apply (HN (N.pos x))|simpl; apply (HN (N.pos x))].
Qed.

Lemma read_conninfo_pair n s s' k r v rest :
  drop_while is_space s = s' -> s' <> "" -> Cut "=" s' = Some (k, r) -> read_value r = Some (v, rest) ->
  read_conninfo (S n) s = (kvs ← read_conninfo n rest; Some ((k, v) :: kvs)).
Proof.
  intros Hs Hne Hc Hv. cbn [read_conninfo]. rewrite Hs. destruct s' as [|c s']; [done|].
  rewrite Hc. simpl. by rewrite Hv.
Qed.
