(* ===== verification/Kube.v ===== *)
(** * The Kubernetes API for configuration objects

    Secrets, ConfigMaps, Namespaces and RBAC objects as the agent reads and
    writes them. The API server is not part of the repository: it is a class,
    [KubeApi], over an abstract state, with the documented effect of each verb
    as its laws; [MemKube] is an executable instance with injected faults. Pods
    change on their own and are modelled where they are used. *)
From stdpp Require Import gmap.
From S2P Require Import Prelude GoStrings.
Local Open Scope string_scope.

(** ** Objects *)

Inductive KErr := NotFound | AlreadyExists | KOther (e : string).
#[export] Instance KErr_eq_dec : EqDecision KErr.
Proof. solve_decision. Defined.

Definition IsNotFound (e : KErr) : bool := match e with NotFound => true | _ => false end.
Definition IsAlreadyExists (e : KErr) : bool := match e with AlreadyExists => true | _ => false end.
Definition KError (e : KErr) : string :=
  match e with NotFound => "not found" | AlreadyExists => "already exists" | KOther e => e end.

Abbreviation Data := (gmap string string).

(** [data["k"]]: a missing key reads as the empty string. *)
Definition field (d : Data) (k : string) : string := default "" (d !! k).

Record PolicyRule := mkRule { APIGroups : list string; Resources : list string; Verbs : list string }.
#[export] Instance PolicyRule_eq_dec : EqDecision PolicyRule.
Proof. solve_decision. Defined.

Inductive Obj :=
| OSecret (type_ : string) (labels annotations data : Data)
| OConfigMap (data : Data)
| ONamespace (labels : Data)
| OServiceAccount
| OClusterRole (rules : list PolicyRule)
| OClusterRoleBinding (roleRef : string) (subject : string * string).
#[export] Instance Obj_eq_dec : EqDecision Obj.
Proof. solve_decision. Defined.

(** Kind, namespace (empty for cluster-scoped kinds) and name. *)
Abbreviation Ref := (string * string * string)%type.

(** ** The interface *)

Class KubeApi (K : Type) := {
  objects : K -> gmap Ref Obj;
  kget : Ref -> K -> result KErr Obj * K;
  kcreate : Ref -> Obj -> K -> result KErr unit * K;
  kupdate : Ref -> Obj -> K -> result KErr unit * K;
  kdelete : Ref -> K -> result KErr unit * K
}.

(** A write that fails may have taken effect all the same (a timeout), unless
    the server says why it refused it. *)
Class KubeLaws (K : Type) `{KubeApi K} := {
  kget_spec : forall r k,
    objects (kget r k).2 = objects k /\
    match (kget r k).1 with
    | Ok o => objects k !! r = Some o
    | Err NotFound => objects k !! r = None
    | Err _ => True
    end;
  kcreate_spec : forall r o k,
    match (kcreate r o k).1 with
    | Ok _ => objects k !! r = None /\ objects (kcreate r o k).2 = <[r := o]> (objects k)
    | Err AlreadyExists => is_Some (objects k !! r) /\ objects (kcreate r o k).2 = objects k
    | Err _ => objects (kcreate r o k).2 = objects k \/ objects (kcreate r o k).2 = <[r := o]> (objects k)
    end;
  kupdate_spec : forall r o k,
    match (kupdate r o k).1 with
    | Ok _ => is_Some (objects k !! r) /\ objects (kupdate r o k).2 = <[r := o]> (objects k)
    | Err NotFound => objects k !! r = None /\ objects (kupdate r o k).2 = objects k
    | Err _ => objects (kupdate r o k).2 = objects k \/ objects (kupdate r o k).2 = <[r := o]> (objects k)
    end;
  kdelete_spec : forall r k,
    match (kdelete r k).1 with
    | Ok _ => is_Some (objects k !! r) /\ objects (kdelete r k).2 = delete r (objects k)
    | Err NotFound => objects k !! r = None /\ objects (kdelete r k).2 = objects k
    | Err _ => objects (kdelete r k).2 = objects k \/ objects (kdelete r k).2 = delete r (objects k)
    end
}.

(** ** Calls in sequence *)

Definition Api (K A : Type) := K -> result string A * K.
Definition aret {K A} (a : A) : Api K A := fun k => (Ok a, k).
Definition afail {K A} (e : string) : Api K A := fun k => (Err e, k).
Definition abind {K A B} (m : Api K A) (f : A -> Api K B) : Api K B :=
  fun k => match m k with (Ok a, k) => f a k | (Err e, k) => (Err e, k) end.
(** A call whose error the code inspects. *)
Definition acall {K A} (f : K -> result KErr A * K) : Api K (result KErr A) :=
  fun k => let '(r, k) := f k in (Ok r, k).

Notation "'api!' x ':=' m 'in' k" := (abind m (fun x => k))
  (at level 10, x pattern, m at level 100, k at level 200) : agent_scope.

(** The object store after a run that only touched [r], leaving [o] there or
    not: what a single write can have done, failed or not. *)
Definition at_most {K} `{KubeApi K} (r : Ref) (o : Obj) (k k' : K) : Prop :=
  objects k' = objects k \/ objects k' = <[r := o]> (objects k).

(** ** An executable instance *)

Record MemKube := mkMemKube { mem_objects : gmap Ref Obj; mem_kfaults : list (option string) }.

Definition mem_kcall {A} (k : MemKube) (f : result KErr A * gmap Ref Obj) : result KErr A * MemKube :=
  match head (mem_kfaults k) with
  | Some (Some e) => (Err (KOther e), mkMemKube (mem_objects k) (tail (mem_kfaults k)))
  | _ => (f.1, mkMemKube f.2 (tail (mem_kfaults k)))
  end.

#[export] Instance MemKube_api : KubeApi MemKube := {
  objects := mem_objects;
  kget r k := mem_kcall k (match mem_objects k !! r with Some o => Ok o | None => Err NotFound end, mem_objects k);
  kcreate r o k := mem_kcall k
    (match mem_objects k !! r with
     | Some _ => (Err AlreadyExists, mem_objects k)
     | None => (Ok tt, <[r := o]> (mem_objects k))
     end);
  kupdate r o k := mem_kcall k
    (match mem_objects k !! r with
     | Some _ => (Ok tt, <[r := o]> (mem_objects k))
     | None => (Err NotFound, mem_objects k)
     end);
  kdelete r k := mem_kcall k
    (match mem_objects k !! r with
     | Some _ => (Ok tt, delete r (mem_objects k))
     | None => (Err NotFound, mem_objects k)
     end)
}.

#[export] Instance MemKube_laws : KubeLaws MemKube.
Proof.
  split; intros; cbn; unfold mem_kcall; destruct (head (mem_kfaults k)) as [[e|]|]; cbn; try by auto;
    destruct (mem_objects k !! r) eqn:?; cbn; eauto.
Qed.
