(* ===== verification/KubeObjects.v ===== *)
(** * The agent's own objects in the cluster
      ([src/agentstream/k8s.go], [src/agentstream/instructions/put_secret_file.go])

    Reading the agent's configuration, keeping its TLS identity in a Secret, and
    storing files the control plane sends as Secrets. *)
From stdpp Require Import gmap.
From S2P Require Import Prelude GoStrings Codec Kube.
Local Open Scope string_scope.
Local Open Scope Z_scope.
Local Open Scope agent_scope.

Definition Namespace : string := "runos".
Definition RunosConfigMap : string := "runos-config".
Definition ClusterAgentTLSSecret : string := "cluster-agent-tls".
Definition NodeAgentTLSSecret : string := "node-agent-tls".

Definition secret_ref (ns name : string) : Ref := ("Secret", ns, name).
Definition configmap_ref (ns name : string) : Ref := ("ConfigMap", ns, name).
Definition namespace_ref (name : string) : Ref := ("Namespace", "", name).

(** The data of an object of the kind that was asked for. *)
Definition obj_data (o : Obj) : Data :=
  match o with OSecret _ _ _ d | OConfigMap d => d | _ => ∅ end.
Definition obj_labels (o : Obj) : Data :=
  match o with OSecret _ l _ _ | ONamespace l => l | _ => ∅ end.

Record RunosConfig := mkRunosConfig { AID : string; Server : string; InstallerURL : string; ClusterDomain : string }.
Record TLSData := mkTLS { TLSCert : string; TLSKey : string; CACert : string }.
Record BuildKitConfig := mkBuildKitConfig {
  HarborURL : string; HarborCoreURL : string; bkc_ClusterDomain : string;
  HarborUsername : string; HarborPassword : string
}.

Section client.
Context {K : Type} `{KubeApi K}.

(** A get whose every error is reported. *)
Definition get_or (msg : string) (r : Ref) : Api K Obj :=
  api! x := acall (kget r) in
  match x with Ok o => aret o | Err e => afail (msg ++ ": " ++ KError e) end.

Definition GetRunosConfig : Api K RunosConfig :=
  api! cm := get_or "failed to get ConfigMap runos-config" (configmap_ref Namespace RunosConfigMap) in
  let d := obj_data cm in
  aret (mkRunosConfig (field d "aid") (field d "server") (field d "installer_url") (field d "cd")).

Definition tls_of (o : Obj) : TLSData :=
  let d := obj_data o in mkTLS (field d "tls.crt") (field d "tls.key") (field d "ca.crt").

Definition GetClusterAgentTLS : Api K TLSData :=
  api! s := get_or "failed to get Secret cluster-agent-tls" (secret_ref Namespace ClusterAgentTLSSecret) in
  aret (tls_of s).

Definition ClusterAgentTLSExists : Api K bool :=
  api! x := acall (kget (secret_ref Namespace ClusterAgentTLSSecret)) in
  match x with
  | Ok _ => aret true
  | Err e => if IsNotFound e then aret false
             else afail ("error checking if Secret cluster-agent-tls exists: " ++ KError e)
  end.

Definition tls_secret (t : TLSData) : Obj :=
  OSecret "kubernetes.io/tls" ∅ ∅
    (<["tls.crt" := TLSCert t]> (<["tls.key" := TLSKey t]> (<["ca.crt" := CACert t]> ∅))).

Definition SetClusterAgentTLS (t : TLSData) : Api K unit :=
  api! exists_ := ClusterAgentTLSExists in
  let r := secret_ref Namespace ClusterAgentTLSSecret in
  if exists_ : bool then
    api! u := acall (kupdate r (tls_secret t)) in
    match u with Ok _ => aret tt | Err e => afail ("failed to update Secret cluster-agent-tls: " ++ KError e) end
  else
    api! u := acall (kcreate r (tls_secret t)) in
    match u with Ok _ => aret tt | Err e => afail ("failed to create Secret cluster-agent-tls: " ++ KError e) end.

Definition GetNodeAgentTLS : Api K TLSData :=
  api! s := get_or "failed to get Secret node-agent-tls" (secret_ref Namespace NodeAgentTLSSecret) in
  aret (tls_of s).

Definition DeleteNodeAgentTLS : Api K unit :=
  api! x := acall (kdelete (secret_ref Namespace NodeAgentTLSSecret)) in
  match x with
  | Ok _ => aret tt
  | Err e => if IsNotFound e then aret tt else afail ("failed to delete Secret node-agent-tls: " ++ KError e)
  end.

(** [items] is the answer to the list call: the names of the namespaces that
    carry all the labels. *)
Definition FindNamespaceByLabels (items : result string (list string)) : result string string :=
  match items with
  | Err e => Err ("failed to list namespaces: " ++ e)
  | Ok [] => Ok ""
  | Ok (n :: _) => Ok n
  end.

Definition GetNamespaceLabels (name : string) : Api K Data :=
  api! o := get_or ("failed to get namespace " ++ name) (namespace_ref name) in aret (obj_labels o).

Definition CreateNamespaceWithLabels (name : string) (labels : Data) : Api K unit :=
  api! x := acall (kcreate (namespace_ref name) (ONamespace labels)) in
  match x with Ok _ => aret tt | Err e => afail ("failed to create namespace " ++ name ++ ": " ++ KError e) end.

Definition GetBuildKitConfig : Api K BuildKitConfig :=
  api! cm := get_or "failed to get ConfigMap buildkit" (configmap_ref Namespace "buildkit") in
  api! s := get_or "failed to get Secret buildkit" (secret_ref Namespace "buildkit") in
  let d := obj_data cm in
  aret (mkBuildKitConfig (field d "harbor-url") (field d "harbor-core-url") (field d "cluster-domain")
          (field (obj_data s) "harbor-username") (field (obj_data s) "harbor-password")).

(** ** put_secret_file.go *)

Record putSecretFileRequest := mkPutRequest {
  FileContents : string; Filename : string; ExpectedSHA256 : string; ReqNamespace : string; SecretName : string
}.
Record putSecretFileResponse := mkPutResponse {
  put_Success : bool; SizeBytes : Z; put_SecretName : string; put_Namespace : string; put_Message : string
}.

Definition secretAlreadyExists (e : KErr) : bool := IsAlreadyExists e.

Record PutEnv := mkPutEnv {
  decode_put : string -> result string putSecretFileRequest;
  encode_put : putSecretFileResponse -> result string string;
  sha256_hex : string -> string;
  put_client : result string unit;      (* rest.InClusterConfig *)
  put_clientset : result string unit    (* k8s.NewForConfig *)
}.
Context (E : PutEnv).

Definition maxSecretFile : Z := 32 * 1024.

Definition file_secret (req : putSecretFileRequest) (hash contents : string) : Obj :=
  OSecret "Opaque"
    (<["app.kubernetes.io/managed-by" := "runos"]> (<["runos.io/secret-type" := "file"]> ∅))
    (<["runos.io/original-filename" := Filename req]> (<["runos.io/sha256" := hash]> ∅))
    (<[Filename req := contents]> ∅).

Definition put_validate (req : putSecretFileRequest) : option string :=
  if String.eqb (FileContents req) "" then Some "fileContents is required"
  else if String.eqb (ExpectedSHA256 req) "" then Some "expectedSHA256 is required"
  else if String.eqb (ReqNamespace req) "" then Some "namespace is required"
  else if String.eqb (Filename req) "" then Some "filename is required"
  else if String.eqb (SecretName req) "" then Some "secretName is required"
  else None.

(** Create, or update in place; the answer is the message of a failure. *)
Definition put_store (r : Ref) (o : Obj) : Api K (option string) :=
  api! c := acall (kcreate r o) in
  match c with
  | Ok _ => aret None
  | Err e =>
      if secretAlreadyExists e then
        api! u := acall (kupdate r o) in
        match u with Ok _ => aret None | Err e => aret (Some ("Failed to update secret: " ++ KError e)) end
      else aret (Some ("Failed to create secret: " ++ KError e))
  end.

(** The handler up to the encoding of its answer. *)
Definition put_outcome (jsonB64 : string) : Api K putSecretFileResponse := fun k =>
  let refuse size msg := Ok (mkPutResponse false size "" "" msg) in
  match decode_put E jsonB64 with
  | Err e => (Err e, k)
  | Ok req =>
      match put_validate req with
      | Some e => (Err e, k)
      | None =>
          match DecodeString (FileContents req) with
          | None => (refuse 0 "Invalid base64 encoding", k)
          | Some contents =>
              let size := slen contents in
              if maxSecretFile <? size then (refuse 0 "File size exceeds 32KB limit", k)
              else
                let hash := sha256_hex E contents in
                if negb (String.eqb hash (ExpectedSHA256 req)) then
                  (refuse size "SHA256 hash validation failed", k)
                else
                  match put_client E, put_clientset E with
                  | Err _, _ => (refuse 0 "Failed to get Kubernetes config", k)
                  | Ok _, Err _ => (refuse 0 "Failed to create Kubernetes client", k)
                  | Ok _, Ok _ =>
                      match put_store (secret_ref (ReqNamespace req) (SecretName req))
                              (file_secret req hash contents) k with
                      | (Err e, k) => (Err e, k)
                      | (Ok (Some msg), k) => (refuse 0 msg, k)
                      | (Ok None, k) =>
                          (Ok (mkPutResponse true size (SecretName req) (ReqNamespace req)
                                 ("Secret created successfully in namespace " ++ ReqNamespace req)), k)
                      end
                  end
          end
      end
  end.

(** A refusal is sent even when it cannot be encoded, with an empty text. *)
Definition PutSecretFile (jsonB64 : string) : Api K (string * string) := fun k =>
  match put_outcome jsonB64 k with
  | (Err e, k) => (Err e, k)
  | (Ok resp, k) =>
      match encode_put E resp with
      | Ok s => (Ok ("PUT_SECRET_FILE_RESPONSE", s), k)
      | Err e => (if put_Success resp then Err e else Ok ("PUT_SECRET_FILE_RESPONSE", ""), k)
      end
  end.
End client.

(** ** What is stored *)

Section laws.
Context {K : Type} `{KA : KubeApi K} `{KL : !KubeLaws K}.
Implicit Types (k : K).

(** A create that falls back to an update stores the object when it says so,
    and touches nothing else either way. *)
Lemma put_store_spec r o k :
  let '(x, k') := put_store r o k in
  at_most r o k k' /\ is_ok x = true /\ (x = Ok None -> objects k' = <[r := o]> (objects k)).
Proof.
  unfold put_store, abind, acall, at_most. pose proof (kcreate_spec r o k) as Hc.
  destruct (kcreate r o k) as [[[]|e] k1]; cbn in Hc.
  - cbn. destruct Hc as [_ ->]. auto.
  - destruct (secretAlreadyExists e) eqn:Hae.
    + destruct e; try done. destruct Hc as [_ Hk1]. pose proof (kupdate_spec r o k1) as Hu.
      destruct (kupdate r o k1) as [[[]|e2] k2]; cbn in *.
      * destruct Hu as [_ ->]. rewrite Hk1. auto.
      * rewrite <-Hk1. destruct e2; [destruct Hu as [_ ->]|..]; (split_and!; [auto|done|done]).
    + cbn. destruct e; [|done|]; (split_and!; [tauto|done|done]).
Qed.

(** A successful set leaves the Secret; a failed one at most did. *)
Lemma SetClusterAgentTLS_spec (t : TLSData) k :
  let r := secret_ref Namespace ClusterAgentTLSSecret in
  match SetClusterAgentTLS t k with
  | (Ok _, k') => objects k' = <[r := tls_secret t]> (objects k)
  | (Err _, k') => at_most r (tls_secret t) k k'
  end.
Proof using KL.
  cbv zeta. set (r := secret_ref Namespace ClusterAgentTLSSecret).
  unfold SetClusterAgentTLS, ClusterAgentTLSExists, abind, acall, at_most. fold r.
  pose proof (kget_spec r k) as [Hk1 Hg]. destruct (kget r k) as [[o|e] k1]; cbn in Hk1, Hg |- *.
  - pose proof (kupdate_spec r (tls_secret t) k1) as Hu. destruct (kupdate r _ k1) as [[[]|e] k2]; cbn in *; rewrite Hk1 in Hu.
    + by destruct Hu as [_ Hu].
    + destruct e; tauto.
  - destruct e; cbn; try by left.
    pose proof (kcreate_spec r (tls_secret t) k1) as Hc. destruct (kcreate r _ k1) as [[[]|e] k2]; cbn in *; rewrite Hk1 in Hc.
    + by destruct Hc as [_ Hc].
    + destruct e; tauto.
Qed.

Lemma tls_of_secret t : tls_of (tls_secret t) = t.
Proof.
  unfold tls_of, field. cbn [obj_data tls_secret].
  by rewrite lookup_insert_eq, !lookup_insert_ne, !lookup_insert_eq by done; destruct t.
Qed.

(** The agent's TLS identity round-trips: after a successful set, a get
    that succeeds answers the very certificate, key and authority, whether the
    Secret existed before or not; no other object is touched, on any path. *)
Theorem cluster_tls_roundtrip (t : TLSData) k :
  match SetClusterAgentTLS t k with
  | (Ok _, k') =>
      objects k' = <[secret_ref Namespace ClusterAgentTLSSecret := tls_secret t]> (objects k) /\
      match GetClusterAgentTLS k' with (Ok t', _) => t' = t | (Err _, _) => True end
  | (Err _, k') => at_most (secret_ref Namespace ClusterAgentTLSSecret) (tls_secret t) k k'
  end.
Proof using KL.
  pose proof (SetClusterAgentTLS_spec t k) as Hs. destruct (SetClusterAgentTLS t k) as [[[]|e] k']; [|done].
  split; [done|]. unfold GetClusterAgentTLS, get_or, abind, acall.
  pose proof (kget_spec (secret_ref Namespace ClusterAgentTLSSecret) k') as [_ Hg].
  destruct (kget _ k') as [[o|e] k2]; cbn in *; [|done].
  rewrite Hs, lookup_insert_eq in Hg. injection Hg as <-. apply tls_of_secret.
Qed.

(** What a file must be to be stored. *)
Definition acceptable (E : PutEnv) (req : putSecretFileRequest) (contents : string) : Prop :=
  put_validate req = None /\ DecodeString (FileContents req) = Some contents /\
  slen contents <= maxSecretFile /\ sha256_hex E contents = ExpectedSHA256 req.

(** A file the control plane sends is stored only when it is valid base64 of
    at most 32 KiB whose hash is the announced one, and it is stored, under its
    name and unchanged, whenever success is reported; a request that is not
    acceptable is refused and changes nothing, and no other object is ever
    touched. *)
Theorem put_outcome_stores (E : PutEnv) jsonB64 req k :
  decode_put E jsonB64 = Ok req ->
  let r := secret_ref (ReqNamespace req) (SecretName req) in
  let '(x, k') := put_outcome E jsonB64 k in
  (exists contents, acceptable E req contents /\
     at_most r (file_secret req (ExpectedSHA256 req) contents) k k' /\
     (forall resp, x = Ok resp -> put_Success resp = true ->
        SizeBytes resp = slen contents /\
        objects k' = <[r := file_secret req (ExpectedSHA256 req) contents]> (objects k)))
  \/
  ((forall contents, acceptable E req contents -> put_client E <> Ok tt \/ put_clientset E <> Ok tt) /\
   k' = k /\ (forall resp, x = Ok resp -> put_Success resp = false)).
Proof using KL.
  intros Hdec r. unfold put_outcome. rewrite Hdec. unfold acceptable.
  destruct (put_validate req) eqn:Hv; [right; split_and!; [by intros ? ([=] & _)|done|by intros ? [=]]|].
  destruct (DecodeString (FileContents req)) as [c|] eqn:Hd.
  2:{ right. split_and!; [by intros ? (_ & [=] & _)|done|by intros ? [= <-]]. }
  cbv zeta. destruct (Z.ltb_spec maxSecretFile (slen c)).
  { right. split_and!; [intros ? (_ & [= <-] & ? & _); lia|done|by intros ? [= <-]]. }
  destruct (String.eqb_spec (sha256_hex E c) (ExpectedSHA256 req)) as [Hh|Hh]; cbn [negb].
  2:{ right. split_and!; [by intros ? (_ & [= <-] & _ & ?)|done|by intros ? [= <-]]. }
  destruct (put_client E) as [[]|]; [|right; split_and!; [intros; by left|done|by intros ? [= <-]]].
  destruct (put_clientset E) as [[]|]; [|right; split_and!; [intros; by right|done|by intros ? [= <-]]].
  rewrite Hh. fold r.
  pose proof (put_store_spec r (file_secret req (ExpectedSHA256 req) c) k) as Hs.
  destruct (put_store r _ k) as [[[msg|]|e] k']; destruct Hs as (Ham & Hok & Hst); [..|done].
  - left. exists c. split_and!; try done. by intros ? [= <-].
  - left. exists c. split_and!; try done. intros ? [= <-] _. split; [done|]. by apply Hst.
Qed.
End laws.

(** ** Runs on the executable cluster *)

Lemma cluster_tls_roundtrip_witness :
  match SetClusterAgentTLS (mkTLS "cert" "key" "ca") (mkMemKube ∅ []) with
  | (Ok _, k') => match GetClusterAgentTLS k' with (Ok t', _) => t' = mkTLS "cert" "key" "ca" | (Err _, _) => True end
  | (Err _, _) => False
  end.
Proof.
  pose proof (cluster_tls_roundtrip (K := MemKube) (mkTLS "cert" "key" "ca") (mkMemKube ∅ [])) as Ht.
  assert (is_ok (SetClusterAgentTLS (mkTLS "cert" "key" "ca") (mkMemKube ∅ [])).1 = true) as Hok by (vm_compute; reflexivity).
  set (x := SetClusterAgentTLS _ _) in *. clearbody x. destruct x as [[[]|] k']; [apply Ht|discriminate Hok].
Defined.

Definition demo_put : PutEnv :=
  mkPutEnv (fun _ => Ok (mkPutRequest "aGk=" "motd" "hash:hi" "apps" "welcome")) (fun _ => Ok "")
    (fun c => "hash:" ++ c) (Ok tt) (Ok tt).

Lemma put_outcome_stores_witness :
  exists k', put_outcome demo_put "" (mkMemKube ∅ []) = k' /\
    objects k'.2 !! secret_ref "apps" "welcome" =
      Some (file_secret (mkPutRequest "aGk=" "motd" "hash:hi" "apps" "welcome") "hash:hi" "hi").
Proof.
  eexists. split; [reflexivity|].
  pose proof (put_outcome_stores demo_put "" (mkPutRequest "aGk=" "motd" "hash:hi" "apps" "welcome") (mkMemKube ∅ []) eq_refl) as Hp.
  cbv zeta in Hp.
  assert (match (put_outcome demo_put "" (mkMemKube ∅ [])).1 with Ok r => put_Success r | Err _ => false end = true) as Hok
    by (vm_compute; reflexivity).
  set (x := put_outcome demo_put "" (mkMemKube ∅ [])) in *. clearbody x. destruct x as [[resp|] k']; [|discriminate Hok].
  cbn [fst] in Hok. destruct Hp as [(c & (_ & Hc & _) & _ & Hst)|(_ & _ & Hno)]; [|rewrite (Hno resp eq_refl) in Hok; discriminate Hok].
  injection Hc as <-. destruct (Hst resp eq_refl Hok) as [_ Ho]. cbn [snd]. rewrite Ho. apply lookup_insert_eq.
Defined.
