(* ===== verification/Datastore.v ===== *)
(** * The connection loop of the data store
      ([src/datastore/database.go], [src/datastore/provision.go])

    The agent finds the current system Postgres through a pointer ConfigMap,
    connects as its own role, provisions database and role as administrator
    where the stored credentials do not serve, and swaps the connection in.

    The Kubernetes API is a class, [Cluster], whose laws ([ClusterLaws]) are
    the documented effect of get, create and update; [MemCluster] is an
    executable instance. The answers of GORM and PostgreSQL are functions of
    the number of calls made so far, so that two calls with the same arguments
    may be answered differently. A connection is the index under which it was
    opened; [opened] holds the ones not yet closed. A [gorm.Open] that returns an
    error is taken to leave no connection behind: the caller has none it could
    close. A pass of the loop is one step: the [Close] that cancelled the loop
    waits for it anyway, and one that found nothing to cancel falls before or
    after a pass, not inside it. *)
From stdpp Require Import gmap.
From S2P Require Import Prelude GoStrings Conninfo Kube.
Local Open Scope string_scope.
Local Open Scope Z_scope.

(** ** The Kubernetes API *)

(** Objects are named by namespace and name. *)
Class Cluster (K : Type) := {
  secrets : K -> gmap (string * string) Data;
  configmaps : K -> gmap (string * string) Data;
  get_configmap : string * string -> K -> result KErr Data * K;
  get_secret : string * string -> K -> result KErr Data * K;
  create_secret : string * string -> Data -> K -> result KErr unit * K;
  (* the new StringData, over the data the object was read with *)
  update_secret : string * string -> Data -> Data -> K -> result KErr unit * K
}.

(** A write that fails may have happened all the same (a timeout). *)
Class ClusterLaws (K : Type) `{Cluster K} := {
  get_configmap_spec : forall o k,
    secrets (get_configmap o k).2 = secrets k /\ configmaps (get_configmap o k).2 = configmaps k /\
    match (get_configmap o k).1 with
    | Ok d => configmaps k !! o = Some d
    | Err NotFound => configmaps k !! o = None
    | Err _ => True
    end;
  get_secret_spec : forall o k,
    secrets (get_secret o k).2 = secrets k /\ configmaps (get_secret o k).2 = configmaps k /\
    match (get_secret o k).1 with
    | Ok d => secrets k !! o = Some d
    | Err NotFound => secrets k !! o = None
    | Err _ => True
    end;
  create_secret_spec : forall o d k,
    configmaps (create_secret o d k).2 = configmaps k /\
    match (create_secret o d k).1 with
    | Ok _ => secrets k !! o = None /\ secrets (create_secret o d k).2 = <[o := d]> (secrets k)
    | Err AlreadyExists => is_Some (secrets k !! o) /\ secrets (create_secret o d k).2 = secrets k
    | Err _ => secrets (create_secret o d k).2 = secrets k \/
               secrets (create_secret o d k).2 = <[o := d]> (secrets k)
    end;
  update_secret_spec : forall o d old k,
    configmaps (update_secret o d old k).2 = configmaps k /\
    match (update_secret o d old k).1 with
    | Ok _ => secrets (update_secret o d old k).2 = <[o := d ∪ old]> (secrets k)
    | Err _ => secrets (update_secret o d old k).2 = secrets k \/
               secrets (update_secret o d old k).2 = <[o := d ∪ old]> (secrets k)
    end
}.

(** ** The process and its connections *)

Inductive Event :=
| EvExec (c : nat) (stmt : string)   (* a statement that succeeded *)
| EvMigrated (c : nat)
| EvLimits (c : nat) (maxOpen maxIdle lifetime : Z).
#[export] Instance Event_eq_dec : EqDecision Event.
Proof. solve_decision. Defined.

Record World {K : Type} := mkWorld {
  calls : nat;                        (* external calls answered so far *)
  conns : list string;                (* the connection string of every connection *)
  opened : gset nat;
  handle : option nat;
  cluster : K;
  trace : list Event
}.
Arguments World : clear implicits.

Definition M (K A : Type) := World K -> result string A * World K.

Definition retM {K A} (a : A) : M K A := fun w => (Ok a, w).
Definition failM {K A} (e : string) : M K A := fun w => (Err e, w).
Definition bindM {K A B} (m : M K A) (f : A -> M K B) : M K B :=
  fun w => match m w with (Ok a, w) => f a w | (Err e, w) => (Err e, w) end.
(** [x, err := m()] with the error inspected by the code that follows. *)
Definition tryM {K A} (m : M K A) : M K (result string A) :=
  fun w => let '(r, w) := m w in (Ok r, w).
(** [fmt.Errorf("<pre>: %w", err)] around every error of [m]. *)
Definition wrapM {K A} (pre : string) (m : M K A) : M K A :=
  fun w => match m w with (Ok a, w) => (Ok a, w) | (Err e, w) => (Err (pre ++ e), w) end.

Notation "'do!' x ':=' m 'in' k" := (bindM m (fun x => k))
  (at level 10, x pattern, m at level 100, k at level 200) : agent_scope.
Local Open Scope agent_scope.

(** ** What the environment answers *)

Record DbEnv := mkDbEnv {
  getenv : string -> string;
  in_cluster : nat -> result string unit;            (* rest.InClusterConfig, NewForConfig *)
  gorm_open : nat -> string -> result string unit;
  gorm_DB : nat -> nat -> option string;             (* the error of gdb.DB() *)
  ping : nat -> nat -> option string;
  migrate : nat -> nat -> option string;
  db_exists : nat -> string -> result string bool;
  role_exists : nat -> string -> result string bool;
  exec : nat -> nat -> string -> option string;
  rand_read : nat -> result string string            (* 32 bytes *)
}.

Record dbConfig := mkDbConfig {
  host : string;
  port : string;
  name : string;
  user : string;
  adminUser : string;
  adminPassword : string;
  credSecret : string;
  credNamespace : string
}.

Definition tablePrefix : string := "cluster_agent_".
Definition defaultNamespace : string := "runos".
Definition healthyInterval : Z := 25 * Second.
Definition backoffMin : Z := 2 * Second.
Definition backoffMax : Z := 30 * Second.

(** [^[a-zA-Z_][a-zA-Z0-9_]*$] *)
Definition ident_start (c : ascii) : bool :=
  in_range 97 122 c || in_range 65 90 c || Ascii.eqb c "_".
Definition ident_char (c : ascii) : bool := ident_start c || in_range 48 57 c.
Definition identRe (s : string) : bool :=
  match s with EmptyString => false | String c r => ident_start c && all_chars ident_char r end.

Definition unit_sep : string := byte 31.

Definition signature (c : dbConfig) (adminSecretNamespace adminSecretName : string) : string :=
  Join [host c; port c; adminSecretNamespace; adminSecretName; name c; user c] unit_sep.

(** ** Quoting *)

Definition pgEscape (v : string) : string := ReplaceAll (ReplaceAll v backslash "\\") quote "\'".

Definition dsnFor (host port user password dbname : string) : string :=
  "host=" ++ host ++ " port=" ++ port ++ " user=" ++ user ++ " password='" ++ pgEscape password ++
  "' dbname=" ++ dbname ++ " sslmode=prefer connect_timeout=5".

Definition quoteIdent (ident : string) : string :=
  String dquote "" ++ ReplaceAll ident dquote (String dquote (String dquote "")) ++ String dquote "".

Definition quoteLiteral (literal : string) : string :=
  "'" ++ ReplaceAll literal quote "''" ++ "'".

(** ** The operations *)

Section operations.
Context {K : Type} `{Cluster K} (E : DbEnv).
Implicit Types (w : World K).

Definition env (key def : string) : string :=
  if String.eqb (getenv E key) "" then def else getenv E key.

Definition appEnvConfig : dbConfig :=
  mkDbConfig "" (env "RUNOS_DB_PORT" "5432") (env "RUNOS_DB_NAME" "runos") (env "RUNOS_DB_USER" "runos")
    "" "" (env "RUNOS_DB_CRED_SECRET" "cluster-agent-db")
    (env "RUNOS_DB_CRED_NAMESPACE" defaultNamespace).

(** An external call: it is counted, and answered according to the count. *)
Definition tick w : World K :=
  mkWorld _ (S (calls w)) (conns w) (opened w) (handle w) (cluster w) (trace w).
Definition ask {A} (f : nat -> result string A) : M K A := fun w => (f (calls w), tick w).
Definition ask_err (f : nat -> option string) : M K unit :=
  ask (fun n => match f n with None => Ok tt | Some e => Err e end).
Definition note (e : Event) : M K unit :=
  fun w => (Ok tt, mkWorld _ (calls w) (conns w) (opened w) (handle w) (cluster w) (trace w ++ [e])%list).

(** A call of the Kubernetes API, with its error kept apart. *)
Definition api {A} (f : K -> result KErr A * K) : M K (result KErr A) :=
  fun w => let '(r, k) := f (cluster w) in
           (Ok r, mkWorld _ (calls w) (conns w) (opened w) (handle w) k (trace w)).

(** [gorm.Open]: a new connection. *)
Definition openDB (dsn : string) : M K nat := fun w =>
  match gorm_open E (calls w) dsn with
  | Err e => (Err e, tick w)
  | Ok _ =>
      let c := length (conns w) in
      (Ok c, mkWorld _ (S (calls w)) (conns w ++ [dsn])%list ({[c]} ∪ opened w) (handle w) (cluster w) (trace w))
  end.

(** [sql.DB.Close]: closing twice is harmless. *)
Definition sqlClose (c : nat) : M K unit := fun w =>
  (Ok tt, mkWorld _ (calls w) (conns w) (opened w ∖ {[c]}) (handle w) (cluster w) (trace w)).

Definition closeGorm (g : option nat) : M K unit :=
  match g with
  | None => retM tt
  | Some c =>
      do! r := tryM (ask_err (fun n => gorm_DB E n c)) in
      match r with Ok _ => sqlClose c | Err _ => retM tt end
  end.

(** [defer closeGorm(g)] around the rest of a function. *)
Definition deferClose {A} (c : nat) (m : M K A) : M K A := fun w =>
  let '(r, w) := m w in (r, (closeGorm (Some c) w).2).

Definition setHandle (g : option nat) : M K (option nat) := fun w =>
  (Ok (handle w), mkWorld _ (calls w) (conns w) (opened w) g (cluster w) (trace w)).

(** *** Secrets *)

Definition readAdminSecret (ns nm : string) : M K (string * string) :=
  do! r := api (get_secret (ns, nm)) in
  match r with
  | Err e => failM ("get admin Secret: " ++ KError e)
  | Ok d =>
      let u := TrimSpace (field d "username") in
      let u := if String.eqb u "" then "postgres" else u in
      let password := field d "password" in
      if String.eqb (TrimSpace password) "" then failM "admin Secret has no password"
      else retM (u, password)
  end.

(** [None] is the source's [ok = false]. *)
Definition readCredentialSecret (cfg : dbConfig) : M K (option (string * string)) :=
  do! r := api (get_secret (credNamespace cfg, credSecret cfg)) in
  match r with
  | Err e => if IsNotFound e then retM None else failM ("get Secret: " ++ KError e)
  | Ok d =>
      let pw := TrimSpace (field d "password") in
      if String.eqb pw "" then retM None
      else retM (Some (pw, TrimSpace (field d "host")))
  end.

Definition credential_data (cfg : dbConfig) (password : string) : Data :=
  <["host" := host cfg]> (<["port" := port cfg]> (<["user" := user cfg]>
    (<["password" := password]> (<["dbname" := name cfg]> ∅)))).

Definition writeCredentialSecret (cfg : dbConfig) (password : string) : M K unit :=
  let o := (credNamespace cfg, credSecret cfg) in
  let data := credential_data cfg password in
  do! r := api (create_secret o data) in
  match r with
  | Ok _ => retM tt
  | Err e =>
      if IsAlreadyExists e then
        do! g := api (get_secret o) in
        match g with
        | Err e => failM (KError e)
        | Ok existing =>
            do! u := api (update_secret o data existing) in
            match u with Ok _ => retM tt | Err e => failM (KError e) end
        end
      else failM (KError e)
  end.

(** *** Opening and provisioning *)

Definition openGORM (cfg : dbConfig) (password : string) : M K nat :=
  let dsn := dsnFor (host cfg) (port cfg) (user cfg) password (name cfg) in
  do! gdb := wrapM "open postgres: " (openDB dsn) in
  do! r := tryM (ask_err (fun n => gorm_DB E n gdb)) in
  match r with
  | Err e => do! _ := closeGorm (Some gdb) in failM ("get sql.DB: " ++ e)
  | Ok _ =>
      do! p := tryM (ask_err (fun n => ping E n gdb)) in
      match p with
      | Err e => do! _ := closeGorm (Some gdb) in failM ("ping postgres: " ++ e)
      | Ok _ => do! _ := note (EvLimits gdb 10 2 (30 * Minute)) in retM gdb
      end
  end.

Definition openAdmin (dsn : string) : M K nat := openDB dsn.

(** [admin.Exec(stmt).Error]: a statement that succeeds is recorded. *)
Definition execDB (c : nat) (stmt : string) : M K unit :=
  do! _ := ask_err (fun n => exec E n c stmt) in note (EvExec c stmt).

Fixpoint exec_all (c : nat) (stmts : list string) : M K unit :=
  match stmts with
  | [] => retM tt
  | s :: stmts => do! _ := wrapM "grant schema privileges: " (execDB c s) in exec_all c stmts
  end.

Definition create_database (cfg : dbConfig) : string := "CREATE DATABASE " ++ quoteIdent (name cfg).
Definition set_role (cfg : dbConfig) (roleExists : bool) (appPassword : string) : string :=
  (if roleExists then "ALTER" else "CREATE") ++ " ROLE " ++ quoteIdent (user cfg) ++
  " WITH LOGIN PASSWORD " ++ quoteLiteral appPassword.
Definition grant_database (cfg : dbConfig) : string :=
  "GRANT ALL PRIVILEGES ON DATABASE " ++ quoteIdent (name cfg) ++ " TO " ++ quoteIdent (user cfg).
Definition schema_grants (cfg : dbConfig) : list string :=
  ["GRANT ALL ON SCHEMA public TO " ++ quoteIdent (user cfg);
   "ALTER SCHEMA public OWNER TO " ++ quoteIdent (user cfg);
   "ALTER DEFAULT PRIVILEGES IN SCHEMA public GRANT ALL ON TABLES TO " ++ quoteIdent (user cfg);
   "ALTER DEFAULT PRIVILEGES IN SCHEMA public GRANT ALL ON SEQUENCES TO " ++ quoteIdent (user cfg)].

Definition provisionAsAdmin (cfg : dbConfig) (appPassword : string) : M K unit :=
  if negb (identRe (name cfg)) then failM "invalid database name"
  else if negb (identRe (user cfg)) then failM "invalid role name"
  else
    do! admin := wrapM "connect as admin: "
      (openAdmin (dsnFor (host cfg) (port cfg) (adminUser cfg) (adminPassword cfg) "postgres")) in
    deferClose admin
      (do! dbExists := wrapM "check database existence: " (ask (fun n => db_exists E n (name cfg))) in
       do! _ := (if dbExists then retM tt
                 else wrapM "create database: " (execDB admin (create_database cfg))) in
       do! roleExists := wrapM "check role existence: " (ask (fun n => role_exists E n (user cfg))) in
       do! _ := wrapM (if roleExists then "alter role: " else "create role: ")
                  (execDB admin (set_role cfg roleExists appPassword)) in
       do! _ := wrapM "grant database privileges: " (execDB admin (grant_database cfg)) in
       do! _ := closeGorm (Some admin) in
       do! appAdmin := wrapM "connect to app db as admin: "
         (openAdmin (dsnFor (host cfg) (port cfg) (adminUser cfg) (adminPassword cfg) (name cfg))) in
       deferClose appAdmin (exec_all appAdmin (schema_grants cfg))).

Definition generatePassword : M K string :=
  do! buf := ask (rand_read E) in retM (hex_encode buf).

(** The provisioning half of [connect]. *)
Definition connect_provision (cfg : dbConfig) : M K nat :=
  if String.eqb (adminUser cfg) "" || String.eqb (adminPassword cfg) "" then
    failM "admin credentials unavailable for provisioning the current system DB"
  else
    do! newPW := wrapM "generate password: " generatePassword in
    do! _ := wrapM "provision: " (provisionAsAdmin cfg newPW) in
    do! _ := wrapM "write credential Secret: " (writeCredentialSecret cfg newPW) in
    openGORM cfg newPW.

Definition connect (cfg : dbConfig) : M K nat :=
  do! cred := readCredentialSecret cfg in
  match cred with
  | Some (pw, recordedHost) =>
      if String.eqb recordedHost (host cfg) then
        do! r := tryM (openGORM cfg pw) in
        match r with Ok gdb => retM gdb | Err _ => connect_provision cfg end
      else connect_provision cfg
  | None => connect_provision cfg
  end.

(** *** A pass of the loop *)

Record Target := mkTarget {
  t_host : string; t_port : string; t_adminNS : string; t_adminName : string;
  t_adminUser : string; t_adminPass : string
}.

Definition resolveTarget (k8s : bool) : M K Target :=
  let refName := env "RUNOS_SYSTEM_DB_REF" "runos-system-db" in
  let refNS := env "RUNOS_SYSTEM_DB_NAMESPACE" defaultNamespace in
  do! cm := (if k8s then
               do! r := api (get_configmap (refNS, refName)) in
               match r with
               | Ok d => retM (Some d)
               | Err e => if IsNotFound e then retM None else failM ("get pointer ConfigMap: " ++ KError e)
               end
             else retM None) in
  match cm with
  | Some d =>
      let hst := TrimSpace (field d "host") in
      let prt := TrimSpace (field d "port") in
      let adminNS := TrimSpace (field d "adminSecretNamespace") in
      let adminName := TrimSpace (field d "adminSecretName") in
      if String.eqb hst "" then failM "pointer ConfigMap has no host"
      else
        let prt := if String.eqb prt "" then "5432" else prt in
        if String.eqb adminName "" then failM "pointer ConfigMap has no adminSecretName"
        else
          let adminNS := if String.eqb adminNS "" then refNS else adminNS in
          do! up := readAdminSecret adminNS adminName in
          let '(u, p) := up in retM (mkTarget hst prt adminNS adminName u p)
  | None =>
      if String.eqb (getenv E "RUNOS_DB_HOST") "" then
        failM "pointer ConfigMap absent and RUNOS_DB_HOST not set"
      else retM (mkTarget (getenv E "RUNOS_DB_HOST") (env "RUNOS_DB_PORT" "5432") "env" "env"
                   (getenv E "RUNOS_DB_ADMIN_USER") (getenv E "RUNOS_DB_ADMIN_PASSWORD"))
  end.

Definition with_target (cfg : dbConfig) (t : Target) : dbConfig :=
  mkDbConfig (t_host t) (if String.eqb (t_port t) "" then "5432" else t_port t) (name cfg) (user cfg)
    (t_adminUser t) (t_adminPass t) (credSecret cfg) (credNamespace cfg).

(** The fast path: the installed connection serves the target and answers. *)
Definition healthy (targetSig currentSig : string) : M K bool := fun w =>
  match handle w with
  | Some c =>
      if String.eqb targetSig currentSig then
        (do! d := tryM (ask_err (fun n => gorm_DB E n c)) in
         match d with
         | Err _ => retM false
         | Ok _ => do! p := tryM (ask_err (fun n => ping E n c)) in retM (is_ok p)
         end) w
      else (Ok false, w)
  | None => (Ok false, w)
  end.

(** The (re)connect path: the new connection is installed once it is migrated,
    and the one it replaces is closed. *)
Definition reconnect (cfg : dbConfig) (targetSig : string) : M K (Z * string) :=
  do! gdb := connect cfg in
  do! m := tryM (ask_err (fun n => migrate E n gdb)) in
  match m with
  | Err e => do! _ := closeGorm (Some gdb) in failM ("automigrate: " ++ e)
  | Ok _ =>
      do! _ := note (EvMigrated gdb) in
      do! prev := setHandle (Some gdb) in
      do! _ := (match prev with
                | Some p => if Nat.eqb p gdb then retM tt else closeGorm prev
                | None => retM tt
                end) in
      retM (healthyInterval, targetSig)
  end.

(** The answer carries the signature the loop keeps, with the time to sleep. *)
Definition reconcileOnce (cfg : dbConfig) (currentSig : string) : M K (Z * string) :=
  do! kr := tryM (ask (in_cluster E)) in
  let k8s := is_ok kr in
  do! t := resolveTarget k8s in
  let cfg := with_target cfg t in
  if negb (identRe (name cfg)) then failM "invalid RUNOS_DB_NAME"
  else if negb (identRe (user cfg)) then failM "invalid RUNOS_DB_USER"
  else
    let targetSig := signature cfg (t_adminNS t) (t_adminName t) in
    do! ok := healthy targetSig currentSig in
    if ok then retM (healthyInterval, currentSig)
    else if negb k8s then failM "kubernetes client unavailable for credential resolution"
    else reconnect cfg targetSig.

(** *** The loop *)

Record ReconcileState := mkReconcile { currentSig : string; backoff : Z }.

Definition loop_init : ReconcileState := mkReconcile "" backoffMin.

(** One round: the pass, the time slept after it, and the loop's next state. *)
Definition reconcile_round (cfg : dbConfig) (s : ReconcileState) (w : World K) : Z * ReconcileState * World K :=
  match reconcileOnce cfg (currentSig s) w with
  | (Err _, w) =>
      let b := backoff s * 2 in
      (backoff s, mkReconcile (currentSig s) (if backoffMax <? b then backoffMax else b), w)
  | (Ok (wait, sig), w) => (wait, mkReconcile sig backoffMin, w)
  end.

(** The select of [sleepCtx]: the context ends [cancelled] from now, if at all,
    and the timer fires after [d]; [tie] is the runtime's choice when both are
    ready. *)
Definition sleepCtx (cancelled : option Z) (tie : bool) (d : Z) : bool :=
  match cancelled with
  | Some t => if t =? d then tie else d <? t
  | None => true
  end.

(** The rounds of the loop up to the end of its context, which [ends i] places
    relative to the start of sleep [i]: the delays, and the state it leaves. [None]: it is
    still running after [fuel] rounds. *)
Fixpoint reconcileLoop (fuel : nat) (i : nat) (ends : nat -> option Z * bool) (cfg : dbConfig)
    (s : ReconcileState) (w : World K) : list Z * option (World K) :=
  match fuel with
  | O => ([], None)
  | S fuel =>
      let '(d, s, w) := reconcile_round cfg s w in
      if sleepCtx (ends i).1 (ends i).2 d then
        let '(ds, r) := reconcileLoop fuel (S i) ends cfg s w in (d :: ds, r)
      else ([d], Some w)
  end.

End operations.

(** ** Provisioning *)

(** What provisioning sends: the maintenance statements on its first
    connection, the schema statements on its second. *)
Definition provision_trace (cfg : dbConfig) (pw : string) (dbExists roleExists : bool) (c : nat) : list Event :=
  map (EvExec c) (if dbExists then [] else [create_database cfg]) ++
  EvExec c (set_role cfg roleExists pw) :: EvExec c (grant_database cfg) ::
  map (EvExec (S c)) (schema_grants cfg).

Section provisioning.
Context {K : Type} `{Cluster K} (E : DbEnv).
Implicit Types (w : World K).

(** [m] opens the connections [C] and sends [L]; when it fails, it has sent a
    prefix of [L]. Handle and cluster stay. *)
Definition sends {A} (m : M K A) w (L : list Event) (C : list string) : Prop :=
  let '(r, w') := m w in
  handle w' = handle w /\ cluster w' = cluster w /\
  match r with
  | Ok _ => trace w' = (trace w ++ L)%list /\ conns w' = (conns w ++ C)%list
  | Err _ => exists n, trace w' = (trace w ++ take n L)%list
  end.

Lemma sends_bind {A B} (m : M K A) (f : A -> M K B) w L1 C1 L2 C2 :
  sends m w L1 C1 ->
  (forall a w', m w = (Ok a, w') -> conns w' = (conns w ++ C1)%list -> sends (f a) w' L2 C2) ->
  sends (bindM m f) w (L1 ++ L2)%list (C1 ++ C2)%list.
Proof.
  unfold sends, bindM. intros Hm Hf. destruct (m w) as [[a|e] w1] eqn:Em.
  - destruct Hm as (Hh & Hk & Ht & Hc). specialize (Hf a w1 eq_refl Hc).
    destruct (f a w1) as [r w2]. destruct Hf as (? & ? & Hr). split_and!; [congruence|congruence|].
    destruct r as [b|e].
    + destruct Hr as [-> ->]. rewrite Ht, Hc. by rewrite !app_assoc.
    + destruct Hr as [n ->]. exists (length L1 + n)%nat. by rewrite Ht, <-app_assoc, take_app_add.
  - destruct Hm as (Hh & Hk & n & Ht). split_and!; [done|done|]. exists (Nat.min n (length L1)).
    rewrite Ht, take_app_le, <-take_take by lia. by rewrite (take_ge L1 (length L1)).
Qed.

(** A query that only reads: its answer picks the statements that follow. *)
Lemma sends_ask {A B} pre (g : nat -> result string A) (f : A -> M K B) w L C :
  (forall a i, g i = Ok a -> sends (f a) (tick w) L C) -> sends (bindM (wrapM pre (ask g)) f) w L C.
Proof.
  unfold sends, bindM, wrapM, ask. intros Hf. destruct (g (calls w)) as [a|e] eqn:Eg; simpl.
  - apply (Hf a _ Eg).
  - split_and!; [done|done|]. exists 0%nat. by rewrite app_nil_r.
Qed.

Lemma sends_ret {A} (a : A) w : sends (retM a) w [] [].
Proof. unfold sends. simpl. by rewrite !app_nil_r. Qed.

Lemma sends_fail {A} e w L C : sends (@failM K A e) w L C.
Proof. unfold sends. simpl. split_and!; try done. exists 0%nat. by rewrite app_nil_r. Qed.

Lemma sends_wrap {A} pre (m : M K A) w L C : sends m w L C -> sends (wrapM pre m) w L C.
Proof. unfold sends, wrapM. by destruct (m w) as [[] ?]. Qed.

Lemma sends_execDB c stmt w : sends (execDB E c stmt) w [EvExec c stmt] [].
Proof.
  unfold sends, execDB, ask_err, ask, note, bindM.
  destruct (exec E (calls w) c stmt); simpl; split_and!; try done; [exists 0%nat|]; by rewrite !app_nil_r.
Qed.

Lemma closeGorm_frame g w :
  exists w', closeGorm E g w = (Ok tt, w') /\
    handle w' = handle w /\ cluster w' = cluster w /\ trace w' = trace w /\ conns w' = conns w.
Proof.
  destruct g as [c|]; [|by eexists]. unfold closeGorm, bindM, tryM, ask_err, ask, sqlClose, retM. simpl.
  destruct (gorm_DB E (calls w) c); by eexists.
Qed.

Lemma sends_closeGorm g w : sends (closeGorm E g) w [] [].
Proof.
  unfold sends. destruct (closeGorm_frame g w) as (w' & -> & ? & ? & ? & ?). by rewrite !app_nil_r.
Qed.

Lemma sends_deferClose {A} c (m : M K A) w L C : sends m w L C -> sends (deferClose E c m) w L C.
Proof.
  unfold sends, deferClose. destruct (m w) as [r w1].
  destruct (closeGorm_frame (Some c) w1) as (w2 & -> & Hh & Hk & Ht & Hc). cbn [snd]. by rewrite Hh, Hk, Ht, Hc.
Qed.

(** Opening, then the rest with the new connection. *)
Lemma sends_open {A} pre dsn (f : nat -> M K A) w L C :
  (forall w', conns w' = (conns w ++ [dsn])%list -> sends (f (length (conns w))) w' L C) ->
  sends (bindM (wrapM pre (openAdmin E dsn)) f) w L (dsn :: C).
Proof.
  intros Hf. unfold sends, bindM, wrapM, openAdmin, openDB. destruct (gorm_open E (calls w) dsn); cbn.
  - match goal with |- context [f _ ?v] => specialize (Hf v eq_refl) end. unfold sends in Hf.
    destruct (f _ _) as [[] ?]; cbn in Hf; rewrite <-?app_assoc in Hf; exact Hf.
  - split_and!; [done|done|]. exists 0%nat. by rewrite app_nil_r.
Qed.

Lemma sends_exec {A} pre c stmt (f : unit -> M K A) w L C :
  (forall w', conns w' = conns w -> sends (f tt) w' L C) ->
  sends (bindM (wrapM pre (execDB E c stmt)) f) w (EvExec c stmt :: L) C.
Proof.
  intros Hf. apply (sends_bind _ _ _ [_] [] L C); [apply sends_wrap, sends_execDB|].
  intros [] w' _ Hc. apply Hf. by rewrite Hc, app_nil_r.
Qed.

Lemma sends_exec_all c stmts w : sends (exec_all E c stmts) w (map (EvExec c) stmts) [].
Proof.
  revert w. induction stmts as [|s stmts IH]; intros w; [apply sends_ret|]. apply sends_exec. auto.
Qed.

(** [dbE] and [roleE] are what the server answers when it is asked whether the
    database and the role exist. *)
Context (cfg : dbConfig) (dbE roleE : bool).
Context (HdbE : forall i b, db_exists E i (name cfg) = Ok b -> b = dbE).
Context (HroleE : forall i b, role_exists E i (user cfg) = Ok b -> b = roleE).

Definition adminDSN (db : string) : string :=
  dsnFor (host cfg) (port cfg) (adminUser cfg) (adminPassword cfg) db.

Lemma provision_sends pw w :
  sends (provisionAsAdmin E cfg pw) w (provision_trace cfg pw dbE roleE (length (conns w)))
    [adminDSN "postgres"; adminDSN (name cfg)].
Proof using HdbE HroleE.
  unfold provisionAsAdmin. destruct (identRe (name cfg)); [|apply sends_fail].
  destruct (identRe (user cfg)); [|apply sends_fail]. cbn [negb].
  apply sends_open. intros w1 Hc1. apply sends_deferClose, sends_ask. intros b i ->%HdbE.
  apply (sends_bind _ _ _ _ []).
  { destruct dbE; [apply sends_ret|apply sends_wrap, sends_execDB]. }
  intros [] w2 _ Hc2. apply sends_ask. intros b j ->%HroleE.
  apply sends_exec. intros w3 Hc3. apply sends_exec. intros w4 Hc4.
  apply (sends_bind _ _ _ [] []); [apply sends_closeGorm|]. intros [] w5 _ Hc5.
  assert (conns w5 = conns w1) as Hc by (rewrite Hc5, app_nil_r, Hc4, Hc3; cbn; by rewrite Hc2, app_nil_r).
  apply sends_open. intros w6 Hc6. rewrite Hc, Hc1, length_app, Nat.add_comm.
  apply sends_deferClose, sends_exec_all.
Qed.

End provisioning.

Create HintDb owns.

(** ** Connections are owned

    [owns X m Y]: run where the connections [X] are open and its own, [m] leaves
    exactly the connections [Z] of them, with [Y r Z]; every other open
    connection stays open, and the handle stays. *)

Definition handle_set {K} (w : World K) : gset nat :=
  match handle w with Some c => {[c]} | None => ∅ end.

Definition conns_wf {K} (w : World K) : Prop := forall c, c ∈ opened w -> (c < length (conns w))%nat.

Section ownership.
Context {K : Type} `{Cluster K} (E : DbEnv).
Context (HDB : forall n c, gorm_DB E n c = None).
Implicit Types (w : World K) (X F Z : gset nat).

Definition owns {A} X (m : M K A) (Y : result string A -> gset nat -> Prop) : Prop :=
  forall w F, conns_wf w -> opened w = X ∪ F -> X ## F ->
  let '(r, w') := m w in
  conns_wf w' /\ handle w' = handle w /\ exists Z, Y r Z /\ opened w' = Z ∪ F /\ Z ## F.

(** Nothing is acquired and nothing given up. *)
Definition same {A} X : result string A -> gset nat -> Prop := fun _ Z => Z = X.
(** The answer is a connection the caller now owns. *)
Definition acquired : result string nat -> gset nat -> Prop :=
  fun r Z => Z = match r with Ok c => {[c]} | Err _ => ∅ end.

Lemma owns_bind {A B} X (m : M K A) (f : A -> M K B) Y1 Y :
  owns X m Y1 -> (forall a Z, Y1 (Ok a) Z -> owns Z (f a) Y) ->
  (forall e Z, Y1 (Err e) Z -> Y (Err e) Z) -> owns X (bindM m f) Y.
Proof.
  intros Hm Hf He w F Hwf Ho Hd. specialize (Hm w F Hwf Ho Hd). unfold bindM.
  destruct (m w) as [[a|e] w1]; destruct Hm as (Hwf1 & Hh1 & Z & HY & Ho1 & Hd1).
  - specialize (Hf a Z HY w1 F Hwf1 Ho1 Hd1). destruct (f a w1) as [r w2].
    destruct Hf as (? & ? & Hz). split_and!; [done|congruence|done].
  - split_and!; [done|done|]. eauto.
Qed.

Lemma owns_seq {A B} X (m : M K A) (f : A -> M K B) Y :
  owns X m (same X) -> (forall a, owns X (f a) Y) -> (forall e, Y (Err e) X) -> owns X (bindM m f) Y.
Proof. intros Hm Hf He. eapply owns_bind; [done|intros a Z ->; auto|by intros e Z ->]. Qed.

Lemma owns_try {A} X (m : M K A) Y :
  owns X m Y -> owns X (tryM m) (fun r Z => match r with Ok r => Y r Z | Err _ => False end).
Proof.
  intros Hm w F Hwf Ho Hd. specialize (Hm w F Hwf Ho Hd). unfold tryM. by destruct (m w) as [r w1].
Qed.

Lemma owns_wrap {A} X pre (m : M K A) Y :
  owns X m Y -> (forall e e' Z, Y (Err e) Z -> Y (Err e') Z) -> owns X (wrapM pre m) Y.
Proof.
  intros Hm He w F Hwf Ho Hd. specialize (Hm w F Hwf Ho Hd). unfold wrapM.
  destruct (m w) as [[a|e] w1]; [done|]. destruct Hm as (? & ? & Z & ? & ?). split_and!; eauto.
Qed.

Lemma owns_weaken {A} X (m : M K A) Y1 Y :
  owns X m Y1 -> (forall r Z, Y1 r Z -> Y r Z) -> owns X m Y.
Proof.
  intros Hm HY w F Hwf Ho Hd. specialize (Hm w F Hwf Ho Hd). destruct (m w) as [r w1].
  destruct Hm as (? & ? & Z & ? & ?). split_and!; eauto.
Qed.

Lemma owns_ret {A} X (a : A) (Y : result string A -> gset nat -> Prop) : Y (Ok a) X -> owns X (retM a) Y.
Proof. intros HY w F ? ? ?. simpl. eauto 6. Qed.
Lemma owns_fail {A} X e (Y : result string A -> gset nat -> Prop) : Y (Err e) X -> owns X (failM e) Y.
Proof. intros HY w F ? ? ?. simpl. eauto 6. Qed.
Lemma owns_ask {A} X (f : nat -> result string A) : owns X (ask f) (same X).
Proof. intros w F ? ? ?. simpl. split_and!; [done|done|]. by exists X. Qed.
Lemma owns_note X e : owns X (note e) (same X).
Proof. intros w F ? ? ?. simpl. split_and!; [done|done|]. by exists X. Qed.
Lemma owns_api {A} X (f : K -> result KErr A * K) : owns X (api f) (same X).
Proof. intros w F ? ? ?. unfold api. destruct (f _). simpl. split_and!; [done|done|]. by exists X. Qed.

Lemma owns_openDB dsn : owns ∅ (openDB E dsn) acquired.
Proof.
  intros w F Hwf Ho _. unfold openDB. destruct (gorm_open E (calls w) dsn); simpl.
  - assert (length (conns w) ∉ opened w) as Hn by (intros Hc%Hwf; lia).
    split_and!; [|done|].
    + intros c Hc. cbn in *. rewrite length_app. simpl. apply elem_of_union in Hc as [->%elem_of_singleton|Hc%Hwf]; lia.
    + eexists. split; [done|]. set_solver.
  - split_and!; [done|done|]. eexists. split; [done|]. done.
Qed.

Lemma owns_close c : owns {[c]} (closeGorm E (Some c)) (same ∅).
Proof using HDB.
  intros w F Hwf Ho Hd. unfold closeGorm, bindM, tryM, ask_err, ask. rewrite HDB. simpl.
  split_and!; [|done|].
  - intros x Hx. apply Hwf. cbn in Hx. set_solver.
  - exists ∅. split; [done|]. set_solver.
Qed.

(** Closing at the end: by then the connection may have been closed already. *)
Lemma owns_deferClose {A} c (m : M K A) Y :
  owns {[c]} m Y -> (forall r Z, Y r Z -> Z ⊆ {[c]}) -> owns {[c]} (deferClose E c m) (same ∅).
Proof using HDB.
  intros Hm HY w F Hwf Ho Hd. specialize (Hm w F Hwf Ho Hd). unfold deferClose.
  destruct (m w) as [r w1]. destruct Hm as (Hwf1 & Hh & Z & HZ & Ho1 & Hd1).
  unfold closeGorm, bindM, tryM, ask_err, ask. rewrite HDB. simpl.
  specialize (HY r Z HZ). split_and!; [|done|].
  - intros x Hx. apply Hwf1. cbn in Hx. set_solver.
  - exists ∅. split; [done|]. set_solver.
Qed.

Ltac own_atom :=
  first [ apply owns_ask | apply owns_note | apply owns_api | apply owns_openDB | apply owns_close
        | apply owns_wrap; [own_atom|done] | apply owns_try; own_atom | by eauto with owns ].
Ltac own :=
  repeat first
    [ done | own_atom
    | apply owns_ret; done | apply owns_fail; done
    | match goal with
      | |- owns _ (match ?x with _ => _ end) _ => destruct x
      | |- owns _ (bindM (tryM _) _) _ => eapply owns_bind; [own_atom|intros [] ? ->|done]
      | |- owns _ (bindM _ _) _ => eapply owns_bind; [own_atom|intros ? ? ->|by intros ? ? ->]
      end ].

Lemma owns_exec X c stmt : owns X (execDB E c stmt) (same X).
Proof. unfold execDB, ask_err. own. Qed.
#[local] Hint Resolve owns_exec : owns.

Lemma owns_exec_all X c stmts : owns X (exec_all E c stmts) (same X).
Proof.
  induction stmts as [|s stmts IH]; simpl; [by apply owns_ret|].
  apply owns_seq; [apply owns_wrap; [apply owns_exec|done]|done|done].
Qed.

Lemma owns_openGORM cfg pw : owns ∅ (openGORM E cfg pw) acquired.
Proof using HDB. unfold openGORM, ask_err. own. Qed.

Lemma owns_provision cfg pw : owns ∅ (provisionAsAdmin E cfg pw) (same ∅).
Proof using HDB.
  unfold provisionAsAdmin, openAdmin.
  destruct (identRe (name cfg)), (identRe (user cfg)); cbn [negb]; try (by apply owns_fail).
  eapply owns_bind; [apply owns_wrap; [apply owns_openDB|done]|intros c ? ->|by intros ? ? ->].
  eapply (owns_deferClose c _ (fun _ Z => Z ⊆ {[c]})); [|done].
  apply owns_seq; [own|intros dbE|set_solver].
  apply owns_seq; [destruct dbE; own|intros _|set_solver].
  apply owns_seq; [own|intros roleE|set_solver].
  apply owns_seq; [own|intros _|set_solver].
  apply owns_seq; [own|intros _|set_solver].
  eapply owns_bind; [apply owns_close|intros _ ? ->|intros ? ? ->; set_solver].
  eapply owns_bind; [own_atom|intros d ? ->|intros ? ? ->; set_solver].
  eapply owns_weaken; [eapply owns_deferClose; [apply owns_exec_all|by intros ? ? ->]|].
  intros ? ? ->. set_solver.
Qed.
#[local] Hint Resolve owns_openGORM owns_provision : owns.

Lemma owns_readCredential cfg : owns ∅ (readCredentialSecret cfg) (same ∅).
Proof. unfold readCredentialSecret. own. Qed.

Lemma owns_writeCredential cfg pw : owns ∅ (writeCredentialSecret cfg pw) (same ∅).
Proof. unfold writeCredentialSecret. own. Qed.
#[local] Hint Resolve owns_readCredential owns_writeCredential : owns.

Lemma owns_generatePassword : owns ∅ (generatePassword E) (same ∅).
Proof. unfold generatePassword. own. Qed.
#[local] Hint Resolve owns_generatePassword : owns.

Lemma owns_connect_provision cfg : owns ∅ (connect_provision E cfg) acquired.
Proof using HDB. unfold connect_provision. own. Qed.
#[local] Hint Resolve owns_connect_provision : owns.

Lemma owns_connect cfg : owns ∅ (connect E cfg) acquired.
Proof using HDB. unfold connect. own. Qed.

Lemma owns_readAdmin ns nm : owns ∅ (readAdminSecret ns nm) (same ∅).
Proof. unfold readAdminSecret. own. Qed.
#[local] Hint Resolve owns_readAdmin : owns.

Lemma owns_resolveTarget k8s : owns ∅ (resolveTarget E k8s) (same ∅).
Proof. unfold resolveTarget. apply owns_seq; [own|intros [d|]; own|done]. Qed.

Lemma owns_healthy a b : owns ∅ (healthy E a b) (same ∅).
Proof.
  intros w F Hwf Ho Hd. unfold healthy. assert (forall r : bool, let '(r', w') := (@Ok string bool r, w) in
    conns_wf w' /\ handle w' = handle w /\ exists Z, same ∅ r' Z /\ opened w' = Z ∪ F /\ Z ## F) as Hr
    by (intros; split_and!; [done|done|by exists ∅]).
  destruct (handle w) as [c|] eqn:Hh; [|apply Hr].
  destruct (String.eqb a b); [|apply Hr].
  match goal with |- context [bindM ?m ?f w] => assert (owns ∅ (bindM m f) (same ∅)) as Ho' end.
  { unfold ask_err. own. }
  rewrite <-Hh. exact (Ho' w F Hwf Ho Hd).
Qed.
#[local] Hint Resolve owns_connect owns_resolveTarget owns_healthy : owns.

(** Between passes, the open connections are exactly the installed one. *)
Definition tidy w : Prop := conns_wf w /\ opened w = handle_set w.

Lemma owns_tidy {A} (m : M K A) w :
  owns ∅ m (same ∅) -> tidy w -> let '(_, w') := m w in tidy w' /\ handle w' = handle w.
Proof.
  intros Hm [Hwf Ho]. specialize (Hm w (opened w) Hwf (symmetry (union_empty_l_L _)) (disjoint_empty_l _)).
  destruct (m w) as [r w']. destruct Hm as (Hwf' & Hh & Z & -> & Ho' & _).
  unfold tidy, handle_set in *. rewrite Hh. split; [|done]. split; [done|]. rewrite Ho', Ho. set_solver.
Qed.

(** Installing a connection the pass owns closes the one it replaces. *)
Lemma install_tidy c w :
  conns_wf w -> c ∉ handle_set w -> opened w = {[c]} ∪ handle_set w ->
  let '(prev, w1) := (handle w, (setHandle (Some c) w).2) in
  let w2 := ((match prev with
              | Some p => if Nat.eqb p c then retM tt else closeGorm E prev
              | None => retM tt
              end) w1).2 in
  tidy w2 /\ handle w2 = Some c.
Proof using HDB.
  intros Hwf Hc Ho. unfold setHandle. simpl. unfold handle_set in *. destruct (handle w) as [p|].
  - destruct (Nat.eqb_spec p c) as [->|Hne]; [set_solver|].
    unfold closeGorm, bindM, tryM, ask_err, ask. rewrite HDB. simpl. split; [|done]. split.
    + intros x Hx. apply Hwf. cbn in Hx. set_solver.
    + unfold handle_set. simpl. rewrite Ho. set_solver.
  - simpl. split; [|done]. split; [exact Hwf|]. unfold handle_set. simpl. rewrite Ho. set_solver.
Qed.

(** A pass keeps this, never drops the handle, and has one when it succeeds. *)
Definition tidies {A} (m : M K A) w : Prop :=
  let '(r, w') := m w in
  tidy w' /\ (is_Some (handle w) -> is_Some (handle w')) /\ (is_ok r = true -> is_Some (handle w')).

Lemma tidies_bind {A B} (m : M K A) (f : A -> M K B) w :
  owns ∅ m (same ∅) -> tidy w ->
  (forall a w', m w = (Ok a, w') -> tidy w' -> handle w' = handle w -> tidies (f a) w') ->
  tidies (bindM m f) w.
Proof.
  intros Hm Hw Hf. pose proof (owns_tidy m w Hm Hw) as Ht. unfold tidies, bindM.
  destruct (m w) as [[a|e] w1]; destruct Ht as [Ht Hh].
  - specialize (Hf a w1 eq_refl Ht Hh). unfold tidies in Hf. rewrite <-Hh. exact Hf.
  - split_and!; [done|by rewrite Hh|done].
Qed.

Lemma reconnect_tidies cfg sig w : tidy w -> tidies (reconnect E cfg sig) w.
Proof using HDB.
  intros [Hwf Ho]. unfold tidies, reconnect, bindM at 1.
  pose proof (owns_connect cfg w (opened w) Hwf (symmetry (union_empty_l_L _)) (disjoint_empty_l _)) as Hc.
  destruct (connect E cfg w) as [[c|e] w1]; destruct Hc as (Hwf1 & Hh1 & Z & HZ & Ho1 & Hd1); unfold acquired in HZ; subst Z.
  2:{ split_and!; [split; [done|unfold handle_set in *; rewrite Hh1; set_solver]|by rewrite Hh1|done]. }
  unfold bindM at 1, tryM at 1, ask_err, ask. cbn [fst snd].
  destruct (migrate E (calls w1) c) as [e|]; cbn [fst snd].
  - unfold bindM. pose proof (owns_close c (tick w1) (opened w) Hwf1 Ho1 Hd1) as Hc.
    destruct (closeGorm E (Some c) (tick w1)) as [[] w2]; destruct Hc as (Hwf2 & Hh2 & Z & -> & Ho2 & _);
      unfold failM, tidy, handle_set in *; rewrite Hh2; cbn [handle tick]; rewrite Hh1; (split_and!; [done|set_solver|done|done]).
  - pose proof (install_tidy c (note (K:=K) (EvMigrated c) (tick w1)).2) as Hi. cbn [fst snd note] in Hi.
    unfold bindM, note, setHandle. cbn [fst snd handle]. cbn [setHandle snd handle] in Hi.
    destruct Hi as [Hi Hh]; [exact Hwf1|..].
    { unfold handle_set in *. cbn. rewrite Hh1. set_solver. }
    { unfold handle_set in *. cbn. rewrite Hh1, Ho1. congruence. }
    set (m := match handle (tick w1) with Some _ => _ | None => _ end) in *.
    match goal with |- context [m ?v] => set (wv := v) in * end.
    assert (exists w', m wv = (Ok tt, w')) as [w' Hw'].
    { subst m. destruct (handle (tick w1)) as [p|]; [|by eexists].
      destruct (Nat.eqb p c); [by eexists|].
      destruct (closeGorm_frame E (Some p) wv) as (? & ? & _). eauto. }
    rewrite Hw' in *. cbn [snd] in Hi, Hh. unfold retM. rewrite Hh. eauto.
Qed.

Lemma healthy_handle a b w w' : healthy E a b w = (Ok true, w') -> is_Some (handle w).
Proof. unfold healthy. destruct (handle w); [eauto|done]. Qed.

Lemma reconcileOnce_tidies cfg sig w : tidy w -> tidies (reconcileOnce E cfg sig) w.
Proof using HDB.
  intros Hw. unfold reconcileOnce.
  apply tidies_bind; [eapply owns_weaken; [apply owns_try, owns_ask|by intros [] ? ?]|done|].
  intros kr w1 _ Hw1 _. apply tidies_bind; [apply owns_resolveTarget|done|]. intros t w2 _ Hw2 _.
  assert (forall e, tidies (@failM K (Z * string) e) w2) as Hfail by done.
  destruct (negb _); [apply Hfail|]. destruct (negb _); [apply Hfail|].
  apply tidies_bind; [apply owns_healthy|done|]. intros [] w3 Hh Hw3 He.
  - apply healthy_handle in Hh. unfold tidies, retM. rewrite He. done.
  - destruct (negb _); [done|]. by apply reconnect_tidies.
Qed.

End ownership.

(** ** Starting and stopping the loop *)

(** The loops that run (a number each, the state, and whether their context is
    cancelled), the cancel function and done channel kept under the mutex, and
    the [Close] calls that wait, each for the done channel it took. *)
Record Proc {K : Type} := mkProc {
  running : option nat;
  loops : gmap nat (ReconcileState * bool);
  closers : list (option nat);
  next_loop : nat;
  world : World K
}.
Arguments Proc : clear implicits.
Arguments mkProc {K}.

Definition proc_init {K} (k : K) : Proc K := mkProc None ∅ [] 0 (mkWorld _ 0 [] ∅ None k []).

Section lifecycle.
Context {K : Type} `{Cluster K} (E : DbEnv).
Implicit Types (p : Proc K).

Definition Initialize p : Proc K :=
  match running p with
  | Some _ => p
  | None =>
      mkProc (Some (next_loop p)) (<[next_loop p := (loop_init, false)]> (loops p)) (closers p)
        (S (next_loop p)) (world p)
  end.

(** [Close] up to the wait: it takes the cancel function and calls it. *)
Definition Close_begin p : Proc K :=
  mkProc None
    (match running p with
     | Some n => alter (fun s => (s.1, true)) n (loops p)
     | None => loops p
     end) (running p :: closers p) (next_loop p) (world p).

(** [Close] after the wait, possible once the loop it waits for has ended. *)
Definition close_handle (w : World K) : World K :=
  match setHandle None w with
  | (Ok prev, w) => (closeGorm E prev w).2
  | (Err _, w) => w
  end.

#[local] Arguments close_handle : simpl never.

Definition loop_done (target : option nat) p : bool :=
  match target with
  | Some n => match loops p !! n with None => true | Some _ => false end
  | None => true
  end.

Definition Close_end (i : nat) p : option (Proc K) :=
  target ← closers p !! i;
  if loop_done target p
  then Some (mkProc (running p) (loops p) (delete i (closers p)) (next_loop p) (close_handle (world p)))
  else None.

(** A pass of loop [n]. *)
Definition loop_pass (n : nat) p : option (Proc K) :=
  '(s, cancelled) ← loops p !! n;
  let '(_, s, w) := reconcile_round E (appEnvConfig E) s (world p) in
  Some (mkProc (running p) (<[n := (s, cancelled)]> (loops p)) (closers p) (next_loop p) w).

(** A cancelled loop leaves at its next sleep and closes its done channel. *)
Definition loop_exit (n : nat) p : option (Proc K) :=
  '(_, cancelled) ← loops p !! n;
  if cancelled : bool
  then Some (mkProc (running p) (delete n (loops p)) (closers p) (next_loop p) (world p))
  else None.

Inductive step : Proc K -> Proc K -> Prop :=
| step_Initialize p : step p (Initialize p)
| step_Close_begin p : step p (Close_begin p)
| step_Close_end i p p' : Close_end i p = Some p' -> step p p'
| step_pass n p p' : loop_pass n p = Some p' -> step p p'
| step_exit n p p' : loop_exit n p = Some p' -> step p p'
(* anyone else changing the cluster, between passes *)
| step_cluster k p :
    step p (mkProc (running p) (loops p) (closers p) (next_loop p)
      (mkWorld _ (calls (world p)) (conns (world p)) (opened (world p)) (handle (world p)) k (trace (world p)))).

Record proc_inv p : Prop := {
  inv_tidy : tidy (world p);
  (* a loop is the running one, or cancelled and awaited *)
  inv_loops : forall n s (b : bool), loops p !! n = Some (s, b) ->
    (n < next_loop p)%nat /\ if b then Some n ∈ closers p else running p = Some n;
  inv_running : forall n, running p = Some n -> exists s, loops p !! n = Some (s, false);
  inv_handle : is_Some (handle (world p)) -> loops p <> ∅ \/ closers p <> []
}.

Context (HDB : forall n c, gorm_DB E n c = None).

Lemma close_handle_tidy w : tidy w -> tidy (close_handle w) /\ handle (close_handle w) = None.
Proof using HDB.
  intros [Hwf Ho]. unfold close_handle, setHandle, handle_set in *. destruct (handle w) as [c|] eqn:Hh.
  - unfold closeGorm, bindM, tryM, ask_err, ask. rewrite HDB. simpl. split; [|done]. split.
    + intros x Hx. apply Hwf. cbn in Hx. set_solver.
    + unfold handle_set. cbn. set_solver.
  - cbn. split; [|done]. split; [done|]. unfold handle_set. cbn. done.
Qed.

Lemma Initialize_inv p : proc_inv p -> proc_inv (Initialize p).
Proof.
  intros [Ht Hl Hr Hh]. unfold Initialize. destruct (running p) as [m|] eqn:Hrun; [by split; [|rewrite Hrun|rewrite Hrun|]|].
  split; cbn; [done| | |].
  - intros n s b [[<- [= <- <-]]|[Hne Hn]]%lookup_insert_Some; [auto|].
    destruct (Hl n s b Hn) as [? Hb]. split; [lia|]. destruct b; [done|congruence].
  - intros n [= <-]. exists loop_init. by rewrite lookup_insert_eq.
  - intros _. left. apply insert_non_empty.
Qed.

Lemma Close_begin_inv p : proc_inv p -> proc_inv (Close_begin p).
Proof.
  intros [Ht Hl Hr Hh]. split; cbn; [done| |done|intros _; by right].
  intros n s b Hn. destruct (running p) as [m|] eqn:Hrun.
  - apply lookup_alter_Some in Hn as [(<- & [s' b'] & Hn & [= -> ->])|[Hne Hn]].
    + split; [by apply (Hl m s' b')|]. by left.
    + destruct (Hl n s b Hn) as [? Hb]. split; [done|]. destruct b; [by right|congruence].
  - destruct (Hl n s b Hn) as [? Hb]. split; [done|]. destruct b; [by right|done].
Qed.

Lemma elem_of_delete_ne {A} (l : list A) i x y : l !! i = Some y -> x <> y -> x ∈ l -> x ∈ delete i l.
Proof.
  intros Hi Hne [j Hj]%list_elem_of_lookup. apply list_elem_of_lookup.
  destruct (decide (j < i)%nat); [exists j; by rewrite list_lookup_delete_lt|].
  assert (j <> i) by (intros ->; congruence).
  exists (pred j). rewrite list_lookup_delete_ge by lia. by replace (S (pred j)) with j by lia.
Qed.

Lemma Close_end_inv i p p' : Close_end i p = Some p' -> proc_inv p -> proc_inv p'.
Proof using HDB.
  unfold Close_end. destruct (closers p !! i) as [t|] eqn:Hi; [|done]. cbn.
  destruct (loop_done t p) eqn:Hd; [|done]. intros [= <-] [Ht Hl Hr Hh].
  destruct (close_handle_tidy (world p) Ht) as [Ht' Hn'].
  split; cbn [world loops closers running next_loop]; [done| |done|rewrite Hn'; by intros []].
  intros n s b Hn. destruct (Hl n s b Hn) as [? Hb]. split; [done|]. destruct b; [|done].
  eapply elem_of_delete_ne; [done| |done]. intros <-. simpl in Hd. by rewrite Hn in Hd.
Qed.

Lemma loop_pass_inv n p p' : loop_pass n p = Some p' -> proc_inv p -> proc_inv p'.
Proof using HDB.
  unfold loop_pass. destruct (loops p !! n) as [[s b]|] eqn:Hn; [|done]. cbn. intros Hp [Ht Hl Hr Hh].
  pose proof (reconcileOnce_tidies E HDB (appEnvConfig E) (currentSig s) (world p) Ht) as Hrec.
  unfold reconcile_round in Hp. unfold tidies in Hrec.
  destruct (reconcileOnce E (appEnvConfig E) (currentSig s) (world p)) as [r w']. destruct Hrec as (Ht' & _ & _).
  assert (exists s', p' = mkProc (running p) (<[n:=(s', b)]> (loops p)) (closers p) (next_loop p) w') as [s' ->].
  { destruct r as [[]|]; simplify_eq; eauto. }
  split; cbn; [done| | |intros _; left; apply insert_non_empty].
  - intros m t b' [[<- [= <- <-]]|[Hne Hm]]%lookup_insert_Some; eauto.
  - intros m Hm. destruct (Hr m Hm) as [t Hm']. destruct (decide (n = m)) as [<-|Hne].
    + exists s'. rewrite lookup_insert_eq. congruence.
    + exists t. by rewrite lookup_insert_ne.
Qed.

Lemma loop_exit_inv n p p' : loop_exit n p = Some p' -> proc_inv p -> proc_inv p'.
Proof.
  unfold loop_exit. destruct (loops p !! n) as [[s [|]]|] eqn:Hn; [|done..]. cbn. intros [= <-] [Ht Hl Hr Hh].
  destruct (Hl n s true Hn) as [_ Hc]. split; cbn; [done| | |].
  - intros m t b [Hne Hm]%lookup_delete_Some. eauto.
  - intros m Hm. destruct (Hr m Hm) as [t Hm']. exists t. rewrite lookup_delete_ne; [done|]. intros <-. congruence.
  - intros _. right. intros Hnil. rewrite Hnil in Hc. by apply not_elem_of_nil in Hc.
Qed.

Lemma proc_step_inv p p' : step p p' -> proc_inv p -> proc_inv p'.
Proof using HDB.
  intros [q|q|i q q' Hq|n q q' Hq|n q q' Hq|k q];
    eauto using Initialize_inv, Close_begin_inv, Close_end_inv, loop_pass_inv, loop_exit_inv.
  intros [Ht Hl Hr Hh]. by split.
Qed.

Lemma proc_reachable_inv k p : rtc step (proc_init k) p -> proc_inv p.
Proof using HDB.
  intros Hp. assert (proc_inv (proc_init k)) as H0.
  { split; cbn; [done|intros ? ? ? Hl; by rewrite lookup_empty in Hl|done|by intros []]. }
  revert H0. induction Hp as [|x y z Hxy _ IH]; eauto using proc_step_inv.
Qed.

(** C18: No connection is leaked and none is used after it is closed: in every
    interleaving of [Initialize], [Close], the loops' passes and changes to the
    cluster, the open connections are exactly the installed one; at most one
    loop runs uncancelled; and when no loop runs and no [Close] waits, nothing
    is open. *)
Theorem connections_exactly_handle k p :
  rtc step (proc_init k) p ->
  opened (world p) = handle_set (world p) /\
  (forall m n s t, loops p !! m = Some (s, false) -> loops p !! n = Some (t, false) -> m = n) /\
  (loops p = ∅ -> closers p = [] -> opened (world p) = ∅).
Proof using HDB.
  intros [Ht Hl Hr Hh]%proc_reachable_inv. split_and!; [apply Ht| |].
  - intros m n s t [_ Hm]%Hl [_ Hn]%Hl. congruence.
  - intros Hloops Hclose. destruct Ht as [_ ->]. unfold handle_set. destruct (handle (world p)); [|done].
    destruct Hh as [?|?]; [eauto|done|done].
Qed.

End lifecycle.

(** ** The credentials in the cluster and on the server agree *)

Section credentials.
Context {K : Type} `{CL : Cluster K} `{KL : !ClusterLaws K} (E : DbEnv) (cfg : dbConfig).
Implicit Types (w : World K).

(** What the credential Secret says: the password and the host it is for. *)
Definition stored (k : K) : option (string * string) :=
  d ← secrets k !! (credNamespace cfg, credSecret cfg);
  let pw := TrimSpace (field d "password") in
  if String.eqb pw "" then None else Some (pw, TrimSpace (field d "host")).

Definition appDSN (pw : string) : string := dsnFor (host cfg) (port cfg) (user cfg) pw (name cfg).

Definition same_process w w' : Prop :=
  calls w' = calls w /\ conns w' = conns w /\ opened w' = opened w /\ handle w' = handle w /\ trace w' = trace w.

Lemma readCredential_spec w :
  let '(r, w') := readCredentialSecret cfg w in
  same_process w w' /\ secrets (cluster w') = secrets (cluster w) /\
  match r with Ok o => o = stored (cluster w) | Err _ => True end.
Proof.
  unfold readCredentialSecret, bindM, api, stored, same_process.
  pose proof (get_secret_spec (credNamespace cfg, credSecret cfg) (cluster w)) as Hg.
  destruct (get_secret _ _) as [r k]. cbn in Hg. destruct Hg as (Hs & _ & Hr).
  destruct r as [d|[]]; cbn; rewrite ?Hr; cbn; try by split_and!.
  destruct (String.eqb _ ""); by split_and!.
Qed.

Lemma writeCredential_spec pw w :
  TrimSpace pw = pw -> pw <> "" ->
  let '(r, w') := writeCredentialSecret cfg pw w in
  same_process w w' /\
  (is_ok r = true -> stored (cluster w') = Some (pw, TrimSpace (host cfg))).
Proof.
  intros Hpw Hne. set (o := (credNamespace cfg, credSecret cfg)).
  assert (forall k old, secrets k !! o = Some (credential_data cfg pw ∪ old) ->
            stored k = Some (pw, TrimSpace (host cfg))) as Hstored.
  { intros k old Hk. unfold stored. fold o. rewrite Hk. cbn.
    assert (field (credential_data cfg pw ∪ old) "password" = pw) as ->.
    { unfold field, credential_data. rewrite (lookup_union_Some_l _ _ _ pw); [done|]. by simplify_map_eq. }
    assert (field (credential_data cfg pw ∪ old) "host" = host cfg) as ->.
    { unfold field, credential_data. rewrite (lookup_union_Some_l _ _ _ (host cfg)); [done|]. by simplify_map_eq. }
    rewrite Hpw. by apply String.eqb_neq in Hne as ->. }
  unfold writeCredentialSecret. fold o. cbv zeta. unfold bindM at 1, api at 1.
  pose proof (create_secret_spec o (credential_data cfg pw) (cluster w)) as Hc.
  destruct (create_secret _ _ _) as [[[]|e] k1]; cbn in Hc; destruct Hc as [_ Hc].
  - cbn. split; [done|]. intros _. apply (Hstored _ ∅). destruct Hc as [_ ->].
    by rewrite lookup_insert_eq, map_union_empty.
  - destruct (IsAlreadyExists e); [|by cbn; split]. unfold bindM at 1, api at 1. cbn.
    destruct (get_secret o k1) as [[existing|e2] k2]; [|by cbn; split].
    unfold bindM, api. cbn. pose proof (update_secret_spec o (credential_data cfg pw) existing k2) as Hu.
    destruct (update_secret _ _ _ _) as [[[]|e3] k3]; cbn in *; [|by split].
    split; [done|]. intros _. apply (Hstored _ existing). destruct Hu as [_ ->]. by rewrite lookup_insert_eq.
Qed.

Lemma openGORM_spec pw w :
  let '(r, w') := openGORM E cfg pw w in
  cluster w' = cluster w /\ handle w' = handle w /\
  match r with
  | Ok c => c = length (conns w) /\ conns w' = (conns w ++ [appDSN pw])%list /\
            trace w' = (trace w ++ [EvLimits c 10 2 (30 * Minute)])%list
  | Err _ => trace w' = trace w
  end.
Proof.
  unfold openGORM. cbv zeta. unfold bindM at 1, wrapM, openDB.
  destruct (gorm_open E (calls w) _); [|done].
  unfold bindM at 1, tryM at 1, ask_err at 1, ask at 1. cbn [fst snd calls tick].
  destruct (gorm_DB E _ _) as [e|].
  { unfold bindM. match goal with |- context [closeGorm E ?g ?v] =>
      destruct (closeGorm_frame E g v) as (w2 & E2 & ? & ? & ? & ?) end. by rewrite E2. }
  unfold bindM at 1, tryM at 1, ask_err at 1, ask at 1. cbn [fst snd calls tick].
  destruct (ping E _ _) as [e|]; [|done].
  unfold bindM. match goal with |- context [closeGorm E ?g ?v] =>
      destruct (closeGorm_frame E g v) as (w2 & E2 & ? & ? & ? & ?) end. by rewrite E2.
Qed.

(** Provisioning: the statements are sent with a fresh password, which the
    Secret then carries. *)
Context (dbE roleE : bool).
Context (HdbE : forall i b, db_exists E i (name cfg) = Ok b -> b = dbE).
Context (HroleE : forall i b, role_exists E i (user cfg) = Ok b -> b = roleE).
Context (Hrand : forall i b, rand_read E i = Ok b -> String.length b = 32%nat).

Lemma connect_provision_spec w :
  match connect_provision E cfg w with
  | (Ok c, w') =>
      exists i b, rand_read E i = Ok b /\
        let pw := hex_encode b in
        conns w' !! c = Some (appDSN pw) /\ stored (cluster w') = Some (pw, TrimSpace (host cfg)) /\
        trace w' = (trace w ++ provision_trace cfg pw dbE roleE (length (conns w)) ++ [EvLimits c 10 2 (30 * Minute)])%list
  | (Err _, w') =>
      cluster w' = cluster w /\ trace w' = trace w \/
      exists i b n, rand_read E i = Ok b /\
        let L := provision_trace cfg (hex_encode b) dbE roleE (length (conns w)) in
        trace w' = (trace w ++ take n L)%list /\ (cluster w' = cluster w \/ trace w' = (trace w ++ L)%list)
  end.
Proof using HdbE HroleE Hrand KL.
  unfold connect_provision. destruct (String.eqb (adminUser cfg) "" || _); [by left|].
  unfold bindM at 1, wrapM at 1, generatePassword, bindM at 1, ask.
  destruct (rand_read E (calls w)) as [b|e] eqn:Hb; cbn [fst snd]; [|by left]. unfold retM at 1.
  set (pw := hex_encode b). set (L := provision_trace cfg pw dbE roleE (length (conns w))).
  assert (TrimSpace pw = pw /\ pw <> "") as [Htrim Hne].
  { split; [apply TrimSpace_plain, hex_encode_plain|]. subst pw. apply Hrand in Hb. destruct b; [discriminate Hb|discriminate]. }
  unfold bindM at 1, wrapM at 1. pose proof (provision_sends E cfg dbE roleE HdbE HroleE pw (tick w)) as Hp.
  unfold sends in Hp. destruct (provisionAsAdmin E cfg pw (tick w)) as [[[]|e] w1].
  2:{ destruct Hp as (_ & Hk & n & Ht). right. exists (calls w), b, n. auto. }
  destruct Hp as (Hh1 & Hk1 & Ht1 & Hc1). cbn in Ht1, Hc1. fold L in Ht1.
  assert (forall w', trace w' = trace w1 -> exists i b n, rand_read E i = Ok b /\
    let L := provision_trace cfg (hex_encode b) dbE roleE (length (conns w)) in
    trace w' = (trace w ++ take n L)%list /\ (cluster w' = cluster w \/ trace w' = (trace w ++ L)%list)) as Hfull.
  { intros w' Hw'. exists (calls w), b, (length L). fold pw L. cbv zeta. fold pw L. rewrite take_ge by done. rewrite Hw', Ht1. auto. }
  unfold bindM at 1, wrapM at 1. pose proof (writeCredential_spec pw w1 Htrim Hne) as Hw.
  destruct (writeCredentialSecret cfg pw w1) as [[[]|e] w2]; destruct Hw as ((_ & Hc2 & _ & _ & Ht2) & Hst); [|right; by apply Hfull].
  specialize (Hst eq_refl).
  pose proof (openGORM_spec pw w2) as Ho. destruct (openGORM E cfg pw w2) as [[c|e] w3];
    destruct Ho as (Hk3 & _ & Ho); [|right; apply Hfull; congruence].
  destruct Ho as (-> & Hc3 & Ht3). exists (calls w), b. split; [done|]. fold pw.
  split_and!.
  - by rewrite Hc3, lookup_app_r, Nat.sub_diag by lia.
  - by rewrite Hk3.
  - by rewrite Ht3, Ht2, Ht1, <-app_assoc.
Qed.

(** Connection [c], opened by a connect from [w] to [w'], and the Secret agree;
    [refused old] says the stored password [old] was tried in vain. *)
Definition credentials_agree w w' (c : nat) (refused : string -> Prop) : Prop :=
  exists pw, conns w' !! c = Some (appDSN pw) /\ stored (cluster w') = Some (pw, host cfg) /\
    (stored (cluster w) = Some (pw, host cfg) /\ secrets (cluster w') = secrets (cluster w) /\
     trace w' = (trace w ++ [EvLimits c 10 2 (30 * Minute)])%list
     \/
     (forall old, stored (cluster w) = Some (old, host cfg) -> refused old) /\
     exists i b c0, rand_read E i = Ok b /\ pw = hex_encode b /\
       trace w' = (trace w ++ provision_trace cfg pw dbE roleE c0 ++ [EvLimits c 10 2 (30 * Minute)])%list).

(** A connect from [w] to [w'] that failed: nothing was executed and no Secret
    changed; or some of the provisioning statements were executed, and a Secret
    changed only if all of them were. *)
Definition credentials_kept w w' (refused : string -> Prop) : Prop :=
  (trace w' = trace w /\ secrets (cluster w') = secrets (cluster w)) \/
  (forall old, stored (cluster w) = Some (old, host cfg) -> refused old) /\
  exists i b c0 n, rand_read E i = Ok b /\
    trace w' = (trace w ++ take n (provision_trace cfg (hex_encode b) dbE roleE c0))%list /\
    (secrets (cluster w') = secrets (cluster w) \/
     trace w' = (trace w ++ provision_trace cfg (hex_encode b) dbE roleE c0)%list).

(** C19: A successful connect leaves the credential Secret carrying the current
    host and the very password the connection was opened with. Either the stored
    password served, the Secret is untouched and nothing was executed as
    administrator; or there was none, or it was recorded for another host, or
    opening a connection with it failed, for whatever reason, and then the role
    was given a fresh random password by exactly the provisioning statements, in
    order, on the maintenance and the application database. A connect that fails
    has executed nothing and left every Secret as it was; or, again only without
    a stored password for this host that works, it has executed a prefix of
    these statements, and a Secret changed only if all of them were executed.
    This is for a host without surrounding space, and for a server whose answers
    about the database and the role do not change while the connect runs. *)
Theorem connect_credentials w :
  TrimSpace (host cfg) = host cfg ->
  let refused old := is_ok (openGORM E cfg old (readCredentialSecret cfg w).2).1 = false in
  match connect E cfg w with
  | (Ok c, w') => credentials_agree w w' c refused
  | (Err _, w') => credentials_kept w w' refused
  end.
Proof using HdbE HroleE Hrand KL.
  intros Hhost. cbv zeta. unfold connect, bindM at 1.
  pose proof (readCredential_spec w) as Hr. destruct (readCredentialSecret cfg w) as [[o|e] w1];
    destruct Hr as ((_ & Hc1 & _ & _ & Ht1) & Hs1 & Ho1); [|by left]. subst o. cbn [snd].
  assert (forall (refused : string -> Prop) w2, trace w2 = trace w -> secrets (cluster w2) = secrets (cluster w) ->
    (forall old, stored (cluster w) = Some (old, host cfg) -> refused old) ->
    match connect_provision E cfg w2 with
    | (Ok c, w') => credentials_agree w w' c refused
    | (Err _, w') => credentials_kept w w' refused
    end) as Hprov.
  { intros refused w2 Ht2 Hs2 Hno. pose proof (connect_provision_spec w2) as Hp.
    destruct (connect_provision E cfg w2) as [[c|] w3].
    - destruct Hp as (i & b & Hb & Hcn & Hst & Htr).
      rewrite Hhost in Hst. rewrite Ht2 in Htr. exists (hex_encode b). split_and!; [done|done|].
      right. split; [done|]. by exists i, b, (length (conns w2)).
    - destruct Hp as [[Hk Ht]|(i & b & n & Hb & Ht & Hk)]; [left; split; congruence|]. rewrite Ht2 in Ht, Hk.
      right. split; [done|]. exists i, b, (length (conns w2)), n. split_and!; [done|done|].
      destruct Hk as [Hk|Hk]; [left; congruence|by right]. }
  destruct (stored (cluster w)) as [[pw h]|] eqn:Hst; [|by apply Hprov].
  destruct (String.eqb_spec h (host cfg)) as [->|Hne].
  2:{ apply Hprov; [done|done|]. intros old [= <- ->]. done. }
  unfold bindM, tryM. pose proof (openGORM_spec pw w1) as Ho.
  destruct (openGORM E cfg pw w1) as [[c|e] w2] eqn:Eo; destruct Ho as (Hk2 & _ & Ho).
  - destruct Ho as (-> & Hc2 & Ht2). cbn. exists pw. rewrite Hk2. split_and!.
    + by rewrite Hc2, lookup_app_r, Nat.sub_diag by lia.
    + unfold stored in *. by rewrite Hs1.
    + left. split_and!; [done|by rewrite Hs1|by rewrite Ht2, Ht1].
  - apply Hprov; [congruence|by rewrite Hk2|]. intros old [= <-]. by rewrite Eo.
Qed.

End credentials.

(** ** Statements and connection strings carry their values *)

(** PostgreSQL's reading of a quoted token, after its opening quote: up to the
    closing quote, a doubled quote standing for one. *)
Fixpoint read_delimited (q : ascii) (s : string) : option (string * string) :=
  match s with
  | EmptyString => None
  | String c r =>
      if Ascii.eqb c q then
        match r with
        | String d r' =>
            if Ascii.eqb d q then '(v, rest) ← read_delimited q r'; Some (String q v, rest)
            else Some ("", r)
        | EmptyString => Some ("", "")
        end
      else '(v, rest) ← read_delimited q r; Some (String c v, rest)
  end.

Definition not_starting (q : ascii) (s : string) : bool :=
  match s with String c _ => negb (Ascii.eqb c q) | EmptyString => true end.

Lemma read_delimited_quoted q v rest :
  not_starting q rest = true ->
  read_delimited q (ReplaceAll v q (String q (String q "")) ++ String q rest) = Some (v, rest).
Proof.
  intros Hr. induction v as [|c v IH]; simpl.
  - rewrite Ascii.eqb_refl. destruct rest as [|d r]; [done|]. simpl in Hr. by destruct (Ascii.eqb d q).
  - destruct (Ascii.eqb c q) eqn:Hc.
    + apply Ascii.eqb_eq in Hc as ->. simpl. by rewrite !Ascii.eqb_refl, IH.
    + simpl. by rewrite Hc, IH.
Qed.

Definition strip (p s : string) : option string :=
  if HasPrefix s p then Some (TrimPrefix s p) else None.

Lemma strip_app p r : strip p (p ++ r) = Some r.
Proof.
  unfold strip, TrimPrefix, HasPrefix. assert (String.prefix p (p ++ r) = true) as -> by (apply prefix_app; eauto).
  by rewrite drop_app.
Qed.

(** A [CREATE ROLE] or [ALTER ROLE] statement as the server reads it. *)
Definition read_role_password (s : string) : option (string * string) :=
  s ← strip (String dquote "") s;
  '(role, s) ← read_delimited dquote s;
  s ← strip " WITH LOGIN PASSWORD '" s;
  '(pw, s) ← read_delimited quote s;
  if String.eqb s "" then Some (role, pw) else None.

Definition read_set_role (s : string) : option (bool * string * string) :=
  match strip "ALTER ROLE " s with
  | Some r => '(role, pw) ← read_role_password r; Some (true, role, pw)
  | None => r ← strip "CREATE ROLE " s; '(role, pw) ← read_role_password r; Some (false, role, pw)
  end.

Lemma read_role_password_quoted role pw :
  read_role_password (quoteIdent role ++ " WITH LOGIN PASSWORD " ++ quoteLiteral pw) = Some (role, pw).
Proof.
  unfold read_role_password, quoteIdent, quoteLiteral. rewrite !append_assoc, strip_app. cbn [mbind option_bind].
  change (String dquote "" ++ ?r) with (String dquote r). rewrite read_delimited_quoted by done. cbn [mbind option_bind].
  change (" WITH LOGIN PASSWORD " ++ "'" ++ ?r) with (" WITH LOGIN PASSWORD '" ++ r). rewrite strip_app. cbn [mbind option_bind].
  change "'" with (String quote ""). rewrite read_delimited_quoted by done. done.
Qed.

(** Whatever bytes the role name and the password hold, the server reads the
    role statement as exactly that role and that password: no value ends early
    and nothing follows. *)
Theorem set_role_roundtrip cfg roleExists pw :
  read_set_role (set_role cfg roleExists pw) = Some (roleExists, user cfg, pw).
Proof.
  unfold read_set_role, set_role. set (tail := quoteIdent (user cfg) ++ _).
  assert (read_role_password tail = Some (user cfg, pw)) as Ht by apply read_role_password_quoted.
  clearbody tail. destruct roleExists.
  - change ("ALTER" ++ " ROLE " ++ tail) with ("ALTER ROLE " ++ tail). rewrite strip_app.
    cbn -[read_role_password]. by rewrite Ht.
  - change ("CREATE" ++ " ROLE " ++ tail) with ("CREATE ROLE " ++ tail).
    assert (strip "ALTER ROLE " ("CREATE ROLE " ++ tail) = None) as -> by reflexivity.
    rewrite strip_app. cbn -[read_role_password]. by rewrite Ht.
Qed.

(** The connection string is read back when host, port, user and database are
    free of white space, quotes and backslashes; the password may hold anything. *)
Lemma dsnFor_roundtrip host port user password dbname :
  all_chars bare_char host = true -> all_chars bare_char port = true ->
  all_chars bare_char user = true -> all_chars bare_char dbname = true ->
  read_conninfo 7 (dsnFor host port user password dbname) =
    Some [("host", host); ("port", port); ("user", user); ("password", password); ("dbname", dbname);
          ("sslmode", "prefer"); ("connect_timeout", "5")].
Proof.
  intros Hh Hp Hu Hd. unfold dsnFor, pgEscape.
  assert (forall rest, read_value ("'" ++ (ReplaceAll (ReplaceAll password backslash "\\") quote "\'" ++ String quote rest))
            = Some (password, rest)) as Hpw by (intros; simpl; apply read_quoted_escaped).
  do 3 (erewrite read_conninfo_pair; [|reflexivity|discriminate|reflexivity|apply read_value_bare; assumption]).
  erewrite read_conninfo_pair; [|reflexivity|discriminate|reflexivity|apply Hpw].
  erewrite read_conninfo_pair; [|reflexivity|discriminate|reflexivity|apply read_value_bare; assumption].
  reflexivity.
Qed.

(** The host is not quoted: one with a space in it overrides later keywords'
    defaults by adding a pair of its own. *)
Lemma dsnFor_host_injects :
  read_conninfo 8 (dsnFor "db options=-crole=x" "5432" "runos" "pw" "runos") =
    Some [("host", "db"); ("options", "-crole=x"); ("port", "5432"); ("user", "runos"); ("password", "pw");
          ("dbname", "runos"); ("sslmode", "prefer"); ("connect_timeout", "5")].
Proof. reflexivity. Qed.

(** ** The target *)

Definition clean (s : string) : Prop := contains_char (ascii_of_nat 31) s = false.

Definition coordinates (c : dbConfig) (ns nm : string) : list string :=
  [host c; port c; ns; nm; name c; user c].

(** The signature is the same exactly when host, port, admin Secret, database
    and role are the same, as long as none holds the separator byte: a switch of
    the system database never goes unnoticed and a rotated admin password is no
    switch. *)
Theorem signature_identifies_target c ns nm c' ns' nm' :
  Forall clean (coordinates c ns nm) -> Forall clean (coordinates c' ns' nm') ->
  signature c ns nm = signature c' ns' nm' <-> coordinates c ns nm = coordinates c' ns' nm'.
Proof.
  intros Hc Hc'. split; [|by unfold signature, coordinates; intros [= -> -> -> -> -> ->]].
  intros Hs. unfold signature in Hs. fold (coordinates c ns nm) (coordinates c' ns' nm') in Hs.
  apply (f_equal (Split (ascii_of_nat 31))) in Hs. unfold unit_sep, byte in Hs.
  by rewrite !Split_Join in Hs.
Qed.

Section passes.
Context {K : Type} `{Cluster K} (E : DbEnv) (cfg : dbConfig).
Implicit Types (w : World K).

(** The process apart from the cluster and the count of calls. *)
Definition same_conns w w' : Prop := conns w' = conns w /\ handle w' = handle w /\ trace w' = trace w.

Lemma resolveTarget_conns k8s w : same_conns w (resolveTarget E k8s w).2.
Proof.
  unfold same_conns, resolveTarget, readAdminSecret, bindM, api. destruct k8s.
  - destruct (get_configmap _ _) as [[d|e] k]; cbn.
    + destruct (String.eqb _ ""); [done|]. destruct (String.eqb _ ""); [done|].
      destruct (get_secret _ _) as [[d'|e'] k']; cbn; [|done]. by destruct (String.eqb _ "").
    + destruct (IsNotFound e); cbn; [|done]. by destruct (String.eqb _ "").
  - cbn. by destruct (String.eqb _ "").
Qed.

Lemma healthy_conns a b w :
  same_conns w (healthy E a b w).2 /\
  (forall w', healthy E a b w = (Ok true, w') -> a = b).
Proof.
  unfold same_conns, healthy, bindM, tryM, ask_err, ask, retM. destruct (handle w) as [c|] eqn:Hh; [|done].
  destruct (String.eqb_spec a b) as [->|Hne]; [|done]. cbn.
  destruct (gorm_DB E _ c); cbn; [done|]. by destruct (ping E _ c).
Qed.

(** Connections only accumulate, and only [setHandle] changes the handle. *)
Definition grows {A} (m : M K A) : Prop :=
  forall w, conns w `prefix_of` conns (m w).2 /\ handle (m w).2 = handle w.

Lemma grows_bind {A B} (m : M K A) (f : A -> M K B) : grows m -> (forall a, grows (f a)) -> grows (bindM m f).
Proof.
  intros Hm Hf w. specialize (Hm w). unfold bindM. destruct (m w) as [[a|e] w1]; [|done].
  destruct (Hf a w1) as [? ->], Hm as [? <-]. split; [by etrans|done].
Qed.
Lemma grows_try {A} (m : M K A) : grows m -> grows (tryM m).
Proof. intros Hm w. specialize (Hm w). unfold tryM. by destruct (m w). Qed.
Lemma grows_wrap {A} pre (m : M K A) : grows m -> grows (wrapM pre m).
Proof. intros Hm w. specialize (Hm w). unfold wrapM. by destruct (m w) as [[] ?]. Qed.
Lemma grows_ret {A} (a : A) : grows (retM a).
Proof. done. Qed.
Lemma grows_fail {A} e : grows (@failM K A e).
Proof. done. Qed.
Lemma grows_ask {A} (f : nat -> result string A) : grows (ask f).
Proof. done. Qed.
Lemma grows_note e : grows (note e).
Proof. done. Qed.
Lemma grows_api {A} (f : K -> result KErr A * K) : grows (api f).
Proof. intros w. unfold api. by destruct (f _). Qed.
Lemma grows_openDB dsn : grows (openDB E dsn).
Proof. intros w. unfold openDB. destruct (gorm_open E _ dsn); [split; [by apply prefix_app_r|done]|done]. Qed.
Lemma grows_closeGorm g : grows (closeGorm E g).
Proof. intros w. destruct (closeGorm_frame E g w) as (w' & -> & ? & ? & ? & Hc). cbn. by rewrite Hc. Qed.
Lemma grows_deferClose {A} c (m : M K A) : grows m -> grows (deferClose E c m).
Proof.
  intros Hm w. specialize (Hm w). unfold deferClose. destruct (m w) as [r w1].
  pose proof (grows_closeGorm (Some c) w1) as [Hp Hh]. destruct Hm as [Hp' Hh']. cbn in *.
  split; [by etrans|congruence].
Qed.
#[local] Hint Resolve grows_bind grows_try grows_wrap grows_ret grows_fail grows_ask grows_note grows_api
  grows_openDB grows_closeGorm grows_deferClose : owns.

Ltac grow :=
  repeat first
    [ solve [eauto 1 with owns] | apply grows_bind; [|intros ?] | apply grows_try | apply grows_wrap | apply grows_deferClose
    | solve [auto with owns]
    | match goal with |- grows (match ?x with _ => _ end) => destruct x end ].

Lemma grows_exec_all c stmts : grows (exec_all E c stmts).
Proof. induction stmts; simpl; unfold execDB, ask_err; grow; done. Qed.
#[local] Hint Resolve grows_exec_all : owns.

Lemma grows_openGORM cfg' pw : grows (openGORM E cfg' pw).
Proof. unfold openGORM, ask_err. cbv zeta. grow. Qed.
#[local] Hint Resolve grows_openGORM : owns.

Lemma grows_connect cfg' : grows (connect E cfg').
Proof.
  assert (grows (connect_provision E cfg')) as Hp.
  { unfold connect_provision, generatePassword, provisionAsAdmin, openAdmin, writeCredentialSecret, execDB, ask_err.
    cbv zeta. grow. }
  unfold connect, readCredentialSecret. grow; done.
Qed.

Lemma connect_dsn c cfg' w w' :
  connect E cfg' w = (Ok c, w') -> exists pw, conns w' !! c = Some (appDSN cfg' pw).
Proof.
  assert (forall pw w1, openGORM E cfg' pw w1 = (Ok c, w') -> conns w' !! c = Some (appDSN cfg' pw)) as Ho.
  { intros pw w1 Hg. pose proof (openGORM_spec E cfg' pw w1) as Ho. rewrite Hg in Ho.
    destruct Ho as (_ & _ & -> & -> & _). by rewrite lookup_app_r, Nat.sub_diag by lia. }
  assert (forall w1, connect_provision E cfg' w1 = (Ok c, w') ->
            exists pw, conns w' !! c = Some (appDSN cfg' pw)) as Hp.
  { intros w1. unfold connect_provision. destruct (_ || _); [done|]. unfold bindM, wrapM.
    destruct (generatePassword E w1) as [[pw|] w2]; [|done].
    destruct (provisionAsAdmin E cfg' pw w2) as [[[]|] w3]; [|done].
    destruct (writeCredentialSecret cfg' pw w3) as [[[]|] w4]; [|done]. eauto. }
  unfold connect, bindM. destruct (readCredentialSecret cfg' w) as [[[[pw h]|]|] w1]; [| |done].
  - destruct (String.eqb h (host cfg')); [|apply Hp]. unfold tryM.
    destruct (openGORM E cfg' pw w1) as [[d|] w2] eqn:Eo; [|apply Hp]. intros [= -> ->]. eauto.
  - apply Hp.
Qed.

Lemma reconnect_dsn cfg' sig wait sig' w w' :
  reconnect E cfg' sig w = (Ok (wait, sig'), w') ->
  wait = healthyInterval /\ sig' = sig /\
  exists c pw, handle w' = Some c /\ conns w' !! c = Some (appDSN cfg' pw) /\ EvMigrated c ∈ trace w'.
Proof.
  unfold reconnect, bindM at 1. destruct (connect E cfg' w) as [[c|] w1] eqn:Ec; [|done].
  apply connect_dsn in Ec as [pw Hpw]. unfold bindM at 1, tryM at 1, ask_err, ask. cbn [fst snd].
  destruct (migrate E (calls w1) c); cbn [fst snd].
  { unfold bindM. by destruct (closeGorm E (Some c) (tick w1)) as [[] ?]. }
  unfold bindM, note, setHandle. cbn [fst snd handle].
  set (m := match handle (tick w1) with Some _ => _ | None => _ end).
  match goal with |- context [m ?v] => set (wv := v) end.
  assert (exists w2, m wv = (Ok tt, w2) /\ handle w2 = handle wv /\ conns w2 = conns wv /\ trace w2 = trace wv)
    as (w2 & -> & Hh & Hc & Ht).
  { subst m. destruct (handle (tick w1)) as [p|]; [|by eexists]. destruct (Nat.eqb p c); [by eexists|].
    destruct (closeGorm_frame E (Some p) wv) as (w2 & ? & ? & ? & ? & ?). eauto 6. }
  unfold retM. intros [= <- <- <-]. split_and!; [done|done|]. exists c, pw.
  rewrite Hh, Hc, Ht. split_and!; [done|done|]. cbn. apply elem_of_app. right. by apply list_elem_of_singleton.
Qed.

(** What the loop knows of the installed connection: it was opened for the
    target whose signature the loop keeps. *)
Definition serves (sig : string) w : Prop :=
  forall c, handle w = Some c ->
  exists c0 ns nm pw, sig = signature c0 ns nm /\ Forall clean (coordinates c0 ns nm) /\
    conns w !! c = Some (appDSN c0 pw).

Definition target_config (t : Target) : dbConfig := with_target cfg t.

Definition clean_target (t : Target) : Prop :=
  Forall clean (coordinates (target_config t) (t_adminNS t) (t_adminName t)).

(** The target a pass resolves. *)
Definition pass_target w : option Target :=
  let '(kr, w1) := ask (K := K) (in_cluster E) w in
  match (resolveTarget E (is_ok kr) w1).1 with Ok t => Some t | Err _ => None end.

Lemma same_signature c0 ns nm c1 ns' nm' :
  Forall clean (coordinates c0 ns nm) -> Forall clean (coordinates c1 ns' nm') ->
  signature c0 ns nm = signature c1 ns' nm' -> forall pw, appDSN c0 pw = appDSN c1 pw.
Proof.
  intros Hc Hc' Hs pw. unfold signature in Hs. fold (coordinates c0 ns nm) (coordinates c1 ns' nm') in Hs.
  apply (f_equal (Split (ascii_of_nat 31))) in Hs. unfold unit_sep, byte in Hs.
  rewrite !Split_Join in Hs by done. injection Hs as Hh Hp _ _ Hn Hu.
  unfold appDSN. congruence.
Qed.

Lemma serves_grows sig w w' :
  serves sig w -> conns w `prefix_of` conns w' -> handle w' = handle w -> serves sig w'.
Proof.
  intros Hs Hc Hh c Hw'. rewrite Hh in Hw'. destruct (Hs c Hw') as (c0 & ns & nm & pw & ? & ? & Hl).
  exists c0, ns, nm, pw. split_and!; [done|done|]. by eapply prefix_lookup_Some.
Qed.

Lemma reconnect_err cfg' sig w e w' :
  reconnect E cfg' sig w = (Err e, w') -> conns w `prefix_of` conns w' /\ handle w' = handle w.
Proof.
  unfold reconnect, bindM at 1. pose proof (grows_connect cfg' w) as Hg.
  destruct (connect E cfg' w) as [[c|] w1]; [|by intros [= _ <-]].
  unfold bindM at 1, tryM at 1, ask_err, ask. cbn [fst snd].
  destruct (migrate E (calls w1) c); cbn [fst snd].
  - unfold bindM. pose proof (grows_closeGorm (Some c) (tick w1)) as Hc.
    destruct (closeGorm E (Some c) (tick w1)) as [[] w2]; intros [= _ <-]; cbn in *;
      destruct Hg as [? <-], Hc as [? ->]; (split; [by etrans|done]).
  - unfold bindM, note, setHandle. cbn [fst snd handle].
    destruct (handle (tick w1)) as [p|]; [|done]. destruct (Nat.eqb p c); [done|].
    match goal with |- context [closeGorm E ?g ?v] => destruct (closeGorm_frame E g v) as (w2 & -> & _) end. done.
Qed.

(** A pass that succeeds leaves an installed connection to the target the
    pass has just resolved, whatever was installed before, and asks to be
    repeated after the healthy interval; one that fails leaves the installed
    connection in place, also when the target has moved on. *)
Theorem pass_serves_target sig w t :
  serves sig w -> pass_target w = Some t -> clean_target t ->
  match reconcileOnce E cfg sig w with
  | (Ok (wait, sig'), w') =>
      wait = healthyInterval /\ serves sig' w' /\
      exists c pw, handle w' = Some c /\ conns w' !! c = Some (appDSN (target_config t) pw)
  | (Err _, w') => handle w' = handle w /\ serves sig w'
  end.
Proof.
  intros Hs Ht Hclean. unfold pass_target in Ht. unfold reconcileOnce, bindM at 1, tryM at 1.
  destruct (ask (in_cluster E) w) as [kr w1] eqn:Ek. cbn beta iota zeta in Ht |- *.
  assert (same_conns w w1) as (Hc1 & Hh1 & _) by (unfold ask in Ek; by injection Ek as _ <-).
  unfold bindM at 1. pose proof (resolveTarget_conns (is_ok kr) w1) as (Hc2 & Hh2 & _).
  destruct (resolveTarget E (is_ok kr) w1) as [[t'|e] w2]; [|done]. injection Ht as ->. cbn in Hc2, Hh2.
  assert (handle w2 = handle w /\ serves sig w2) as Hw2.
  { split; [congruence|]. apply (serves_grows sig w); [done| |congruence]. by rewrite Hc2, Hc1. }
  destruct (negb _); [exact Hw2|]. destruct (negb _); [exact Hw2|]. fold (target_config t).
  set (tsig := signature (target_config t) (t_adminNS t) (t_adminName t)). unfold bindM.
  destruct (healthy_conns tsig sig w2) as [(Hc3 & Hh3 & _) Heq].
  assert (handle (healthy E tsig sig w2).2 = handle w /\ serves sig (healthy E tsig sig w2).2) as Hw3.
  { split; [rewrite Hh3; apply Hw2|]. apply (serves_grows sig w2); [apply Hw2|by rewrite Hc3|done]. }
  destruct (healthy E tsig sig w2) as [[[]|e] w3] eqn:Eh; cbn in Hc3, Hh3, Hw3.
  - specialize (Heq w3 eq_refl). destruct (healthy_handle E _ _ _ _ Eh) as [c Hc]. unfold retM.
    split; [done|]. split; [apply Hw3|]. exists c. rewrite <-Hh3 in Hc.
    destruct Hw3 as [_ Hw3]. destruct (Hw3 c Hc) as (c0 & ns & nm & pw & Hsig & Hcl & Hl).
    exists pw. split; [done|]. rewrite Hl. f_equal. subst tsig. rewrite Hsig in Heq.
    symmetry. by apply (same_signature _ _ _ _ _ _ Hclean Hcl).
  - destruct (negb _); [exact Hw3|]. destruct (reconnect E (target_config t) tsig w3) as [[[wait sig']|e] w4] eqn:Er.
    + apply reconnect_dsn in Er as (-> & -> & c & pw & Hh & Hl & _). split; [done|]. split; [|eauto].
      intros d Hd. assert (d = c) as -> by congruence. by exists (target_config t), (t_adminNS t), (t_adminName t), pw.
    + apply reconnect_err in Er as [Hp Hh]. split; [rewrite Hh; apply Hw3|].
      apply (serves_grows sig w3); [apply Hw3|done|done].
  - exact Hw3.
Qed.

End passes.

(** ** The delays of the loop *)

(** The documented schedule: the healthy interval after a pass that succeeds,
    and after the (k+1)-th failure in a row two seconds doubled k times, at most
    thirty seconds. *)
Fixpoint schedule (k : nat) (oks : list bool) : list Z :=
  match oks with
  | [] => []
  | true :: oks => healthyInterval :: schedule 0 oks
  | false :: oks => Z.min backoffMax (backoffMin * 2 ^ Z.of_nat k) :: schedule (S k) oks
  end.

Section delays.
Context {K : Type} `{Cluster K} (E : DbEnv) (cfg : dbConfig).
Implicit Types (w : World K).

Lemma pass_wait sig w wait sig' w' :
  reconcileOnce E cfg sig w = (Ok (wait, sig'), w') -> wait = healthyInterval.
Proof.
  unfold reconcileOnce, bindM at 1. destruct (tryM _ w) as [[kr|] w1]; [|done]. unfold bindM at 1.
  destruct (resolveTarget E (is_ok kr) w1) as [[t|] w2]; [|done].
  destruct (negb _); [done|]. destruct (negb _); [done|]. unfold bindM.
  destruct (healthy E _ sig w2) as [[[]|] w3]; [by intros [= <- _ _]| |done].
  destruct (negb _); [done|]. by intros (-> & _)%reconnect_dsn.
Qed.

Lemma round_schedule k s w :
  backoff s = Z.min backoffMax (backoffMin * 2 ^ Z.of_nat k) ->
  let '(d, s', _) := reconcile_round E cfg s w in
  0 < d /\ exists ok : bool, d = (if ok then healthyInterval else backoff s) /\
    backoff s' = Z.min backoffMax (backoffMin * 2 ^ Z.of_nat (if ok then 0 else S k)).
Proof.
  intros Hb. unfold reconcile_round. destruct (reconcileOnce E cfg (currentSig s) w) as [[[wait sig]|e] w'] eqn:Er.
  - apply pass_wait in Er as ->. split; [done|]. by exists true.
  - assert (0 < 2 ^ Z.of_nat k) by lia.
    split; [rewrite Hb; unfold backoffMax, backoffMin, Second; lia|]. exists false. split; [done|].
    cbn [backoff]. rewrite Nat2Z.inj_succ, Z.pow_succ_r by lia. rewrite Hb.
    unfold backoffMax, backoffMin, Second in *. destruct (Z.ltb_spec (30 * 1000000000)
      (Z.min (30 * 1000000000) (2 * 1000000000 * 2 ^ Z.of_nat k) * 2)); lia.
Qed.

Lemma reconcileLoop_from fuel i ends k s w :
  backoff s = Z.min backoffMax (backoffMin * 2 ^ Z.of_nat k) ->
  let '(ds, r) := reconcileLoop E fuel i ends cfg s w in
  (exists oks, ds = schedule k oks) /\
  (is_Some r -> exists n, length ds = S n /\ is_Some (ends (i + n)%nat).1) /\
  (forall n t, (n < fuel)%nat -> (ends (i + n)%nat).1 = Some t -> t <= 0 ->
     is_Some r /\ (length ds <= S n)%nat).
Proof.
  revert i k s w. induction fuel as [|fuel IH]; intros i k s w Hb.
  { cbn. split_and!; [by exists []|by intros []|lia]. }
  cbn [reconcileLoop]. pose proof (round_schedule k s w Hb) as Hr.
  destruct (reconcile_round E cfg s w) as [[d s'] w']. destruct Hr as (Hd & ok & Hdk & Hs').
  destruct (sleepCtx (ends i).1 (ends i).2 d) eqn:Hsl.
  - specialize (IH (S i) _ s' w' Hs'). destruct (reconcileLoop E fuel (S i) ends cfg s' w') as [ds r].
    destruct IH as ((oks & ->) & Hend & Hcan). split_and!.
    + exists (ok :: oks). cbn. subst d. destruct ok; [done|]. by rewrite Hb.
    + intros Hr. destruct (Hend Hr) as (n & Hl & He). exists (S n). cbn. rewrite Hl.
      split; [done|]. by rewrite Nat.add_succ_r.
    + intros [|n] t Hn Ht Hle.
      * rewrite Nat.add_0_r in Ht. rewrite Ht in Hsl. cbn in Hsl.
        destruct (Z.eqb_spec t d); [lia|]. apply Z.ltb_lt in Hsl. lia.
      * rewrite Nat.add_succ_r in Ht. destruct (Hcan n t ltac:(lia) Ht Hle). cbn. split; [done|lia].
  - split_and!.
    + exists [ok]. subst d. destruct ok; cbn; [done|]. by rewrite Hb.
    + intros _. exists 0%nat. rewrite Nat.add_0_r. split; [done|]. by destruct (ends i) as [[t|] tie].
    + intros n t _ _ _. cbn. split; [done|lia].
Qed.

(** The loop sleeps exactly by the documented schedule, whatever the passes
    meet; it returns only when its context has ended, and at the latest in the
    first sleep it begins with its context cancelled. *)
Theorem reconcileLoop_schedule fuel ends w :
  let '(ds, r) := reconcileLoop E fuel 0 ends cfg loop_init w in
  (exists oks, ds = schedule 0 oks) /\
  (is_Some r -> exists n, length ds = S n /\ is_Some (ends n).1) /\
  (forall n t, (n < fuel)%nat -> (ends n).1 = Some t -> t <= 0 -> is_Some r /\ (length ds <= S n)%nat).
Proof. apply (reconcileLoop_from fuel 0 ends 0 loop_init w). reflexivity. Qed.

End delays.

(** ** An executable cluster, and the loop at work on it *)

Record MemCluster := mkCluster {
  mem_secrets : gmap (string * string) Data;
  mem_configmaps : gmap (string * string) Data;
  mem_faults : list (option string)        (* the failure of each coming call *)
}.

Definition mem_lookup (m : gmap (string * string) Data) (o : string * string) : result KErr Data :=
  match m !! o with Some d => Ok d | None => Err NotFound end.

(** A faulty call answers an error and has no effect. *)
Definition mem_call {A} (k : MemCluster) (f : result KErr A * MemCluster) : result KErr A * MemCluster :=
  let rest k' := mkCluster (mem_secrets k') (mem_configmaps k') (tail (mem_faults k)) in
  match head (mem_faults k) with
  | Some (Some e) => (Err (KOther e), rest k)
  | _ => (f.1, rest f.2)
  end.

#[export] Instance MemCluster_cluster : Cluster MemCluster := {
  secrets := mem_secrets;
  configmaps := mem_configmaps;
  get_configmap o k := mem_call k (mem_lookup (mem_configmaps k) o, k);
  get_secret o k := mem_call k (mem_lookup (mem_secrets k) o, k);
  create_secret o d k := mem_call k
    (match mem_secrets k !! o with
     | Some _ => (Err AlreadyExists, k)
     | None => (Ok tt, mkCluster (<[o := d]> (mem_secrets k)) (mem_configmaps k) (mem_faults k))
     end);
  update_secret o d old k := mem_call k
    (Ok tt, mkCluster (<[o := d ∪ old]> (mem_secrets k)) (mem_configmaps k) (mem_faults k))
}.

#[export] Instance MemCluster_laws : ClusterLaws MemCluster.
Proof.
  split.
  - intros o k. cbn. unfold mem_call, mem_lookup. destruct (head (mem_faults k)) as [[e|]|]; cbn; [done|..];
      by destruct (mem_configmaps k !! o).
  - intros o k. cbn. unfold mem_call, mem_lookup. destruct (head (mem_faults k)) as [[e|]|]; cbn; [done|..];
      by destruct (mem_secrets k !! o).
  - intros o d k. cbn. unfold mem_call. destruct (head (mem_faults k)) as [[e|]|]; cbn; [by auto|..];
      destruct (mem_secrets k !! o); cbn; eauto.
  - intros o d old k. cbn. unfold mem_call. destruct (head (mem_faults k)) as [[e|]|]; cbn; by auto.
Qed.

(** A cluster whose pointer names the host [h], and a server that takes
    everything but stale passwords; it knows neither database nor role. *)
Definition demo_cluster (h : string) (creds : option Data) : MemCluster :=
  mkCluster
    (match creds with Some d => {[ ("runos", "cluster-agent-db") := d ]} | None => ∅ end ∪
     {[ ("runos", "pg-admin") := {[ "password" := "adm1n" ]} ]})
    {[ ("runos", "runos-system-db") := {[ "host" := h; "adminSecretName" := "pg-admin" ]} ]} [].

Definition demo_bytes : string := "0123456789abcdef0123456789abcdef".
Definition demo_env : DbEnv :=
  mkDbEnv (fun _ => "") (fun _ => Ok tt)
    (fun _ dsn => if Contains dsn "password='stale'" then Err "password authentication failed" else Ok tt)
    (fun _ _ => None) (fun _ _ => None) (fun _ _ => None) (fun _ _ => Ok false) (fun _ _ => Ok false)
    (fun _ _ _ => None) (fun _ => Ok demo_bytes).

Definition demo_world (k : MemCluster) : World MemCluster := mkWorld _ 0 [] ∅ None k [].
Definition demo_cfg : dbConfig :=
  mkDbConfig "db.new" "5432" "runos" "runos" "postgres" "adm1n" "cluster-agent-db" "runos".
Definition stale_creds : Data := {[ "password" := "stale"; "host" := "db.new" ]}.

Definition demo_start : Proc MemCluster := Initialize (proc_init (demo_cluster "db.new" None)).

Lemma connections_exactly_handle_witness :
  exists p, loop_pass demo_env 0 demo_start = Some p /\ opened (world p) = {[2%nat]} /\
    opened (world p) = handle_set (world p).
Proof.
  eexists. split; [vm_compute; reflexivity|]. split; [vm_compute; reflexivity|].
  apply (connections_exactly_handle demo_env (fun _ _ => eq_refl) (demo_cluster "db.new" None)).
  eapply rtc_l; [apply step_Initialize|]. eapply rtc_once, (step_pass _ 0). vm_compute. reflexivity.
Defined.

Definition stale_world : World MemCluster := demo_world (demo_cluster "db.new" (Some stale_creds)).

Lemma connect_credentials_witness :
  match connect demo_env demo_cfg stale_world with
  | (Ok c, w') =>
      credentials_agree demo_env demo_cfg false false stale_world w' c
        (fun old => is_ok (openGORM demo_env demo_cfg old (readCredentialSecret demo_cfg stale_world).2).1 = false)
  | (Err _, _) => False
  end.
Proof.
  assert (is_ok (connect demo_env demo_cfg stale_world).1 = true) as Hok by (vm_compute; reflexivity).
  pose proof (connect_credentials (K := MemCluster) demo_env demo_cfg false false) as Hc.
  specialize (Hc ltac:(intros i b [= <-]; reflexivity) ltac:(intros i b [= <-]; reflexivity)
    ltac:(intros i b [= <-]; reflexivity) stale_world ltac:(vm_compute; reflexivity)).
  set (x := connect demo_env demo_cfg stale_world) in *. clearbody x.
  destruct x as [[c|e] w']; [exact Hc|discriminate Hok].
Defined.

Definition fresh_pass : result string (Z * string) * World MemCluster :=
  reconcileOnce demo_env (appEnvConfig demo_env) "" (demo_world (demo_cluster "db.new" None)).

Lemma pass_serves_target_witness :
  exists c pw, handle fresh_pass.2 = Some c /\
    conns fresh_pass.2 !! c = Some (dsnFor "db.new" "5432" "runos" pw "runos").
Proof.
  assert (is_ok fresh_pass.1 = true) as Hok by (vm_compute; reflexivity).
  pose proof (pass_serves_target demo_env (appEnvConfig demo_env) "" (demo_world (demo_cluster "db.new" None))
    (mkTarget "db.new" "5432" "runos" "pg-admin" "postgres" "adm1n")) as Hp.
  fold fresh_pass in Hp. set (x := fresh_pass) in *. clearbody x.
  destruct x as [[[wait sig]|e] w']; [|discriminate Hok]. cbn [snd].
  destruct Hp as (_ & _ & Hp); [intros ? [=]|vm_compute; reflexivity|vm_compute; repeat constructor|exact Hp].
Defined.

Lemma signature_identifies_target_witness :
  signature demo_cfg "runos" "pg-admin" <> signature demo_cfg "other" "pg-admin".
Proof.
  intros Hs. apply signature_identifies_target in Hs; [discriminate Hs|repeat constructor|repeat constructor].
Defined.

(** A failed pass does not clear the handle: with the server gone, the queries
    keep getting the dead connection, not [ErrNotReady]. *)
Definition dead_env : DbEnv :=
  mkDbEnv (fun _ => "") (fun _ => Ok tt) (fun _ _ => Err "connection refused") (fun _ _ => None)
    (fun _ _ => Some "connection refused") (fun _ _ => None) (fun _ _ => Ok false) (fun _ _ => Ok false)
    (fun _ _ _ => None) (fun _ => Ok demo_bytes).

Lemma failed_pass_keeps_dead_handle :
  let '(r, w) := reconcileOnce demo_env (appEnvConfig demo_env) "" (demo_world (demo_cluster "db.new" None)) in
  let '(r', w') := reconcileOnce dead_env (appEnvConfig demo_env)
                     (match r with Ok (_, sig) => sig | Err _ => "" end) w in
  is_ok r' = false /\ handle w' = Some 2%nat.
Proof. vm_compute. split; reflexivity. Qed.
