(* ===== verification/Sql.v ===== *)
(** * SQL instructions: connection pools and guarded queries

    The [sqlwrapper] package (pool.go, query.go, types.go) and its
    instruction handler (sql_query.go). [database/sql], the drivers and
    SHA-256 are the environment: a pool is a map from connection hashes to
    handles of open databases, and each call into a driver is answered by an
    argument of the operation that makes the call. *)
From stdpp Require Import pretty gmap.
From S2P Require Import Prelude GoStrings Conninfo.
Local Open Scope string_scope.
Local Open Scope Z_scope.

(** ** Data (types.go) *)

Record ConnectionParams := mkParams {
  Username : string;
  Password : string;
  Host : string;
  Port : Z;
  DatabaseType : string;
  DatabaseName : string
}.

#[export] Instance ConnectionParams_eq_dec : EqDecision ConnectionParams.
Proof. solve_decision. Defined.

(** A value a driver scans into an [any]. *)
Inductive value :=
| VNil
| VInt (z : Z)
| VFloat (bits : Z)
| VBool (b : bool)
| VBytes (s : string)
| VString (s : string)
| VTime (ns : Z).

Record QueryRequest := mkQueryRequest {
  Connection : ConnectionParams;
  Query : string;
  ReadWrite : bool
}.

Record QueryResponse := mkQueryResponse {
  Columns : list string;
  ColumnTypes : list string;
  Rows : list (list value);
  RowCount : Z;
  RowsAffected : Z;
  DurationMs : Z;
  Truncated : bool
}.

Definition connection_raw (p : ConnectionParams) : string :=
  DatabaseType p ++ ":" ++ Username p ++ ":" ++ Password p ++ "@" ++ Host p ++ ":" ++
  pretty (Port p) ++ "/" ++ DatabaseName p.

Definition ConnectionHash (sha256_hex : string -> string) (p : ConnectionParams) : string :=
  sha256_hex (connection_raw p).

(** ** Connection strings (pool.go) *)

Definition pqEscape (v : string) : string :=
  let escaped := ReplaceAll v backslash "\\" in
  let escaped := ReplaceAll escaped quote "\'" in
  "'" ++ escaped ++ "'".

(** [FormatDSN : User -> Passwd -> Net -> Addr -> DBName -> dsn] is the MySQL
    driver's. The result is the DSN and the driver's name. *)
Definition buildDSN (FormatDSN : string -> string -> string -> string -> string -> string)
    (p : ConnectionParams) : result string (string * string) :=
  if String.eqb (DatabaseType p) "postgres" then
    let dbName := if String.eqb (DatabaseName p) "" then "postgres" else DatabaseName p in
    Ok ("host=" ++ pqEscape (Host p) ++ " port=" ++ pretty (Port p) ++
        " user=" ++ pqEscape (Username p) ++ " password=" ++ pqEscape (Password p) ++
        " dbname=" ++ pqEscape dbName ++ " sslmode=disable", "postgres")
  else if String.eqb (DatabaseType p) "mysql" then
    Ok (FormatDSN (Username p) (Password p) "tcp" (Host p ++ ":" ++ pretty (Port p)) (DatabaseName p),
        "mysql")
  else Err ("unsupported database type: " ++ DatabaseType p).

(** ** The pool map (pool.go) *)

Definition poolEvictInterval : Z := 2 * Minute.
Definition poolIdleTimeout : Z := 10 * Minute.

(** A handle of a [*sql.DB] is the number of [sql.Open] calls before it. *)
Record poolEntry := mkEntry { db : nat; lastUsed : Z }.

Record PoolState := mkPools {
  pools : gmap string poolEntry;
  opened : nat;
  closed : gset nat
}.

Definition pools_init : PoolState := mkPools ∅ 0 ∅.

Definition db_open (d : nat) (σ : PoolState) : Prop := (d < opened σ)%nat /\ d ∉ closed σ.
#[export] Instance db_open_dec d σ : Decision (db_open d σ).
Proof. unfold db_open. apply _. Defined.

Definition close_db (d : nat) (σ : PoolState) : PoolState :=
  mkPools (pools σ) (opened σ) ({[d]} ∪ closed σ).
Definition pools_delete (h : string) (σ : PoolState) : PoolState :=
  mkPools (delete h (pools σ)) (opened σ) (closed σ).

(** [pools.Load] and the update of [lastUsed]. *)
Definition load_touch (h : string) (now : Z) (σ : PoolState) : option nat * PoolState :=
  match pools σ !! h with
  | Some e => (Some (db e), mkPools (<[h := mkEntry (db e) now]> (pools σ)) (opened σ) (closed σ))
  | None => (None, σ)
  end.

(** What the environment answers a call of [GetConnection]. *)
Record ConnEnv := mkConnEnv {
  sha256_hex : string -> string;
  FormatDSN : string -> string -> string -> string -> string -> string;
  sql_Open : string -> string -> option string;
  ping : nat -> option string
}.

(** The section under [poolMu]: the second look-up, then a new pool. *)
Definition create_locked (env : ConnEnv) (p : ConnectionParams) (now : Z) (σ : PoolState) :
    result string nat * PoolState :=
  let h := ConnectionHash (sha256_hex env) p in
  match load_touch h now σ with
  | (Some d, σ) => (Ok d, σ)
  | (None, σ) =>
      match buildDSN (FormatDSN env) p with
      | Err e => (Err ("failed to build DSN: " ++ e), σ)
      | Ok (dsn, driver) =>
          match sql_Open env driver dsn with
          | Some e => (Err ("failed to open connection: " ++ e), σ)
          | None =>
              let d := opened σ in
              let σ := mkPools (pools σ) (S d) (closed σ) in
              match ping env d with
              | Some e => (Err ("failed to ping database: " ++ e), close_db d σ)
              | None => (Ok d, mkPools (<[h := mkEntry d now]> (pools σ)) (opened σ) (closed σ))
              end
          end
      end
  end.

Definition GetConnection (env : ConnEnv) (p : ConnectionParams) (now : Z) (σ : PoolState) :
    result string nat * PoolState :=
  let h := ConnectionHash (sha256_hex env) p in
  match load_touch h now σ with
  | (Some d, σ) =>
      match ping env d with
      | None => (Ok d, σ)
      | Some _ => create_locked env p now (pools_delete h (close_db d σ))
      end
  | (None, σ) => create_locked env p now σ
  end.

(** One [pools.Range] of the cleanup: an entry idle for more than ten minutes
    is closed and removed. *)
Definition evict_one (now : Z) (h : string) (e : poolEntry) (σ : PoolState) : PoolState :=
  if (poolIdleTimeout <? now - lastUsed e)%Z then pools_delete h (close_db (db e) σ) else σ.

Definition range (f : string -> poolEntry -> PoolState -> PoolState) (σ : PoolState) : PoolState :=
  foldr (fun '(h, e) σ => f h e σ) σ (map_to_list (pools σ)).

Definition pool_cleanup_tick (now : Z) : PoolState -> PoolState := range (evict_one now).

Definition CloseAllPools : PoolState -> PoolState :=
  range (fun h e σ => pools_delete h (close_db (db e) σ)).

(** ** Queries (query.go) *)

Definition maxRows : Z := 100.

(** [strings.Fields(s)[0]] of a string that starts with a non-space byte. *)
Fixpoint first_field (s : string) : string :=
  match strip_one white_space s with
  | Some _ => ""
  | None => match s with EmptyString => "" | String c s => String c (first_field s) end
  end.

(** [strings.ToUpper] as far as it can produce ASCII letters: the ASCII ones,
    the dotless i (U+0131) and the long s (U+017F). Every other byte belongs
    to a rune whose upper case is not ASCII and is kept, which no comparison
    with an ASCII word can see. *)
Definition upper_ascii (c : ascii) : ascii :=
  if in_range 97 122 c then ascii_of_nat (nat_of_ascii c - 32) else c.
Fixpoint ToUpper (s : string) : string :=
  match s with
  | String c ((String d r) as t) =>
      if String.eqb (String c (String d "")) (byte 196 ++ byte 177) then String "I" (ToUpper r)
      else if String.eqb (String c (String d "")) (byte 197 ++ byte 191) then String "S" (ToUpper r)
      else String (upper_ascii c) (ToUpper t)
  | String c r => String (upper_ascii c) (ToUpper r)
  | EmptyString => ""
  end.

Definition readKeywords : list string :=
  ["SELECT"; "SHOW"; "DESCRIBE"; "DESC"; "EXPLAIN"; "WITH"].

Definition isReadStatement (query : string) : bool :=
  let trimmed := TrimSpace query in
  if String.eqb trimmed "" then true
  else existsb (String.eqb (ToUpper (first_field trimmed))) readKeywords.

Definition rejectNonReadUnderReadOnly (readWrite : bool) (query : string) : bool :=
  negb readWrite && negb (isReadStatement query).

(** The rows a driver yields: [Next] answers true once per element, [Scan]
    fails on an [Err], and [rows_Err] is what [rows.Err()] says afterwards. *)
Record RowsAnswer := mkRowsAnswer {
  columns : result string (list string);
  columnTypes : result string (list string);
  items : list (result string (list value));
  rows_Err : option string
}.

(** How the pinned connection answers, and the clock's milliseconds. *)
Record SqlEnv := mkSqlEnv {
  acquire : option string;
  exec_mode : string -> option string;
  query_ctx : string -> result string RowsAnswer;
  exec_ctx : string -> result string (Z + string);
  elapsed_ms : Z
}.

Definition to_json_value (v : value) : value :=
  match v with VBytes s => VString s | _ => v end.

Fixpoint read_loop (items : list (result string (list value))) (count : Z) (acc : list (list value)) :
    result string (list (list value) * bool) :=
  match items with
  | [] => Ok (rev acc, false)
  | item :: items =>
      if maxRows <=? count then Ok (rev acc, true)
      else match item with
           | Err e => Err ("row scan failed: " ++ e)
           | Ok values => read_loop items (count + 1) (map to_json_value values :: acc)
           end
  end.

Definition executeReadQuery (env : SqlEnv) (query : string) : result string QueryResponse :=
  match query_ctx env query with
  | Err e => Err ("query execution failed: " ++ e)
  | Ok rows =>
      match columns rows with
      | Err e => Err ("failed to get columns: " ++ e)
      | Ok columnNames =>
          match columnTypes rows with
          | Err e => Err ("failed to get column types: " ++ e)
          | Ok typeNames =>
              match read_loop (items rows) 0 [] with
              | Err e => Err e
              | Ok (resultRows, truncated) =>
                  match rows_Err rows with
                  | Some e => Err ("row iteration error: " ++ e)
                  | None =>
                      Ok (mkQueryResponse columnNames typeNames resultRows
                            (Z.of_nat (length resultRows)) 0 (elapsed_ms env) truncated)
                  end
              end
          end
      end
  end.

(** [exec_ctx] answers [inl n] rows affected, or [inr] an error of
    [RowsAffected], which the code drops. *)
Definition executeWriteQuery (env : SqlEnv) (query : string) : result string QueryResponse :=
  match exec_ctx env query with
  | Err e => Err ("query execution failed: " ++ e)
  | Ok r =>
      let rowsAffected := match r with inl n => n | inr _ => 0 end in
      Ok (mkQueryResponse [] [] [] 0 rowsAffected (elapsed_ms env) false)
  end.

(** What is sent on the pinned connection, in order. *)
Inductive sent := SentMode (stmt : string) | SentQuery (q : string) | SentExec (q : string).

Definition modeStmt (databaseType : string) (readWrite : bool) : string :=
  if String.eqb databaseType "postgres" then
    if readWrite then "SET default_transaction_read_only = off"
    else "SET default_transaction_read_only = on"
  else if String.eqb databaseType "mysql" then
    if readWrite then "SET SESSION TRANSACTION READ WRITE" else "SET SESSION TRANSACTION READ ONLY"
  else "".

Definition ExecuteQuery (cenv : ConnEnv) (env : SqlEnv) (params : ConnectionParams) (query : string)
    (readWrite : bool) (now : Z) (σ : PoolState) :
    result string QueryResponse * list sent * PoolState :=
  match GetConnection cenv params now σ with
  | (Err e, σ) => (Err ("connection failed: " ++ e), [], σ)
  | (Ok _, σ) =>
      match acquire env with
      | Some e => (Err ("failed to acquire connection: " ++ e), [], σ)
      | None =>
          let mode := modeStmt (DatabaseType params) readWrite in
          match exec_mode env mode with
          | Some e => (Err ("failed to set transaction mode: " ++ e), [SentMode mode], σ)
          | None =>
              if rejectNonReadUnderReadOnly readWrite query then
                (Err "read-only connection: refusing to execute a non-read statement", [SentMode mode], σ)
              else if isReadStatement query then
                (executeReadQuery env query, [SentMode mode; SentQuery query], σ)
              else (executeWriteQuery env query, [SentMode mode; SentExec query], σ)
          end
      end
  end.

(** ** The instruction handler (sql_query.go) *)

Definition validateConnectionParams (c : ConnectionParams) : result string unit :=
  if String.eqb (Username c) "" then Err "username is required"
  else if String.eqb (Password c) "" then Err "password is required"
  else if String.eqb (Host c) "" then Err "host is required"
  else if Port c =? 0 then Err "port is required"
  else if negb (String.eqb (DatabaseType c) "postgres") && negb (String.eqb (DatabaseType c) "mysql")
  then Err "databaseType must be 'postgres' or 'mysql'"
  else Ok tt.

(** The reply is [(type, payload, error)]. *)
Definition SQLQuery (decode : string -> result string QueryRequest)
    (encode : QueryResponse -> result string string) (cenv : ConnEnv) (env : SqlEnv)
    (jsonB64 : string) (now : Z) (σ : PoolState) :
    (string * string * option string) * list sent * PoolState :=
  match decode jsonB64 with
  | Err e => (("ERROR", "", Some e), [], σ)
  | Ok req =>
      match validateConnectionParams (Connection req) with
      | Err e => (("ERROR", "", Some e), [], σ)
      | Ok _ =>
          if String.eqb (Query req) "" then (("ERROR", "", Some "query is required"), [], σ)
          else
            match ExecuteQuery cenv env (Connection req) (Query req) (ReadWrite req) now σ with
            | (Err e, tr, σ) => (("ERROR", "", Some e), tr, σ)
            | (Ok r, tr, σ) =>
                match encode r with
                | Err e => (("ERROR", "", Some e), tr, σ)
                | Ok respB64 => (("SQL_QUERY_RESPONSE", respB64, None), tr, σ)
                end
            end
      end
  end.

(** ** One caller at a time: the pool map is exactly the open databases *)

(** Every pooled handle is open, no two hashes share one, and every open
    database is pooled: nothing leaks. *)
Record pool_wf (σ : PoolState) : Prop := {
  wf_open : forall d, db_open d σ <-> exists h e, pools σ !! h = Some e /\ db e = d;
  wf_inj : forall h1 h2 e1 e2,
    pools σ !! h1 = Some e1 -> pools σ !! h2 = Some e2 -> db e1 = db e2 -> h1 = h2;
  wf_closed : forall d, d ∈ closed σ -> (d < opened σ)%nat
}.

Lemma pool_wf_init : pool_wf pools_init.
Proof.
  split; simpl.
  - intros d. unfold db_open; simpl. split; [lia|]. intros (h & e & H & _).
    by rewrite lookup_empty in H.
  - intros h1 h2 e1 e2 H. by rewrite lookup_empty in H.
  - set_solver.
Qed.

Lemma load_touch_some h now σ d σ' :
  load_touch h now σ = (Some d, σ') ->
  (exists t, pools σ !! h = Some (mkEntry d t)) /\
  pools σ' = <[h := mkEntry d now]> (pools σ) /\ opened σ' = opened σ /\ closed σ' = closed σ.
Proof.
  unfold load_touch. destruct (pools σ !! h) as [[d' t]|] eqn:H; intros [= <- <-]. simpl. eauto.
Qed.

Lemma load_touch_none h now σ σ' :
  load_touch h now σ = (None, σ') -> σ' = σ /\ pools σ !! h = None.
Proof. unfold load_touch. destruct (pools σ !! h) eqn:H; intros [=]; auto. Qed.

(** Touching an entry keeps the handles the map holds. *)
Lemma touch_wf h now d t σ σ' :
  pool_wf σ -> pools σ !! h = Some (mkEntry d t) ->
  pools σ' = <[h := mkEntry d now]> (pools σ) -> opened σ' = opened σ -> closed σ' = closed σ ->
  pool_wf σ'.
Proof.
  intros [Ho Hi Hc] Hh Hp Ho' Hc'.
  assert (forall k e, pools σ' !! k = Some e -> exists e0, pools σ !! k = Some e0 /\ db e0 = db e) as Hback.
  { intros k e. rewrite Hp, lookup_insert_Some. intros [[-> <-]|[_ ?]]; eauto. }
  split.
  - intros d'. unfold db_open. rewrite Ho', Hc'. fold (db_open d' σ). rewrite Ho. split.
    + intros (k & e & Hk & <-). destruct (decide (k = h)) as [->|].
      * exists h, (mkEntry d now). rewrite Hp, lookup_insert_eq. rewrite Hh in Hk. by simplify_eq/=.
      * exists k, e. by rewrite Hp, lookup_insert_ne.
    + intros (k & e & Hk & <-). apply Hback in Hk as (e0 & ? & ?). eauto.
  - intros h1 h2 e1 e2 H1 H2 Heq.
    apply Hback in H1 as (? & ? & ?), H2 as (? & ? & ?). eapply Hi; eauto. congruence.
  - intros d'. rewrite Ho', Hc'. apply Hc.
Qed.

(** Removing an entry together with closing its database. *)
Definition retire (h : string) (d : nat) (σ : PoolState) : PoolState := pools_delete h (close_db d σ).

Lemma retire_wf h e σ :
  pool_wf σ -> pools σ !! h = Some e -> pool_wf (retire h (db e) σ).
Proof.
  intros [Ho Hi Hc] Hh. unfold retire. split; simpl.
  - intros d. unfold db_open; simpl. rewrite not_elem_of_union, not_elem_of_singleton.
    split.
    + intros (Hlt & Hne & Hn). destruct (proj1 (Ho d)) as (k & e' & Hk & <-); [by split|].
      exists k, e'. rewrite lookup_delete_ne; [done|congruence].
    + intros (k & e' & Hk & <-). apply lookup_delete_Some in Hk as [Hne Hk].
      assert (db_open (db e') σ) as [? ?]; [apply Ho; eauto|].
      split; [done|]. split; [|done]. intros ?. apply Hne. eauto.
  - intros h1 h2 e1 e2 H1%lookup_delete_Some H2%lookup_delete_Some. destruct H1, H2; eauto.
  - intros d. rewrite elem_of_union, elem_of_singleton. intros [->|]; [|by apply Hc].
    assert (db_open (db e) σ) as []; [apply Ho; eauto|done].
Qed.

(** Opening a database: pooled under a fresh hash, or closed again. *)
Lemma open_wf h now σ :
  pool_wf σ -> pools σ !! h = None ->
  pool_wf (mkPools (<[h := mkEntry (opened σ) now]> (pools σ)) (S (opened σ)) (closed σ)).
Proof.
  intros [Ho Hi Hc] Hh.
  assert (forall k e, pools σ !! k = Some e -> (db e < opened σ)%nat) as Hlt.
  { intros k e Hk. assert (db_open (db e) σ) as []; [apply Ho; eauto|done]. }
  split; simpl.
  - intros d. unfold db_open; simpl. split.
    + intros [Hd Hn]. destruct (decide (d = opened σ)) as [->|Hne].
      * exists h, (mkEntry (opened σ) now). by rewrite lookup_insert_eq.
      * destruct (proj1 (Ho d)) as (k & e & Hk & <-); [split; [lia|done]|].
        exists k, e. rewrite lookup_insert_ne; [done|congruence].
    + intros (k & e & Hk & <-). apply lookup_insert_Some in Hk as [[-> <-]|[_ Hk]]; simpl.
      * split; [lia|]. intros Hin%Hc. lia.
      * assert (db_open (db e) σ) as []; [apply Ho; eauto|]. split; [lia|done].
  - intros h1 h2 e1 e2 H1%lookup_insert_Some H2%lookup_insert_Some Heq.
    destruct H1 as [[-> <-]|[? H1]], H2 as [[-> <-]|[? H2]]; simpl in *; try done; eauto;
      [apply Hlt in H2|apply Hlt in H1]; lia.
  - intros d Hd%Hc. lia.
Qed.

Lemma open_close_wf σ :
  pool_wf σ -> pool_wf (close_db (opened σ) (mkPools (pools σ) (S (opened σ)) (closed σ))).
Proof.
  intros [Ho Hi Hc]. split; simpl; [|done|].
  - intros d. rewrite <- Ho. unfold db_open; simpl.
    rewrite not_elem_of_union, not_elem_of_singleton. split.
    + intros (? & ? & ?). split; [lia|done].
    + intros [? ?]. repeat split; [lia|lia|done].
  - intros d. rewrite elem_of_union, elem_of_singleton. intros [->|Hd%Hc]; lia.
Qed.

(** *** GetConnection *)

(** What a [GetConnection] leaves: [Ok] hands out an open database pooled
    under the caller's hash and just used, an error leaves no entry for it, and
    no other hash is touched. *)
Definition get_result (h : string) (now : Z) (σ : PoolState) (rσ : result string nat * PoolState) : Prop :=
  let '(r, σ') := rσ in
  pool_wf σ' /\ (forall k, k <> h -> pools σ' !! k = pools σ !! k) /\
  match r with
  | Ok d => db_open d σ' /\ pools σ' !! h = Some (mkEntry d now)
  | Err _ => pools σ' !! h = None
  end.

Lemma load_touch_result h now σ d σ' :
  pool_wf σ -> load_touch h now σ = (Some d, σ') -> get_result h now σ (Ok d, σ').
Proof.
  intros Hwf ((t & Hh) & Hp & Ho & Hc)%load_touch_some.
  pose proof (touch_wf _ now _ _ _ _ Hwf Hh Hp Ho Hc) as Hwf'.
  assert (pools σ' !! h = Some (mkEntry d now)) as Hd by (by rewrite Hp, lookup_insert_eq).
  split; [done|]. split.
  - intros k Hk. by rewrite Hp, lookup_insert_ne.
  - split; [|done]. apply (wf_open _ Hwf'). eauto.
Qed.

Lemma create_locked_result env p now σ :
  pool_wf σ ->
  get_result (ConnectionHash (sha256_hex env) p) now σ (create_locked env p now σ).
Proof.
  intros Hwf. unfold create_locked. set (h := ConnectionHash _ _).
  destruct (load_touch h now σ) as [[d|] σ1] eqn:Hl; [by apply load_touch_result|].
  apply load_touch_none in Hl as [-> Hn].
  destruct (buildDSN _ _) as [[dsn driver]|e]; [|done].
  destruct (sql_Open _ _ _); [done|]. simpl. destruct (ping _ _).
  - split; [by apply open_close_wf|done].
  - pose proof (open_wf h now σ Hwf Hn) as Hwf'. split; [done|]. simpl. split.
    + intros k Hk. by rewrite lookup_insert_ne.
    + split; [|by rewrite lookup_insert_eq].
      apply (wf_open _ Hwf'). exists h, (mkEntry (opened σ) now). simpl. by rewrite lookup_insert_eq.
Qed.

Lemma GetConnection_result env p now σ :
  pool_wf σ ->
  get_result (ConnectionHash (sha256_hex env) p) now σ (GetConnection env p now σ).
Proof.
  intros Hwf. unfold GetConnection. set (h := ConnectionHash _ _).
  destruct (load_touch h now σ) as [[d|] σ1] eqn:Hl.
  - pose proof (load_touch_result _ _ _ _ _ Hwf Hl) as (Hwf1 & Hk1 & _ & Hh1).
    destruct (ping env d) as [e|]; [|by apply load_touch_result].
    pose proof (retire_wf h (mkEntry d now) σ1 Hwf1 Hh1) as Hwf2. simpl in Hwf2.
    pose proof (create_locked_result env p now _ Hwf2) as Hr. unfold retire in Hr.
    destruct (create_locked env p now _) as [r σ3]. destruct Hr as (Hwf3 & Hk3 & Hr).
    split; [done|]. split; [|done]. intros k Hk. rewrite Hk3 by done. simpl.
    rewrite lookup_delete_ne by done. by apply Hk1.
  - apply load_touch_none in Hl as [-> _]. by apply create_locked_result.
Qed.

(** *** Range-and-retire *)

Definition retire_if (P : string -> poolEntry -> bool) (h : string) (e : poolEntry) (σ : PoolState) : PoolState :=
  if P h e then retire h (db e) σ else σ.

(** A [Range] that retires the entries satisfying [P] keeps exactly the
    others, and the invariant. *)
Lemma range_retire_list P l σ :
  NoDup l.*1 -> (forall h e, (h, e) ∈ l -> pools σ !! h = Some e) -> pool_wf σ ->
  let σ' := foldr (fun '(h, e) σ => retire_if P h e σ) σ l in
  pool_wf σ' /\ opened σ' = opened σ /\
  (forall h e, pools σ' !! h = Some e <->
     pools σ !! h = Some e /\ ~ ((h, e) ∈ l /\ P h e = true)).
Proof.
  intros Hnd Hin Hwf. induction l as [|[h e] l IH]; simpl.
  - split; [done|]. split; [done|]. set_solver.
  - apply NoDup_cons in Hnd as [Hnotin Hnd].
    destruct IH as (Hwf' & Ho & Hl); [done|set_solver|].
    set (σ' := foldr _ σ l) in *. unfold retire_if.
    assert (pools σ !! h = Some e) as Hh by (apply Hin; set_solver).
    assert (pools σ' !! h = Some e) as Hh'.
    { apply Hl. split; [done|]. intros [Hl' _]. apply Hnotin.
      apply list_elem_of_fmap. by exists (h, e). }
    destruct (P h e) eqn:HP.
    + split; [by apply retire_wf|]. split; [done|]. intros k e'. simpl.
      rewrite lookup_delete_Some, Hl, elem_of_cons. split.
      * intros (Hne & Hk & Hn). split; [done|]. intros [[[= -> ->]|]]; [done|]. auto.
      * intros (Hk & Hn). split; [|split; [done|tauto]]. intros ->. apply Hn.
        rewrite Hh in Hk. simplify_eq. tauto.
    + split; [done|]. split; [done|]. intros k e'. rewrite Hl, elem_of_cons. split.
      * intros (Hk & Hn). split; [done|]. intros [[[= -> ->]|] ?]; [congruence|]. auto.
      * intros (Hk & Hn). split; [done|tauto].
Qed.

Lemma range_retire P σ :
  pool_wf σ ->
  let σ' := range (retire_if P) σ in
  pool_wf σ' /\ opened σ' = opened σ /\
  (forall h e, pools σ' !! h = Some e <-> pools σ !! h = Some e /\ P h e = false).
Proof.
  intros Hwf. destruct (range_retire_list P (map_to_list (pools σ)) σ) as (? & ? & Hl);
    [apply NoDup_fst_map_to_list|intros h e; apply elem_of_map_to_list|done|].
  split; [done|]. split; [done|]. intros h e. rewrite Hl, elem_of_map_to_list.
  destruct (P h e); naive_solver.
Qed.

Lemma range_ext f g σ : (forall h e τ, f h e τ = g h e τ) -> range f σ = range g σ.
Proof.
  intros Heq. unfold range. induction (map_to_list _) as [|[h e] l IH]; [done|].
  simpl. by rewrite Heq, IH.
Qed.

Lemma pool_cleanup_tick_retire now σ :
  pool_cleanup_tick now σ = range (retire_if (fun _ e => poolIdleTimeout <? now - lastUsed e)) σ.
Proof. by apply range_ext. Qed.

Lemma CloseAllPools_retire σ : CloseAllPools σ = range (retire_if (fun _ _ => true)) σ.
Proof. by apply range_ext. Qed.

(** *** Sequences of operations *)

Inductive pool_op :=
| OpGet (env : ConnEnv) (p : ConnectionParams) (now : Z)
| OpTick (now : Z)
| OpCloseAll.

Definition pool_do (σ : PoolState) (op : pool_op) : PoolState :=
  match op with
  | OpGet env p now => (GetConnection env p now σ).2
  | OpTick now => pool_cleanup_tick now σ
  | OpCloseAll => CloseAllPools σ
  end.

Definition pool_run (ops : list pool_op) : PoolState := foldl pool_do pools_init ops.

Lemma pool_do_wf σ op : pool_wf σ -> pool_wf (pool_do σ op).
Proof.
  intros Hwf. destruct op as [env p now|now|]; simpl.
  - pose proof (GetConnection_result env p now σ Hwf) as Hr.
    destruct (GetConnection env p now σ). by destruct Hr.
  - rewrite pool_cleanup_tick_retire. by apply range_retire.
  - rewrite CloseAllPools_retire. by apply range_retire.
Qed.

Lemma pool_run_wf ops : pool_wf (pool_run ops).
Proof.
  unfold pool_run. generalize pool_wf_init. generalize pools_init.
  induction ops as [|op ops IH]; intros σ Hwf; simpl; [done|]. apply IH. by apply pool_do_wf.
Qed.

(** After any sequence of calls made one at a time, the databases that are
    open are exactly the pooled ones. [GetConnection] then hands out an open
    database, pooled under the caller's hash and marked used now, or fails and
    leaves no entry for that hash, and touches no other hash; a cleanup tick
    keeps exactly the entries idle for at most ten minutes; [CloseAllPools]
    leaves no database open. *)
Theorem pool_operations_spec ops :
  let σ := pool_run ops in
  (forall d, db_open d σ <-> exists h e, pools σ !! h = Some e /\ db e = d) /\
  (forall env p now,
     let h := ConnectionHash (sha256_hex env) p in
     let '(r, σ') := GetConnection env p now σ in
     (forall k, k <> h -> pools σ' !! k = pools σ !! k) /\
     match r with
     | Ok d => db_open d σ' /\ pools σ' !! h = Some (mkEntry d now)
     | Err _ => pools σ' !! h = None
     end) /\
  (forall now h e,
     pools (pool_cleanup_tick now σ) !! h = Some e <->
     pools σ !! h = Some e /\ now - lastUsed e <= 600000000000) /\
  (pools (CloseAllPools σ) = ∅ /\ forall d, ~ db_open d (CloseAllPools σ)).
Proof.
  intros σ. pose proof (pool_run_wf ops) as Hwf. fold σ in Hwf. clearbody σ.
  split; [apply Hwf|]. split; [|split].
  - intros env p now h. pose proof (GetConnection_result env p now σ Hwf) as Hr.
    destruct (GetConnection env p now σ). apply Hr.
  - intros now h e. rewrite pool_cleanup_tick_retire.
    destruct (range_retire (fun _ e => poolIdleTimeout <? now - lastUsed e) σ Hwf) as (_ & _ & ->).
    change poolIdleTimeout with 600000000000. by rewrite Z.ltb_ge.
  - rewrite CloseAllPools_retire.
    destruct (range_retire (fun _ _ => true) σ Hwf) as (Hwf' & _ & Hl).
    assert (pools (range (retire_if (fun _ _ => true)) σ) = ∅) as He.
    { apply map_empty. intros h. apply eq_None_not_Some. intros [e [_ [=]]%Hl]. }
    split; [done|]. intros d [h (e & H & _)]%(wf_open _ Hwf'). by rewrite He, lookup_empty in H.
Qed.

(** *** Concurrent callers *)

(** [GetConnection] as the calls it makes outside [poolMu]: a caller that saw
    a dead database closes it and removes the hash's entry, in two steps. *)
Inductive gc_pc :=
| GStart
| GLoaded (d : nat)
| GStale (d : nat)
| GDelete
| GLock
| GDone (r : result string nat).

Definition gc_step (env : ConnEnv) (p : ConnectionParams) (now : Z) (pc : gc_pc) (σ : PoolState) :
    gc_pc * PoolState :=
  let h := ConnectionHash (sha256_hex env) p in
  match pc with
  | GStart => match load_touch h now σ with
              | (Some d, σ) => (GLoaded d, σ)
              | (None, σ) => (GLock, σ)
              end
  | GLoaded d => match ping env d with None => (GDone (Ok d), σ) | Some _ => (GStale d, σ) end
  | GStale d => (GDelete, close_db d σ)
  | GDelete => (GLock, pools_delete h σ)
  | GLock => let '(r, σ) := create_locked env p now σ in (GDone r, σ)
  | GDone r => (GDone r, σ)
  end.

(** A schedule names the caller of each step. *)
Fixpoint gc_sched (env : ConnEnv) (p : ConnectionParams) (now : Z) (sched : list bool)
    (a b : gc_pc) (σ : PoolState) : gc_pc * gc_pc * PoolState :=
  match sched with
  | [] => (a, b, σ)
  | true :: sched => let '(a, σ) := gc_step env p now a σ in gc_sched env p now sched a b σ
  | false :: sched => let '(b, σ) := gc_step env p now b σ in gc_sched env p now sched a b σ
  end.

(** Alone, the steps are the function. *)
Lemma gc_alone env p now b σ :
  let '(r, σ') := GetConnection env p now σ in
  gc_sched env p now [true; true; true; true; true] GStart b σ = (GDone r, b, σ').
Proof.
  unfold GetConnection. simpl. destruct (load_touch _ now σ) as [[d|] σ1] eqn:Hl; simpl.
  - destruct (ping env d) eqn:Hp; simpl; rewrite ?Hp; [|done].
    by destruct (create_locked _ _ _ _).
  - by destruct (create_locked _ _ _ _).
Qed.

(** An environment in which [sql.Open] succeeds and the databases that
    [alive] names answer a ping. *)
Definition env_alive (sha : string -> string) (alive : nat -> bool) : ConnEnv :=
  mkConnEnv sha (fun _ _ _ _ _ => "") (fun _ _ => None)
    (fun d => if alive d then None else Some "connection refused").

Definition pg (user password : string) : ConnectionParams :=
  mkParams user password "db" 5432 "postgres" "app".

(** Two callers that both found database 0 dead: the second removes the entry
    the first has just stored. *)
Definition race_schedule : list bool :=
  [true; false; true; false; true; true; true; false; false; false].

Lemma get_fresh sha p now :
  is_ok (buildDSN (fun _ _ _ _ _ => "") p) = true ->
  GetConnection (env_alive sha (fun _ => true)) p now pools_init =
  (Ok 0%nat, mkPools {[ConnectionHash sha p := mkEntry 0 now]} 1 ∅).
Proof.
  intros Hd. unfold GetConnection, create_locked, load_touch. simpl. rewrite !lookup_empty. simpl.
  rewrite lookup_empty. by destruct (buildDSN _ p) as [[]|].
Qed.

(** With concurrent callers the pool map loses databases: when two calls
    find the pooled database dead, the unconditional [pools.Delete] of the
    slower one removes the pool the faster one created and returned. That
    database stays open, no entry names it, and neither the cleanup nor
    [CloseAllPools] ever closes it. *)
Theorem pool_concurrent_recreate_leaks (sha : string -> string) :
  let p := pg "u" "s" in
  let σ := pool_run [OpGet (env_alive sha (fun _ => true)) p 0] in
  let '(a, b, σ') := gc_sched (env_alive sha (fun d => negb (d =? 0)%nat)) p 1 race_schedule GStart GStart σ in
  a = GDone (Ok 1%nat) /\ b = GDone (Ok 2%nat) /\
  db_open 1 σ' /\ (forall h e, pools σ' !! h = Some e -> db e <> 1%nat) /\
  db_open 1 (CloseAllPools σ').
Proof.
  intros p σ. unfold σ, pool_run. simpl foldl. unfold pool_do.
  rewrite get_fresh by reflexivity. cbn [snd].
  unfold race_schedule, gc_sched, gc_step, create_locked, load_touch.
  set (h := ConnectionHash _ _). change (ConnectionHash _ _) with h.
  cbn -[h]. rewrite !lookup_singleton_eq. cbn -[h].
  rewrite !lookup_insert_eq. cbn -[h]. rewrite !lookup_delete_eq. cbn -[h].
  rewrite !lookup_delete_eq. cbn -[h].
  match goal with |- _ /\ _ /\ db_open 1 ?s /\ _ => set (σ' := s) end.
  assert (pools σ' = {[h := mkEntry 2 1]}) as Hp by (apply map_eq; intros k;
    simpl; destruct (decide (k = h)) as [->|]; by simplify_map_eq).
  assert (db_open 1 σ') as Ho by (unfold db_open; simpl; split; [lia|set_solver]).
  split; [done|]. split; [done|]. split; [done|]. split.
  - intros k e Hk. change (pools σ' !! k = Some e) in Hk.
    rewrite Hp in Hk. apply lookup_singleton_Some in Hk as [_ <-]. done.
  - change (db_open 1 (CloseAllPools σ')). unfold CloseAllPools, range. rewrite Hp, map_to_list_singleton. simpl.
    unfold db_open in *; simpl in *. split; [lia|]. set_solver.
Qed.

(** The pool key does not identify the credentials: [ConnectionHash] joins
    the user name and the password with a colon that either may contain, so a
    caller with another user name and password is handed the pool opened by the
    first one, whatever the hash function. *)
Theorem pool_key_ambiguous (sha : string -> string) (env : ConnEnv) now :
  sha256_hex env = sha -> (forall d, ping env d = None) ->
  let p1 := pg "alice" "x:y" in
  let p2 := pg "alice:x" "y" in
  Username p1 <> Username p2 /\ Password p1 <> Password p2 /\
  (GetConnection env p2 now (pool_run [OpGet (env_alive sha (fun _ => true)) p1 0])).1 = Ok 0%nat.
Proof.
  intros Hsha Hping p1 p2. split; [done|]. split; [done|].
  unfold pool_run. simpl foldl. unfold pool_do. rewrite get_fresh by reflexivity. cbn [snd].
  unfold GetConnection, load_touch. rewrite Hsha. cbn [pools].
  change (ConnectionHash sha p2) with (ConnectionHash sha p1).
  rewrite lookup_singleton_eq. cbn. by rewrite Hping.
Qed.

Lemma pool_key_ambiguous_witness :
  (GetConnection (env_alive (fun s => s) (fun _ => true)) (pg "alice:x" "y") 5
     (pool_run [OpGet (env_alive (fun s => s) (fun _ => true)) (pg "alice" "x:y") 0])).1 = Ok 0%nat.
Proof.
  apply (pool_key_ambiguous (fun s => s) (env_alive (fun s => s) (fun _ => true)) 5);
    [reflexivity|reflexivity].
Defined.

(** ** The Postgres connection string carries the parameters and nothing else *)

Lemma read_value_pqEscape v rest : read_value (pqEscape v ++ rest) = Some (v, rest).
Proof. unfold pqEscape. simpl. rewrite append_assoc. apply read_quoted_escaped. Qed.

(** The Postgres connection string is read back as exactly the parameters:
    whatever bytes the host, the user name, the password and the database name
    hold, no value ends early and none adds or overrides a keyword. *)
Theorem buildDSN_postgres_roundtrip fmt host port user password dbname :
  match buildDSN fmt (mkParams user password host port "postgres" dbname) with
  | Ok (dsn, driver) =>
      driver = "postgres" /\
      read_conninfo 6 dsn =
        Some [("host", host); ("port", pretty port); ("user", user); ("password", password);
              ("dbname", if String.eqb dbname "" then "postgres" else dbname); ("sslmode", "disable")]
  | Err _ => False
  end.
Proof.
  unfold buildDSN. cbn [DatabaseType String.eqb Ascii.eqb Bool.eqb]. split; [done|].
  cbn [Host Port Username Password DatabaseName].
  repeat (erewrite read_conninfo_pair;
    [|reflexivity|discriminate|reflexivity
     |first [apply read_value_pqEscape | apply read_value_bare, pretty_Z_bare | reflexivity]]).
  reflexivity.
Qed.

(** ** Queries *)

Lemma read_loop_spec items count acc rows truncated :
  0 <= count <= maxRows -> read_loop items count acc = Ok (rows, truncated) ->
  exists vals,
    map (@Ok string (list value)) vals = take (Z.to_nat (maxRows - count)) items /\
    rows = (rev acc ++ map (map to_json_value) vals)%list /\
    (truncated = true <-> maxRows - count < Z.of_nat (length items)).
Proof.
  revert count acc. induction items as [|item items IH]; intros count acc Hc; simpl.
  - intros [= <- <-]. exists []. rewrite take_nil, app_nil_r. split; [done|]. split; [done|].
    split; [done|lia].
  - destruct (maxRows <=? count) eqn:Hm; [apply Z.leb_le in Hm|apply Z.leb_gt in Hm].
    + intros [= <- <-]. exists []. replace (maxRows - count) with 0 by lia. rewrite app_nil_r.
      split; [done|]. split; [done|]. split; [lia|done].
    + destruct item as [values|e]; [|done]. intros Hl.
      apply IH in Hl as (vals & Hv & -> & Ht); [|lia].
      exists (values :: vals). replace (Z.to_nat (maxRows - count)) with (S (Z.to_nat (maxRows - (count + 1)))) by lia.
      simpl. rewrite Hv, <- app_assoc. split; [done|]. split; [done|]. rewrite Ht. lia.
Qed.

(** A read answers the first hundred rows of the result, in order and each
    one complete, with byte slices as strings; [RowCount] is their number,
    [Truncated] says exactly whether there were more, and no answer holds a row
    after one that could not be scanned. *)
Theorem executeReadQuery_rows env q resp rows :
  query_ctx env q = Ok rows -> executeReadQuery env q = Ok resp ->
  exists vals,
    map (@Ok string (list value)) vals = take 100 (items rows) /\
    Rows resp = map (map to_json_value) vals /\
    RowCount resp = Z.of_nat (length vals) /\ RowCount resp <= 100 /\
    (Truncated resp = true <-> 100 < Z.of_nat (length (items rows))).
Proof.
  intros Hq. unfold executeReadQuery. rewrite Hq.
  destruct (columns rows); [|done]. destruct (columnTypes rows); [|done].
  destruct (read_loop _ _ _) as [[rs tr]|] eqn:Hl; [|done].
  destruct (rows_Err rows); [done|]. intros [= <-]. simpl.
  apply read_loop_spec in Hl as (vals & Hv & -> & Ht); [|done].
  exists vals. simpl in *. rewrite length_map.
  assert (length vals <= 100)%nat as Hlen.
  { rewrite <- (length_map (@Ok string (list value))), Hv, length_take. unfold maxRows. lia. }
  split; [done|]. split; [done|]. split; [done|]. split; [lia|]. by rewrite Ht.
Qed.

Definition one_column (n : nat) : SqlEnv :=
  mkSqlEnv None (fun _ => None)
    (fun _ => Ok (mkRowsAnswer (Ok ["v"]) (Ok ["TEXT"]) (repeat (Ok [VBytes "x"]) n) None))
    (fun _ => Ok (inl 1)) 7.

Lemma executeReadQuery_rows_witness :
  exists vals, map (@Ok string (list value)) vals = take 100 (repeat (Ok [VBytes "x"]) 101) /\
    (exists resp, executeReadQuery (one_column 101) "select v from t" = Ok resp /\
       Rows resp = map (map to_json_value) vals /\ Truncated resp = true).
Proof.
  destruct (executeReadQuery (one_column 101) "select v from t") as [resp|] eqn:Hr;
    [|vm_compute in Hr; discriminate].
  destruct (executeReadQuery_rows (one_column 101) "select v from t" resp
    (mkRowsAnswer (Ok ["v"]) (Ok ["TEXT"]) (repeat (Ok [VBytes "x"]) 101) None) eq_refl Hr)
    as (vals & Hv & Hrows & _ & _ & Ht).
  exists vals. split; [exact Hv|]. exists resp. split; [reflexivity|]. split; [exact Hrows|].
  apply Ht. vm_compute. reflexivity.
Defined.

(** *** What counts as a read *)

(** White space, rune by rune. *)
Definition cat (l : list string) : string := foldr String.append "" l.
Definition blank (s : string) : Prop := exists l, Forall (fun w => w ∈ white_space) l /\ s = cat l.
Definition starts_blank (s : string) : Prop := exists w r, w ∈ white_space /\ s = w ++ r.

Lemma cat_app l l' : cat (l ++ l')%list = cat l ++ cat l'.
Proof.
  induction l as [|w l IH]; [done|]. change (w ++ cat (l ++ l')%list = (w ++ cat l) ++ cat l').
  by rewrite IH, append_assoc.
Qed.

Lemma strip_one_spec ws s s' : strip_one ws s = Some s' -> exists w, w ∈ ws /\ s = w ++ s'.
Proof.
  induction ws as [|w ws IH]; [done|]. cbn. destruct (String.prefix w s) eqn:Hp.
  - intros [= <-]. apply prefix_app in Hp as [r ->]. exists w. split; [left|]. by rewrite drop_app.
  - intros (w' & Hw & ->)%IH. exists w'. split; [by right|done].
Qed.

Lemma strip_left_spec fuel ws s : exists l, Forall (fun w => w ∈ ws) l /\ s = cat l ++ strip_left fuel ws s.
Proof.
  revert s. induction fuel as [|fuel IH]; intros s; cbn; [by exists []|].
  destruct (strip_one ws s) as [s'|] eqn:Hs; [|by exists []].
  apply strip_one_spec in Hs as (w & Hw & ->). destruct (IH s') as (l & Hl & He). exists (w :: l).
  split; [by constructor|]. change (cat (w :: l)) with (w ++ cat l). by rewrite append_assoc, <-He.
Qed.

Lemma rev_cat l : rev_string (cat l) = cat (rev (map rev_string l)).
Proof.
  induction l as [|w l IH]; [done|]. change (cat (w :: l)) with (w ++ cat l).
  change (rev (map rev_string (w :: l))) with (rev (map rev_string l) ++ [rev_string w])%list.
  rewrite rev_string_app, IH, cat_app. cbn. by rewrite append_nil_r.
Qed.

Lemma TrimSpace_split s : exists pre post, s = pre ++ TrimSpace s ++ post /\ blank pre /\ blank post.
Proof.
  destruct (strip_left_spec (String.length s) white_space s) as (l & Hl & He).
  unfold TrimSpace. set (t := TrimLeftSpace s). change (s = cat l ++ t) in He.
  destruct (strip_left_spec (String.length t) (map rev_string white_space) (rev_string t)) as (l' & Hl' & He').
  exists (cat l), (cat (rev (map rev_string l'))). split_and!; [|by exists l|].
  - rewrite He at 1. f_equal. rewrite <-(rev_string_involutive t) at 1. rewrite He' at 1. by rewrite rev_string_app, rev_cat.
  - exists (rev (map rev_string l')). split; [|done]. apply Forall_rev, Forall_fmap. eapply Forall_impl; [exact Hl'|].
    intros w (w' & -> & Hw')%list_elem_of_fmap. cbn. by rewrite rev_string_involutive.
Qed.

(** The first field is what comes before the first white space. *)
Lemma first_field_spec s : exists rest, s = first_field s ++ rest /\ (rest = "" \/ starts_blank rest).
Proof.
  induction s as [|c s IH]; [by exists ""; auto|]. cbn [first_field].
  destruct (strip_one white_space (String c s)) as [s'|] eqn:Hs.
  - exists (String c s). split; [done|]. right. apply strip_one_spec in Hs as (w & Hw & He). by exists w, s'.
  - destruct IH as (rest & He & Hr). exists rest. split; [cbn; by rewrite <-He|done].
Qed.

(** A statement that reads, by its first word: nothing but white space, or,
    after white space, one of six words in any case, followed by white space or
    by the end. *)
Definition reads (q : string) : Prop :=
  blank q \/
  exists pre word rest, q = pre ++ word ++ rest /\ blank pre /\ (rest = "" \/ starts_blank rest) /\
    ToUpper word ∈ ["SELECT"; "SHOW"; "DESCRIBE"; "DESC"; "EXPLAIN"; "WITH"].

Lemma isReadStatement_reads q : isReadStatement q = true -> reads q.
Proof.
  unfold isReadStatement. destruct (TrimSpace_split q) as (pre & post & Hq & Hpre & Hpost).
  destruct (String.eqb_spec (TrimSpace q) "") as [He|_].
  - intros _. left. rewrite He in Hq. destruct Hpre as (l & Hl & ->), Hpost as (l' & Hl' & ->).
    exists (l ++ l')%list. split; [by apply Forall_app|]. by rewrite cat_app.
  - intros Hk. right. destruct (first_field_spec (TrimSpace q)) as (rest & Ht & Hrest).
    exists pre, (first_field (TrimSpace q)), (rest ++ post). split_and!; [|done| |].
    { rewrite Hq at 1. f_equal. rewrite Ht at 1. apply append_assoc. }
    + clear Ht. destruct Hrest as [->|(w & r & Hw & ->)].
      * destruct Hpost as ([|w l] & Hl & ->); [by left|]. right. apply Forall_cons in Hl as [Hw _]. by exists w, (cat l).
      * right. exists w, (r ++ post). split; [done|]. by rewrite append_assoc.
    + apply existsb_exists in Hk as (k & Hin & ->%String.eqb_eq). by apply list_elem_of_In.
Qed.

(** The session mode of a request. *)
Definition session_mode (databaseType : string) (readWrite : bool) (mode : string) : Prop :=
  match readWrite with
  | false => (databaseType = "postgres" -> mode = "SET default_transaction_read_only = on") /\
             (databaseType = "mysql" -> mode = "SET SESSION TRANSACTION READ ONLY")
  | true => (databaseType = "postgres" -> mode = "SET default_transaction_read_only = off") /\
            (databaseType = "mysql" -> mode = "SET SESSION TRANSACTION READ WRITE")
  end.

Lemma modeStmt_spec ty rw : session_mode ty rw (modeStmt ty rw).
Proof. by destruct rw; split; intros ->. Qed.

(** C37: What a request sends on its one pinned connection. First the mode of
    the session: read-only for a read-only request, read-write for any other, in
    the engine's own words. Then, at most once and only when the engine took the
    mode, the caller's statement, unchanged. On a read-only request it is sent
    only when it is blank or its first word is SELECT, SHOW, DESCRIBE, DESC,
    EXPLAIN or WITH, and through the query path; any other statement is refused
    with nothing but the mode sent. A failed mode statement stops either kind of
    request. *)
Theorem execute_query_read_only cenv env params q readWrite now σ :
  let '(r, tr, _) := ExecuteQuery cenv env params q readWrite now σ in
  exists mode, session_mode (DatabaseType params) readWrite mode /\
    (tr = [] \/ tr = [SentMode mode] \/ tr = [SentMode mode; SentQuery q] \/ tr = [SentMode mode; SentExec q]) /\
    ((In (SentQuery q) tr \/ In (SentExec q) tr) -> exec_mode env mode = None) /\
    (is_ok r = true -> In (SentQuery q) tr \/ In (SentExec q) tr) /\
    (readWrite = false -> ~ In (SentExec q) tr /\ (In (SentQuery q) tr -> reads q) /\ (~ reads q -> is_ok r = false)).
Proof.
  unfold ExecuteQuery, rejectNonReadUnderReadOnly.
  pose proof (isReadStatement_reads q) as Hreads. pose proof (modeStmt_spec (DatabaseType params) readWrite) as Hmode.
  set (mode := modeStmt _ _) in *. clearbody mode.
  assert (forall (r : result string QueryResponse) tr, tr = [] \/ tr = [SentMode mode] -> is_ok r = false ->
    session_mode (DatabaseType params) readWrite mode /\
    (tr = [] \/ tr = [SentMode mode] \/ tr = [SentMode mode; SentQuery q] \/ tr = [SentMode mode; SentExec q]) /\
    ((In (SentQuery q) tr \/ In (SentExec q) tr) -> exec_mode env mode = None) /\
    (is_ok r = true -> In (SentQuery q) tr \/ In (SentExec q) tr) /\
    (readWrite = false -> ~ In (SentExec q) tr /\ (In (SentQuery q) tr -> reads q) /\ (~ reads q -> is_ok r = false))) as Hstop.
  { intros r tr [->| ->] Hr; cbn; rewrite Hr; split_and!; auto; try intuition discriminate. }
  destruct (GetConnection cenv params now σ) as [[d|e] σ']; [|exists mode; apply Hstop; auto].
  destruct (acquire env); [exists mode; apply Hstop; auto|].
  destruct (exec_mode env mode) eqn:Hm in |- *; [exists mode; apply Hstop; auto|].
  destruct (isReadStatement q); [rewrite andb_false_r|rewrite andb_true_r; destruct readWrite; [|exists mode; apply Hstop; auto]]; cbn.
  - exists mode. split; [exact Hmode|]. split_and!; auto 6. intros _. split_and!; [intuition discriminate|auto|intros Hn; by destruct Hn; auto].
  - exists mode. split; [exact Hmode|]. split_and!; auto 6; try (intros Hx; discriminate Hx).
Qed.

(** The read gate classifies a statement by its first word only: a common
    table expression that feeds a DELETE counts as a read, so on a read-only
    request it is sent to the server. *)
Theorem read_gate_passes_cte_delete cenv params now d σ :
  GetConnection cenv params now pools_init = (Ok d, σ) ->
  let q := "WITH old AS (SELECT id FROM t) DELETE FROM t WHERE id IN (SELECT id FROM old)" in
  rejectNonReadUnderReadOnly false q = false /\
  (ExecuteQuery cenv (one_column 1) params q false now pools_init).1.2 =
    [SentMode (modeStmt (DatabaseType params) false); SentQuery q].
Proof.
  intros Hg q. split; [reflexivity|]. unfold ExecuteQuery. rewrite Hg. reflexivity.
Qed.

Lemma read_gate_passes_cte_delete_witness :
  (ExecuteQuery (env_alive (fun s => s) (fun _ => true)) (one_column 1) (mkParams "u" "s" "db" 3306 "mysql" "app")
     "WITH old AS (SELECT id FROM t) DELETE FROM t WHERE id IN (SELECT id FROM old)" false 0 pools_init).1.2 =
    [SentMode "SET SESSION TRANSACTION READ ONLY";
     SentQuery "WITH old AS (SELECT id FROM t) DELETE FROM t WHERE id IN (SELECT id FROM old)"].
Proof.
  apply (read_gate_passes_cte_delete (env_alive (fun s => s) (fun _ => true))
    (mkParams "u" "s" "db" 3306 "mysql" "app") 0 0%nat
    (mkPools {[ "mysql:u:s@db:3306/app" := mkEntry 0 0]} 1 ∅)).
  vm_compute. reflexivity.
Defined.

(** ** The handler *)

(** A request with a missing field or an unknown engine never reaches the pool
    map, and an answer is sent as [SQL_QUERY_RESPONSE] only without an error. *)
Lemma SQLQuery_reply decode encode cenv env jsonB64 now σ :
  let '(ty, payload, err, tr, σ') := SQLQuery decode encode cenv env jsonB64 now σ in
  (err = None <-> ty = "SQL_QUERY_RESPONSE") /\
  (forall req, decode jsonB64 = Ok req -> is_ok (validateConnectionParams (Connection req)) = false ->
     tr = [] /\ σ' = σ /\ ty = "ERROR").
Proof.
  unfold SQLQuery. destruct (decode jsonB64) as [req|];
    [destruct (validateConnectionParams (Connection req)) eqn:Hv;
      [destruct (String.eqb (Query req) "");
        [|destruct (ExecuteQuery _ _ _ _ _ _ _) as [[[r|e] tr] σ']; [destruct (encode r)|]]|]|];
    (split; [split; congruence|intros req' [= <-]; by rewrite ?Hv]).
Qed.
