(* ===== verification/Dotenv.v ===== *)
(** * The dotenv reader for version-control deploys
      ([src/agentstream/instructions/dotenv.go])

    The source walks an index through the text; the model walks the text that
    is left. A line consumes at least one byte, so the length of the text is
    enough fuel ([parse_from_fuel]). *)
From stdpp Require Import gmap sorting.
From S2P Require Import Prelude GoStrings.
Local Open Scope string_scope.
Local Open Scope Z_scope.

Definition nl : ascii := ascii_of_nat 10.
Definition tab : ascii := ascii_of_nat 9.
Definition cr : ascii := ascii_of_nat 13.
Definition squote : ascii := ascii_of_nat 39.
Definition bslash : ascii := ascii_of_nat 92.

Definition is_nl (c : ascii) : bool := Ascii.eqb c nl.
Definition is_blank (c : ascii) : bool := Ascii.eqb c " " || Ascii.eqb c tab.

(** [for i < n && s[i] != '\n' { i++ }; if i < n { i++ }]. *)
Definition skip_line (s : string) : string :=
  match (take_until is_nl s).2 with
  | EmptyString => ""
  | String _ r => r
  end.

(** ** Values *)

Definition unescape (c : ascii) : ascii :=
  if Ascii.eqb c "n" then nl
  else if Ascii.eqb c "r" then cr
  else if Ascii.eqb c "t" then tab
  else c.

Fixpoint decode_double (s : string) : string * string :=
  match s with
  | EmptyString => ("", "")
  | String c r =>
      if Ascii.eqb c dquote then ("", r)
      else if Ascii.eqb c bslash then
        match r with
        | EmptyString => (String c "", "")
        | String d r => let '(v, rest) := decode_double r in (String (unescape d) v, rest)
        end
      else let '(v, rest) := decode_double r in (String c v, rest)
  end.

Definition decodeDotenvValue (s : string) : string * string :=
  match s with
  | EmptyString => ("", "")
  | String c r =>
      if Ascii.eqb c dquote then decode_double r
      else if Ascii.eqb c squote then
        let '(v, rest) := take_until (Ascii.eqb squote) r in
        (v, match rest with EmptyString => "" | String _ rest => rest end)
      else
        let '(v, rest) := take_until is_nl s in
        (TrimRightSet (fun c => is_blank c || Ascii.eqb c cr) v, rest)
  end.

(** ** Lines *)

Fixpoint parse_from (fuel : nat) (s : string) (out : gmap string string) : gmap string string :=
  match fuel with
  | O => out
  | S fuel =>
      match drop_while is_blank s with
      | EmptyString => out
      | String c r as s =>
          if is_nl c then parse_from fuel r out
          else if Ascii.eqb c "#" then parse_from fuel (skip_line s) out
          else
            let '(k, rest) := take_until (fun c => Ascii.eqb c "=" || is_nl c) s in
            let key := TrimSpace k in
            match rest with
            | EmptyString => out
            | String d rest =>
                if is_nl d then parse_from fuel rest out
                else
                  let '(value, after) := decodeDotenvValue (drop_while is_blank rest) in
                  parse_from fuel (skip_line after)
                    (if String.eqb key "" then out else <[key := value]> out)
            end
      end
  end.

Definition parseDotenv (data : string) : gmap string string :=
  parse_from (String.length data) data ∅.

(** ** Validation *)

Definition bad_control (c : ascii) : bool :=
  negb (is_nl c || Ascii.eqb c cr || Ascii.eqb c tab) && ((byte_val c <? 32) || (byte_val c =? 127)).

Inductive DotenvError :=
| NotUtf8 (key : string)
| ControlByte (key : string) (c : ascii) (pos : Z).

Fixpoint check_bytes (key : string) (i : Z) (v : string) : result DotenvError unit :=
  match v with
  | EmptyString => Ok tt
  | String c r => if bad_control c then Err (ControlByte key c i) else check_bytes key (i + 1) r
  end.

Fixpoint check_keys (keys : list string) (envVars : gmap string string) : result DotenvError unit :=
  match keys with
  | [] => Ok tt
  | k :: keys =>
      let v := default "" (envVars !! k) in
      if negb (ValidString v) then Err (NotUtf8 k)
      else match check_bytes k 0 v with
           | Err e => Err e
           | Ok _ => check_keys keys envVars
           end
  end.

Definition validateDotenvValues (envVars : gmap string string) : result DotenvError unit :=
  check_keys (merge_sort string_le (map_to_list envVars).*1) envVars.

(** ** Fuel *)

Lemma length_skip_line s : (String.length (skip_line s) <= String.length s)%nat.
Proof.
  unfold skip_line. destruct (take_until is_nl s) as [a b] eqn:H.
  apply length_take_until in H. destruct b; simpl in *; lia.
Qed.

Lemma length_decode_double s : (String.length (decode_double s).2 <= String.length s)%nat.
Proof.
  assert (forall n s, (String.length s <= n)%nat -> (String.length (decode_double s).2 <= String.length s)%nat) as H;
    [|by apply (H (String.length s))].
  clear s. induction n as [|n IH]; intros [|c r] Hn; simpl in *; try lia.
  destruct (Ascii.eqb c dquote); [simpl; lia|]. destruct (Ascii.eqb c bslash).
  - destruct r as [|d r]; [simpl; lia|]. simpl in Hn.
    specialize (IH r ltac:(lia)). destruct (decode_double r). simpl in *. lia.
  - specialize (IH r ltac:(lia)). destruct (decode_double r). simpl in *. lia.
Qed.

Lemma length_decode s : (String.length (decodeDotenvValue s).2 <= String.length s)%nat.
Proof.
  destruct s as [|c r]; [done|]. simpl. destruct (Ascii.eqb c dquote).
  - pose proof (length_decode_double r). lia.
  - destruct (Ascii.eqb c squote).
    + destruct (take_until _ r) as [v rest] eqn:H. apply length_take_until in H.
      destruct rest; simpl in *; lia.
    + destruct (is_nl c); simpl; [lia|]. destruct (take_until is_nl r) as [v rest] eqn:H.
      apply length_take_until in H. simpl. lia.
Qed.

(** Any fuel of at least the length of the text gives the same map. *)
Lemma parse_from_fuel n m s out :
  (String.length s <= n)%nat -> (String.length s <= m)%nat ->
  parse_from n s out = parse_from m s out.
Proof.
  revert m s out. induction n as [|n IH]; intros m s out Hn Hm.
  { destruct s; [|simpl in Hn; lia]. by destruct m. }
  destruct m as [|m]; [destruct s; [done|simpl in Hm; lia]|].
  cbn [parse_from]. pose proof (length_drop_while is_blank s) as Hd.
  destruct (drop_while is_blank s) as [|c r] eqn:Hs; [done|]. simpl in Hd.
  destruct (is_nl c); [apply IH; lia|].
  destruct (Ascii.eqb c "#").
  { unfold skip_line. simpl. destruct (is_nl c); [apply IH; simpl; lia|].
    destruct (take_until is_nl r) as [a b] eqn:Ht. apply length_take_until in Ht.
    destruct b; simpl in *; apply IH; simpl; lia. }
  destruct (take_until _ (String c r)) as [k rest] eqn:Ht. apply length_take_until in Ht.
  destruct rest as [|d rest]; [done|]. simpl in Ht.
  destruct (is_nl d); [apply IH; lia|].
  pose proof (length_decode (drop_while is_blank rest)) as Hv.
  pose proof (length_drop_while is_blank rest) as Hr.
  destruct (decodeDotenvValue _) as [v after]. simpl in Hv.
  pose proof (length_skip_line after). apply IH; lia.
Qed.

(** The parser as a function of the text alone. *)
Definition parse (s : string) (out : gmap string string) : gmap string string :=
  parse_from (String.length s) s out.

Lemma parse_enough n s out : (String.length s <= n)%nat -> parse_from n s out = parse s out.
Proof. intros H. by apply parse_from_fuel. Qed.

(** ** The file format *)

(** The documented lines: blank lines, comments, lines that are not
    [KEY=value], and the three shapes of a value; a quoted value may be
    followed by anything up to the end of its line. *)
Inductive line :=
| LBlank (ws : string)
| LComment (ws text : string)
| LJunk (text : string)
| LBare (key value : string)
| LSingle (key value tail : string)
| LDouble (key value tail : string).

(** A double-quoted value, escaped as the format documents. *)
Fixpoint escape (v : string) : string :=
  match v with
  | EmptyString => ""
  | String c r =>
      if Ascii.eqb c bslash then String bslash (String bslash (escape r))
      else if Ascii.eqb c dquote then String bslash (String dquote (escape r))
      else if is_nl c then String bslash (String "n" (escape r))
      else if Ascii.eqb c cr then String bslash (String "r" (escape r))
      else if Ascii.eqb c tab then String bslash (String "t" (escape r))
      else String c (escape r)
  end.

Definition render_line (l : line) : string :=
  match l with
  | LBlank ws => ws
  | LComment ws text => ws ++ "#" ++ text
  | LJunk text => text
  | LBare k v => k ++ "=" ++ v
  | LSingle k v tail => k ++ "=" ++ String squote (v ++ String squote tail)
  | LDouble k v tail => k ++ "=" ++ String dquote (escape v ++ String dquote tail)
  end.

Fixpoint render_doc (ls : list line) : string :=
  match ls with
  | [] => ""
  | l :: ls => render_line l ++ String nl (render_doc ls)
  end.

Definition no_nl (s : string) : bool := all_chars (fun c => negb (is_nl c)) s.
Definition no_key_end (s : string) : bool := all_chars (fun c => negb (Ascii.eqb c "=" || is_nl c)) s.
Definition starts (p : ascii -> bool) (s : string) : bool :=
  match s with String c _ => p c | EmptyString => false end.

(** A key is not empty, has no [=], newline or surrounding space, and does not
    look like a comment. *)
Definition key_ok (k : string) : bool :=
  negb (String.eqb k "") && no_key_end k && String.eqb (TrimSpace k) k &&
  negb (starts (fun c => is_blank c || Ascii.eqb c "#") k).

Definition line_ok (l : line) : bool :=
  match l with
  | LBlank ws => all_chars is_blank ws
  | LComment ws text => all_chars is_blank ws && no_nl text
  | LJunk text => no_key_end text && negb (starts (fun c => is_blank c || Ascii.eqb c "#") text)
  | LBare k v =>
      key_ok k && no_nl v && String.eqb (TrimRightSet (fun c => is_blank c || Ascii.eqb c cr) v) v &&
      negb (starts (fun c => is_blank c || Ascii.eqb c dquote || Ascii.eqb c squote) v)
  | LSingle k v tail => key_ok k && all_chars (fun c => negb (Ascii.eqb squote c)) v && no_nl tail
  | LDouble k v tail => key_ok k && no_nl tail
  end.

Definition line_effect (out : gmap string string) (l : line) : gmap string string :=
  match l with
  | LBlank _ | LComment _ _ | LJunk _ => out
  | LBare k v | LSingle k v _ | LDouble k v _ => <[k := v]> out
  end.

Lemma take_until_stop p a c r :
  all_chars (fun c => negb (p c)) a = true -> p c = true -> take_until p (a ++ String c r) = (a, String c r).
Proof. intros Ha Hc. rewrite take_until_app by done. simpl. by rewrite Hc, append_nil_r. Qed.

Lemma skip_line_app a r : no_nl a = true -> skip_line (a ++ String nl r) = r.
Proof. intros Ha. unfold skip_line. by rewrite take_until_stop. Qed.

Lemma decode_double_escape v rest : decode_double (escape v ++ String dquote rest) = (v, rest).
Proof.
  induction v as [|c v IH]; [done|]. cbn [escape].
  destruct (Ascii.eqb c bslash) eqn:H1; [apply Ascii.eqb_eq in H1 as ->; simpl; by rewrite IH|].
  destruct (Ascii.eqb c dquote) eqn:H2; [apply Ascii.eqb_eq in H2 as ->; simpl; by rewrite IH|].
  destruct (is_nl c) eqn:H3; [apply Ascii.eqb_eq in H3 as ->; simpl; by rewrite IH|].
  destruct (Ascii.eqb c cr) eqn:H4; [apply Ascii.eqb_eq in H4 as ->; simpl; by rewrite IH|].
  destruct (Ascii.eqb c tab) eqn:H5; [apply Ascii.eqb_eq in H5 as ->; simpl; by rewrite IH|].
  simpl. by rewrite H2, H1, IH.
Qed.

(** One round of the loop. *)
Lemma parse_unfold s out c r :
  drop_while is_blank s = String c r ->
  parse s out =
    if is_nl c then parse r out
    else if Ascii.eqb c "#" then parse (skip_line (String c r)) out
    else
      let '(k, rest) := take_until (fun c => Ascii.eqb c "=" || is_nl c) (String c r) in
      match rest with
      | EmptyString => out
      | String d rest =>
          if is_nl d then parse rest out
          else let '(value, after) := decodeDotenvValue (drop_while is_blank rest) in
               parse (skip_line after) (if String.eqb (TrimSpace k) "" then out else <[TrimSpace k := value]> out)
      end.
Proof.
  intros Hs. rewrite <- (parse_enough (S (String.length s))) by lia. cbn [parse_from]. rewrite Hs.
  pose proof (length_drop_while is_blank s) as Hd. rewrite Hs in Hd. simpl in Hd.
  destruct (is_nl c); [apply parse_enough; lia|].
  destruct (Ascii.eqb c "#").
  { pose proof (length_skip_line (String c r)) as Hl. simpl in Hl. apply parse_enough. lia. }
  destruct (take_until _ (String c r)) as [k rest] eqn:Ht. apply length_take_until in Ht.
  destruct rest as [|d rest]; [done|]. simpl in Ht.
  destruct (is_nl d); [apply parse_enough; lia|].
  pose proof (length_decode (drop_while is_blank rest)) as Hv.
  pose proof (length_drop_while is_blank rest) as Hr.
  destruct (decodeDotenvValue _) as [v after]. simpl in Hv.
  pose proof (length_skip_line after). apply parse_enough. lia.
Qed.

Lemma parse_assign k body rest out v after :
  key_ok k = true -> decodeDotenvValue (drop_while is_blank (body ++ String nl rest)) = (v, after) ->
  skip_line after = rest ->
  parse ((k ++ "=" ++ body) ++ String nl rest) out = parse rest (<[k := v]> out).
Proof.
  intros Hk Hv Hr. unfold key_ok in Hk.
  apply andb_prop in Hk as [[[Hne Hn]%andb_prop Ht]%andb_prop Hs].
  apply String.eqb_eq in Ht. rewrite !append_assoc. destruct k as [|c k]; [done|]. cbn in Hs.
  apply negb_true_iff, orb_false_iff in Hs as [Hb Hh].
  rewrite (parse_unfold _ _ c (k ++ "=" ++ body ++ String nl rest)) by (simpl; by rewrite Hb).
  pose proof Hn as [Hc _]%andb_prop. apply negb_true_iff, orb_false_iff in Hc as [_ Hnl].
  rewrite Hnl, Hh. change (String c (k ++ "=" ++ body ++ String nl rest))
    with (String c k ++ String "=" (body ++ String nl rest)).
  rewrite take_until_stop by done. cbn [Ascii.eqb Bool.eqb is_nl nl ascii_of_nat].
  change (is_nl "=") with false. cbv iota beta. rewrite Hv, Hr, Ht. done.
Qed.

Lemma parse_line l rest out :
  line_ok l = true -> parse (render_line l ++ String nl rest) out = parse rest (line_effect out l).
Proof.
  destruct l as [ws|ws text|text|k v|k v tail|k v tail]; cbn [line_ok render_line line_effect]; intros Hok.
  - by erewrite parse_unfold by (rewrite drop_while_app by done; reflexivity).
  - apply andb_prop in Hok as [Hws Ht]. rewrite !append_assoc.
    rewrite (parse_unfold _ _ "#" (text ++ String nl rest)) by (rewrite drop_while_app by done; reflexivity).
    change (String "#" (text ++ String nl rest)) with (String "#" text ++ String nl rest).
    by rewrite skip_line_app.
  - apply andb_prop in Hok as [Hn Hs]. destruct text as [|c text].
    { by erewrite parse_unfold by reflexivity. }
    cbn in Hs. apply negb_true_iff, orb_false_iff in Hs as [Hb Hh].
    rewrite (parse_unfold _ _ c (text ++ String nl rest)) by (simpl; by rewrite Hb).
    pose proof Hn as [Hc _]%andb_prop. apply negb_true_iff, orb_false_iff in Hc as [_ Hnl].
    rewrite Hnl, Hh. change (String c (text ++ String nl rest)) with (String c text ++ String nl rest).
    by rewrite take_until_stop.
  - apply andb_prop in Hok as [[[Hk Hn]%andb_prop Ht]%andb_prop Hs].
    apply String.eqb_eq in Ht. eapply parse_assign; [done| |apply (skip_line_app "")]; [|done].
    destruct v as [|c v]; [done|]. cbn in Hs.
    apply negb_true_iff, orb_false_iff in Hs as [[Hb Hd]%orb_false_iff Hq].
    simpl drop_while. rewrite Hb. unfold decodeDotenvValue. cbv iota beta. rewrite Hd, Hq.
    change (String c (v ++ String nl rest)) with (String c v ++ String nl rest).
    rewrite take_until_stop by done. by rewrite Ht.
  - apply andb_prop in Hok as [[Hk Hv]%andb_prop Ht]. eapply parse_assign; [done| |by apply skip_line_app].
    simpl. rewrite append_assoc. change (String squote tail ++ String nl rest) with (String squote (tail ++ String nl rest)).
    by rewrite take_until_stop.
  - apply andb_prop in Hok as [Hk Ht]. eapply parse_assign; [done| |by apply skip_line_app].
    simpl. rewrite append_assoc. apply decode_double_escape.
Qed.

(** C36: Reading a well-formed file gives exactly its assignments. For every
    document made of blank lines, comments, lines without [=], and bare,
    single-quoted and double-quoted assignments, [parseDotenv] answers the map
    of the assignments, a later one replacing an earlier one of the same key;
    a double-quoted value may hold any bytes, newlines and quotes included. *)
Theorem parseDotenv_document ls :
  forallb line_ok ls = true -> parseDotenv (render_doc ls) = foldl line_effect ∅ ls.
Proof.
  unfold parseDotenv. fold (parse (render_doc ls) ∅). generalize (∅ : gmap string string).
  induction ls as [|l ls IH]; intros out; [done|]. cbn [forallb render_doc foldl].
  intros [Hl Hls]%andb_prop. rewrite parse_line by done. by apply IH.
Qed.

Lemma parseDotenv_document_witness :
  parseDotenv (render_doc
    [LComment "  " " app"; LBlank ""; LBare "A" "1 2"; LJunk "export";
     LDouble "B" (String dquote (String nl "x\")) " # note"; LSingle "A" "it" ""]) =
  <["A" := "it"]> (<["B" := String dquote (String nl "x\")]> (<["A" := "1 2"]> ∅)).
Proof. apply parseDotenv_document. vm_compute. reflexivity. Defined.

(** ** Validation *)

Definition value_ok (v : string) : bool := ValidString v && all_chars (fun c => negb (bad_control c)) v.

Lemma check_bytes_spec k i v :
  match check_bytes k i v with
  | Ok _ => all_chars (fun c => negb (bad_control c)) v = true
  | Err e => exists a c b, v = a ++ String c b /\ bad_control c = true /\
      all_chars (fun c => negb (bad_control c)) a = true /\ e = ControlByte k c (i + slen a)
  end.
Proof.
  revert i. induction v as [|c v IH]; intros i; [done|]. simpl. destruct (bad_control c) eqn:Hc.
  - exists "", c, v. split; [done|]. split; [done|]. split; [done|]. f_equal. unfold slen. simpl. lia.
  - specialize (IH (i + 1)). destruct (check_bytes k (i + 1) v) as [|e]; [done|].
    destruct IH as (a & d & b & -> & Hd & Ha & ->). exists (String c a), d, b.
    split; [done|]. split; [done|]. simpl. rewrite Hc, Ha. split; [done|]. f_equal.
    unfold slen. simpl. lia.
Qed.

Definition error_key (e : DotenvError) : string := match e with NotUtf8 k | ControlByte k _ _ => k end.

Lemma check_keys_spec keys env :
  StronglySorted string_le keys ->
  match check_keys keys env with
  | Ok _ => forall k, k ∈ keys -> value_ok (default "" (env !! k)) = true
  | Err e => error_key e ∈ keys /\ value_ok (default "" (env !! error_key e)) = false /\
      forall k, k ∈ keys -> value_ok (default "" (env !! k)) = false -> string_le (error_key e) k
  end.
Proof.
  induction keys as [|k keys IH]; intros Hs; [by intros k ?%elem_of_nil|].
  apply StronglySorted_cons in Hs as [Hk Hs]. specialize (IH Hs). rewrite Forall_forall in Hk.
  assert (forall e, error_key e = k -> value_ok (default "" (env !! k)) = false ->
    error_key e ∈ k :: keys /\ value_ok (default "" (env !! error_key e)) = false /\
    forall k', k' ∈ k :: keys -> value_ok (default "" (env !! k')) = false -> string_le (error_key e) k') as Hhere.
  { intros e -> Hb. split; [left|]. split; [done|]. intros k' [->|Hin]%elem_of_cons _; [|by apply Hk].
    destruct (string_le_total k k) as [H|H]; exact H. }
  cbn [check_keys]. unfold value_ok in Hhere at 1. destruct (ValidString _) eqn:Hv; cbn [negb]; [|by apply (Hhere (NotUtf8 k))].
  pose proof (check_bytes_spec k 0 (default "" (env !! k))) as Hc.
  destruct (check_bytes _ _ _) as [|e].
  - destruct (check_keys keys env) as [|e].
    + intros k' [->|Hin]%elem_of_cons; [|by apply IH]. unfold value_ok. by rewrite Hv, Hc.
    + destruct IH as (Hin & Hb & Hmin). split; [by right|]. split; [done|].
      intros k' [->|Hk']%elem_of_cons Hb'; [|by apply Hmin].
      unfold value_ok in Hb'. by rewrite Hv, Hc in Hb'.
  - destruct Hc as (a & c & b & Hval & Hc & _ & ->). apply (Hhere (ControlByte k c _)); [done|]. rewrite Hval.
    simpl. rewrite all_chars_app. simpl. by rewrite Hc, andb_false_r.
Qed.

(** [validateDotenvValues] accepts exactly the maps whose every value is
    valid UTF-8 without control bytes other than newline, carriage return and
    tab; otherwise the error names a variable whose value is not, the first
    such variable in byte order. *)
Theorem validateDotenvValues_spec env :
  (is_ok (validateDotenvValues env) = true <-> forall k v, env !! k = Some v -> value_ok v = true) /\
  (forall e, validateDotenvValues env = Err e ->
     (exists v, env !! error_key e = Some v /\ value_ok v = false) /\
     forall k v, env !! k = Some v -> value_ok v = false -> string_le (error_key e) k).
Proof.
  unfold validateDotenvValues. set (keys := merge_sort string_le _).
  assert (forall k, k ∈ keys <-> is_Some (env !! k)) as Hkeys.
  { intros k. unfold keys. rewrite (merge_sort_Permutation string_le), list_elem_of_fmap. split.
    - intros ([k' v] & -> & H%elem_of_map_to_list). by exists v.
    - intros [v H]. exists (k, v). split; [done|]. by apply elem_of_map_to_list. }
  assert (StronglySorted string_le keys) as Hs by (apply StronglySorted_merge_sort; apply _).
  pose proof (check_keys_spec keys env Hs) as Hc. destruct (check_keys keys env) as [|e].
  - split; [|done]. split; [|done]. intros _ k v Hk. specialize (Hc k). rewrite Hk in Hc.
    apply Hc, Hkeys. by rewrite Hk.
  - destruct Hc as (Hin & Hb & Hmin). apply Hkeys in Hin as [v Hin].
    assert (value_ok v = false) as Hv by (by rewrite Hin in Hb). split.
    + split; [done|]. intros Hall. rewrite (Hall _ _ Hin) in Hv. done.
    + intros e' [= <-]. split; [eauto|]. intros k w Hk Hw. apply Hmin; [apply Hkeys; by exists w|].
      by rewrite Hk.
Qed.
