(* ===== verification/Manifest.v ===== *)
(** * Fetching a version-control source and reading its manifest
      ([src/agentstream/instructions/vcs_fetch_source.go] and the paths of
       [vcs_workdir_cache.go])

    Git, the file system and the YAML reader are the environment. The handler
    answers a response and the events it caused, in order; the entry it puts
    into the workdir cache is part of the events ([Workdir.v] models the cache
    itself). The removal of a failed workdir is the call; its error is logged and
    not described here. *)
From stdpp Require Import gmap.
From S2P Require Import Prelude GoStrings Codec Paths Dotenv.
Local Open Scope string_scope.
Local Open Scope Z_scope.

(** ** Data *)

Record VcsFetchSourceRequest := mkFetchRequest {
  OSID : string;
  SHA : string;
  RepoCloneURL : string;
  AuthHeader : string;
  Branch : string;
  ConfigPath : string
}.

Record VcsFetchSourceServiceYaml := mkServiceYaml { Filename : string; ContentsBase64 : string }.

Record VcsWorkdirBuildPaths := mkPaths {
  Workdir : string;
  ContextPath : string;
  DockerfileDir : string;
  DockerfileFilename : string
}.

(** [None] is a nil pointer: the field is left out and live state is kept. *)
Record VcsFetchSourceResponse := mkFetchResponse {
  Success : bool;
  WorkdirCacheKey : string;
  RunosYamlBase64 : string;
  ServiceYamls : list VcsFetchSourceServiceYaml;
  ResolvedEnvVars : option (gmap string string);
  ResolvedSecretEnvVars : option (gmap string string);
  Message : string
}.

Record runosYamlBuildPaths := mkYamlPaths { SourceDir : string; Dockerfile : string }.
Record runosYamlEnvRefs := mkEnvRefs { Env : string; SecretEnv : string }.

Definition maxManifestFileSize : Z := 1 * 1024 * 1024.

(** ** The environment *)

Inductive FsError := NotExist (e : string) | OtherFs (e : string).
Definition fs_msg (e : FsError) : string := match e with NotExist m | OtherFs m => m end.

Record DirEntry := mkDirEntry { Name : string; IsDir : bool; InfoSize : result string Z }.

Record Files := mkFiles {
  Stat : string -> result FsError Z;              (* os.Stat(p).Size() *)
  ReadFile : string -> result string string;
  ReadDir : string -> result string (list DirEntry)
}.

(** [yaml.Unmarshal] into the two structs. *)
Record Yaml := mkYaml {
  unmarshal_paths : string -> option runosYamlBuildPaths;
  unmarshal_env : string -> option runosYamlEnvRefs
}.

(** ** Patterns *)

Definition is_hex (c : ascii) : bool := in_range 48 57 c || in_range 97 102 c || in_range 65 70 c.

(** [^[0-9a-fA-F]{7,64}$] *)
Definition validateGitSHA (sha : string) : result string unit :=
  if (7 <=? slen sha) && (slen sha <=? 64) && all_chars is_hex sha then Ok tt
  else Err ("invalid sha " ++ sha ++ ": must be 7-64 hex characters").

(** [^runos\.service\.[^/\\]+\.yaml$] *)
Definition serviceYamlNamePattern (name : string) : bool :=
  HasPrefix name "runos.service." && HasSuffix name ".yaml" && (20 <=? slen name) &&
  all_chars (fun c => negb (Ascii.eqb c "/" || Ascii.eqb c "\"))
    (take_string (String.length name - 19) (drop_string 14 name)).

(** ** Env files *)

Definition dotenv_msg (e : DotenvError) : string :=
  match e with
  | NotUtf8 k => "env var " ++ k ++ " value is not valid UTF-8"
  | ControlByte k _ _ => "env var " ++ k ++ " value contains control byte"
  end.

Definition readEnvFileRef (fs : Files) (ref workdir configDir : string) (failOnMissing : bool) :
    result string (option (gmap string string)) :=
  if String.eqb ref "" then Ok None
  else
    match resolveInsideWorkdir workdir (Join2 (relTo workdir configDir) ref) with
    | Err e => Err ("invalid env file ref " ++ ref ++ ": " ++ e)
    | Ok resolved =>
        match Stat fs resolved with
        | Err (NotExist _) =>
            if failOnMissing then
              Err ("env file " ++ ref ++ " referenced by runos.yaml is not committed at this SHA (looked at " ++
                   default ref (Rel workdir resolved) ++ ")")
            else Ok None
        | Err (OtherFs e) => Err e
        | Ok size =>
            if maxManifestFileSize <? size then Err ("env file " ++ ref ++ " exceeds 1048576 byte limit")
            else
              match ReadFile fs resolved with
              | Err e => Err ("read env file " ++ ref ++ ": " ++ e)
              | Ok data =>
                  let parsed := parseDotenv data in
                  match validateDotenvValues parsed with
                  | Err e => Err ("env file " ++ ref ++ ": " ++ dotenv_msg e)
                  | Ok _ => Ok (Some parsed)
                  end
              end
        end
    end.

Definition resolveManifestEnvVars (fs : Files) (y : Yaml) (resolvedYamlPath workdir configDir : string) :
    result string (option (gmap string string) * option (gmap string string)) :=
  match ReadFile fs resolvedYamlPath with
  | Err e => Err e
  | Ok data =>
      match unmarshal_env y data with
      | None => Ok (None, None)
      | Some refs =>
          match readEnvFileRef fs (TrimSpace (Env refs)) workdir configDir true with
          | Err e => Err e
          | Ok plain =>
              match readEnvFileRef fs (TrimSpace (SecretEnv refs)) workdir configDir false with
              | Err e => Err e
              | Ok secret => Ok (plain, secret)
              end
          end
      end
  end.

(** ** The manifest and its sibling service files *)

Definition readRunosYaml (fs : Files) (y : Yaml) (resolvedPath workdir configDir : string) :
    result string (string * VcsWorkdirBuildPaths) :=
  let defaults := mkPaths workdir workdir workdir "Dockerfile" in
  match Stat fs resolvedPath with
  | Err (NotExist _) =>
      let rel := default "" (Rel workdir resolvedPath) in
      let rel := if String.eqb rel "" then resolvedPath else rel in
      Err ("runos.yaml not found at " ++ rel ++ " in the committed tree at this SHA.")
  | Err (OtherFs e) => Err e
  | Ok size =>
      if maxManifestFileSize <? size then Err "runos.yaml exceeds 1048576 byte limit"
      else
        match ReadFile fs resolvedPath with
        | Err e => Err e
        | Ok bytes =>
            let encoded := EncodeToString bytes in
            match unmarshal_paths y bytes with
            | None => Ok (encoded, defaults)
            | Some parsed =>
                let sourceDir := TrimSpace (SourceDir parsed) in
                let sourceDir := if String.eqb sourceDir "" then "." else sourceDir in
                match resolveInsideWorkdir workdir (Join2 (relTo workdir configDir) sourceDir) with
                | Err e => Err ("invalid sourceDir " ++ sourceDir ++ ": " ++ e)
                | Ok contextPath =>
                    let dockerfileRel := TrimSpace (Dockerfile parsed) in
                    let dockerfileRel := if String.eqb dockerfileRel "" then "Dockerfile" else dockerfileRel in
                    match resolveInsideWorkdir workdir (Join2 (relTo workdir contextPath) dockerfileRel) with
                    | Err e => Err ("invalid dockerfile " ++ dockerfileRel ++ ": " ++ e)
                    | Ok dockerfileFull =>
                        Ok (encoded, mkPaths workdir contextPath (Dir dockerfileFull) (Base dockerfileFull))
                    end
                end
            end
        end
  end.

Fixpoint read_entries (fs : Files) (configDir : string) (entries : list DirEntry) :
    result string (list VcsFetchSourceServiceYaml) :=
  match entries with
  | [] => Ok []
  | entry :: entries =>
      if IsDir entry then read_entries fs configDir entries
      else if negb (serviceYamlNamePattern (Name entry)) then read_entries fs configDir entries
      else
        match InfoSize entry with
        | Err e => Err ("stat " ++ Name entry ++ ": " ++ e)
        | Ok size =>
            if maxManifestFileSize <? size then Err (Name entry ++ " exceeds 1048576 byte limit")
            else
              match ReadFile fs (Join2 configDir (Name entry)) with
              | Err e => Err ("read " ++ Name entry ++ ": " ++ e)
              | Ok bytes =>
                  match read_entries fs configDir entries with
                  | Err e => Err e
                  | Ok services => Ok (mkServiceYaml (Name entry) (EncodeToString bytes) :: services)
                  end
              end
        end
  end.

Definition readSiblingServiceYamls (fs : Files) (configDir : string) :
    result string (list VcsFetchSourceServiceYaml) :=
  match ReadDir fs configDir with
  | Err e => Err e
  | Ok entries => read_entries fs configDir entries
  end.

(** ** Git *)

Inductive GitAnswer := GitOk | GitFailed (out : string) (timedOut : bool).

Definition git_steps (authedURL sha workdir : string) : list (list string) :=
  [["git"; "clone"; "--depth=1"; "--no-checkout"; authedURL; workdir];
   ["git"; "-C"; workdir; "fetch"; "--depth=1"; "origin"; sha];
   ["git"; "-C"; workdir; "checkout"; sha; "--"]].

Inductive FetchEvent :=
| EMkdirAll (dir : string)
| EGit (args : list string)
| ECachePut (osid sha : string) (paths : VcsWorkdirBuildPaths)
| ERemoveAll (dir : string).

Fixpoint run_steps (git : list string -> GitAnswer) (authedURL : string) (steps : list (list string)) :
    result string unit * list FetchEvent :=
  match steps with
  | [] => (Ok tt, [])
  | args :: steps =>
      match git args with
      | GitFailed out timedOut =>
          let msg := TrimSpace (replace_all (String.length out) out authedURL "<repoUrl>") in
          let cmd := nth 1 args "" in
          (Err (if timedOut then "git " ++ cmd ++ " timed out after 5m0s: " ++ msg
                else "git " ++ cmd ++ " failed: " ++ msg), [EGit args])
      | GitOk => let '(r, evs) := run_steps git authedURL steps in (r, EGit args :: evs)
      end
  end.

Definition gitFetchSHA (git : list string -> GitAnswer) (authedURL sha workdir : string) :
    result string unit * list FetchEvent :=
  run_steps git authedURL (git_steps authedURL sha workdir).

(** ** The workdir of a fetch *)

(** [rnd] is the four random bytes, or those of the clock when there are none. *)
Definition vcsWorkdirPathFor (tempDir rnd osid sha : string) : string :=
  let shortSha := if 7 <? slen sha then take_string 7 sha else sha in
  Join2 tempDir ("runos-vcs-build-" ++ osid ++ "-" ++ shortSha ++ "-" ++ hex_encode rnd).

Definition vcsWorkdirCacheKey (osid sha : string) : string := osid ++ ":" ++ sha.

(** ** The handler *)

Record FetchEnv := mkFetchEnv {
  decode_fetch : string -> result string VcsFetchSourceRequest;
  encode_fetch : VcsFetchSourceResponse -> result string string;
  tempDir : string;
  rnd : string;
  mkdirAll : string -> option string;
  git : list string -> GitAnswer;
  files : Files;                      (* the tree git leaves *)
  yaml : Yaml
}.

Definition fetch_failed (msg : string) : VcsFetchSourceResponse :=
  mkFetchResponse false "" "" [] None None msg.

(** From the creation of the workdir's parent to the response, with the cache
    entry a success puts. *)
Definition fetch_into (env : FetchEnv) (req : VcsFetchSourceRequest) (workdir : string) :
    VcsFetchSourceResponse * list FetchEvent :=
  let configPath := let p := TrimSpace (ConfigPath req) in if String.eqb p "" then "runos.yaml" else p in
  let parent := EMkdirAll (Dir workdir) in
  match mkdirAll env (Dir workdir) with
  | Some e => (fetch_failed ("could not create workdir parent: " ++ e), [parent])
  | None =>
      let '(r, gits) := gitFetchSHA (git env) (RepoCloneURL req) (SHA req) workdir in
      match r with
      | Err e => (fetch_failed e, parent :: gits)
      | Ok _ =>
          match resolveInsideWorkdir workdir configPath with
          | Err e => (fetch_failed ("invalid configPath " ++ configPath ++ ": " ++ e), parent :: gits)
          | Ok resolvedYamlPath =>
              let configDir := Dir resolvedYamlPath in
              match readRunosYaml (files env) (yaml env) resolvedYamlPath workdir configDir with
              | Err e => (fetch_failed ("read runos.yaml at " ++ configPath ++ ": " ++ e), parent :: gits)
              | Ok (runosYaml, paths) =>
                  match readSiblingServiceYamls (files env) configDir with
                  | Err e => (fetch_failed ("read service yamls in " ++ configDir ++ ": " ++ e), parent :: gits)
                  | Ok serviceYamls =>
                      match resolveManifestEnvVars (files env) (yaml env) resolvedYamlPath workdir configDir with
                      | Err e => (fetch_failed ("resolve env files for " ++ configPath ++ ": " ++ e), parent :: gits)
                      | Ok (plainEnv, secretEnv) =>
                          (mkFetchResponse true (vcsWorkdirCacheKey (OSID req) (SHA req)) runosYaml serviceYamls
                             plainEnv secretEnv "",
                           parent :: gits ++
                           [ECachePut (OSID req) (SHA req)
                              (mkPaths workdir (ContextPath paths) (DockerfileDir paths) (DockerfileFilename paths))])%list
                      end
                  end
              end
          end
      end
  end.

(** [reply]: the type, the encoded payload and the error. *)
Definition reply (env : FetchEnv) (payload : VcsFetchSourceResponse) : string * string * option string :=
  match encode_fetch env payload with
  | Err e => ("", "", Some e)
  | Ok encoded => ("VCS_FETCH_SOURCE_RESPONSE", encoded, None)
  end.

(** The response, and the events with the deferred removal last. *)
Definition fetch_source (env : FetchEnv) (req : VcsFetchSourceRequest) :
    VcsFetchSourceResponse * list FetchEvent :=
  if String.eqb (OSID req) "" || String.eqb (SHA req) "" || String.eqb (RepoCloneURL req) "" then
    (fetch_failed "osid, sha, and repoCloneUrl are required", [])
  else
    match validateGitSHA (SHA req) with
    | Err e => (fetch_failed e, [])
    | Ok _ =>
        let workdir := vcsWorkdirPathFor (tempDir env) (rnd env) (OSID req) (SHA req) in
        let '(resp, evs) := fetch_into env req workdir in
        (resp, if Success resp then evs else (evs ++ [ERemoveAll workdir])%list)
    end.

Definition VcsFetchSource (env : FetchEnv) (jsonB64 : string) :
    (string * string * option string) * list FetchEvent :=
  match decode_fetch env jsonB64 with
  | Err e => (("", "", Some e), [])
  | Ok req => let '(resp, evs) := fetch_source env req in (reply env resp, evs)
  end.

(** ** Theorems: env files *)

(** An answer of the file system only at paths inside [workdir]. *)
Definition agree_inside (workdir : string) (fs fs' : Files) : Prop :=
  forall p, inside workdir p -> Stat fs p = Stat fs' p /\ ReadFile fs p = ReadFile fs' p.

Lemma resolve_inside workdir rel p :
  is_rooted workdir = true -> clean_elems workdir <> [] ->
  resolveInsideWorkdir workdir rel = Ok p -> inside workdir p /\ is_rooted p = true /\ Clean p = p.
Proof.
  intros Hr Hne. destruct (Join2_elems workdir rel Hr) as [Hj _].
  unfold resolveInsideWorkdir. destruct (IsAbs rel); [done|].
  destruct (escapes _ _) eqn:Hesc; [done|]. intros [= <-].
  apply (guard_inside workdir _ Hr Hne Hj) in Hesc. unfold inside in *.
  rewrite clean_elems_Clean by done. split; [done|]. split; [by apply Clean_is_rooted|by apply Clean_idem].
Qed.

(** Closes a branch whose hypotheses contradict each other. *)
Ltac contra :=
  intros; repeat match goal with
  | H : _ \/ _ |- _ => destruct H
  | _ => progress open_hyps
  end; simplify_eq/=;
  repeat match goal with
  | H1 : ?x = Ok _, H2 : ?x = _ |- _ => rewrite H1 in H2; simplify_eq/=
  | H1 : ?x = Err _, H2 : ?x = _ |- _ => rewrite H1 in H2; simplify_eq/=
  end; try lia; try congruence.

(** Env files of a checkout. A reference is read from inside the workdir
    only (nothing outside it can change the answer); the answer is a map
    exactly when a file is there, is at most one megabyte and holds acceptable
    values, and then it is that file's map, an empty one included; the answer
    "not set" is given only to an empty reference or, for the secret file, to a
    missing one; a missing plain file is an error. *)
Theorem readEnvFileRef_spec fs ref workdir configDir failOnMissing :
  is_rooted workdir = true -> clean_elems workdir <> [] ->
  let run fs := readEnvFileRef fs ref workdir configDir failOnMissing in
  let target := resolveInsideWorkdir workdir (Join2 (relTo workdir configDir) ref) in
  (forall fs', agree_inside workdir fs fs' -> run fs = run fs') /\
  (forall m, run fs = Ok (Some m) <->
     ref <> "" /\ exists p size data, target = Ok p /\ Stat fs p = Ok size /\ size <= 1048576 /\
       ReadFile fs p = Ok data /\ m = parseDotenv data /\ is_ok (validateDotenvValues m) = true) /\
  (run fs = Ok None <->
     ref = "" \/ failOnMissing = false /\ exists p e, target = Ok p /\ Stat fs p = Err (NotExist e)).
Proof.
  intros Hr Hne. cbv zeta. unfold readEnvFileRef, agree_inside.
  change maxManifestFileSize with 1048576.
  destruct (String.eqb_spec ref "") as [->|Href].
  { split; [done|]. split; [intros m; split; contra|]. split; [by left|done]. }
  destruct (resolveInsideWorkdir _ _) as [p|e] eqn:Hp.
  2: { split; [done|]. split; [intros m|]; split; try done; contra. }
  destruct (resolve_inside _ _ _ Hr Hne Hp) as [Hin _]. split.
  { intros fs' Ha. by destruct (Ha p Hin) as [-> ->]. }
  destruct (Stat fs p) as [size|[e|e]] eqn:Hs; [|destruct failOnMissing|].
  - destruct (Z.ltb_spec 1048576 size) as [Hlt|Hle].
    { split; [intros m|]; split; try done; contra. }
    destruct (ReadFile fs p) as [data|e] eqn:Hd.
    2: { split; [intros m|]; split; try done; contra. }
    destruct (validateDotenvValues (parseDotenv data)) as [[]|e] eqn:Hv.
    + split; [intros m; split|split; [done|contra]].
      * intros [= <-]. split; [done|]. exists p, size, data. by rewrite Hv.
      * intros (_ & p' & size' & data' & [= <-] & _ & _ & Hd' & -> & _). congruence.
    + split; [intros m; split; [done|]|split; [done|contra]].
      intros (_ & p' & size' & data' & [= <-] & _ & _ & Hd' & -> & Hv').
      rewrite Hd in Hd'. injection Hd' as <-. by rewrite Hv in Hv'.
  - split; [intros m|]; split; try done; contra.
  - split; [intros m; split; try done; contra|]. split; [|done]. intros _. right. eauto.
  - split; [intros m|]; split; try done; contra.
Qed.

(** A file system with one file. *)
Definition one_file (path data : string) : Files :=
  mkFiles (fun p => if String.eqb p path then Ok (slen data) else Err (NotExist "no such file"))
    (fun p => if String.eqb p path then Ok data else Err "no such file") (fun _ => Ok []).

Lemma readEnvFileRef_spec_witness :
  readEnvFileRef (one_file "/tmp/w/app/.config.env" ("A=1" ++ String nl "")) ".config.env" "/tmp/w" "/tmp/w/app" true
    = Ok (Some {["A" := "1"]}) /\
  readEnvFileRef (one_file "/tmp/w/app/.config.env" "") ".secret.env" "/tmp/w" "/tmp/w/app" false = Ok None.
Proof.
  split.
  - apply (readEnvFileRef_spec (one_file "/tmp/w/app/.config.env" ("A=1" ++ String nl "")) ".config.env"
      "/tmp/w" "/tmp/w/app" true); [reflexivity|discriminate|]. split; [discriminate|].
    exists "/tmp/w/app/.config.env", 4, ("A=1" ++ String nl ""). vm_compute. repeat split; discriminate.
  - apply (readEnvFileRef_spec (one_file "/tmp/w/app/.config.env" "") ".secret.env" "/tmp/w" "/tmp/w/app" false);
      [reflexivity|discriminate|].
    right. split; [reflexivity|]. exists "/tmp/w/app/.secret.env", "no such file". vm_compute. done.
Defined.

(** ** Theorems: build paths *)

(** A clean absolute path other than the root is its directory and its base
    name joined. *)
Lemma Join2_Dir_Base p :
  is_rooted p = true -> Clean p = p -> clean_elems p <> [] -> Join2 (Dir p) (Base p) = p.
Proof.
  intros Hr Hc Hne. pose proof (clean_elems_proper p Hr) as Hp. rewrite (Clean_rooted p Hr) in Hc.
  rewrite <- Hc at 1 2. revert Hp Hc.
  destruct (exists_last Hne) as (es & e & ->). intros Hp Hc.
  rewrite Dir_abs, Base_abs by done.
  unfold Join2. rewrite is_rooted_nonempty by apply is_rooted_slash.
  destruct (Join2_elems (abs_path es) e) as [Hj Hj']; [apply is_rooted_slash|].
  apply Forall_app in Hp as [Hes He]. apply (proj1 (Forall_singleton _ _)) in He; cbv beta in He.
  unfold Join2 in Hj, Hj'. rewrite is_rooted_nonempty in Hj, Hj' by apply is_rooted_slash.
  set (q := Clean _) in *. assert (Clean q = q) as <-.
  { apply Clean_idem, is_rooted_app, is_rooted_slash. }
  rewrite (Clean_rooted q Hj), Hj', clean_abs_path by done.
  rewrite (Split_no_slash e) by (by apply proper_no_slash1).
  rewrite fold_proper_push by (by repeat constructor).
  simpl. by rewrite rev_involutive.
Qed.

Lemma inside_nonempty root p : clean_elems root <> [] -> inside root p -> clean_elems p <> [].
Proof. intros Hne [rest Heq] Hn. rewrite Hn in Heq. by destruct (clean_elems root). Qed.

(** The build paths of a manifest. Whatever the YAML says, the context
    directory and the Dockerfile (its directory and name joined) lie in the
    workdir's tree; a manifest that would leave it is an error, a missing or
    oversized one too, and one that does not parse gets the defaults. *)
Theorem readRunosYaml_paths_inside fs y p workdir configDir enc paths :
  is_rooted workdir = true -> clean_elems workdir <> [] ->
  readRunosYaml fs y p workdir configDir = Ok (enc, paths) ->
  Workdir paths = workdir /\
  inside workdir (ContextPath paths) /\
  inside workdir (Join2 (DockerfileDir paths) (DockerfileFilename paths)) /\
  exists size data, Stat fs p = Ok size /\ size <= 1048576 /\ ReadFile fs p = Ok data /\ enc = EncodeToString data.
Proof.
  intros Hr Hne. unfold readRunosYaml. change maxManifestFileSize with 1048576.
  destruct (Stat fs p) as [size|[]]; [|done|done].
  destruct (Z.ltb_spec 1048576 size) as [|Hsize]; [done|].
  destruct (ReadFile fs p) as [data|]; [|done].
  assert (forall paths', Workdir paths' = workdir /\ inside workdir (ContextPath paths') /\
    inside workdir (Join2 (DockerfileDir paths') (DockerfileFilename paths')) ->
    Ok (EncodeToString data, paths') = @Ok string _ (enc, paths) ->
    Workdir paths = workdir /\ inside workdir (ContextPath paths) /\
    inside workdir (Join2 (DockerfileDir paths) (DockerfileFilename paths)) /\
    exists size0 data0, @Ok FsError _ size = Ok size0 /\ size0 <= 1048576 /\
      @Ok string _ data = Ok data0 /\ enc = EncodeToString data0) as Hk.
  { intros paths' (? & ? & ?) [= <- <-]. eauto 10. }
  destruct (unmarshal_paths y data) as [parsed|].
  - destruct (resolveInsideWorkdir workdir (Join2 (relTo workdir configDir) _)) as [ctx|] eqn:Hctx; [|done].
    destruct (resolveInsideWorkdir workdir (Join2 (relTo workdir ctx) _)) as [full|] eqn:Hfull; [|done].
    apply resolve_inside in Hctx as (Hin & _ & _), Hfull as (Hin' & Hrf & Hcf); [|done..].
    apply Hk. simpl. split; [done|]. split; [done|].
    rewrite Join2_Dir_Base; [done|done|done|]. by eapply inside_nonempty.
  - apply Hk. simpl. split; [done|]. split; [by unfold inside|].
    unfold inside. destruct (Join2_elems workdir "Dockerfile" Hr) as [_ ->].
    exists ["Dockerfile"]. simpl. by rewrite rev_involutive.
Qed.

Lemma readRunosYaml_paths_inside_witness :
  let y := mkYaml (fun _ => Some (mkYamlPaths "../src" "docker/Dockerfile")) (fun _ => None) in
  readRunosYaml (one_file "/tmp/w/app/runos.yaml" "x") y "/tmp/w/app/runos.yaml" "/tmp/w" "/tmp/w/app" =
    Ok ("eA==", mkPaths "/tmp/w" "/tmp/w/src" "/tmp/w/src/docker" "Dockerfile") /\
  inside "/tmp/w" "/tmp/w/src".
Proof.
  intros y.
  assert (readRunosYaml (one_file "/tmp/w/app/runos.yaml" "x") y "/tmp/w/app/runos.yaml" "/tmp/w" "/tmp/w/app" =
    Ok ("eA==", mkPaths "/tmp/w" "/tmp/w/src" "/tmp/w/src/docker" "Dockerfile")) as Hy by (vm_compute; reflexivity).
  split; [exact Hy|].
  apply (readRunosYaml_paths_inside (one_file "/tmp/w/app/runos.yaml" "x") y "/tmp/w/app/runos.yaml" "/tmp/w" "/tmp/w/app"
    "eA==" (mkPaths "/tmp/w" "/tmp/w/src" "/tmp/w/src/docker" "Dockerfile"));
    [reflexivity|discriminate|exact Hy].
Defined.

(** The directory alone may be outside: a manifest whose [dockerfile] is "."
    names the workdir itself, whose directory is the shared temporary
    directory. *)
Lemma readRunosYaml_dockerfile_dir_outside :
  let y := mkYaml (fun _ => Some (mkYamlPaths "" ".")) (fun _ => None) in
  exists paths,
    readRunosYaml (one_file "/tmp/w/runos.yaml" "x") y "/tmp/w/runos.yaml" "/tmp/w" "/tmp/w" = Ok ("eA==", paths) /\
    DockerfileDir paths = "/tmp" /\ ~ inside "/tmp/w" (DockerfileDir paths).
Proof.
  eexists. split; [vm_compute; reflexivity|]. split; [reflexivity|].
  intros [rest H]. vm_compute in H. discriminate.
Qed.

(** ** Theorems: the handler *)

Lemma run_steps_prefix git url steps r evs :
  run_steps git url steps = (r, evs) ->
  exists n, evs = map EGit (take n steps) /\
    (is_ok r = true -> evs = map EGit steps) /\
    Forall (fun s => git s = GitOk) (take (pred (length evs)) steps).
Proof.
  revert r evs. induction steps as [|s steps IH]; simpl; intros r evs.
  - intros [= <- <-]. exists O. simpl. repeat split. constructor.
  - destruct (git s) eqn:Hg.
    + destruct (run_steps git url steps) as [r' evs'] eqn:Hs. intros [= <- <-].
      destruct (IH _ _ eq_refl) as (n & Hn & Hok & Hall). exists (S n). simpl. split; [by rewrite Hn|]. split.
      * intros H. by rewrite Hok.
      * destruct evs' as [|e evs']; simpl in *; [constructor|]. by constructor.
    + intros [= <- <-]. exists 1%nat. simpl. split; [by destruct steps|]. split; [done|constructor].
Qed.

Ltac fetch_fails Hfail :=
  intros H; pose proof (Hfail _ H) as (n' & t & -> & Hs' & ->); rewrite Hs'; by exists n', [].

(** What a fetch leaves behind. *)
Lemma fetch_into_events env req workdir resp evs :
  fetch_into env req workdir = (resp, evs) ->
  exists n tail,
    evs = (EMkdirAll (Dir workdir) :: map EGit (take n (git_steps (RepoCloneURL req) (SHA req) workdir)) ++ tail)%list /\
    if Success resp then
      (3 <= n)%nat /\ WorkdirCacheKey resp = vcsWorkdirCacheKey (OSID req) (SHA req) /\
      exists paths p, tail = [ECachePut (OSID req) (SHA req) paths] /\ Workdir paths = workdir /\
        (exists enc paths', readRunosYaml (files env) (yaml env) p workdir (Dir p) = Ok (enc, paths') /\
           RunosYamlBase64 resp = enc /\
           paths = mkPaths workdir (ContextPath paths') (DockerfileDir paths') (DockerfileFilename paths'))
    else tail = [].
Proof.
  unfold fetch_into. destruct (mkdirAll env (Dir workdir)).
  { intros [= <- <-]. exists O, []. done. }
  destruct (gitFetchSHA _ _ _ _) as [r gits] eqn:Hg.
  apply run_steps_prefix in Hg as (n & Hgits & Hok & _).
  assert (forall msg, (fetch_failed msg, EMkdirAll (Dir workdir) :: gits) = (resp, evs) ->
    exists n tail,
    evs = (EMkdirAll (Dir workdir) :: map EGit (take n (git_steps (RepoCloneURL req) (SHA req) workdir)) ++ tail)%list /\
    (Success resp = false /\ tail = [])) as Hfail.
  { intros msg [= <- <-]. exists n, []. by rewrite app_nil_r, Hgits. }
  destruct r; [|fetch_fails Hfail].
  destruct (resolveInsideWorkdir _ _) as [p|]; [|fetch_fails Hfail].
  destruct (readRunosYaml _ _ _ _ _) as [[enc paths]|] eqn:Hy; [|fetch_fails Hfail].
  destruct (readSiblingServiceYamls _ _); [|fetch_fails Hfail].
  destruct (resolveManifestEnvVars _ _ _ _ _) as [[plain secret]|]; [|fetch_fails Hfail].
  intros [= <- <-]. simpl. eexists 3%nat, _. split; [rewrite (Hok eq_refl); reflexivity|].
  split; [done|]. split; [done|]. eexists _, p. split; [reflexivity|]. split; [done|]. eauto.
Qed.

Lemma in_git_events dir args n steps tail :
  In (EGit args) (EMkdirAll dir :: map EGit (take n steps) ++ tail)%list ->
  In args steps \/ In (EGit args) tail.
Proof.
  intros [[=]|H]. apply in_app_or in H as [H|H]; [left|by right].
  apply in_map_iff in H as (x & [= ->] & Hx). rewrite <- (take_drop n steps). apply in_or_app. by left.
Qed.

Lemma no_put_events dir n steps tail o s p :
  In (ECachePut o s p) (EMkdirAll dir :: map EGit (take n steps) ++ tail)%list -> In (ECachePut o s p) tail.
Proof.
  intros [[=]|H]. apply in_app_or in H as [H|H]; [|done]. by apply in_map_iff in H as (x & [=] & _).
Qed.

(** C35: A fetch leaves a workdir on disk exactly when it answers success. On
    success all three git commands ran, the cache maps the request's pair to
    the fresh workdir as the last event, and nothing is removed; on failure the
    cache is not touched, and once a workdir was chosen its removal is the last
    event. Git is run only with the three fixed argument lists, and only for a
    SHA of 7 to 64 hexadecimal digits, which no option can look like. *)
Theorem fetch_source_workdir env req :
  let '(resp, evs) := fetch_source env req in
  let workdir := vcsWorkdirPathFor (tempDir env) (rnd env) (OSID req) (SHA req) in
  let steps := git_steps (RepoCloneURL req) (SHA req) workdir in
  (Success resp = true ->
     (forall s, In s steps -> In (EGit s) evs) /\ (forall d, ~ In (ERemoveAll d) evs) /\
     exists paths, last evs = Some (ECachePut (OSID req) (SHA req) paths) /\ Workdir paths = workdir) /\
  (Success resp = false ->
     (forall o s p, ~ In (ECachePut o s p) evs) /\ (evs = [] \/ last evs = Some (ERemoveAll workdir))) /\
  (forall args, In (EGit args) evs ->
     In args steps /\ 7 <= slen (SHA req) <= 64 /\ all_chars is_hex (SHA req) = true).
Proof.
  unfold fetch_source.
  assert (forall msg (P Q : Prop) (R : list string -> Prop),
    (Success (fetch_failed msg) = true -> P) /\
    (Success (fetch_failed msg) = false ->
       (forall o s p, ~ In (ECachePut o s p) []) /\ (@nil FetchEvent = [] \/ Q)) /\
    (forall args, In (EGit args) [] -> R args)) as Hnone.
  { intros msg P Q R. split; [done|]. split; [|done]. intros _. split; [auto|by left]. }
  destruct (_ || _ || _); [by apply Hnone|].
  unfold validateGitSHA. destruct ((7 <=? _) && _ && _) eqn:Hsha; [|by apply Hnone].
  apply andb_prop in Hsha as [[H7 H64]%andb_prop Hhex].
  apply Z.leb_le in H7, H64. cbv zeta. set (workdir := vcsWorkdirPathFor _ _ _ _).
  destruct (fetch_into env req workdir) as [resp evs] eqn:Hf.
  apply fetch_into_events in Hf as (n & tail & -> & Hs). destruct (Success resp).
  - destruct Hs as (Hn & _ & paths & p & -> & Hw & _). rewrite take_ge by (simpl; lia). split; [|split; [done|]].
    + intros _. split; [|split].
      * intros s Hin. right. apply in_or_app. left. by apply in_map.
      * intros d Hin. destruct Hin as [[=]|Hin]. apply in_app_or in Hin as [Hin|[[=]|[]]].
        by apply in_map_iff in Hin as (x & [=] & _).
      * exists paths. split; [|done]. by rewrite app_comm_cons, last_snoc.
    + intros args Hin. split; [|done]. destruct Hin as [[=]|Hin]. apply in_app_or in Hin as [Hin|[[=]|[]]].
      by apply in_map_iff in Hin as (x & [= ->] & ?).
  - subst tail. rewrite app_nil_r. split; [done|]. split.
    + intros _. split.
      * intros o s p Hin. rewrite <- app_comm_cons in Hin. by apply no_put_events in Hin as [[=]|[]].
      * right. by rewrite last_snoc.
    + intros args Hin. split; [|done]. rewrite <- app_comm_cons in Hin.
      by apply in_git_events in Hin as [|[[=]|[]]].
Qed.
