(* ===== verification/Workdir.v ===== *)
(** * The workdir cache and the build instruction
      ([src/agentstream/instructions/vcs_workdir_cache.go], [vcs_build.go])

    The cache is a [sync.Map] from "<osid>:<sha>" to entries; next to it the
    model keeps the workdirs that exist on disk. A build is a handler that
    answers at once and a goroutine that runs the executor and cleans up. *)
From stdpp Require Import gmap.
From S2P Require Import Prelude GoStrings Drain Db BuildJobs BuildKit Upload Deploy Manifest.
Local Open Scope string_scope.
Local Open Scope Z_scope.

(** ** The cache *)

Record vcsWorkdirEntry := mkWdEntry {
  path : string;
  createdAt : Z;
  contextPath : string;
  dockerfileDir : string;
  dockerfileFilename : string
}.

#[export] Instance vcsWorkdirEntry_eq_dec : EqDecision vcsWorkdirEntry.
Proof. solve_decision. Defined.

Definition vcsWorkdirTTL : Z := 30 * Minute.

Abbreviation Cache := (gmap string vcsWorkdirEntry).

Definition vcsWorkdirCachePut (osid sha : string) (paths : VcsWorkdirBuildPaths) (now : Z) (c : Cache) : Cache :=
  <[vcsWorkdirCacheKey osid sha :=
      mkWdEntry (Workdir paths) now (ContextPath paths) (DockerfileDir paths) (DockerfileFilename paths)]> c.

Definition vcsWorkdirCacheGet (osid sha : string) (now : Z) (c : Cache) : option VcsWorkdirBuildPaths :=
  match c !! vcsWorkdirCacheKey osid sha with
  | None => None
  | Some entry =>
      if vcsWorkdirTTL <? now - createdAt entry then None
      else Some (mkPaths (path entry) (contextPath entry) (dockerfileDir entry) (dockerfileFilename entry))
  end.

Definition vcsWorkdirCacheDeleteIfPath (osid sha expectedPath : string) (c : Cache) : Cache :=
  let key := vcsWorkdirCacheKey osid sha in
  match c !! key with
  | None => c
  | Some entry => if negb (String.eqb (path entry) expectedPath) then c else delete key c
  end.

(** The cache and the disk. A failing [os.RemoveAll] is only logged by the
    code; here removals succeed. *)
Record Scratch := mkScratch { cache : Cache; disk : gset string }.

Definition RemoveAll (p : string) (s : Scratch) : Scratch := mkScratch (cache s) (disk s ∖ {[p]}).

Definition sweep_entry (now : Z) (key : string) (entry : vcsWorkdirEntry) (s : Scratch) : Scratch :=
  if now - createdAt entry <=? vcsWorkdirTTL then s
  else RemoveAll (path entry) (mkScratch (delete key (cache s)) (disk s)).

Definition sweepVcsWorkdirCache (now : Z) (s : Scratch) : Scratch :=
  foldr (fun '(k, e) s => sweep_entry now k e s) s (map_to_list (cache s)).

(** [VcsBuildExecutorInput.Cleanup]. *)
Definition Cleanup (osid sha workdir : string) (s : Scratch) : Scratch :=
  let s := RemoveAll workdir s in
  mkScratch (vcsWorkdirCacheDeleteIfPath osid sha workdir (cache s)) (disk s).

(** ** VCS_BUILD *)

Record VcsBuildRequest := mkBuildRequest {
  br_OSID : string;
  br_SHA : string;
  br_JobID : string;
  br_RepoCloneURL : string;
  br_Branch : string;
  br_BuildArgs : list BuildArg;
  br_BuildOnly : bool
}.

Record VcsBuildResponse := mkBuildResponse { vb_Success : bool; vb_JobID : string; vb_Message : string }.

(** [parse_strip raw] is [url.Parse], [User = nil] and [String]. *)
Definition stripURLCredentials (parse_strip : string -> option string) (raw : string) : string :=
  if String.eqb raw "" then "" else default "" (parse_strip raw).

Record BuildEnv := mkBuildEnv {
  decode_build : string -> result string VcsBuildRequest;
  encode_build : VcsBuildResponse -> result string string;
  executor_set : bool;
  uuid8 : string;                       (* uuid.New().String()[:8] *)
  parse_strip : string -> option string
}.

Section Build.
Context {DB : Type} {DBI : Database DB}.

Record Agent := mkAgent { ag_tracker : World; ag_store : DB; ag_scratch : Scratch }.

(** What the goroutine runs: the executor's input, then the end of its unit. *)
Record Started := mkStarted { st_unit : nat; st_input : VcsBuildExecutorInput }.

Definition build_refused (msg : string) : VcsBuildResponse := mkBuildResponse false "" msg.

(** After [beginWork] admitted the build as a unit. *)
Definition build_admitted (env : BuildEnv) (req : VcsBuildRequest) (now : Z) (c : Cache) (db : DB) :
    VcsBuildResponse * option VcsBuildExecutorInput * DB :=
  if negb (executor_set env) then
    (build_refused "VCS build executor not registered (cluster agent misconfigured)", None, db)
  else
    match vcsWorkdirCacheGet (br_OSID req) (br_SHA req) now c with
    | None =>
        (build_refused "no fetched workdir for osid+sha; caller must run VCS_FETCH_SOURCE first (or the cache TTL expired)",
         None, db)
    | Some paths =>
        let buildJobID := br_JobID req ++ "-" ++ uuid8 env in
        let cleanRepoURL := stripURLCredentials (parse_strip env) (br_RepoCloneURL req) in
        match CreateBuildKitJob buildJobID (br_OSID req) cleanRepoURL (br_Branch req) (br_SHA req) db with
        | (Err e, db) => (build_refused ("create build job row: " ++ e), None, db)
        | (Ok _, db) =>
            (mkBuildResponse true buildJobID "",
             Some (mkVcsInput (Workdir paths) (br_OSID req) buildJobID (br_SHA req) (ContextPath paths)
                     (DockerfileDir paths) (DockerfileFilename paths) (br_BuildArgs req) (br_BuildOnly req)
                     cleanRepoURL (br_Branch req)),
             db)
        end
    end.

(** The response to a decoded request, and the goroutine it starts. *)
Definition vcs_build (env : BuildEnv) (req : VcsBuildRequest) (now : Z) (s : Agent) :
    VcsBuildResponse * option Started * Agent :=
  if String.eqb (br_OSID req) "" || String.eqb (br_SHA req) "" || String.eqb (br_JobID req) "" then
    (build_refused "osid, sha, and jobId are required", None, s)
  else
    match Begin (ag_tracker s) with
    | (Err e, w) => (build_refused (begin_error e), None, mkAgent w (ag_store s) (ag_scratch s))
    | (Ok u, w) =>
        let '(resp, input, db) := build_admitted env req now (cache (ag_scratch s)) (ag_store s) in
        match input with
        | None => (resp, None, mkAgent (end_unit u w) db (ag_scratch s))
        | Some i => (resp, Some (mkStarted u i), mkAgent w db (ag_scratch s))
        end
    end.

Definition replyVcsBuild (env : BuildEnv) (payload : VcsBuildResponse) : string * string * option string :=
  match encode_build env payload with
  | Err e => ("", "", Some e)
  | Ok encoded => ("VCS_BUILD_RESPONSE", encoded, None)
  end.

Definition VcsBuild (env : BuildEnv) (jsonB64 : string) (now : Z) (s : Agent) :
    (string * string * option string) * option Started * Agent :=
  match decode_build env jsonB64 with
  | Err e => (("", "", Some e), None, s)
  | Ok req => let '(resp, st, s) := vcs_build env req now s in (replyVcsBuild env resp, st, s)
  end.

(** The end of the goroutine: the executor's deferred cleanup, then [end]. *)
Definition build_over (st : Started) (s : Agent) : Agent :=
  let i := st_input st in
  mkAgent (end_unit (st_unit st) (ag_tracker s)) (ag_store s)
    (Cleanup (vi_OSID i) (vi_SHA i) (vi_Workdir i) (ag_scratch s)).
End Build.

(** ** Builds and rows *)

Section BuildProps.
Context {DB : Type} {DBI : Database DB} {DBL : DatabaseLaws DB}.

Lemma create_cases j o r b c (db : DB) :
  let '(res, db') := CreateBuildKitJob j o r b c db in
  match res with
  | Ok _ => ~ In j (map JobID (jobs_t (tables db))) /\ exists now i,
      tables db' = set_jobs (jobs_t (tables db) ++ [mkJob i j o r b c JobStatusPending now now None])%list (tables db)
  | Err _ => tables db' = tables db
  end.
Proof.
  unfold CreateBuildKitJob, activeDB. destruct (handle db); [|done].
  set (st := insert_job _ _). pose proof (stmt_spec _ st db) as H. destruct (stmt st db) as [res db'].
  cbn [fst snd] in H. destruct H as [[-> ->]|(e & -> & ->)]; [|done].
  unfold st, insert_job. destruct (existsb _ _) eqn:He; [done|]. simpl. split; [|eauto].
  intros (m & Hm & Hin)%in_map_iff. assert (existsb (has_job j) (jobs_t (tables db)) = true) as Hc; [|congruence].
  apply existsb_exists. exists m. split; [done|]. unfold has_job. by apply String.eqb_eq.
Qed.

(** C12: A build instruction starts a build exactly when it answers success.
    Then it owns one new unit of the drain tracker, its row is new, pending and
    carries the request's app and commit, and its paths are those of the cached
    workdir; otherwise no goroutine is left, the rows are as they were and the
    tracker's running set too, so a refused build never leaves a row behind. *)
Theorem vcs_build_accounting env req now (s : @Agent DB) :
  reachable (ag_tracker s) ->
  let '(resp, st, s') := vcs_build env req now s in
  ag_scratch s' = ag_scratch s /\
  match st with
  | Some g =>
      vb_Success resp = true /\ vb_JobID resp = br_JobID req ++ "-" ++ uuid8 env /\
      (st_unit g ∉ running (ag_tracker s)) /\
      running (ag_tracker s') = ({[st_unit g]} ∪ running (ag_tracker s)) /\
      vcsWorkdirCacheGet (br_OSID req) (br_SHA req) now (cache (ag_scratch s)) =
        Some (mkPaths (vi_Workdir (st_input g)) (vi_ContextPath (st_input g))
                (vi_DockerfileDir (st_input g)) (vi_DockerfileFilename (st_input g))) /\
      ~ In (vb_JobID resp) (map JobID (jobs_t (tables (ag_store s)))) /\
      exists at_ i, tables (ag_store s') =
        set_jobs (jobs_t (tables (ag_store s)) ++
          [mkJob i (vb_JobID resp) (br_OSID req) (vi_Repo (st_input g)) (br_Branch req) (br_SHA req)
             JobStatusPending at_ at_ None])%list (tables (ag_store s))
  | None =>
      vb_Success resp = false /\ tables (ag_store s') = tables (ag_store s) /\
      running (ag_tracker s') = running (ag_tracker s)
  end.
Proof.
  intros Hw. unfold vcs_build. destruct (_ || _ || _); [done|].
  destruct (Begin (ag_tracker s)) as [[u|e] w] eqn:Hb.
  2: { simpl. assert (w = ag_tracker s) as -> by (unfold Begin in Hb; cases; congruence). done. }
  destruct (Begin_unit _ _ _ Hb) as (Hr & Hn & _). pose proof (begin_end _ _ _ Hw Hb) as He.
  unfold build_admitted. destruct (executor_set env); [|done]. cbn [negb].
  destruct (vcsWorkdirCacheGet _ _ _ _) as [[wd cp dd df]|]; [|done].
  set (repo := stripURLCredentials _ _).
  pose proof (create_cases (br_JobID req ++ "-" ++ uuid8 env) (br_OSID req) repo (br_Branch req) (br_SHA req) (ag_store s)) as Hc.
  destruct (CreateBuildKitJob _ _ _ _ _ _) as [[[]|e] db]; [|done]. simpl.
  destruct Hc as (Hnew & at_ & i & Ht). repeat (split; [done|]). eauto.
Qed.
End BuildProps.

(** ** The cache and the disk *)

Definition expired (now : Z) (e : vcsWorkdirEntry) : bool := vcsWorkdirTTL <? now - createdAt e.

Lemma sweep_list now l s :
  NoDup l.*1 -> (forall k e, (k, e) ∈ l -> cache s !! k = Some e) ->
  let s' := foldr (fun '(k, e) s => sweep_entry now k e s) s l in
  (forall k e, cache s' !! k = Some e <-> cache s !! k = Some e /\ ~ ((k, e) ∈ l /\ expired now e = true)) /\
  (forall d, d ∈ disk s' <-> d ∈ disk s /\ ~ exists k e, (k, e) ∈ l /\ expired now e = true /\ path e = d).
Proof.
  intros Hnd Hin. induction l as [|[h x] l IH]; simpl.
  { split; [set_solver|]. intros d. split; [|by intros [? _]]. intros H. split; [done|].
    by intros (k & e & ?%elem_of_nil & _). }
  apply NoDup_cons in Hnd as [Hnot Hnd]. destruct IH as [Hc Hd]; [done|set_solver|].
  set (s' := foldr _ s l) in *. unfold sweep_entry, RemoveAll.
  assert (cache s !! h = Some x) as Hh by (apply Hin; set_solver).
  replace (now - createdAt x <=? vcsWorkdirTTL) with (negb (expired now x))
    by (unfold expired; by rewrite <- Z.leb_antisym).
  destruct (expired now x) eqn:He; simpl.
  - split.
    + intros k e. rewrite lookup_delete_Some, Hc, elem_of_cons. split.
      * intros (Hne & Hk & Hn). split; [done|]. intros [[[= -> ->]|]]; [done|]. auto.
      * intros (Hk & Hn). split; [|split; [done|tauto]]. intros ->. apply Hn. rewrite Hh in Hk. simplify_eq. tauto.
    + intros d. rewrite elem_of_difference, Hd, elem_of_singleton. split.
      * intros [[H1 H2] H3]. split; [done|]. intros (k & e & [[= -> ->]|Hke]%elem_of_cons & He' & Hp); [done|].
        apply H2. eauto.
      * intros [H1 H2]. split; [split; [done|]|].
        -- intros (k & e & Hke & ?). apply H2. exists k, e. rewrite elem_of_cons. auto.
        -- intros ->. apply H2. exists h, x. rewrite elem_of_cons. auto.
  - split.
    + intros k e. rewrite Hc, elem_of_cons. split.
      * intros (Hk & Hn). split; [done|]. intros [[[= -> ->]|] ?]; [congruence|]. auto.
      * intros (Hk & Hn). split; [done|tauto].
    + intros d. rewrite Hd. split; intros [H1 H2]; (split; [done|]); intros (k & e & Hke & He' & Hp); apply H2.
      * apply elem_of_cons in Hke as [[= -> ->]|Hke]; [congruence|]. eauto.
      * exists k, e. rewrite elem_of_cons. auto.
Qed.

(** The sweep removes exactly the expired entries and their workdirs. *)
Lemma sweep_spec now s :
  let s' := sweepVcsWorkdirCache now s in
  (forall k e, cache s' !! k = Some e <-> cache s !! k = Some e /\ expired now e = false) /\
  (forall d, d ∈ disk s' <->
     d ∈ disk s /\ ~ exists k e, cache s !! k = Some e /\ expired now e = true /\ path e = d).
Proof.
  destruct (sweep_list now (map_to_list (cache s)) s) as [Hc Hd];
    [apply NoDup_fst_map_to_list|intros k e; apply elem_of_map_to_list|]. split.
  - intros k e. rewrite (Hc k e), elem_of_map_to_list. destruct (expired now e); naive_solver.
  - intros d. rewrite (Hd d). by setoid_rewrite elem_of_map_to_list.
Qed.

(** Fetches, builds, their ends and sweeps, in any order. A build remembers the
    pair and the workdir it was started with; a fetch's workdir is a path no
    earlier fetch used (its name ends in fresh random bytes). *)
Record Shop := mkShop {
  scratch : Scratch;
  builds : list (string * string * string);
  used : gset string
}.

Definition shop_init : Shop := mkShop (mkScratch ∅ ∅) [] ∅.

Inductive shop_step : Shop -> Shop -> Prop :=
| step_fetch osid sha p now c d bs us :
    Workdir p ∉ us ->
    shop_step (mkShop (mkScratch c d) bs us)
      (mkShop (mkScratch (vcsWorkdirCachePut osid sha p now c) ({[Workdir p]} ∪ d)) bs ({[Workdir p]} ∪ us))
| step_build osid sha p now s bs us :
    vcsWorkdirCacheGet osid sha now (cache s) = Some p ->
    shop_step (mkShop s bs us) (mkShop s ((osid, sha, Workdir p) :: bs) us)
| step_over osid sha w s bs1 bs2 us :
    shop_step (mkShop s (bs1 ++ (osid, sha, w) :: bs2)%list us) (mkShop (Cleanup osid sha w s) (bs1 ++ bs2)%list us)
| step_sweep now s bs us :
    shop_step (mkShop s bs us) (mkShop (sweepVcsWorkdirCache now s) bs us).

Record shop_inv (σ : Shop) : Prop := {
  si_disk : forall k e, cache (scratch σ) !! k = Some e -> path e ∈ disk (scratch σ);
  si_inj : forall k1 e1 k2 e2, cache (scratch σ) !! k1 = Some e1 -> cache (scratch σ) !! k2 = Some e2 ->
    path e1 = path e2 -> k1 = k2;
  si_build : forall o s w k e, (o, s, w) ∈ builds σ -> cache (scratch σ) !! k = Some e -> path e = w ->
    k = vcsWorkdirCacheKey o s;
  si_used : (forall k e, cache (scratch σ) !! k = Some e -> path e ∈ used σ) /\
    (forall o s w, (o, s, w) ∈ builds σ -> w ∈ used σ)
}.

Lemma cache_get_some osid sha now c p :
  vcsWorkdirCacheGet osid sha now c = Some p ->
  exists e, c !! vcsWorkdirCacheKey osid sha = Some e /\ path e = Workdir p /\ now - createdAt e <= vcsWorkdirTTL.
Proof.
  unfold vcsWorkdirCacheGet. destruct (c !! _) as [e|]; [|done].
  destruct (Z.ltb_spec vcsWorkdirTTL (now - createdAt e)); [done|]. intros [= <-]. eauto.
Qed.

Lemma delete_if_path_lookup osid sha w c k e :
  vcsWorkdirCacheDeleteIfPath osid sha w c !! k = Some e ->
  c !! k = Some e /\ (k = vcsWorkdirCacheKey osid sha -> path e <> w).
Proof.
  unfold vcsWorkdirCacheDeleteIfPath. destruct (c !! vcsWorkdirCacheKey osid sha) as [x|] eqn:Hx.
  - destruct (String.eqb_spec (path x) w) as [Hp|Hp]; simpl.
    + intros [Hne Hk]%lookup_delete_Some. by split; [|intros ->].
    + intros Hk. split; [done|]. intros ->. by simplify_eq.
  - intros Hk. split; [done|]. intros ->. congruence.
Qed.

Lemma shop_step_inv σ σ' : shop_step σ σ' -> shop_inv σ -> shop_inv σ'.
Proof.
  intros Hst [Hd Hi Hb [Hu1 Hu2]]. destruct Hst as [o s p now c d bs us Hf|o s p now sc bs us Hg|o s w sc bs1 bs2 us|now sc bs us];
    simpl in *.
  - assert (forall k e, c !! k = Some e -> path e <> Workdir p) as Hfresh
      by (intros k e Hk Heq; apply Hf; rewrite <- Heq; eauto).
    split; simpl; unfold vcsWorkdirCachePut.
    + intros k e [[<- <-]|[_ Hk]]%lookup_insert_Some; simpl; set_solver.
    + intros k1 e1 k2 e2 [[<- <-]|[? H1]]%lookup_insert_Some [[<- <-]|[? H2]]%lookup_insert_Some; simpl; try done; eauto;
        intros Heq; [by apply Hfresh in H2|by apply Hfresh in H1].
    + intros o' s' w k e Hin [[<- <-]|[? Hk]]%lookup_insert_Some; simpl; [|eauto].
      intros <-. destruct Hf. eauto.
    + split; [intros k e [[<- <-]|[_ Hk]]%lookup_insert_Some; simpl|]; set_solver.
  - apply cache_get_some in Hg as (x & Hx & Hpx & _). split; simpl; [done|done| |].
    + intros o' s' w k e [[= -> -> ->]|Hin]%elem_of_cons Hk Hp; [|eauto].
      eapply Hi; [exact Hk|exact Hx|congruence].
    + split; [done|]. intros o' s' w [[= -> -> ->]|Hin]%elem_of_cons; [rewrite <- Hpx|]; eauto.
  - assert (forall k e, vcsWorkdirCacheDeleteIfPath o s w (cache sc) !! k = Some e ->
      cache sc !! k = Some e /\ path e <> w) as Hk.
    { intros k e [Hk Hp]%delete_if_path_lookup. split; [done|]. intros Heq. apply Hp; [|done].
      eapply Hb; [|exact Hk|exact Heq]. set_solver. }
    split; simpl.
    + intros k e [Hk1 Hp]%Hk. apply elem_of_difference. split; [eauto|]. by apply not_elem_of_singleton.
    + intros k1 e1 k2 e2 [H1 _]%Hk [H2 _]%Hk. eauto.
    + intros o' s' w' k e Hin [Hk1 _]%Hk. eapply Hb; [|done]. set_solver.
    + split; [intros k e [Hk1 _]%Hk; eauto|]. intros o' s' w' Hin. apply (Hu2 o' s'). set_solver.
  - destruct (sweep_spec now sc) as [Hc Hdk]. split; simpl.
    + intros k e [Hk He]%Hc. apply Hdk. split; [eauto|]. intros (k' & e' & Hk' & He' & Hp).
      assert (k' = k) as -> by eauto. congruence.
    + intros k1 e1 k2 e2 [H1 _]%Hc [H2 _]%Hc. eauto.
    + intros o s w k e Hin [Hk _]%Hc. eauto.
    + split; [intros k e [Hk _]%Hc; eauto|done].
Qed.

Lemma shop_init_inv : shop_inv shop_init.
Proof. split; simpl; try (intros ? ?; rewrite ?lookup_empty; done); try set_solver. Qed.

(** A build never starts on a workdir that is gone: in every state fetches,
    builds, their cleanups and sweeps can reach, a pair the cache still answers
    for has its workdir on disk and was fetched within the last thirty minutes;
    the cleanup of a build removes no other cached workdir. *)
Theorem cached_workdir_on_disk σ :
  rtc shop_step shop_init σ ->
  (forall osid sha now p, vcsWorkdirCacheGet osid sha now (cache (scratch σ)) = Some p ->
     Workdir p ∈ disk (scratch σ) /\
     exists e, cache (scratch σ) !! vcsWorkdirCacheKey osid sha = Some e /\ path e = Workdir p /\
       now - createdAt e <= 1800000000000) /\
  (forall osid sha w k e, (osid, sha, w) ∈ builds σ ->
     cache (Cleanup osid sha w (scratch σ)) !! k = Some e -> path e ∈ disk (Cleanup osid sha w (scratch σ))).
Proof.
  intros Hr. assert (shop_inv σ) as Hinv.
  { revert Hr. generalize shop_init_inv. induction 2 as [|a b c Hab _ IH]; [done|].
    apply IH. by eapply shop_step_inv. }
  split.
  - intros osid sha now p (e & He & Hp & Ht)%cache_get_some. split; [|by exists e].
    rewrite <- Hp. by eapply si_disk.
  - intros osid sha w k e Hin. destruct σ as [s bs us]. simpl in *.
    apply list_elem_of_split in Hin as (bs1 & bs2 & ->).
    apply (si_disk _ (shop_step_inv _ _ (step_over osid sha w s bs1 bs2 us) Hinv)).
Qed.

(** ** Witnesses *)

Definition demo_paths (w : string) : VcsWorkdirBuildPaths := mkPaths w w w "Dockerfile".

Lemma cached_workdir_on_disk_witness :
  let c := vcsWorkdirCachePut "app" "abc1234" (demo_paths "/tmp/w1") 0 ∅ in
  "/tmp/w1" ∈ disk (mkScratch c ({["/tmp/w1"]} ∪ ∅)).
Proof.
  intros c.
  apply (proj1 (cached_workdir_on_disk
    (mkShop (mkScratch c ({["/tmp/w1"]} ∪ ∅)) [] ({["/tmp/w1"]} ∪ ∅))
    (rtc_once _ _ (step_fetch "app" "abc1234" (demo_paths "/tmp/w1") 0 ∅ ∅ [] ∅ (not_elem_of_empty _))))
    "app" "abc1234" 1000 (demo_paths "/tmp/w1")).
  vm_compute. reflexivity.
Defined.

Definition demo_agent : @Agent MemDb :=
  mkAgent Drain.init (mem_ready (mkTables [] [] [] [] [] []))
    (mkScratch (vcsWorkdirCachePut "app" "abc1234" (demo_paths "/tmp/w1") 0 ∅) {["/tmp/w1"]}).
Definition demo_build_request : VcsBuildRequest :=
  mkBuildRequest "app" "abc1234" "abc1234" "https://x@host/r.git" "main" [] false.
Definition demo_build_env : BuildEnv :=
  mkBuildEnv (fun _ => Ok demo_build_request) (fun _ => Ok "b64") true "0a1b2c3d" (fun _ => Some "https://host/r.git").

Lemma vcs_build_accounting_witness :
  let '(resp, st, s') := vcs_build demo_build_env demo_build_request 1000 demo_agent in
  exists g, st = Some g /\ vb_JobID resp = "abc1234-0a1b2c3d" /\
    running (ag_tracker s') = {[st_unit g]} ∪ running (ag_tracker demo_agent).
Proof.
  pose proof (vcs_build_accounting demo_build_env demo_build_request 1000 demo_agent init_reachable) as H.
  destruct (vcs_build demo_build_env demo_build_request 1000 demo_agent) as [[resp st] s'] eqn:E.
  vm_compute in E. injection E as <- <- <-. destruct H as (_ & _ & Hj & _ & Hr & _).
  eexists. split; [reflexivity|]. split; [exact Hj|exact Hr].
Defined.

(** ** A running build is not protected *)

(** A running build can lose its workdir. The janitor counts from the
    fetch and does not know of builds: a build admitted at the last minute of
    the thirty, well within its own 45-minute limit, has its workdir removed by
    the next sweep; and two builds of one pair share a workdir that the first
    to finish removes under the other. *)
Theorem running_build_loses_workdir :
  let t0 := 0 in
  (exists resp g s', vcs_build demo_build_env demo_build_request (t0 + 29 * Minute) demo_agent = (resp, Some g, s') /\
     (vi_Workdir (st_input g) ∈ disk (ag_scratch s')) /\
     (vi_Workdir (st_input g) ∉ disk (sweepVcsWorkdirCache (t0 + 31 * Minute) (ag_scratch s'))) /\
     31 * Minute < 29 * Minute + defaultBuildTimeout) /\
  (exists r1 g1 s1 r2 g2 s2 env2,
     vcs_build demo_build_env demo_build_request 1000 demo_agent = (r1, Some g1, s1) /\
     vcs_build env2 demo_build_request 2000 s1 = (r2, Some g2, s2) /\
     (vi_Workdir (st_input g2) ∈ disk (ag_scratch s2)) /\
     vi_Workdir (st_input g2) ∉ disk (ag_scratch (build_over g1 s2))).
Proof.
  split.
  - eexists _, _, _. split; [vm_compute; reflexivity|]. split; [vm_compute; set_solver|].
    split; [|reflexivity]. refine (bool_decide_unpack _ _). vm_compute. exact I.
  - eexists _, _, _, _, _, _, (mkBuildEnv (fun _ => Err "") (fun _ => Ok "") true "ffffffff" (fun _ => None)).
    split; [vm_compute; reflexivity|]. split; [vm_compute; reflexivity|].
    split; refine (bool_decide_unpack _ _); vm_compute; exact I.
Qed.
