(* ===== verification/OneShot.v ===== *)
(** * One-shot jobs
      ([src/agentstream/instructions/run_oneshot_job.go],
       [oneshot_job_control.go], [oneshot_resources.go],
       [src/datastore/oneshot_jobs.go])

    A run is a Kubernetes Job, an audit row, and a goroutine that follows the
    pod and records the outcome. The cluster's answers are functions of time; a
    call under a context past its deadline fails. Calls take no time in the
    model, the waits between them do. The Jobs the instructions create and delete
    are a map of the cluster's; a call that fails may have had its effect. *)
From stdpp Require Import pretty gmap.
From S2P Require Import Prelude GoStrings Drain Db BuildJobs BuildKit Upload.
Local Open Scope string_scope.
Local Open Scope Z_scope.

(** ** Audit rows (oneshot_jobs.go) *)

Definition OneShotStatusPending : string := "pending".
Definition OneShotStatusRunning : string := "running".
Definition OneShotStatusSuccess : string := "success".
Definition OneShotStatusFailed : string := "failed".
Definition OneShotStatusTimeout : string := "timeout".

(** The DTO has the fields of the row. *)
Definition OneShotJob := OneShotJobModel.
Definition run_toDTO (m : OneShotJobModel) : OneShotJob := m.

Definition has_run (runID : string) (m : OneShotJobModel) : bool := String.eqb (RunID m) runID.

(** INSERT; the unique index on run_id rejects a duplicate. *)
Definition insert_run (mk : Z -> Z -> OneShotJobModel) (runID : string) : Stmt unit :=
  fun s t =>
    if existsb (has_run runID) (runs_t t)
    then (Err "duplicate key value violates unique constraint idx_one_shot_jobs_run_id", t)
    else (Ok tt, set_runs (insert_rows [mk (at_time s)] s (runs_t t)) t).

Definition set_run_status (status : string) (now : Z) (m : OneShotJobModel) : OneShotJobModel :=
  mkRun (run_row_id m) (RunID m) (RunOSID m) (RunNamespace m) (RunImage m) (RunCommand m) (K8sJobName m)
    status (ExitCode m) (Actor m) (TimeoutSeconds m) (RunCreatedAt m) now (RunCompletedAt m).

Definition set_run_result (status : string) (exitCode now : Z) (m : OneShotJobModel) : OneShotJobModel :=
  mkRun (run_row_id m) (RunID m) (RunOSID m) (RunNamespace m) (RunImage m) (RunCommand m) (K8sJobName m)
    status (Some exitCode) (Actor m) (TimeoutSeconds m) (RunCreatedAt m) now (Some now).

Definition update_runs (runID : string) (f : Z -> OneShotJobModel -> OneShotJobModel) : Stmt nat :=
  fun s t =>
    let '(rows, n) := update_where (has_run runID) (f (at_time s)) (runs_t t) in (Ok n, set_runs rows t).

Definition first_run (runID : string) : Stmt (option OneShotJobModel) :=
  fun _ t => (Ok (List.find (has_run runID) (runs_t t)), t).

Section Rows.
Context {DB : Type} {DBI : Database DB}.

Definition CreateOneShotJob (runID osid namespace image command k8sJobName actor : string) (timeoutSeconds : Z) :
    DB -> result string unit * DB :=
  activeDB (stmt (insert_run
    (fun now i => mkRun i runID osid namespace image command k8sJobName OneShotStatusPending None actor
       timeoutSeconds now now None) runID)).

Definition affected (runID : string) (r : result string nat * DB) : result string unit * DB :=
  match r with
  | (Err e, gdb) => (Err e, gdb)
  | (Ok n, gdb) => if Nat.eqb n 0 then (Err ("one-shot job not found: " ++ runID), gdb) else (Ok tt, gdb)
  end.

Definition UpdateOneShotJobStatus (runID status : string) : DB -> result string unit * DB :=
  activeDB (fun gdb => affected runID (stmt (update_runs runID (set_run_status status)) gdb)).

Definition UpdateOneShotJobResult (runID status : string) (exitCode : Z) : DB -> result string unit * DB :=
  activeDB (fun gdb => affected runID (stmt (update_runs runID (set_run_result status exitCode)) gdb)).

Definition GetOneShotJob (runID : string) : DB -> result string OneShotJob * DB :=
  activeDB (fun gdb =>
    match stmt (first_run runID) gdb with
    | (Err e, gdb) => (Err e, gdb)
    | (Ok None, gdb) => (Err "record not found", gdb)
    | (Ok (Some m), gdb) => (Ok (run_toDTO m), gdb)
    end).
End Rows.

(** ** Resources (oneshot_resources.go) *)

Record OneShotResources := mkOneShotResources {
  osr_CPURequestMc : Z;
  osr_CPULimitMc : Z;
  osr_MemoryRequestMb : Z;
  osr_MemoryLimitMb : Z;
  osr_EphemeralStorageRequestMb : Z;
  osr_EphemeralStorageLimitMb : Z
}.

Definition defaultOneShotCPURequestMc : Z := 100.
Definition defaultOneShotMemoryRequestMb : Z := 256.
Definition defaultOneShotEphemeralStorageRequestMb : Z := 1024.

Inductive ResourceName := ResourceCPU | ResourceMemory | ResourceEphemeralStorage.
#[export] Instance ResourceName_eq_dec : EqDecision ResourceName.
Proof. solve_decision. Defined.

(** The request and the optional limit of one resource, in its unit before the
    quantity constructor. *)
Definition set_resource (name : ResourceName) (request limit defRequest : Z) : Z * option Z :=
  let request :=
    if request <=? 0 then
      if (0 <? limit) && bool_decide (name = ResourceEphemeralStorage) then limit else defRequest
    else request in
  if 0 <? limit then (if limit <? request then limit else request, Some limit) else (request, None).

(** Millicores, and bytes as int64. *)
Definition quantity (name : ResourceName) (v : Z) : Z :=
  match name with ResourceCPU => v | _ => wrap64 (wrap64 (v * 1024) * 1024) end.

Definition oneShotResourceRequirements (r : option OneShotResources) :
    list (ResourceName * Z * option Z) :=
  let r := default (mkOneShotResources 0 0 0 0 0 0) r in
  let set name req lim def :=
    let '(q, l) := set_resource name req lim def in (name, quantity name q, quantity name <$> l) in
  [set ResourceCPU (osr_CPURequestMc r) (osr_CPULimitMc r) defaultOneShotCPURequestMc;
   set ResourceMemory (osr_MemoryRequestMb r) (osr_MemoryLimitMb r) defaultOneShotMemoryRequestMb;
   set ResourceEphemeralStorage (osr_EphemeralStorageRequestMb r) (osr_EphemeralStorageLimitMb r)
     defaultOneShotEphemeralStorageRequestMb].

(** ** The Job *)

Record RunOneShotJobRequest := mkRunRequest {
  rq_RunID : string;
  rq_OSID : string;
  rq_Namespace : string;
  rq_Image : string;
  rq_Command : list string;
  rq_EnvConfigMap : string;
  rq_EnvSecret : string;
  rq_ImagePullSecret : string;
  rq_TimeoutSeconds : Z;
  rq_Actor : string;
  rq_Resources : option OneShotResources
}.

Record RunOneShotJobResponse := mkRunResponse {
  rr_Success : bool;
  rr_RunID : string;
  rr_K8sJobName : string;
  rr_Message : string
}.

Definition defaultOneShotTimeoutSeconds : Z := 1800.
Definition oneShotTTLAfterFinishedSeconds : Z := 600.
Definition oneShotTimeoutExitCode : Z := 124.

(** Every rune becomes one byte, so the 63 runes kept are 63 bytes. *)
Definition sanitizeLabelValue (s : string) : string :=
  let out := sanitizeK8sName s in if 63 <? slen out then take_string 63 out else out.

Definition oneShotJobName (runID : string) : string :=
  let name := "runos-run-" ++ sanitizeLabelValue runID in
  if 63 <? slen name then take_string 63 name else name.

Record BatchJob := mkJobObject {
  j_Name : string;
  j_Namespace : string;
  j_Labels : list (string * string);
  j_BackoffLimit : Z;
  j_ActiveDeadlineSeconds : Z;
  j_TTLSecondsAfterFinished : Z;
  j_RestartNever : bool;
  j_ImagePullSecrets : list string;
  j_Image : string;
  j_Command : list string;
  j_EnvFrom : string * string;
  j_Resources : list (ResourceName * Z * option Z)
}.

Definition buildOneShotJob (jobName namespace : string) (req : RunOneShotJobRequest)
    (envConfigMap envSecret : string) (timeoutSeconds : Z) : BatchJob :=
  mkJobObject jobName namespace
    [("app.kubernetes.io/managed-by", "runos");
     ("runos.io/oneshot-run-id", sanitizeLabelValue (rq_RunID req));
     ("runos.io/app", sanitizeLabelValue (rq_OSID req))]
    0 timeoutSeconds oneShotTTLAfterFinishedSeconds true
    (if negb (String.eqb (rq_ImagePullSecret req) "") then [rq_ImagePullSecret req] else [])
    (rq_Image req) (rq_Command req) (envConfigMap, envSecret)
    (oneShotResourceRequirements (rq_Resources req)).

(** ** What the cluster answers *)

Inductive PodPhase := PodPending | PodRunning | PodSucceeded | PodFailed | PodUnknown.
#[export] Instance PodPhase_eq_dec : EqDecision PodPhase.
Proof. solve_decision. Defined.

Inductive ContainerState :=
| Waiting (reason message : string)
| Running
| Terminated (exitCode : Z)
| NoState.

Record Pod := mkPod { p_Name : string; p_Phase : PodPhase; p_Containers : list ContainerState }.

(** A condition's type, status and reason. *)
Record JobState := mkJobState {
  js_Succeeded : Z;
  js_Failed : Z;
  js_Conditions : list (string * string * string)
}.

Record Cluster := mkRunCluster {
  list_pods : Z -> result string (list Pod);
  get_job : Z -> result string JobState;
  get_pod : string -> Z -> result string Pod;
  (** The lines of the followed log, the scanner's error, and when it ends. *)
  log_stream : string -> result string (list string * option string * Z)
}.

(** A call at time [t] under a context that ends at [D]. *)
Definition with_ctx {A} (D t : Z) (r : result string A) : result string A :=
  if D <=? t then Err "context deadline exceeded" else r.

(** ** Outcomes *)

Record oneShotOutcomeInputs := mkInputs {
  deadlineExceeded : bool;
  jobSucceeded : bool;
  jobFailed : bool;
  podSucceeded : bool;
  podFailed : bool;
  podTerminated : bool;
  podExitCode : Z
}.

Definition hasTerminalSignal (i : oneShotOutcomeInputs) : bool :=
  deadlineExceeded i || podTerminated i || podSucceeded i || podFailed i || jobSucceeded i || jobFailed i.

Definition oneShotOutcomeWindow : Z := 10 * Second.
Definition oneShotOutcomeInterval : Z := 1 * Second.

Definition classifyOneShotOutcome (i : oneShotOutcomeInputs) : string * Z :=
  if deadlineExceeded i then (OneShotStatusTimeout, oneShotTimeoutExitCode)
  else if podTerminated i then
    if podExitCode i =? 0 then (OneShotStatusSuccess, 0) else (OneShotStatusFailed, podExitCode i)
  else if jobSucceeded i || podSucceeded i then (OneShotStatusSuccess, 0)
  else if jobFailed i || podFailed i then (OneShotStatusFailed, 1)
  else (OneShotStatusFailed, 1).

Definition looksLikeSignalKill (exitCode : Z) : bool := 128 <=? exitCode.

Definition deadline_condition (c : string * string * string) : bool :=
  let '(ty, st, reason) := c in
  String.eqb ty "Failed" && String.eqb st "True" && String.eqb reason "DeadlineExceeded".

Fixpoint first_terminated (cs : list ContainerState) : option Z :=
  match cs with
  | [] => None
  | Terminated code :: _ => Some code
  | _ :: cs => first_terminated cs
  end.

Definition readOutcomeInputs (c : Cluster) (D t : Z) (podName : string) : oneShotOutcomeInputs :=
  let '(dl, jok, jfail) :=
    match with_ctx D t (get_job c t) with
    | Ok j => (existsb deadline_condition (js_Conditions j), 0 <? js_Succeeded j, 0 <? js_Failed j)
    | Err _ => (false, false, false)
    end in
  let '(pok, pfail, code) :=
    if String.eqb podName "" then (false, false, None)
    else match with_ctx D t (get_pod c podName t) with
         | Ok p => (bool_decide (p_Phase p = PodSucceeded), bool_decide (p_Phase p = PodFailed),
                    first_terminated (p_Containers p))
         | Err _ => (false, false, None)
         end in
  mkInputs dl jok jfail pok pfail (bool_decide (is_Some code)) (default 0 code).

(** The polling loop, and when it decided. A wait ends early, in the [select],
    when the context ends first. *)
Fixpoint resolve_loop (c : Cluster) (podName : string) (D start : Z) (fuel : nat) (t : Z) :
    option (string * Z * Z) :=
  match fuel with
  | O => None
  | S fuel =>
      let i := readOutcomeInputs c D t podName in
      let decide := let '(status, code) := classifyOneShotOutcome i in Some (status, code, t) in
      let wait := if D <=? t + oneShotOutcomeInterval then decide
                  else resolve_loop c podName D start fuel (t + oneShotOutcomeInterval) in
      if deadlineExceeded i then decide
      else if podTerminated i && negb (looksLikeSignalKill (podExitCode i)) then decide
      else if podTerminated i && looksLikeSignalKill (podExitCode i) then
        if oneShotOutcomeWindow <=? t - start then decide else wait
      else if hasTerminalSignal i then decide
      else wait
  end.

(** Enough rounds for waits of [every] until [D]. *)
Definition rounds (D t every : Z) : nat := S (Z.to_nat ((D - t) / every + 1)).

Definition resolveOneShotOutcome (c : Cluster) (podName : string) (D t : Z) : option (string * Z * Z) :=
  resolve_loop c podName D t (rounds D t oneShotOutcomeInterval) t.

(** ** Following a run *)

Inductive RunEffect :=
| SetStatus (status : string)
| SetResult (status : string) (exitCode : Z)
| RunLog (line : string).

(** The waiting reasons of a pod's containers that differ from the last one
    shown. *)
Fixpoint waiting_reasons (pod last : string) (cs : list ContainerState) : list RunEffect * string :=
  match cs with
  | [] => ([], last)
  | Waiting reason message :: cs =>
      if negb (String.eqb reason "") && negb (String.eqb reason last) then
        let '(effs, last) := waiting_reasons pod reason cs in
        (RunLog ("pod " ++ pod ++ ": " ++ reason ++ ": " ++ message) :: effs, last)
      else waiting_reasons pod last cs
  | _ :: cs => waiting_reasons pod last cs
  end.

Definition has_run_state (cs : ContainerState) : bool :=
  match cs with Running | Terminated _ => true | _ => false end.

Definition pod_started (p : Pod) : bool :=
  bool_decide (p_Phase p <> PodPending) || existsb has_run_state (p_Containers p).

Definition podPollInterval : Z := 2 * Second.

(** The pod's name or a timeout, the log lines, and the time. *)
Fixpoint waitForOneShotPod (c : Cluster) (D : Z) (fuel : nat) (t : Z) (last : string) :
    option (result string string * list RunEffect * Z) :=
  match fuel with
  | O => None
  | S fuel =>
      if D <=? t then Some (Err "timed out waiting for pod", [], t)
      else
        let wait effs last :=
          if D <=? t + podPollInterval then Some (Err "timed out waiting for pod", effs, D)
          else '(r, effs', t') ← waitForOneShotPod c D fuel (t + podPollInterval) last;
               Some (r, (effs ++ effs')%list, t') in
        match with_ctx D t (list_pods c t) with
        | Ok (pod :: _) =>
            let '(effs, last) := waiting_reasons (p_Name pod) last (p_Containers pod) in
            if pod_started pod then Some (Ok (p_Name pod), effs, t) else wait effs last
        | _ => wait [] last
        end
  end.

(** The lines of the pod and the time the stream ended: when the container is
    done or the context is. *)
Definition streamOneShotLogs (c : Cluster) (D t : Z) (podName : string) : list RunEffect * Z :=
  match with_ctx D t (log_stream c podName) with
  | Err _ => ([RunLog "(no logs captured; container finished too quickly to attach a log stream)"], t)
  | Ok (lines, err, ends) =>
      ((map RunLog lines ++
        match err with
        | Some e => [RunLog ("WARNING: log stream ended with error: " ++ e)]
        | None => []
        end)%list, Z.max t (Z.min ends D))
  end.

Definition finalizeOneShot (c : Cluster) (D t : Z) (podName : string) : option (list RunEffect) :=
  '(status, exitCode, _) ← resolveOneShotOutcome c podName D t;
  Some [SetResult status exitCode;
        RunLog ("Run finished: status=" ++ status ++ " exitCode=" ++ pretty exitCode)].

(** The context's deadline: [time.Duration(timeoutSeconds+120)*time.Second]. *)
Definition tracker_deadline (timeoutSeconds t : Z) : Z := t + wrap64 (wrap64 (timeoutSeconds + 120) * Second).

Definition trackOneShotJob (c : Cluster) (timeoutSeconds t : Z) : option (list RunEffect) :=
  let D := tracker_deadline timeoutSeconds t in
  '(pod, effs, t) ← waitForOneShotPod c D (rounds D t podPollInterval) t "";
  match pod with
  | Err e =>
      fin ← finalizeOneShot c D t "";
      Some (SetStatus OneShotStatusRunning :: effs ++
            RunLog ("ERROR: one-shot pod never started: " ++ e) :: fin)%list
  | Ok podName =>
      let '(logs, t) := streamOneShotLogs c D t podName in
      fin ← finalizeOneShot c D t podName;
      Some (SetStatus OneShotStatusRunning :: effs ++ logs ++ fin)%list
  end.

(** ** The instructions *)

(** The Jobs of the cluster, by namespace and name. *)
Definition Jobs : Type := gmap (string * string) BatchJob.
Definition job_key (j : BatchJob) : string * string := (j_Namespace j, j_Name j).

(** [create_job] is the failure of the call, if any, with whether the Job was
    created all the same; [job_exists] the API's refusal of a name in use. *)
Record RunEnv := mkRunEnv {
  decode_run : string -> result string RunOneShotJobRequest;
  encode_run : RunOneShotJobResponse -> result string string;
  clientset : option string;            (* the error of newClientset *)
  create_job : BatchJob -> option (string * bool);
  job_exists : BatchJob -> string;
  marshal_command : list string -> string
}.

Record OneShotJobStatusResponse := mkStatusResponse {
  sr_Found : bool;
  sr_RunID : string;
  sr_Status : string;
  sr_Terminal : bool;
  sr_ExitCode : option Z;
  sr_K8sJobName : string;
  sr_CompletedAt : string;
  sr_Message : string
}.

Record CleanupOneShotJobRequest := mkCleanupRequest {
  cr_RunID : string;
  cr_Namespace : string;
  cr_K8sJobName : string
}.

Record CleanupOneShotJobResponse := mkCleanupResponse { cl_Success : bool; cl_Message : string }.

(** [Jobs(namespace).Create]. *)
Definition Create_job (env : RunEnv) (job : BatchJob) (jobs : Jobs) : option string * Jobs :=
  match create_job env job with
  | Some (e, landed) =>
      (Some e, if landed && bool_decide (jobs !! job_key job = None) then <[job_key job := job]> jobs else jobs)
  | None =>
      match jobs !! job_key job with
      | Some _ => (Some (job_exists env job), jobs)
      | None => (None, <[job_key job := job]> jobs)
      end
  end.

(** The error of an API call, and whether it is "not found". *)
Inductive ApiFailure := NotFoundFailure | OtherFailure (e : string).

(** [Jobs(namespace).Delete] in the foreground; [failed] as above. *)
Definition Delete_job (failed : option (string * bool)) (namespace jobName : string) (jobs : Jobs) : option ApiFailure * Jobs :=
  match failed with
  | Some (e, landed) => (Some (OtherFailure e), if landed : bool then delete (namespace, jobName) jobs else jobs)
  | None =>
      match jobs !! (namespace, jobName) with
      | None => (Some NotFoundFailure, jobs)
      | Some _ => (None, delete (namespace, jobName) jobs)
      end
  end.

Definition isOneShotTerminal (status : string) : bool :=
  String.eqb status OneShotStatusSuccess || String.eqb status OneShotStatusFailed ||
  String.eqb status OneShotStatusTimeout.

Section Handlers.
Context {DB : Type} {DBI : Database DB}.

Record RunAgent := mkRunAgent { ra_tracker : World; ra_store : DB; ra_jobs : Jobs }.

(** What the goroutine follows. *)
Record Tracked := mkTracked {
  tk_unit : nat;
  tk_job : BatchJob;
  tk_RunID : string;
  tk_timeout : Z
}.

(** The tracker's writes; their errors are dropped or logged. *)
Definition perform_effect (runID : string) (db : DB) (e : RunEffect) : DB :=
  match e with
  | SetStatus s => (UpdateOneShotJobStatus runID s db).2
  | SetResult s code => (UpdateOneShotJobResult runID s code db).2
  | RunLog l => (InsertBuildKitLog runID l db).2
  end.

Definition run_refused (msg : string) : RunOneShotJobResponse := mkRunResponse false "" "" msg.

Definition or_else (s d : string) : string := if String.eqb s "" then d else s.

(** After [beginWork] admitted the run: the Job that was created, or none. *)
Definition run_admitted (env : RunEnv) (req : RunOneShotJobRequest) (db : DB) (jobs : Jobs) :
    RunOneShotJobResponse * option (BatchJob * Z) * DB * Jobs :=
  let namespace := or_else (rq_Namespace req) (rq_OSID req) in
  let envConfigMap := or_else (rq_EnvConfigMap req) (rq_OSID req ++ "-user-env-config") in
  let envSecret := or_else (rq_EnvSecret req) (rq_OSID req ++ "-user-env-vars") in
  let timeoutSeconds :=
    if rq_TimeoutSeconds req <=? 0 then defaultOneShotTimeoutSeconds else rq_TimeoutSeconds req in
  match clientset env with
  | Some e => (run_refused ("failed to create kubernetes client: " ++ e), None, db, jobs)
  | None =>
      let jobName := oneShotJobName (rq_RunID req) in
      let job := buildOneShotJob jobName namespace req envConfigMap envSecret timeoutSeconds in
      match Create_job env job jobs with
      | (Some e, jobs) => (run_refused ("failed to create job: " ++ e), None, db, jobs)
      | (None, jobs) =>
          let db := (CreateOneShotJob (rq_RunID req) (rq_OSID req) namespace (rq_Image req)
                       (marshal_command env (rq_Command req)) jobName (rq_Actor req) timeoutSeconds db).2 in
          let db := (InsertBuildKitLog (rq_RunID req)
                       ("Created one-shot Job " ++ jobName ++ " in namespace " ++ namespace ++
                        " from image " ++ rq_Image req) db).2 in
          (mkRunResponse true (rq_RunID req) jobName "", Some (job, timeoutSeconds), db, jobs)
      end
  end.

Definition run_oneshot (env : RunEnv) (req : RunOneShotJobRequest) (s : RunAgent) :
    RunOneShotJobResponse * option Tracked * RunAgent :=
  if String.eqb (rq_RunID req) "" || String.eqb (rq_OSID req) "" || String.eqb (rq_Image req) "" ||
     bool_decide (rq_Command req = [])
  then (run_refused "runId, osid, image, and a non-empty command are required", None, s)
  else
    match Begin (ra_tracker s) with
    | (Err e, w) => (run_refused (begin_error e), None, mkRunAgent w (ra_store s) (ra_jobs s))
    | (Ok u, w) =>
        let '(resp, job, db, jobs) := run_admitted env req (ra_store s) (ra_jobs s) in
        match job with
        | None => (resp, None, mkRunAgent (end_unit u w) db jobs)
        | Some (j, timeoutSeconds) =>
            (resp, Some (mkTracked u j (rq_RunID req) timeoutSeconds), mkRunAgent w db jobs)
        end
    end.

Definition RunOneShotJob (env : RunEnv) (jsonB64 : string) (s : RunAgent) :
    (string * string * option string) * option Tracked * RunAgent :=
  match decode_run env jsonB64 with
  | Err e => (("", "", Some e), None, s)
  | Ok req =>
      let '(resp, tk, s) := run_oneshot env req s in
      (match encode_run env resp with
       | Err e => ("", "", Some e)
       | Ok encoded => ("RUN_ONESHOT_JOB_RESPONSE", encoded, None)
       end, tk, s)
  end.

(** The goroutine: the tracker's writes, then the end of the unit. *)
Definition run_over (c : Cluster) (t : Z) (tk : Tracked) (s : RunAgent) : option RunAgent :=
  effs ← trackOneShotJob c (tk_timeout tk) t;
  Some (mkRunAgent (end_unit (tk_unit tk) (ra_tracker s)) (foldl (perform_effect (tk_RunID tk)) (ra_store s) effs) (ra_jobs s)).

(** [format] is [time.Time.Format] in UTC. *)
Definition OneShotJobStatus (format : Z -> string) (runID : string) (db : DB) :
    result string OneShotJobStatusResponse * DB :=
  if String.eqb runID "" then (Err "runId is required", db)
  else
    match GetOneShotJob runID db with
    | (Err _, db) => (Ok (mkStatusResponse false runID "" false None "" "" "no such run"), db)
    | (Ok job, db) =>
        (Ok (mkStatusResponse true (RunID job) (RunStatus job) (isOneShotTerminal (RunStatus job))
               (ExitCode job) (K8sJobName job)
               (match RunCompletedAt job with Some t => format t | None => "" end) ""), db)
    end.

(** The Job a clean-up is for: what the request leaves out comes from the audit
    record. *)
Definition cleanup_target (req : CleanupOneShotJobRequest) (db : DB) : string * string * DB :=
  if String.eqb (cr_Namespace req) "" || String.eqb (cr_K8sJobName req) "" then
    match GetOneShotJob (cr_RunID req) db with
    | (Ok rec, db) =>
        (or_else (cr_Namespace req) (RunNamespace rec), or_else (cr_K8sJobName req) (K8sJobName rec), db)
    | (Err _, db) => (cr_Namespace req, cr_K8sJobName req, db)
    end
  else (cr_Namespace req, cr_K8sJobName req, db).

(** [delete_job] is the failure of the API call, if any, with whether the Job
    was deleted all the same. *)
Definition CleanupOneShotJob (clientset : option string) (delete_job : string -> string -> option (string * bool))
    (req : CleanupOneShotJobRequest) (db : DB) (jobs : Jobs) :
    result string CleanupOneShotJobResponse * DB * Jobs :=
  if String.eqb (cr_RunID req) "" && String.eqb (cr_K8sJobName req) "" then
    (Err "runId or k8sJobName is required", db, jobs)
  else
    let '(namespace, jobName, db) := cleanup_target req db in
    if String.eqb namespace "" || String.eqb jobName "" then
      (Ok (mkCleanupResponse false "could not resolve namespace/jobName for cleanup"), db, jobs)
    else
      match clientset with
      | Some e => (Ok (mkCleanupResponse false ("failed to create kubernetes client: " ++ e)), db, jobs)
      | None =>
          match Delete_job (delete_job namespace jobName) namespace jobName jobs with
          | (Some (OtherFailure e), jobs) =>
              (Ok (mkCleanupResponse false ("failed to delete job " ++ namespace ++ "/" ++ jobName ++ ": " ++ e)), db, jobs)
          | (_, jobs) => (Ok (mkCleanupResponse true ""), db, jobs)
          end
      end.
End Handlers.

(** ** The outcome loop *)

Section Outcome.
Context (c : Cluster) (podName : string) (D : Z).

Local Abbreviation read t := (readOutcomeInputs c D t podName).

(** The loop stops at [t] whatever happens next. *)
Definition settled (start t : Z) : bool :=
  let i := read t in
  deadlineExceeded i || (podTerminated i && negb (looksLikeSignalKill (podExitCode i))) ||
  (podTerminated i && (oneShotOutcomeWindow <=? t - start)) ||
  (negb (podTerminated i) && hasTerminalSignal i).

Lemma resolve_step start fuel t :
  resolve_loop c podName D start (S fuel) t =
  if settled start t || (D <=? t + oneShotOutcomeInterval)
  then Some ((classifyOneShotOutcome (read t)).1, (classifyOneShotOutcome (read t)).2, t)
  else resolve_loop c podName D start fuel (t + oneShotOutcomeInterval).
Proof.
  cbn [resolve_loop]. unfold settled. destruct (classifyOneShotOutcome (read t)) as [s code]. cbn [fst snd].
  destruct (deadlineExceeded (read t)); [done|]. cbn [orb].
  destruct (podTerminated (read t)); cbn [andb orb negb].
  - destruct (looksLikeSignalKill _); cbn [negb orb]; [|done].
    destruct (oneShotOutcomeWindow <=? t - start); done.
  - by destruct (hasTerminalSignal (read t)).
Qed.

(** It ends: the context does. *)
Lemma resolve_total start fuel t :
  (0 < fuel)%nat -> D - t <= Z.of_nat fuel * oneShotOutcomeInterval ->
  is_Some (resolve_loop c podName D start fuel t).
Proof.
  revert t. induction fuel as [|fuel IH]; [lia|]. intros t _ Hd. rewrite resolve_step.
  destruct (settled start t); [eauto|]. cbn [orb].
  destruct (Z.leb_spec D (t + oneShotOutcomeInterval)); [eauto|].
  apply IH; unfold oneShotOutcomeInterval, Second in *; lia.
Qed.

Lemma rounds_enough t every :
  0 < every -> (0 < rounds D t every)%nat /\ D - t <= Z.of_nat (rounds D t every) * every.
Proof.
  intros He. unfold rounds. split; [lia|]. destruct (Z.le_gt_cases (D - t) 0); [nia|].
  pose proof (Z.div_pos (D - t) every). pose proof (Z.mul_succ_div_gt (D - t) every). nia.
Qed.

Lemma resolveOneShotOutcome_total t : is_Some (resolveOneShotOutcome c podName D t).
Proof. unfold resolveOneShotOutcome. apply resolve_total; by apply rounds_enough. Qed.

(** The answer is the classification of what was read last, and the loop gave
    up without an answer of the cluster only at the end of the context. *)
Lemma resolve_sound start fuel t s code t' :
  resolve_loop c podName D start fuel t = Some (s, code, t') ->
  t <= t' /\ classifyOneShotOutcome (read t') = (s, code) /\
  (settled start t' = true \/ D <= t' + oneShotOutcomeInterval).
Proof.
  revert t. induction fuel as [|fuel IH]; intros t; [done|]. rewrite resolve_step.
  destruct (settled start t) eqn:Hs; cbn [orb].
  - intros [= <- <- <-]. split; [lia|]. split; [by destruct (classifyOneShotOutcome _)|auto].
  - destruct (Z.leb_spec D (t + oneShotOutcomeInterval)).
    + intros [= <- <- <-]. split; [lia|]. split; [by destruct (classifyOneShotOutcome _)|auto].
    + intros (? & ? & ?)%IH. split; [unfold oneShotOutcomeInterval, Second in *; lia|auto].
Qed.

(** A round that neither settles nor ends the context goes on. *)
Lemma resolve_skip start fuel t k :
  (forall i, 0 <= i < Z.of_nat k -> settled start (t + i * oneShotOutcomeInterval) = false) ->
  t + Z.of_nat k * oneShotOutcomeInterval < D ->
  resolve_loop c podName D start (k + fuel) t =
  resolve_loop c podName D start fuel (t + Z.of_nat k * oneShotOutcomeInterval).
Proof.
  revert t. induction k as [|k IH]; intros t Hs Hd.
  { f_equal. lia. }
  cbn [Nat.add]. rewrite resolve_step.
  pose proof (Hs 0 ltac:(lia)) as H0. rewrite Z.mul_0_l, Z.add_0_r in H0. rewrite H0. cbn [orb].
  destruct (Z.leb_spec D (t + oneShotOutcomeInterval)); [unfold oneShotOutcomeInterval, Second in *; lia|].
  rewrite IH; [f_equal; lia| |unfold oneShotOutcomeInterval, Second in *; lia].
  intros i Hi. specialize (Hs (i + 1) ltac:(lia)). rewrite <- Hs. f_equal. lia.
Qed.

(** *** What a reading says *)

Lemma read_deadline t :
  deadlineExceeded (read t) = true <->
  t < D /\ exists j, get_job c t = Ok j /\ existsb deadline_condition (js_Conditions j) = true.
Proof.
  unfold readOutcomeInputs, with_ctx. destruct (String.eqb podName "");
    destruct (Z.leb_spec D t); destruct (get_job c t) as [j|];
    try destruct (get_pod c podName t); simpl;
    (split; [intros; split; [lia|]; try done; eauto|intros (Hlt & j' & [= <-] & ?); try done; lia]);
    try (intros (Hlt & j' & ? & _); lia).
Qed.

(** The pod the run is followed by, as read before the context ended. *)
Definition pod_read (t : Z) (p : Pod) : Prop := t < D /\ podName <> "" /\ get_pod c podName t = Ok p.
Definition job_read (t : Z) (j : JobState) : Prop := t < D /\ get_job c t = Ok j.

(** What the pod and the Job said: the exit code of the first container that
    has terminated, a success, a failure. *)
Definition exit_read (t code : Z) : Prop := exists p, pod_read t p /\ first_terminated (p_Containers p) = Some code.
Definition success_read (t : Z) : Prop :=
  (exists j, job_read t j /\ 0 < js_Succeeded j) \/ exists p, pod_read t p /\ p_Phase p = PodSucceeded.
Definition failure_read (t : Z) : Prop :=
  (exists j, job_read t j /\ 0 < js_Failed j) \/ exists p, pod_read t p /\ p_Phase p = PodFailed.

Lemma job_flags t :
  (jobSucceeded (read t) = true <-> exists j, job_read t j /\ 0 < js_Succeeded j) /\
  (jobFailed (read t) = true <-> exists j, job_read t j /\ 0 < js_Failed j).
Proof.
  unfold readOutcomeInputs, with_ctx, job_read.
  destruct (String.eqb podName ""), (Z.leb_spec D t), (get_job c t) as [j|]; try destruct (get_pod c podName t); simpl;
    rewrite ?Z.ltb_lt; (split; (split; [intros Hx; try done; by exists j|intros (j' & [Hlt Hj] & Hx)])); try lia; congruence.
Qed.

Lemma pod_flags t :
  (podSucceeded (read t) = true <-> exists p, pod_read t p /\ p_Phase p = PodSucceeded) /\
  (podFailed (read t) = true <-> exists p, pod_read t p /\ p_Phase p = PodFailed) /\
  forall code, exit_read t code <-> podTerminated (read t) = true /\ podExitCode (read t) = code.
Proof.
  assert (forall o code, (o = Some code <-> bool_decide (is_Some o) = true /\ default 0 o = code)) as Ho.
  { intros [x|] code; simpl; (split; [by intros [= <-]|by intros [? <-]]). }
  unfold exit_read, readOutcomeInputs, with_ctx, pod_read.
  destruct (String.eqb_spec podName "") as [He|He], (Z.leb_spec D t), (get_job c t) as [j|];
    try destruct (get_pod c podName t) as [p|] eqn:Hp; simpl; rewrite ?bool_decide_eq_true.
  all: split_and!; try (split; [done|]; intros (p' & (Hlt & Hn & Hg) & _); (lia || congruence)).
  all: try (split; [intros Hx; by exists p|intros (p' & (_ & _ & [= <-]) & Hx); done]).
  all: intros code; try (split; [intros (p' & (Hlt & Hn & Hg) & _); (lia || congruence)|by intros []]).
  all: specialize (Ho (first_terminated (p_Containers p)) code); rewrite <-Ho;
    (split; [by intros (p' & (_ & _ & [= <-]) & Hx)|intros Hx; by exists p]).
Qed.

Lemma settled_signal start t : settled start t = true -> hasTerminalSignal (read t) = true.
Proof.
  unfold settled, hasTerminalSignal. destruct (deadlineExceeded _); [done|].
  destruct (podTerminated _); [done|]. done.
Qed.

Definition deadline_read (t : Z) : Prop :=
  t < D /\ exists j, get_job c t = Ok j /\ existsb deadline_condition (js_Conditions j) = true.

Lemma classify_evidence t s code :
  classifyOneShotOutcome (read t) = (s, code) ->
  (deadline_read t /\ s = OneShotStatusTimeout /\ code = 124) \/
  (~ deadline_read t /\ exit_read t code /\ s = (if code =? 0 then OneShotStatusSuccess else OneShotStatusFailed)) \/
  (~ deadline_read t /\ (forall x, ~ exit_read t x) /\ success_read t /\ s = OneShotStatusSuccess /\ code = 0) \/
  (~ deadline_read t /\ (forall x, ~ exit_read t x) /\ ~ success_read t /\ s = OneShotStatusFailed /\ code = 1 /\
   (hasTerminalSignal (read t) = true -> failure_read t)).
Proof.
  destruct (job_flags t) as [Hjs Hjf], (pod_flags t) as (Hps & Hpf & He).
  unfold deadline_read, success_read, failure_read. rewrite <-(read_deadline t), <-Hjs, <-Hjf, <-Hps, <-Hpf.
  setoid_rewrite He. unfold classifyOneShotOutcome, hasTerminalSignal.
  destruct (deadlineExceeded (read t)); [intros [= <- <-]; auto|].
  destruct (podTerminated (read t)).
  { intros Hc. right; left. destruct (Z.eqb_spec (podExitCode (read t)) 0) as [H0|H0]; injection Hc as <- <-; [by rewrite H0|].
    apply Z.eqb_neq in H0. by rewrite H0. }
  destruct (jobSucceeded (read t)), (podSucceeded (read t)), (jobFailed (read t)), (podFailed (read t)); cbn;
    intros [= <- <-]; right; right;
    first [left; split_and!; [done|by intros x []|auto|done|done]
          |right; split_and!; [done|by intros x []|by intros []|done|done|auto]].
Qed.
End Outcome.

(** C13: A run's outcome is decided, and by the cluster's last word. The outcome
    loop always ends, at some time not before its start, and its answer is
    determined by what could be read at that time, before the context's end: a
    Job condition that says the deadline was exceeded makes it a timeout with
    exit code 124, whatever else is there; otherwise the exit code of the first
    terminated container decides, success for zero and failed with that code for
    any other; without one, a succeeded Job or pod makes it a success with code
    zero. In the one remaining case it is failed with code 1, either because a
    Job or a pod said so, or because nothing at all could be learned by the last
    second of the context, or after it. *)
Theorem oneshot_outcome_truthful c podName D t :
  exists s code t', resolveOneShotOutcome c podName D t = Some (s, code, t') /\ t <= t' /\
    ((deadline_read c D t' /\ s = "timeout" /\ code = 124) \/
     (~ deadline_read c D t' /\ exit_read c podName D t' code /\ s = (if code =? 0 then "success" else "failed")) \/
     (~ deadline_read c D t' /\ (forall x, ~ exit_read c podName D t' x) /\ success_read c podName D t' /\
      s = "success" /\ code = 0) \/
     (~ deadline_read c D t' /\ (forall x, ~ exit_read c podName D t' x) /\ ~ success_read c podName D t' /\
      s = "failed" /\ code = 1 /\ (failure_read c podName D t' \/ D <= t' + Second))).
Proof.
  destruct (resolveOneShotOutcome_total c podName D t) as [[[s code] t'] Hr].
  exists s, code, t'. split; [done|]. apply resolve_sound in Hr as (Ht & Hc & Hend). split; [done|].
  destruct (classify_evidence _ _ _ _ _ _ Hc) as [H|[H|[H|(Hdl & Hn & Hs & -> & -> & Hev)]]]; [by auto..|].
  do 3 right. split_and!; [done..|]. destruct Hend as [He|He]; [left|by right].
  apply Hev. by eapply settled_signal.
Qed.

(** A deadline kill is reported as a timeout. When the container's kill by
    signal is visible before the Job's deadline condition is, the loop waits for
    the condition: if it is there within ten seconds, and before the context
    ends, the outcome is timeout with exit code 124, not the signal's code. *)
Theorem deadline_kill_is_timeout c podName D t k :
  (k <= 10)%nat -> t + Z.of_nat k * Second < D ->
  (forall i, 0 <= i < Z.of_nat k ->
     let r := readOutcomeInputs c D (t + i * Second) podName in
     deadlineExceeded r = false /\
     (podTerminated r = true -> 128 <= podExitCode r) /\
     (podTerminated r = false -> hasTerminalSignal r = false)) ->
  deadlineExceeded (readOutcomeInputs c D (t + Z.of_nat k * Second) podName) = true ->
  resolveOneShotOutcome c podName D t = Some (OneShotStatusTimeout, 124, t + Z.of_nat k * Second).
Proof.
  intros Hk HD Hwait Hdl. unfold resolveOneShotOutcome.
  assert (oneShotOutcomeInterval = Second) as HI by reflexivity.
  destruct (rounds_enough D t oneShotOutcomeInterval) as [_ Hr]; [done|].
  replace (rounds D t oneShotOutcomeInterval)
    with (k + S (rounds D t oneShotOutcomeInterval - k - 1))%nat
    by (rewrite HI in *; unfold Second in *; lia).
  rewrite resolve_skip; [|intros i Hi|by rewrite HI].
  - rewrite resolve_step, HI. unfold settled. rewrite Hdl. cbn [orb].
    unfold classifyOneShotOutcome. by rewrite Hdl.
  - rewrite HI. destruct (Hwait i Hi) as (H1 & H2 & H3). unfold settled. rewrite H1. cbn [orb].
    destruct (podTerminated _); cbn [andb negb orb]; [|by rewrite H3].
    unfold looksLikeSignalKill. specialize (H2 eq_refl). apply Z.leb_le in H2 as ->. cbn [negb orb].
    rewrite orb_false_r. apply Z.leb_gt. unfold oneShotOutcomeWindow, Second in *. lia.
Qed.

(** ** The tracker *)

Definition is_log (e : RunEffect) : bool := match e with RunLog _ => true | _ => false end.

Lemma waiting_reasons_logs pod last cs : forallb is_log (waiting_reasons pod last cs).1 = true.
Proof.
  revert last. induction cs as [|[r m| | |] cs IH]; intros last; simpl; [done| | | |]; try apply IH.
  destruct (_ && _); [|apply IH]. specialize (IH r). by destruct (waiting_reasons pod r cs).
Qed.

(** The wait for the pod ends and only writes log lines. *)
Lemma wait_total c D fuel t last :
  (0 < fuel)%nat -> D - t <= Z.of_nat fuel * podPollInterval ->
  exists r effs t', waitForOneShotPod c D fuel t last = Some (r, effs, t') /\ forallb is_log effs = true.
Proof.
  revert t last. induction fuel as [|fuel IH]; [lia|]. intros t last _ Hd. cbn [waitForOneShotPod].
  destruct (D <=? t); [by eexists _, _, _|].
  assert (forall effs last', forallb is_log effs = true -> exists r effs' t',
    (if D <=? t + podPollInterval then Some (Err "timed out waiting for pod", effs, D)
     else '(r, effs', t') ← waitForOneShotPod c D fuel (t + podPollInterval) last';
          Some (r, (effs ++ effs')%list, t')) = Some (r, effs', t') /\ forallb is_log effs' = true) as Hwait.
  { intros effs last' Hl. destruct (Z.leb_spec D (t + podPollInterval)); [by eexists _, _, _|].
    destruct (IH (t + podPollInterval) last') as (r & effs' & t' & -> & Hl');
      [unfold podPollInterval, Second in *; lia..|].
    eexists _, _, _. split; [done|]. by rewrite forallb_app, Hl. }
  destruct (with_ctx D t (list_pods c t)) as [[|pod pods]|]; [by apply Hwait| |by apply Hwait].
  pose proof (waiting_reasons_logs (p_Name pod) last (p_Containers pod)) as Hl.
  destruct (waiting_reasons _ _ _) as [effs last']. destruct (pod_started pod); [by eexists _, _, _|].
  by apply Hwait.
Qed.

Lemma stream_logs c D t podName : forallb is_log (streamOneShotLogs c D t podName).1 = true.
Proof.
  unfold streamOneShotLogs. destruct (with_ctx _ _ _) as [[[lines err] ends]|]; [|done]. simpl.
  rewrite forallb_app. apply andb_true_intro. split; [|by destruct err].
  by induction lines.
Qed.

(** Status, log lines, result, one log line. *)
Lemma track_shape c timeout t :
  exists logs podName t1 s code t2,
    trackOneShotJob c timeout t =
      Some (SetStatus OneShotStatusRunning :: logs ++
            [SetResult s code; RunLog ("Run finished: status=" ++ s ++ " exitCode=" ++ pretty code)])%list /\
    forallb is_log logs = true /\
    resolveOneShotOutcome c podName (tracker_deadline timeout t) t1 = Some (s, code, t2).
Proof.
  unfold trackOneShotJob. set (D := tracker_deadline timeout t).
  destruct (rounds_enough D t podPollInterval) as [Hr0 Hr]; [done|].
  destruct (wait_total c D _ t "" Hr0 Hr) as (r & effs & t1 & -> & Hl). simpl.
  destruct r as [podName|e].
  - pose proof (stream_logs c D t1 podName) as Hs. destruct (streamOneShotLogs c D t1 podName) as [logs t2].
    destruct (resolveOneShotOutcome_total c podName D t2) as [[[s code] t3] Ho]. unfold finalizeOneShot.
    exists (effs ++ logs)%list, podName, t2, s, code, t3. rewrite Ho. simpl.
    split; [by rewrite <- app_assoc|]. split; [by rewrite forallb_app, Hl|done].
  - destruct (resolveOneShotOutcome_total c "" D t1) as [[[s code] t3] Ho]. unfold finalizeOneShot.
    exists (effs ++ [RunLog ("ERROR: one-shot pod never started: " ++ e)])%list, "", t1, s, code, t3.
    rewrite Ho. simpl. split; [by rewrite <- app_assoc|]. split; [by rewrite forallb_app, Hl|done].
Qed.

Section Records.
Context {DB : Type} {DBI : Database DB} {DBL : DatabaseLaws DB}.

(** A row update touches exactly the rows of its run, or fails without effect. *)
Lemma update_runs_cases runID f (db : DB) :
  let '(r, db') := activeDB (fun gdb => affected runID (stmt (update_runs runID f) gdb)) db in
  match r with
  | Ok _ => exists now, runs_t (tables db') =
      map (fun m => if has_run runID m then f now m else m) (runs_t (tables db))
  | Err _ => runs_t (tables db') = runs_t (tables db)
  end.
Proof.
  unfold activeDB, affected. destruct (handle db); [|done].
  pose proof (stmt_spec _ (update_runs runID f) db) as H.
  destruct (stmt (update_runs runID f) db) as [r db']. cbn [fst snd] in H.
  destruct H as [[Hr Ht]|(e & -> & ->)]; [|done].
  unfold update_runs, update_where in Hr, Ht. cbn [fst snd] in Hr, Ht. subst r.
  destruct (Nat.eqb_spec (length (List.filter (has_run runID) (runs_t (tables db)))) 0) as [H0|];
    rewrite Ht; [|by eexists].
  apply (update_where_none (has_run runID) (f (at_time (stamp db)))) in H0. exact H0.
Qed.

Lemma log_keeps_runs j l (db : DB) : runs_t (tables (InsertBuildKitLog j l db).2) = runs_t (tables db).
Proof.
  unfold InsertBuildKitLog, activeDB. destruct (handle db); [|done].
  destruct (stmt_spec _ (insert_logs [(j, l)]) db) as [[_ ->]|(e & _ & ->)]; done.
Qed.

Lemma logs_keep_runs runID logs (db : DB) :
  forallb is_log logs = true -> runs_t (tables (foldl (perform_effect runID) db logs)) = runs_t (tables db).
Proof.
  revert db. induction logs as [|[| |l] logs IH]; intros db; simpl; [done|done|done|].
  intros Hl. rewrite IH by done. apply log_keeps_runs.
Qed.

(** The row of a run that ended. *)
Definition recorded (s : string) (code : Z) (m : OneShotJobModel) : Prop :=
  RunStatus m = s /\ ExitCode m = Some code /\ is_Some (RunCompletedAt m).

Lemma has_run_update runID f (m : OneShotJobModel) :
  (forall m', RunID (f m') = RunID m') ->
  has_run runID (if has_run runID m then f m else m) = has_run runID m.
Proof. intros Hf. destruct (has_run runID m) eqn:E; [|done]. unfold has_run in *. by rewrite Hf. Qed.

Lemma has_run_map runID f rows :
  (forall m', RunID (f m') = RunID m') ->
  filter (fun m => has_run runID m = false) (map (fun m => if has_run runID m then f m else m) rows) =
  filter (fun m => has_run runID m = false) rows.
Proof.
  intros Hf. induction rows as [|m rows IH]; [done|]. cbn [map]. rewrite !filter_cons, IH.
  rewrite (has_run_update runID f m Hf). destruct (has_run runID m) eqn:E; by rewrite ?E.
Qed.

(** C14: Every run that was started is recorded. The goroutine always ends: it
    sets the row running, writes log lines, sets the result once, and writes a
    last log line. Its writes leave the rows of all other runs alone, and unless
    the database refuses the result itself, the run's row ends in a terminal
    status (success, failed or timeout) with its exit code and its completion
    time, the exit code being zero exactly for a success. *)
Theorem run_is_recorded c t (tk : Tracked) (s : @RunAgent DB) :
  exists logs status code line s',
    let id := tk_RunID tk in
    let db1 := foldl (perform_effect id) (ra_store s) (SetStatus OneShotStatusRunning :: logs) in
    trackOneShotJob c (tk_timeout tk) t =
      Some (SetStatus OneShotStatusRunning :: logs ++ [SetResult status code; RunLog line])%list /\
    forallb is_log logs = true /\
    isOneShotTerminal status = true /\ (status = OneShotStatusSuccess <-> code = 0) /\
    run_over c t tk s = Some s' /\
    filter (fun m => has_run id m = false) (runs_t (tables (ra_store s'))) =
      filter (fun m => has_run id m = false) (runs_t (tables (ra_store s))) /\
    ((UpdateOneShotJobResult id status code db1).1 = Ok tt ->
     Forall (fun m => has_run id m = true -> recorded status code m) (runs_t (tables (ra_store s')))).
Proof.
  destruct (track_shape c (tk_timeout tk) t) as (logs & podName & t1 & st & code & t2 & Htr & Hlogs & Hres).
  apply resolve_sound in Hres as (_ & Hc & _). unfold run_over. rewrite Htr. cbn [mbind option_bind].
  set (id := tk_RunID tk). cbn [foldl]. rewrite foldl_app. cbn [foldl].
  set (line := "Run finished: status=" ++ st ++ _).
  set (db0 := perform_effect id (ra_store s) (SetStatus OneShotStatusRunning)).
  set (db1 := foldl (perform_effect id) db0 logs).
  exists logs, st, code, line, (mkRunAgent (end_unit (tk_unit tk) (ra_tracker s))
    (perform_effect id (perform_effect id db1 (SetResult st code)) (RunLog line)) (ra_jobs s)).
  cbn zeta. fold id db0 db1.
  split; [done|]. split; [done|].
  assert (isOneShotTerminal st = true /\ (st = OneShotStatusSuccess <-> code = 0)) as [Hterm Hz].
  { destruct (classify_evidence _ _ _ _ _ _ Hc) as [(_ & -> & ->)|[(_ & _ & ->)|[(_ & _ & _ & -> & ->)|(_ & _ & _ & -> & -> & _)]]];
      [done| |done|done]. by destruct (Z.eqb_spec code 0). }
  split; [done|]. split; [done|]. split; [reflexivity|]. cbn [ra_store perform_effect]. rewrite log_keeps_runs.
  pose proof (update_runs_cases id (set_run_status OneShotStatusRunning) (ra_store s)) as H0.
  pose proof (update_runs_cases id (set_run_result st code) db1) as H1.
  fold (UpdateOneShotJobStatus (DB:=DB) id OneShotStatusRunning (ra_store s)) in H0.
  fold (UpdateOneShotJobResult (DB:=DB) id st code db1) in H1.
  assert (filter (fun m => has_run id m = false) (runs_t (tables db1)) =
          filter (fun m => has_run id m = false) (runs_t (tables (ra_store s)))) as Hf.
  { unfold db1. rewrite logs_keep_runs by done. unfold db0. cbn [perform_effect].
    destruct (UpdateOneShotJobStatus id OneShotStatusRunning (ra_store s)) as [[]]; cbn [snd];
      [destruct H0 as [now ->]; by apply has_run_map|by rewrite H0]. }
  rewrite <- Hf. destruct (UpdateOneShotJobResult id st code db1) as [[u|e] db2]; cbn [fst snd].
  - destruct H1 as [now ->]. split; [by apply has_run_map|]. intros _.
    apply Forall_forall. intros m (m0 & -> & _)%list_elem_of_fmap.
    rewrite (has_run_update id (set_run_result st code now) m0) by done. intros ->.
    by repeat split.
  - rewrite H1. split; [done|]. discriminate.
Qed.

(** A run instruction starts a run exactly when it answers success. Then the
    Job was created as built from the request (one attempt, never restarted,
    with a positive deadline), and its goroutine owns one new unit of the drain
    tracker; otherwise no goroutine is left, no row was written, and the
    tracker's running set is as it was. *)
Theorem oneshot_run_accounting env req (s : @RunAgent DB) :
  reachable (ra_tracker s) ->
  let '(resp, tk, s') := run_oneshot env req s in
  match tk with
  | Some g =>
      rr_Success resp = true /\ rr_RunID resp = rq_RunID req /\ rr_K8sJobName resp = j_Name (tk_job g) /\
      ra_jobs s !! job_key (tk_job g) = None /\ ra_jobs s' = <[job_key (tk_job g) := tk_job g]> (ra_jobs s) /\
      j_BackoffLimit (tk_job g) = 0 /\ j_RestartNever (tk_job g) = true /\
      j_ActiveDeadlineSeconds (tk_job g) = tk_timeout g /\ 0 < tk_timeout g /\
      j_Image (tk_job g) = rq_Image req /\ j_Command (tk_job g) = rq_Command req /\ rq_Command req <> [] /\
      (tk_unit g ∉ running (ra_tracker s)) /\
      running (ra_tracker s') = ({[tk_unit g]} ∪ running (ra_tracker s))
  | None =>
      rr_Success resp = false /\ ra_store s' = ra_store s /\
      running (ra_tracker s') = running (ra_tracker s)
  end.
Proof.
  intros Hw. unfold run_oneshot. destruct (_ || _ || _ || _) eqn:Hreq; [done|].
  apply orb_false_iff in Hreq as [_ Hcmd]. apply bool_decide_eq_false in Hcmd.
  destruct (Begin (ra_tracker s)) as [[u|e] w] eqn:Hb.
  2: { assert (w = ra_tracker s) as -> by (unfold Begin in Hb; cases; congruence). done. }
  destruct (Begin_unit _ _ _ Hb) as (Hr & Hn & _). pose proof (begin_end _ _ _ Hw Hb) as He.
  unfold run_admitted. destruct (clientset env); [done|]. unfold Create_job.
  destruct (create_job env _) as [[]|] eqn:Hj; [done|]. destruct (ra_jobs s !! _) eqn:Hex; [done|]. simpl.
  split; [done|]. split; [done|]. split; [done|]. split; [exact Hex|]. repeat (split; [done|]). split; [|done].
  destruct (Z.leb_spec (rq_TimeoutSeconds req) 0); unfold defaultOneShotTimeoutSeconds; lia.
Qed.
End Records.

(** ** Witnesses *)

Definition demo_job : BatchJob :=
  buildOneShotJob "runos-run-r1" "app" (mkRunRequest "r1" "app" "" "img:1" ["migrate"] "" "" "" 60 "me" None)
    "app-user-env-config" "app-user-env-vars" 60.

(** The container is gone with 137 from the start, the Job's condition comes
    three seconds later. *)
Definition demo_killed : Cluster :=
  mkRunCluster (fun _ => Ok [mkPod "p" PodFailed [Terminated 137]])
    (fun t => Ok (mkJobState 0 1 (if 3 * Second <=? t then [("Failed", "True", "DeadlineExceeded")] else [])))
    (fun _ _ => Ok (mkPod "p" PodFailed [Terminated 137])) (fun _ => Ok (["bye"], None, 0)).

Lemma deadline_kill_is_timeout_witness :
  resolveOneShotOutcome demo_killed "p" (180 * Second) 0 = Some (OneShotStatusTimeout, 124, 0 + Z.of_nat 3 * Second).
Proof.
  apply (deadline_kill_is_timeout demo_killed "p" (180 * Second) 0 3); [lia|reflexivity| |vm_compute; reflexivity].
  intros i Hi. assert (i = 0 \/ i = 1 \/ i = 2) as [-> | [-> | ->]] by lia;
    vm_compute; (split; [reflexivity|split; [intros _ H; discriminate|intros H; discriminate]]).
Defined.

Lemma oneshot_run_accounting_witness :
  let env := mkRunEnv (fun _ => Err "") (fun _ => Ok "b64") None (fun _ => None) (fun _ => "exists") (fun _ => "[]") in
  let req := mkRunRequest "r1" "app" "" "img:1" ["migrate"] "" "" "" 60 "me" None in
  let s := mkRunAgent Drain.init (mem_ready empty_tables) ∅ in
  let '(resp, tk, s') := run_oneshot env req s in
  exists g, tk = Some g /\ tk_job g = demo_job /\
    running (ra_tracker s') = {[tk_unit g]} ∪ running (ra_tracker s).
Proof.
  intros env req s. pose proof (oneshot_run_accounting env req s init_reachable) as H.
  destruct (run_oneshot env req s) as [[resp tk] s'] eqn:E. vm_compute in E. injection E as <- <- <-.
  eexists. split; [reflexivity|]. split; [reflexivity|]. apply H.
Defined.

Definition demo_run : OneShotJobModel :=
  mkRun 1 "r1" "app" "app" "img:1" "[]" "runos-run-r1" OneShotStatusPending None "me" 60 0 0 None.
Definition demo_run_agent : @RunAgent MemDb :=
  mkRunAgent Drain.init (mem_ready (set_runs [demo_run] empty_tables)) ∅.

Lemma run_is_recorded_witness :
  exists logs status code s',
    run_over demo_killed 0 (mkTracked 0 demo_job "r1" 60) demo_run_agent = Some s' /\
    (UpdateOneShotJobResult "r1" status code
       (foldl (perform_effect "r1") (ra_store demo_run_agent) (SetStatus OneShotStatusRunning :: logs))).1 = Ok tt /\
    Forall (fun m => has_run "r1" m = true -> recorded status code m) (runs_t (tables (ra_store s'))).
Proof.
  destruct (run_is_recorded demo_killed 0 (mkTracked 0 demo_job "r1" 60) demo_run_agent)
    as (logs & status & code & line & s' & Htr & Hlogs & _ & _ & Hs & _ & Hrec).
  exists logs, status, code, s'. split; [exact Hs|].
  assert (logs = [RunLog "bye"]) as ->.
  { vm_compute in Htr. injection Htr as Heq. clear -Heq.
    destruct logs as [|l [|l2 logs]]; [discriminate|by injection Heq as ->|].
    apply (f_equal (@length _)) in Heq. change (3 = length ((l :: l2 :: logs) ++ [SetResult status code; RunLog line]))%nat in Heq.
    rewrite length_app in Heq. simpl in Heq. lia. }
  assert ((UpdateOneShotJobResult "r1" status code
       (foldl (perform_effect "r1") (ra_store demo_run_agent) (SetStatus OneShotStatusRunning :: [RunLog "bye"]))).1 = Ok tt)
    as Hu by (vm_compute; reflexivity).
  split; [exact Hu|]. exact (Hrec Hu).
Defined.

(** ** A deadline that passes while the pod is pending *)

(** A pod that cannot pull its image until the Job's deadline of half an hour. *)
Definition demo_pending : Cluster :=
  mkRunCluster
    (fun t => Ok (if 1800 * Second <=? t then [] else [mkPod "p" PodPending [Waiting "ImagePullBackOff" "x"]]))
    (fun t => Ok (mkJobState 0 0 (if 1800 * Second <=? t then [("Failed", "True", "DeadlineExceeded")] else [])))
    (fun _ _ => Err "not found") (fun _ => Err "not found").

(** The tracker waits for the pod until its own context is over, and then every
    reading of the Job fails: the run is recorded as failed with exit code 1
    although its deadline was exceeded. *)
Lemma pending_deadline_recorded_failed :
  trackOneShotJob demo_pending 1800 0 =
    Some [SetStatus OneShotStatusRunning; RunLog "pod p: ImagePullBackOff: x";
          RunLog "ERROR: one-shot pod never started: timed out waiting for pod";
          SetResult OneShotStatusFailed 1; RunLog "Run finished: status=failed exitCode=1"] /\
  exists j, get_job demo_pending (1919 * Second) = Ok j /\ existsb deadline_condition (js_Conditions j) = true.
Proof. split; [vm_compute; reflexivity|]. eexists. split; reflexivity. Qed.

(** ** Resources and names *)

(** Kubernetes accepts the resources: the request is positive and within the
    limit, whatever the block holds. *)
Lemma set_resource_valid n req lim def :
  0 < def -> let '(q, l) := set_resource n req lim def in 0 < q /\ forall x, l = Some x -> q <= x.
Proof.
  intros Hd. unfold set_resource.
  destruct (Z.leb_spec req 0), (Z.ltb_spec 0 lim); cbn [andb];
    try destruct (bool_decide _); try destruct (Z.ltb_spec lim lim); try destruct (Z.ltb_spec lim def);
    try destruct (Z.ltb_spec lim req); (split; [lia|]); intros x [= <-]; lia.
Qed.

(** A run id that ends in a character names do not allow gives a Job name that
    ends in a dash, which is not a DNS name. *)
Lemma oneShotJobName_trailing_dash : oneShotJobName "nightly_" = "runos-run-nightly-".
Proof. reflexivity. Qed.
