(* ===== verification/WebGuard.v ===== *)
(** * Outbound requests and their address guard
      ([src/agentstream/instructions/netguard.go], [webrequest.go],
       [webrequest_follow.go])

    Addresses are byte lists as [net.IP] has them, with the parts of [net] the
    guard uses. Name resolution, the remote servers, URL parsing and JSON are
    the environment; what the resolver and the servers answer may differ from
    call to call. The model keeps every address that is dialled. *)
From stdpp Require Import gmap pretty sorting.
From S2P Require Import Prelude GoStrings.
Local Open Scope string_scope.
Local Open Scope Z_scope.

(** ** [net.IP] *)

(** Four or sixteen bytes; the empty list is a nil address. *)
Abbreviation IP := (list Z).

Definition v4InV6Prefix : IP := [0; 0; 0; 0; 0; 0; 0; 0; 0; 0; 255; 255].
Definition IPv4 (a b c d : Z) : IP := (v4InV6Prefix ++ [a; b; c; d])%list.
Definition IPv6loopback : IP := (repeat 0 15 ++ [1])%list.

Definition To4 (ip : IP) : option IP :=
  if Nat.eqb (length ip) 4 then Some ip
  else if Nat.eqb (length ip) 16 && bool_decide (take 12 ip = v4InV6Prefix) then Some (drop 12 ip)
  else None.

Definition at_ (ip : IP) (i : nat) : Z := nth i ip 0.

(** [IP.Equal]: a four-byte address equals its sixteen-byte form. *)
Definition IPEqual (ip x : IP) : bool :=
  if Nat.eqb (length ip) (length x) then bool_decide (ip = x)
  else if Nat.eqb (length ip) 4 && Nat.eqb (length x) 16 then bool_decide ((v4InV6Prefix ++ ip)%list = x)
  else if Nat.eqb (length ip) 16 && Nat.eqb (length x) 4 then bool_decide (ip = (v4InV6Prefix ++ x)%list)
  else false.

Definition IsLoopback (ip : IP) : bool :=
  match To4 ip with
  | Some ip4 => at_ ip4 0 =? 127
  | None => IPEqual ip IPv6loopback
  end.

Definition IsLinkLocalUnicast (ip : IP) : bool :=
  match To4 ip with
  | Some ip4 => (at_ ip4 0 =? 169) && (at_ ip4 1 =? 254)
  | None => Nat.eqb (length ip) 16 && (at_ ip 0 =? 254) && (Z.land (at_ ip 1) 192 =? 128)
  end.

Definition IsLinkLocalMulticast (ip : IP) : bool :=
  match To4 ip with
  | Some ip4 => (at_ ip4 0 =? 224) && (at_ ip4 1 =? 0) && (at_ ip4 2 =? 0)
  | None => Nat.eqb (length ip) 16 && (at_ ip 0 =? 255) && (Z.land (at_ ip 1) 15 =? 2)
  end.

(** ** Addresses as text *)

(** [net.ParseIP] of a dotted address: four decimal fields of at most 255, no
    leading zeros. *)
Definition parse_octet (s : string) : option Z :=
  match s with
  | EmptyString => None
  | String c r =>
      if Ascii.eqb c "0" && negb (String.eqb r "") then None
      else v ← parse_digits s 0; if v <=? 255 then Some v else None
  end.

Definition parseIPv4 (s : string) : option (list Z) :=
  match Split "." s with
  | [a; b; c; d] => a ← parse_octet a; b ← parse_octet b; c ← parse_octet c; d ← parse_octet d; Some [a; b; c; d]
  | _ => None
  end.

Definition hex_val (c : ascii) : option Z :=
  if in_range 48 57 c then Some (byte_val c - 48)
  else if in_range 97 102 c then Some (byte_val c - 87)
  else if in_range 65 70 c then Some (byte_val c - 55) else None.

Fixpoint parse_hex (s : string) (acc : Z) : option Z :=
  match s with
  | EmptyString => Some acc
  | String c r => d ← hex_val c; parse_hex r (16 * acc + d)
  end.

(** A group of one to four hexadecimal digits, as two bytes. *)
Definition parse_group (s : string) : option (list Z) :=
  if String.eqb s "" || (4 <? slen s) then None
  else v ← parse_hex s 0; Some [v / 256; v mod 256].

(** Groups between colons; the last may be a dotted address. *)
Fixpoint parse_groups (gs : list string) : option (list Z) :=
  match gs with
  | [] => Some []
  | [g] => if contains_char "." g then parseIPv4 g else parse_group g
  | g :: gs => a ← parse_group g; b ← parse_groups gs; Some (a ++ b)%list
  end.

Definition parse_side (s : string) : option (list Z) :=
  if String.eqb s "" then Some [] else parse_groups (Split ":" s).

(** Before and after the first [::]. *)
Fixpoint cut_ellipsis (s : string) : option (string * string) :=
  match s with
  | String c r =>
      if Ascii.eqb c ":" && HasPrefix r ":" then Some ("", drop_string 1 r)
      else '(a, b) ← cut_ellipsis r; Some (String c a, b)
  | EmptyString => None
  end.

Definition parseIPv6 (s : string) : option (list Z) :=
  match cut_ellipsis s with
  | None => bs ← parse_side s; if Nat.eqb (length bs) 16 then Some bs else None
  | Some (l, r) =>
      if contains_char "." l then None
      else
        a ← parse_side l; b ← parse_side r;
        if (length a + length b <? 16)%nat
        then Some (a ++ repeat 0 (16 - (length a + length b)) ++ b)%list else None
  end.

Definition ParseIP (s : string) : option IP :=
  if contains_char ":" s then parseIPv6 s
  else bs ← parseIPv4 s; Some (v4InV6Prefix ++ bs)%list.

(** [net.SplitHostPort]. *)
Definition SplitHostPort (hostport : string) : result string (string * string) :=
  let i := LastIndex hostport ":" in
  if i <? 0 then Err "missing port in address"
  else
    let n := Z.to_nat i in
    let port := drop_string (S n) hostport in
    let check (host before after : string) :=
      if contains_char "[" before then Err "unexpected '[' in address"
      else if contains_char "]" after then Err "unexpected ']' in address"
      else Ok (host, port) in
    match hostport with
    | String c r =>
        if Ascii.eqb c "[" then
          match Cut "]" r with
          | None => Err "missing ']' in address"
          | Some (host, after) =>
              (* the bracket must be followed by the last colon *)
              let end_ := S (String.length host) in
              if Nat.eqb (S end_) n then check host r after
              else if HasPrefix after ":" then Err "too many colons in address"
              else Err "missing port in address"
          end
        else
          let host := take_string n hostport in
          if contains_char ":" host then Err "too many colons in address" else check host hostport hostport
    | EmptyString => Err "missing port in address"
    end.

(** ** netguard.go *)

Definition metadataIP : IP := IPv4 169 254 169 254.

Definition isBlockedIP (ip : IP) : bool :=
  match ip with
  | [] => true
  | _ =>
      if IsLoopback ip || IsLinkLocalUnicast ip || IsLinkLocalMulticast ip then true
      else IPEqual ip metadataIP
  end.

Record URL := mkURL { Scheme : string; Userinfo : string; Host : string; Hostname : string; UPath : string; RawQuery : string }.

Record Request := mkRequest {
  Method : string; ReqURL : string; ReqBody : option string; Header : list (string * string)
}.
Record Response := mkResponse {
  StatusText_ : string; StatusCode : Z; Location : string; RespBody : result string string
}.

Record NetEnv := mkNetEnv {
  url_Parse : string -> result string URL;
  url_Resolve : string -> string -> result string string;   (* base.Parse(ref).String() *)
  ToLower : string -> string;
  StatusText : Z -> string;
  form_Encode : list (string * string) -> string;           (* url.Values.Encode *)
  NewRequest_err : string -> string -> option string;       (* method, URL *)
  LookupIP : nat -> string -> result string (list IP);
  dial : nat -> IP -> string -> option string;
  (* the addresses net/http needs connections to for one Do, redirects that it
     follows itself included; none when it reuses a connection *)
  needs : nat -> Request -> list string;
  answer : nat -> Request -> result string Response
}.

(** The calls made so far, the addresses dialled, and the requests sent. *)
Record Net := mkNet { asked : nat; dialled : list (IP * string); sent : list Request }.

Section net.
Context (E : NetEnv).

Definition resolveHostIPs (host : string) (n : Net) : result string (list IP) * Net :=
  match ParseIP host with
  | Some ip => (Ok [ip], n)
  | None =>
      let n' := mkNet (S (asked n)) (dialled n) (sent n) in
      match LookupIP E (asked n) host with
      | Err e => (Err e, n')
      | Ok [] => (Err "host resolved to no addresses", n')
      | Ok ips => (Ok ips, n')
      end
  end.

Definition validateOutboundScheme (rawURL : string) : result string unit :=
  match url_Parse E rawURL with
  | Err e => Err ("invalid URL: " ++ e)
  | Ok u =>
      let s := ToLower E (Scheme u) in
      if String.eqb s "http" || String.eqb s "https" then
        if String.eqb (Hostname u) "" then Err "URL has no host" else Ok tt
      else Err "URL scheme must be http or https"
  end.

Definition guardedDialContext (addr : string) (n : Net) : result string unit * Net :=
  match SplitHostPort addr with
  | Err e => (Err e, n)
  | Ok (host, port) =>
      match resolveHostIPs host n with
      | (Err e, n) => (Err e, n)
      | (Ok ips, n) =>
          if existsb isBlockedIP ips then (Err "refusing connection to internal/metadata address", n)
          else
            match ips with
            | [] => (Err "no addresses", n)
            | ip :: _ =>
                let n' := mkNet (S (asked n)) (dialled n ++ [(ip, port)])%list (sent n) in
                match dial E (asked n) ip port with
                | Some e => (Err e, n')
                | None => (Ok tt, n')
                end
            end
      end
  end.

(** [client.Do] over the guarded transport: every connection it opens is dialled
    by [guardedDialContext]. *)
Fixpoint dial_all (addrs : list string) (n : Net) : result string unit * Net :=
  match addrs with
  | [] => (Ok tt, n)
  | a :: addrs =>
      match guardedDialContext a n with
      | (Err e, n) => (Err e, n)
      | (Ok _, n) => dial_all addrs n
      end
  end.

Definition client_Do (req : Request) (n : Net) : result string Response * Net :=
  let n1 := mkNet (S (asked n)) (dialled n) (sent n ++ [req])%list in
  match dial_all (needs E (asked n) req) n1 with
  | (Err e, n) => (Err e, n)
  | (Ok _, n) => (answer E (asked n) req, mkNet (S (asked n)) (dialled n) (sent n))
  end.

(** ** webrequest.go *)

Definition webRequestMaxBodyBytes : Z := 32 * 1024 * 1024.

(** [io.LimitReader]. *)
Definition LimitReader (max : Z) (s : string) : string :=
  if slen s <=? max then s else take_string (Z.to_nat max) s.

Definition response_body (r : Response) : result string string :=
  match RespBody r with
  | Err e => Err e
  | Ok body => Ok (LimitReader webRequestMaxBodyBytes body)
  end.

Definition webURLHostPath (rawURL : string) : string :=
  match url_Parse E rawURL with
  | Err _ => "<unparseable>"
  | Ok u => Host u ++ UPath u
  end.

(** [%v] of a slice of strings. *)
Definition webRequestLogLine (method rawURL : string) (headers : gmap string string) : string :=
  let method := if String.eqb method "" then "GET" else method in
  let keys := merge_sort string_le (map fst (map_to_list headers)) in
  method ++ " " ++ webURLHostPath rawURL ++ " headerKeys=[" ++ Join keys " " ++ "]".

Record WebRequest := mkWebRequest {
  w_url : string; w_method : string; w_postData : string; w_allowInsecure : bool;
  w_headers : gmap string string
}.
Record WebResponse := mkWebResponse { ResponseBody : string; ResponseStatusCode : string }.

Context (decode_web : string -> result string WebRequest).
Context (encode_web : WebResponse -> result string string).

Definition WebRequestFromServer (jsonB64 : string) (n : Net) : result string (string * string) * Net :=
  match decode_web jsonB64 with
  | Err e => (Err e, n)
  | Ok request =>
      match validateOutboundScheme (w_url request) with
      | Err e => (Err e, n)
      | Ok _ =>
          let reqBody := if String.eqb (w_postData request) "" then None else Some (w_postData request) in
          let method := if String.eqb (w_method request) "" then "GET" else w_method request in
          match NewRequest_err E method (w_url request) with
          | Some e => (Err e, n)
          | None =>
              let req := mkRequest method (w_url request) reqBody (map_to_list (w_headers request)) in
              match client_Do req n with
              | (Err e, n) => (Err e, n)
              | (Ok resp, n) =>
                  match response_body resp with
                  | Err e => (Err e, n)
                  | Ok body =>
                      match encode_web (mkWebResponse body (StatusText_ resp)) with
                      | Err e => (Err e, n)
                      | Ok out => (Ok ("WEB_REQUEST_RESPONSE", out), n)
                      end
                  end
              end
          end
      end
  end.

(** ** webrequest_follow.go *)

Definition webFinalStatus (resp : option Response) : string :=
  match resp with
  | None => "000 unknown"
  | Some r =>
      if negb (String.eqb (StatusText_ r) "") then StatusText_ r
      else if negb (StatusCode r =? 0) then pretty (StatusCode r) ++ " " ++ StatusText E (StatusCode r)
      else "000 unknown"
  end.

(** The hops of [doAndFollow]: hop [hops] sends [current]; [fuel] hops are left. *)
Fixpoint follow_hops (fuel : nat) (hops : Z) (current : Request) (body : string) (resp : option Response)
    (n : Net) : result string (string * option Response) * Net :=
  match fuel with
  | O => (Ok (body, resp), n)
  | S fuel =>
      match client_Do current n with
      | (Err e, n) => (Err ("hop " ++ pretty hops ++ ": " ++ e), n)
      | (Ok resp, n) =>
          match response_body resp with
          | Err e => (Err ("hop " ++ pretty hops ++ " read: " ++ e), n)
          | Ok body =>
              if (300 <=? StatusCode resp) && (StatusCode resp <? 400) then
                if String.eqb (Location resp) "" then (Ok (body, Some resp), n)
                else
                  match url_Resolve E (ReqURL current) (Location resp) with
                  | Err _ => (Ok (body, Some resp), n)
                  | Ok redirectURL =>
                      match NewRequest_err E "GET" redirectURL with
                      | Some _ => (Ok (body, Some resp), n)
                      | None =>
                          follow_hops fuel (hops + 1) (mkRequest "GET" redirectURL None []) body (Some resp) n
                      end
                  end
              else (Ok (body, Some resp), n)
          end
      end
  end.

Definition doAndFollow (req : Request) (n : Net) : result string (string * option Response) * Net :=
  follow_hops 15 0 req "" None n.

(** The group of the first match of the handler's regular expression: an action
    attribute whose quoted value contains the word login. *)
Definition action_prefix : string := "action=" ++ String dquote "".

Definition login_here (s : string) : option string :=
  if HasPrefix s action_prefix then
    match take_until (fun c => Ascii.eqb c dquote) (TrimPrefix s action_prefix) with
    | (seg, String _ _) => if Contains seg "login" then Some seg else None
    | (_, EmptyString) => None
    end
  else None.

Fixpoint find_login (s : string) : option string :=
  match login_here s with
  | Some seg => Some seg
  | None => match s with String _ r => find_login r | EmptyString => None end
  end.

Record FollowRequest := mkFollowRequest {
  f_url : string; f_method : string; f_formData : gmap string string; f_headers : gmap string string;
  f_login : option (string * string); f_allowInsecure : bool
}.

Context (decode_follow : string -> result string FollowRequest).

Definition form_header : string * string := ("Content-Type", "application/x-www-form-urlencoded").

(** Step 1's request; header order is the map's, which Go leaves open. *)
Definition initial_request (request : FollowRequest) : Request :=
  let form := map_to_list (f_formData request) in
  let has := negb (bool_decide (f_formData request = ∅)) in
  mkRequest (if String.eqb (f_method request) "" then "GET" else f_method request) (f_url request)
    (if has then Some (form_Encode E form) else None)
    ((if has then [form_header] else []) ++ map_to_list (f_headers request))%list.

Definition login_request (loginURL username password : string) : Request :=
  mkRequest "POST" loginURL (Some (form_Encode E [("login", username); ("password", password)])) [form_header].

Definition follow_respond (body : string) (finalResp : option Response) : result string (string * string) :=
  match encode_web (mkWebResponse body (webFinalStatus finalResp)) with
  | Err e => Err ("encoding response: " ++ e)
  | Ok out => Ok ("WEB_REQUEST_RESPONSE", out)
  end.

Definition follow_login (request : FollowRequest) (username password body : string) (n : Net) :
    result string (string * string) * Net :=
  match find_login body with
  | None => (Err "login form not found in response HTML", n)
  | Some action =>
      let formAction := replace_all (String.length action) action "&amp;" "&" in
      match url_Resolve E (f_url request) formAction with
      | Err e => (Err ("parsing login URL: " ++ e), n)
      | Ok loginURL =>
          match NewRequest_err E "POST" loginURL with
          | Some e => (Err ("step 2: building login request: " ++ e), n)
          | None =>
              match doAndFollow (login_request loginURL username password) n with
              | (Err e, n) => (Err ("step 2 login: " ++ e), n)
              | (Ok (body, finalResp), n) => (follow_respond body finalResp, n)
              end
          end
      end
  end.

Definition WebRequestFollowFromServer (jsonB64 : string) (n : Net) : result string (string * string) * Net :=
  match decode_follow jsonB64 with
  | Err e => (Err e, n)
  | Ok request =>
      match validateOutboundScheme (f_url request) with
      | Err e => (Err e, n)
      | Ok _ =>
          let initialReq := initial_request request in
          match NewRequest_err E (Method initialReq) (f_url request) with
          | Some e => (Err ("creating initial request: " ++ e), n)
          | None =>
              match doAndFollow initialReq n with
              | (Err e, n) => (Err ("step 1: " ++ e), n)
              | (Ok (body, finalResp), n) =>
                  match f_login request with
                  | None => (follow_respond body finalResp, n)
                  | Some (username, password) => follow_login request username password body n
                  end
              end
          end
      end
  end.

(** ** Every address that is dialled has passed the guard *)

(** From [n] to [n'] only addresses the guard lets through were dialled, and
    [m] requests at most were sent. *)
Definition guarded (m : nat) (n n' : Net) : Prop :=
  (exists l, dialled n' = (dialled n ++ l)%list /\ Forall (fun d => isBlockedIP d.1 = false) l) /\
  (exists rs, sent n' = (sent n ++ rs)%list /\ (length rs <= m)%nat).

Lemma guarded_refl n : guarded 0 n n.
Proof. split; exists []; by rewrite app_nil_r. Qed.

Lemma guarded_trans a b n1 n2 n3 : guarded a n1 n2 -> guarded b n2 n3 -> guarded (a + b) n1 n3.
Proof.
  intros [(l & Hl & Fl) (r & Hr & Lr)] [(l' & Hl' & Fl') (r' & Hr' & Lr')]. split.
  - exists (l ++ l')%list. rewrite Hl', Hl, app_assoc. split; [done|]. by apply Forall_app.
  - exists (r ++ r')%list. rewrite Hr', Hr, app_assoc, length_app. split; [done|lia].
Qed.

Lemma guarded_weaken a b n n' : guarded a n n' -> (a <= b)%nat -> guarded b n n'.
Proof. intros [Hl (r & Hr & Lr)] Hab. split; [done|]. exists r. split; [done|lia]. Qed.

Lemma guardedDial_guarded addr n : guarded 0 n (guardedDialContext addr n).2.
Proof.
  unfold guardedDialContext. destruct (SplitHostPort addr) as [[host port]|]; [|apply guarded_refl].
  assert (forall r n1, resolveHostIPs host n = (r, n1) -> dialled n1 = dialled n /\ sent n1 = sent n) as Hres.
  { unfold resolveHostIPs. intros r n1. destruct (ParseIP host); [by intros [= _ <-]|].
    by destruct (LookupIP E _ host) as [[]|]; intros [= _ <-]. }
  destruct (resolveHostIPs host n) as [[ips|e] n1]; destruct (Hres _ _ eq_refl) as [Hd Hs].
  2:{ cbn. split; exists []; by rewrite app_nil_r. }
  destruct (existsb isBlockedIP ips) eqn:Hb; [cbn; split; exists []; by rewrite app_nil_r|].
  destruct ips as [|ip ips]; [cbn; split; exists []; by rewrite app_nil_r|].
  simpl in Hb. apply orb_false_iff in Hb as [Hip _].
  assert (guarded 0 n (mkNet (S (asked n1)) (dialled n1 ++ [(ip, port)])%list (sent n1))) as Hg.
  { split; [exists [(ip, port)]; cbn; rewrite Hd; auto|]. exists []. cbn. by rewrite Hs, app_nil_r. }
  by destruct (dial E (asked n1) ip port).
Qed.

Lemma dial_all_guarded addrs n : guarded 0 n (dial_all addrs n).2.
Proof.
  revert n. induction addrs as [|a addrs IH]; intros n; [apply guarded_refl|]. cbn.
  pose proof (guardedDial_guarded a n) as Hg. destruct (guardedDialContext a n) as [[]]; [|done].
  by apply (guarded_trans 0 0 _ _ _ Hg).
Qed.

Lemma client_Do_guarded req n : guarded 1 n (client_Do req n).2.
Proof.
  unfold client_Do.
  assert (guarded 1 n (mkNet (S (asked n)) (dialled n) (sent n ++ [req])%list)) as H1.
  { split; [exists []; by rewrite app_nil_r|]. by exists [req]. }
  pose proof (dial_all_guarded (needs E (asked n) req) (mkNet (S (asked n)) (dialled n) (sent n ++ [req])%list)) as Hg.
  destruct (dial_all _ _) as [[] n2]; [|exact (guarded_trans 1 0 _ _ _ H1 Hg)].
  pose proof (guarded_trans 1 0 _ _ _ H1 Hg) as [Hd Hs]. by split.
Qed.

Lemma follow_hops_guarded fuel hops req body resp n :
  guarded fuel n (follow_hops fuel hops req body resp n).2.
Proof.
  revert hops req body resp n. induction fuel as [|fuel IH]; intros; [apply guarded_refl|]. cbn [follow_hops].
  pose proof (client_Do_guarded req n) as Hg. destruct (client_Do req n) as [[r|e] n1]; cbn [snd] in Hg;
    [|apply (guarded_weaken 1); [done|lia]].
  assert (guarded (S fuel) n n1) as Hw by (apply (guarded_weaken 1); [done|lia]).
  destruct (response_body r) as [b|]; [|exact Hw]. destruct (_ && _); [|exact Hw].
  destruct (String.eqb _ ""); [exact Hw|]. destruct (url_Resolve E _ _); [|exact Hw].
  destruct (NewRequest_err E "GET" _); [exact Hw|]. exact (guarded_trans 1 fuel _ _ _ Hg (IH _ _ _ _ _)).
Qed.

Lemma client_Do_sends req n : sent (client_Do req n).2 = (sent n ++ [req])%list.
Proof.
  unfold client_Do.
  assert (forall addrs m, sent (dial_all addrs m).2 = sent m) as Hd.
  { induction addrs as [|a addrs IH]; intros m; [done|]. cbn.
    assert (sent (guardedDialContext a m).2 = sent m) as Ha.
    { unfold guardedDialContext. destruct (SplitHostPort a) as [[h p]|]; [|done]. unfold resolveHostIPs.
      destruct (ParseIP h); [|destruct (LookupIP E _ h) as [[]|]; [done| |done]];
        cbn; destruct (_ || _); try done; by destruct (dial E _ _ p). }
    destruct (guardedDialContext a m) as [[] m1]; cbn in Ha; [|done]. by rewrite IH. }
  specialize (Hd (needs E (asked n) req) (mkNet (S (asked n)) (dialled n) (sent n ++ [req])%list)).
  by destruct (dial_all _ _) as [[] n2].
Qed.

(** A URL that may be asked for: it parses, its scheme is http or https in any
    case, and it names a host. *)
Definition outbound (rawURL : string) : Prop :=
  exists u, url_Parse E rawURL = Ok u /\ Hostname u <> "" /\
    (ToLower E (Scheme u) = "http" \/ ToLower E (Scheme u) = "https").

Lemma validateOutboundScheme_spec rawURL : validateOutboundScheme rawURL = Ok tt <-> outbound rawURL.
Proof.
  unfold validateOutboundScheme, outbound. destruct (url_Parse E rawURL) as [u|e]; [|split; [done|by intros (? & ? & _)]].
  split.
  - destruct (String.eqb_spec (ToLower E (Scheme u)) "http"), (String.eqb_spec (ToLower E (Scheme u)) "https"); cbn; try done;
      destruct (String.eqb_spec (Hostname u) ""); try done; intros _; exists u; auto.
  - intros (u' & [= <-] & Hh%String.eqb_neq & [->| ->]); cbn; by rewrite Hh.
Qed.

Lemma web_request_guarded jsonB64 n : guarded 1 n (WebRequestFromServer jsonB64 n).2.
Proof.
  assert (guarded 1 n n) as H0 by (apply (guarded_weaken 0); [apply guarded_refl|lia]).
  unfold WebRequestFromServer. destruct (decode_web jsonB64) as [rq|]; [|done].
  destruct (validateOutboundScheme _); [|done]. destruct (NewRequest_err E _ _); [done|].
  match goal with |- context [client_Do ?r n] => pose proof (client_Do_guarded r n) as Hg; destruct (client_Do r n) as [[r'|] n1] end;
    [|done]. destruct (response_body r'); [|done]. by destruct (encode_web _).
Qed.

Lemma web_follow_guarded jsonB64 n : guarded 30 n (WebRequestFollowFromServer jsonB64 n).2.
Proof.
  assert (guarded 30 n n) as H0 by (apply (guarded_weaken 0); [apply guarded_refl|lia]).
  unfold WebRequestFollowFromServer. destruct (decode_follow jsonB64) as [rq|]; [|done].
  destruct (validateOutboundScheme _); [|done]. destruct (NewRequest_err E _ _); [done|]. unfold doAndFollow.
  pose proof (follow_hops_guarded 15 0 (initial_request rq) "" None n) as Hg.
  destruct (follow_hops 15 0 (initial_request rq) "" None n) as [[[body fr]|] n1]; cbn [snd] in Hg;
    [|by apply (guarded_weaken 15); [|lia]].
  assert (guarded 30 n n1) as Hw by (by apply (guarded_weaken 15); [|lia]).
  destruct (f_login rq) as [[u p]|]; [|exact Hw]. unfold follow_login, doAndFollow.
  destruct (find_login body) as [act|]; [|exact Hw]. destruct (url_Resolve E _ _) as [lu|]; [|exact Hw].
  destruct (NewRequest_err E "POST" lu); [exact Hw|].
  pose proof (follow_hops_guarded 15 0 (login_request lu u p) "" None n1) as Hg2.
  pose proof (guarded_trans 15 15 _ _ _ Hg Hg2) as Ht. by destruct (follow_hops _ _ _ _ _ n1) as [[[]|] n2].
Qed.


(** ** What a followed request sends *)

Definition plain_get (r : Request) : Prop := exists u, r = mkRequest "GET" u None [].

(** [doAndFollow] sends its request, then plain GETs, and answers with the last
    response. *)
Definition followed (fuel : nat) (req : Request) (n : Net) (out : result string (string * option Response) * Net) : Prop :=
  exists gets, sent out.2 = (sent n ++ req :: gets)%list /\ Forall plain_get gets /\ (length gets < fuel)%nat /\
    match out.1 with Ok (_, last) => is_Some last | Err _ => True end.

Lemma follow_hops_sends fuel hops req body resp n :
  (0 < fuel)%nat -> followed fuel req n (follow_hops fuel hops req body resp n).
Proof.
  revert hops req body resp n. induction fuel as [|fuel IH]; intros hops req body resp n Hf; [lia|].
  cbn [follow_hops]. pose proof (client_Do_sends req n) as Hs.
  assert (forall r n1, sent n1 = (sent n ++ [req])%list ->
    match r with Ok (_, last) => is_Some last | Err _ => True end -> followed (S fuel) req n (r, n1)) as Hstop.
  { intros r n1 Hn1 Hr. exists []. cbn. split_and!; [done|constructor|lia|done]. }
  destruct (client_Do req n) as [[r|e] n1]; cbn [snd] in Hs; [|by apply Hstop].
  destruct (response_body r) as [b|]; [|by apply Hstop].
  destruct (_ && _); [|apply Hstop; [done|eauto]].
  destruct (String.eqb _ ""); [apply Hstop; [done|eauto]|].
  destruct (url_Resolve E _ _) as [u|]; [|apply Hstop; [done|eauto]].
  destruct (NewRequest_err E "GET" _); [apply Hstop; [done|eauto]|].
  destruct fuel as [|fuel]; [apply Hstop; [done|eauto]|].
  destruct (IH (hops + 1) (mkRequest "GET" u None []) b (Some r) n1 ltac:(lia)) as (gets & Hn & Hg & Hl & Hr).
  exists (mkRequest "GET" u None [] :: gets). rewrite Hn, Hs, <-app_assoc.
  split_and!; [done|by constructor; [exists u|]|cbn; lia|done].
Qed.

(** The status reported is that of a response that was received. *)
Definition reported (r : result string (string * string)) : Prop :=
  match r with
  | Ok (tag, out) => tag = "WEB_REQUEST_RESPONSE" /\
      exists body last, encode_web (mkWebResponse body (webFinalStatus (Some last))) = Ok out
  | Err _ => True
  end.

Definition redirects (gets : list Request) : Prop := Forall plain_get gets /\ (length gets <= 14)%nat.

(** The login request to the form found in the page step 1 fetched. *)
Definition login_of (request : FollowRequest) (n : Net) (login : Request) : Prop :=
  exists u p page last action loginURL,
    f_login request = Some (u, p) /\ (doAndFollow (initial_request request) n).1 = Ok (page, last) /\
    find_login page = Some action /\
    url_Resolve E (f_url request) (replace_all (String.length action) action "&amp;" "&") = Ok loginURL /\
    login = login_request loginURL u p.

Lemma follow_respond_reported body last : is_Some last -> reported (follow_respond body last).
Proof.
  intros [l ->]. unfold follow_respond. destruct (encode_web _) eqn:He; cbn; [|done]. split; [done|]. by exists body, l.
Qed.

(** A followed request sends nothing when it is refused; otherwise the
    request it was asked for, then only plain GETs along the redirects. The
    credentials leave in at most one request: the POST to the action of a login
    form found in the page that was fetched, and only when the instruction
    carries credentials. The status reported is that of a response received. *)
Theorem follow_sends jsonB64 request n :
  decode_follow jsonB64 = Ok request ->
  let '(r, n') := WebRequestFollowFromServer jsonB64 n in
  reported r /\
  exists rs, sent n' = (sent n ++ rs)%list /\
    (rs = [] /\ is_ok r = false \/
     exists gets, redirects gets /\
       (rs = initial_request request :: gets \/
        exists login gets2, login_of request n login /\ redirects gets2 /\
          rs = (initial_request request :: gets ++ login :: gets2)%list)).
Proof.
  intros Hdec. unfold WebRequestFollowFromServer. rewrite Hdec.
  destruct (validateOutboundScheme _); [|split; [done|]; exists []; rewrite app_nil_r; auto].
  destruct (NewRequest_err E _ _); [split; [done|]; exists []; rewrite app_nil_r; auto|].
  destruct (doAndFollow (initial_request request) n) as [r1 n1] eqn:E1.
  assert (followed 15 (initial_request request) n (r1, n1)) as (gets & Hs & Hg & Hl & Hr)
    by (rewrite <-E1; apply follow_hops_sends; lia). cbn in Hs, Hr.
  assert (redirects gets) as Hgets by (split; [done|lia]).
  assert (forall r, reported r -> reported r /\ exists rs, sent n1 = (sent n ++ rs)%list /\
    (rs = [] /\ is_ok r = false \/ exists gets, redirects gets /\
       (rs = initial_request request :: gets \/ exists login gets2, login_of request n login /\ redirects gets2 /\
          rs = (initial_request request :: gets ++ login :: gets2)%list))) as Hone by eauto 8.
  destruct r1 as [[body last]|e]; [|by apply Hone].
  destruct (f_login request) as [[u p]|] eqn:Hf; [|by apply Hone, follow_respond_reported].
  unfold follow_login. destruct (find_login body) as [act|] eqn:Hfl; [|by apply Hone].
  destruct (url_Resolve E _ _) as [lu|] eqn:Hlu; [|by apply Hone].
  destruct (NewRequest_err E "POST" lu); [by apply Hone|].
  destruct (doAndFollow (login_request lu u p) n1) as [r2 n2] eqn:E2.
  assert (followed 15 (login_request lu u p) n1 (r2, n2)) as (gets2 & Hs2 & Hg2 & Hl2 & Hr2)
    by (rewrite <-E2; apply follow_hops_sends; lia). cbn in Hs2, Hr2.
  assert (exists rs, sent n2 = (sent n ++ rs)%list /\ exists gets, redirects gets /\
       exists login gets2, login_of request n login /\ redirects gets2 /\
          rs = (initial_request request :: gets ++ login :: gets2)%list) as Htwo.
  { exists (initial_request request :: gets ++ login_request lu u p :: gets2)%list.
    split; [by rewrite Hs2, Hs, <-app_assoc|]. exists gets. split; [done|].
    exists (login_request lu u p), gets2. split_and!; [|split; [done|lia]|done].
    exists u, p, body, last, act, lu. by rewrite E1. }
  destruct Htwo as (rs & Hrs & g & Hgr & lg & g2 & ?).
  destruct r2 as [[body2 last2]|e]; cbn [reported]; (split; [try done; by apply follow_respond_reported|]);
    exists rs; (split; [done|]); right; exists g; (split; [done|]); right; eauto.
Qed.

End net.

(** ** The guard as networks *)

(** The address as a number, and membership in a network given by its number
    and the length of its prefix. *)
Definition ip_number (ip : IP) : Z := foldl (fun acc b => 256 * acc + b) 0 ip.
Definition in_net (width bits : Z) (net : Z) (ip : IP) : bool :=
  Z.shiftr (ip_number ip) (width - bits) =? Z.shiftr net (width - bits).

Definition octets (ip : IP) : Prop := Forall (fun b => 0 <= b < 256) ip.

Definition blocked4 (ip : IP) : bool :=
  in_net 32 8 (ip_number [127; 0; 0; 0]) ip || in_net 32 16 (ip_number [169; 254; 0; 0]) ip ||
  in_net 32 24 (ip_number [224; 0; 0; 0]) ip.

(** ::1, fe80::/10, and ff?2::/16 for each of the sixteen flag values. *)
Definition blocked6 (ip : IP) : bool :=
  (ip_number ip =? 1) || in_net 128 10 (Z.shiftl 65152 112) ip ||
  existsb (fun flags => in_net 128 16 (Z.shiftl (65282 + 16 * flags) 112) ip) (map Z.of_nat (seq 0 16)).

Definition blocked_nets (ip : IP) : bool :=
  match To4 ip with Some ip4 => blocked4 ip4 | None => blocked6 ip end.

Lemma Zeqb_iff a b c d : (a = b <-> c = d) -> (a =? b) = (c =? d).
Proof. intros Hi. destruct (Z.eqb_spec a b), (Z.eqb_spec c d); tauto || (exfalso; tauto). Qed.

(** Byte facts, by enumeration. *)
Lemma land192 b : 0 <= b < 256 -> Z.land b 192 = 128 <-> b / 64 = 2.
Proof.
  intros Hb. assert (forallb (fun i => Bool.eqb (Z.land (Z.of_nat i) 192 =? 128) (Z.of_nat i / 64 =? 2)) (seq 0 256) = true) as Ha
    by (vm_compute; reflexivity).
  rewrite forallb_forall in Ha. specialize (Ha (Z.to_nat b)). rewrite in_seq, Z2Nat.id in Ha by lia.
  specialize (Ha ltac:(lia)). apply Bool.eqb_prop in Ha. lia.
Qed.

Lemma land15 b : 0 <= b < 256 -> Z.land b 15 = 2 <-> b mod 16 = 2.
Proof. intros Hb. change 15 with (Z.ones 4). rewrite Z.land_ones by lia. done. Qed.

Lemma blocked4_spec a b c d :
  octets [a; b; c; d] ->
  blocked4 [a; b; c; d] =
    (a =? 127) || ((a =? 169) && (b =? 254)) || ((a =? 224) && (b =? 0) && (c =? 0)).
Proof.
  unfold octets. rewrite !Forall_cons. intros (Ha & Hb & Hc & Hd & _).
  unfold blocked4, in_net, ip_number. cbn [foldl]. rewrite !Z.shiftr_div_pow2 by lia.
  change (2 ^ (32 - 8)) with 16777216. change (2 ^ (32 - 16)) with 65536. change (2 ^ (32 - 24)) with 256.
  set (v := 256 * (256 * (256 * (256 * 0 + a) + b) + c) + d).
  assert (v / 16777216 = a) as -> by (symmetry; apply Z.div_unique with (b * 65536 + c * 256 + d); lia).
  assert (v / 65536 = a * 256 + b) as -> by (symmetry; apply Z.div_unique with (c * 256 + d); lia).
  assert (v / 256 = a * 65536 + b * 256 + c) as -> by (symmetry; apply Z.div_unique with d; lia).
  repeat match goal with |- context [?x / ?k] => let y := eval vm_compute in (x / k) in change (x / k) with y end.
  clear v. f_equal; [f_equal|]; apply eq_true_iff_eq; rewrite ?andb_true_iff, !Z.eqb_eq; lia.
Qed.

Lemma ip_number_acc l acc :
  foldl (fun acc b => 256 * acc + b) acc l = acc * 256 ^ Z.of_nat (length l) + ip_number l.
Proof.
  unfold ip_number. revert acc. induction l as [|b l IH]; intros acc; [cbn; lia|].
  cbn [foldl length]. rewrite IH, (IH (256 * 0 + b)), Nat2Z.inj_succ, Z.pow_succ_r by lia. lia.
Qed.

Lemma ip_number_app l l' : ip_number (l ++ l')%list = ip_number l * 256 ^ Z.of_nat (length l') + ip_number l'.
Proof. unfold ip_number at 1. rewrite foldl_app. apply ip_number_acc. Qed.

Lemma ip_number_range l : octets l -> 0 <= ip_number l < 256 ^ Z.of_nat (length l).
Proof.
  induction l as [|b l IH] using rev_ind; [cbn; lia|]. unfold octets. rewrite Forall_app, Forall_singleton.
  intros [Hl Hb]. specialize (IH Hl). rewrite ip_number_app, length_app, Nat2Z.inj_add. cbn [length].
  rewrite Z.pow_add_r by lia. change (256 ^ Z.of_nat 1) with 256.
  replace (ip_number [b]) with b by (cbn; lia). lia.
Qed.

Lemma ip_number_inj l l' :
  octets l -> octets l' -> length l = length l' -> ip_number l = ip_number l' -> l = l'.
Proof.
  revert l'. induction l as [|b l IH] using rev_ind; intros l' Hl Hl' Hlen Hn.
  - by destruct l'.
  - destruct l' as [|b' l' _] using rev_ind; [rewrite length_app in Hlen; cbn in Hlen; lia|].
    unfold octets in *. rewrite Forall_app, Forall_singleton in Hl, Hl'. rewrite !length_app in Hlen. cbn in Hlen.
    rewrite !ip_number_app in Hn. change (256 ^ Z.of_nat (length [_])) with 256 in Hn. cbn [ip_number foldl] in Hn.
    destruct (IH l' (proj1 Hl) (proj1 Hl')) as []; [lia|lia|]. f_equal. f_equal. lia.
Qed.

Lemma blocked6_spec a b l :
  octets (a :: b :: l) -> length l = 14%nat ->
  blocked6 (a :: b :: l) =
    bool_decide (a :: b :: l = IPv6loopback) || ((a =? 254) && (Z.land b 192 =? 128)) ||
    ((a =? 255) && (Z.land b 15 =? 2)).
Proof.
  intros Ho Hl. assert (Hr := Ho). unfold octets in Hr. rewrite !Forall_cons in Hr. destruct Hr as (Ha & Hb & Hr).
  pose proof (ip_number_range l Hr) as Hlow. rewrite Hl in Hlow. change (256 ^ Z.of_nat 14) with (2 ^ 112) in Hlow.
  assert (ip_number (a :: b :: l) = (a * 256 + b) * 2 ^ 112 + ip_number l) as Hnum.
  { change (a :: b :: l) with ([a; b] ++ l)%list. rewrite ip_number_app, Hl. change (256 ^ Z.of_nat 14) with (2 ^ 112).
    cbn [ip_number foldl]. lia. }
  unfold blocked6. f_equal; [f_equal|].
  - apply eq_true_iff_eq. rewrite Z.eqb_eq, bool_decide_eq_true. split.
    + intros H1. apply ip_number_inj; [done| |cbn; by rewrite Hl|by rewrite H1].
      unfold IPv6loopback, octets. cbn. repeat constructor; lia.
    + by intros ->.
  - unfold in_net. apply eq_true_iff_eq. rewrite andb_true_iff, !Z.eqb_eq, land192 by done.
    rewrite Hnum, Z.shiftr_div_pow2 by lia. change (128 - 10) with (112 + 6). rewrite Z.pow_add_r, <-Z.div_div by lia.
    assert (((a * 256 + b) * 2 ^ 112 + ip_number l) / 2 ^ 112 = a * 256 + b) as ->
      by (symmetry; apply Z.div_unique with (ip_number l); lia).
    change (Z.shiftr (Z.shiftl 65152 112) (112 + 6)) with 1018. change (2 ^ 6) with 64.
    assert ((a * 256 + b) / 64 = a * 4 + b / 64) as ->.
    { replace (a * 256 + b) with ((a * 4) * 64 + b) by lia. rewrite Z.div_add_l by lia. done. }
    assert (0 <= b / 64 < 4) by (split; [apply Z.div_pos; lia|apply Z.div_lt_upper_bound; lia]). lia.
  - apply eq_true_iff_eq. rewrite andb_true_iff, !Z.eqb_eq, land15, existsb_exists by done.
    assert (forall f, in_net 128 16 (Z.shiftl (65282 + 16 * f) 112) (a :: b :: l) = (a * 256 + b =? 65282 + 16 * f)) as Hin.
    { intros f. unfold in_net. rewrite Hnum, Z.shiftr_div_pow2 by lia. change (128 - 16) with 112.
      rewrite Z.shiftr_shiftl_l by lia. rewrite Z.sub_diag, Z.shiftl_0_r. f_equal.
      symmetry; apply Z.div_unique with (ip_number l); lia. }
    split.
    + intros (f & (i & <- & Hi)%in_map_iff & Hf). rewrite Hin, Z.eqb_eq in Hf. apply in_seq in Hi.
      assert (a = 255) as -> by lia. split; [done|]. symmetry. apply Z.mod_unique with (Z.of_nat i); lia.
    + intros [-> Hm]. exists (b / 16). split.
      * apply in_map_iff. exists (Z.to_nat (b / 16)). pose proof (Z.div_pos b 16). pose proof (Z.div_lt_upper_bound b 16 16).
        split; [lia|]. apply in_seq. lia.
      * rewrite Hin, Z.eqb_eq. pose proof (Z.div_mod b 16). lia.
Qed.

(** The metadata address is link-local, so its own test adds nothing. *)
Lemma metadata_link_local ip : IPEqual ip metadataIP = true -> IsLinkLocalUnicast ip = true.
Proof.
  unfold IPEqual. destruct (Nat.eqb (length ip) (length metadataIP)).
  { rewrite bool_decide_eq_true. by intros ->. }
  destruct (Nat.eqb (length ip) 4 && _); [|by rewrite andb_false_r].
  rewrite bool_decide_eq_true. unfold metadataIP, IPv4. intros ->%app_inv_head. reflexivity.
Qed.

Lemma isBlockedIP_or ip :
  ip <> [] -> isBlockedIP ip = IsLoopback ip || IsLinkLocalUnicast ip || IsLinkLocalMulticast ip.
Proof.
  intros Hne. destruct ip as [|b ip]; [done|]. unfold isBlockedIP.
  destruct (IsLinkLocalUnicast (b :: ip)) eqn:Hll; [by rewrite orb_true_r|].
  destruct (_ || _ || _); [done|]. apply not_true_is_false. intros Hm%metadata_link_local. congruence.
Qed.

(** C21: The guard blocks exactly 127.0.0.0/8, ::1, 169.254.0.0/16, fe80::/10 and
    the link-local multicast groups; an IPv4 address is judged the same in its
    four-byte and in its IPv6-mapped form. *)
Theorem isBlockedIP_networks ip :
  octets ip -> length ip = 4%nat \/ length ip = 16%nat -> isBlockedIP ip = blocked_nets ip.
Proof.
  intros Ho Hl. rewrite isBlockedIP_or by (intros ->; cbn in Hl; lia).
  unfold IsLoopback, IsLinkLocalUnicast, IsLinkLocalMulticast, blocked_nets.
  destruct (To4 ip) as [ip4|] eqn:H4.
  - assert (octets ip4 /\ length ip4 = 4%nat) as [Ho4 Hl4].
    { unfold To4 in H4. destruct (Nat.eqb_spec (length ip) 4); [by simplify_eq|].
      destruct (Nat.eqb (length ip) 16 && _); simplify_eq. split; [by apply Forall_drop|]. rewrite length_drop. lia. }
    destruct ip4 as [|a [|b [|c [|d [|]]]]]; try done. by rewrite blocked4_spec.
  - assert (length ip = 16%nat) as H16.
    { destruct Hl as [Hl|]; [|done]. unfold To4 in H4. by rewrite Hl in H4. }
    rewrite H16. destruct ip as [|a [|b l]]; [done|done|]. rewrite blocked6_spec by (done || by injection H16).
    unfold IPEqual. rewrite H16. reflexivity.
Qed.

Lemma isBlockedIP_networks_witness :
  isBlockedIP (IPv4 10 96 0 1) = false /\ isBlockedIP [254; 191; 0; 0; 0; 0; 0; 0; 0; 0; 0; 0; 0; 0; 0; 9] = true.
Proof.
  rewrite !isBlockedIP_networks; [split; vm_compute; reflexivity|..];
    first [by right | unfold octets, IPv4; cbn; repeat constructor; lia].
Defined.

(** The unspecified addresses are not blocked, though a connection to them
    reaches the local host on Linux. *)
Lemma unspecified_not_blocked :
  isBlockedIP (IPv4 0 0 0 0) = false /\ isBlockedIP (repeat 0 16) = false /\
  ParseIP "0.0.0.0" = Some (IPv4 0 0 0 0) /\ ParseIP "::" = Some (repeat 0 16).
Proof. repeat split; vm_compute; reflexivity. Qed.

(** Spellings of blocked addresses are all recognised as such. *)
Lemma blocked_spellings :
  map (fun s => match ParseIP s with Some ip => isBlockedIP ip | None => false end)
    ["127.0.0.1"; "::1"; "0:0:0:0:0:0:0:1"; "::ffff:127.9.9.9"; "::ffff:a9fe:a9fe"; "169.254.169.254"; "FE80::1"]
  = repeat true 7.
Proof. vm_compute. reflexivity. Qed.

(** ** The login form *)

Definition is_login_form (s : string) (seg : string) : Prop :=
  exists post, s = action_prefix ++ seg ++ String dquote post /\
    contains_char dquote seg = false /\ Contains seg "login" = true.

Lemma take_until_spec p s a c r :
  take_until p s = (a, String c r) -> s = a ++ String c r /\ p c = true /\ all_chars (fun x => negb (p x)) a = true.
Proof.
  revert a. induction s as [|d s IH]; intros a; cbn; [done|]. destruct (p d) eqn:Hd; [by intros [= <- -> ->]|].
  destruct (take_until p s) as [x y]. intros [= <- ->]. destruct (IH x eq_refl) as (-> & Hc & Hx). cbn. by rewrite Hd, Hx.
Qed.

Lemma login_here_spec s seg : login_here s = Some seg <-> is_login_form s seg.
Proof.
  unfold login_here, is_login_form, HasPrefix. split.
  - destruct (String.prefix action_prefix s) eqn:Hp; [|done]. apply prefix_app in Hp as [r ->].
    unfold TrimPrefix, HasPrefix. assert (String.prefix action_prefix (action_prefix ++ r) = true) as ->
      by (apply prefix_app; eauto). rewrite drop_app.
    destruct (take_until _ r) as [sg [|c post]] eqn:Ht; [done|]. destruct (Contains sg "login") eqn:Hc; [|done].
    intros [= <-]. apply take_until_spec in Ht as (-> & ->%Ascii.eqb_eq & Ha). exists post.
    split_and!; [done| |done]. unfold contains_char. by rewrite Ha.
  - intros (post & -> & Hq & Hl). assert (String.prefix action_prefix (action_prefix ++ seg ++ String dquote post) = true) as ->
      by (apply prefix_app; eauto).
    unfold TrimPrefix, HasPrefix. assert (String.prefix action_prefix (action_prefix ++ seg ++ String dquote post) = true) as ->
      by (apply prefix_app; eauto). rewrite drop_app.
    unfold contains_char in Hq. apply negb_false_iff in Hq. rewrite take_until_app by done.
    cbn [take_until]. rewrite Ascii.eqb_refl. by rewrite append_nil_r, Hl.
Qed.

(** The leftmost action attribute that qualifies is found, and nothing else. *)
Lemma find_login_spec s seg :
  find_login s = Some seg <->
  exists pre rest, s = pre ++ rest /\ is_login_form rest seg /\
    forall pre' rest' seg', s = pre' ++ rest' -> (String.length pre' < String.length pre)%nat -> ~ is_login_form rest' seg'.
Proof.
  split.
  - induction s as [|c s IH]; cbn [find_login]; destruct (login_here _) as [sg|] eqn:Hh.
    + by cbn in Hh.
    + done.
    + intros [= <-]. exists "", (String c s). split; [done|]. split; [by apply login_here_spec|]. intros; cbn in *; lia.
    + intros (pre & rest & -> & Hr & Hmin)%IH. exists (String c pre), rest. split; [done|]. split; [done|].
      intros [|d pre'] rest' seg' Heq Hl Hf; cbn in Heq.
      * subst rest'. apply login_here_spec in Hf. congruence.
      * injection Heq as -> Heq. cbn in Hl. apply (Hmin pre' rest' seg' Heq ltac:(lia) Hf).
  - intros (pre & rest & -> & Hr & Hmin). revert Hmin. induction pre as [|c pre IH]; intros Hmin.
    + apply login_here_spec in Hr. cbn. destruct rest; cbn [find_login]; by rewrite Hr.
    + cbn [find_login append]. destruct (login_here (String c (pre ++ rest))) as [sg|] eqn:Hh.
      * apply login_here_spec in Hh. exfalso. apply (Hmin "" (String c (pre ++ rest)) sg); [done|cbn; lia|done].
      * apply IH. intros pre' rest' seg' Heq Hl. apply (Hmin (String c pre') rest' seg'); [cbn; by rewrite Heq|cbn; lia].
Qed.

(** ** A run *)

Definition demo_url (s : string) : result string URL := Ok (mkURL "https" "" "idp.local" "idp.local" "/" "").
Definition demo_page : string := "<form " ++ action_prefix ++ "/auth/login" ++ String dquote ">".
Definition demo_net : NetEnv :=
  mkNetEnv demo_url (fun _ ref => Ok ref) (fun s => s) (fun _ => "") (fun kvs => Join (map snd kvs) "&") (fun _ _ => None)
    (fun _ _ => Ok [IPv4 10 0 0 7]) (fun _ _ _ => None) (fun _ _ => ["idp.local:443"])
    (fun n r => if String.eqb (Method r) "POST" then Ok (mkResponse "200 OK" 200 "" (Ok "done"))
                else Ok (mkResponse "302 Found" 302 (if (n <? 5)%nat then "/next" else "") (Ok demo_page))).
Definition demo_follow : FollowRequest := mkFollowRequest "https://idp.local/" "" ∅ ∅ (Some ("bob", "pw")) false.
Definition net0 : Net := mkNet 0 [] [].

Lemma follow_sends_witness :
  let '(r, n) := WebRequestFollowFromServer demo_net (fun w => Ok (ResponseStatusCode w)) (fun _ => Ok demo_follow) "" net0 in
  reported demo_net (fun w => Ok (ResponseStatusCode w)) r /\ r = Ok ("WEB_REQUEST_RESPONSE", "200 OK") /\
  map Method (sent n) = ["GET"; "GET"; "POST"].
Proof.
  pose proof (follow_sends demo_net (fun w => Ok (ResponseStatusCode w)) (fun _ => Ok demo_follow) "" demo_follow net0 eq_refl) as Hf.
  destruct (WebRequestFollowFromServer _ _ _ _ _) as [r n] eqn:E1. destruct Hf as [Hr _]. split; [exact Hr|].
  vm_compute in E1. injection E1 as <- <-. split; reflexivity.
Defined.
