(* ===== verification/Reader.v ===== *)
(** * Read-only kubectl for the assistant
      ([src/agentstream/instructions/readerexec.go], [run_readonly_kubectl.go])

    The assistant runs arbitrary kubectl commands in a pod whose only identity
    is a read-only service account. RBAC objects and the kubeconfig are written
    through the API class of [Kube.v]; the pod changes on its own, so what a get
    or create answers is a function of the time it is made. *)
From stdpp Require Import gmap.
From S2P Require Import Prelude GoStrings Kube KubeObjects.
Local Open Scope string_scope.
Local Open Scope Z_scope.
Local Open Scope agent_scope.

Definition readerSA : string := "runos-assistant-reader".
Definition readerClusterRole : string := "runos-assistant-reader".
Definition readerPod : string := "runos-assistant-reader-exec".
Definition readerKubeconfigCM : string := "runos-assistant-reader-kubeconfig".
Definition readerContainer : string := "kubectl".
Definition readerIdleTTL : Z := 15 * Minute.
Definition readerReadyTimeout : Z := 90 * Second.
Definition readerReapInterval : Z := 2 * Minute.
Definition defaultReaderImage : string := "alpine/k8s:1.34.1".

Definition readerImage (getenv : string -> string) : string :=
  let v := getenv "ASSISTANT_KUBECTL_IMAGE" in if String.eqb v "" then defaultReaderImage else v.

(** ** The pod *)

Record PodSpec := mkPodSpec {
  pod_name : string; pod_namespace : string; pod_labels : Data;
  ServiceAccountName : string; AutomountServiceAccountToken : bool; RestartPolicy : string;
  ContainerName : string; Image : string; Command : list string; EnvVars : list (string * string);
  Mounts : list (string * string * bool);              (* volume, path, read-only *)
  Requests : list (string * string); Limits : list (string * string);
  ConfigMapVolumes : list (string * string)            (* volume, ConfigMap *)
}.

Definition buildReaderPod (getenv : string -> string) : PodSpec :=
  mkPodSpec readerPod Namespace
    (<["app.kubernetes.io/managed-by" := "runos"]> (<["runos.com/type" := "assistant-reader-exec"]> ∅))
    readerSA true "Always" readerContainer (readerImage getenv) ["sleep"; "infinity"]
    [("KUBECONFIG", "/kube/config")] [("kubeconfig", "/kube", true)]
    [("cpu", "10m"); ("memory", "32Mi")] [("cpu", "250m"); ("memory", "128Mi")]
    [("kubeconfig", readerKubeconfigCM)].

Definition nl : string := byte 10.

Definition readerKubeconfig : string :=
  Join ["apiVersion: v1"; "kind: Config"; "clusters:"; "- name: incluster"; "  cluster:";
        "    server: https://kubernetes.default.svc";
        "    certificate-authority: /var/run/secrets/kubernetes.io/serviceaccount/ca.crt";
        "contexts:"; "- name: incluster"; "  context:"; "    cluster: incluster"; "    user: reader";
        "current-context: incluster"; "users:"; "- name: reader"; "  user:";
        "    tokenFile: /var/run/secrets/kubernetes.io/serviceaccount/token"; ""] nl.

(** ** Rights *)

Definition read_verbs : list string := ["get"; "list"; "watch"].

Definition readerClusterRoleRules : list PolicyRule :=
  [mkRule [""] ["nodes"; "namespaces"; "persistentvolumes"; "componentstatuses"] read_verbs;
   mkRule [""] ["nodes/metrics"; "nodes/stats"; "nodes/proxy"] ["get"];
   mkRule ["metrics.k8s.io"] ["nodes"; "pods"] ["get"; "list"];
   mkRule ["apiextensions.k8s.io"] ["customresourcedefinitions"] read_verbs;
   mkRule ["apiregistration.k8s.io"] ["apiservices"] read_verbs;
   mkRule ["storage.k8s.io"] ["*"] read_verbs;
   mkRule ["snapshot.storage.k8s.io"] ["*"] read_verbs;
   mkRule ["postgresql.cnpg.io"; "barmancloud.cnpg.io"; "moco.cybozu.com"; "kafka.strimzi.io";
           "clickhouse.altinity.com"; "clickhouse-keeper.altinity.com";
           "rabbitmq.com"; "minio.min.io"; "sts.min.io";
           "cert-manager.io"; "acme.cert-manager.io"; "acme.runos.com";
           "traefik.io"; "traefik.containo.us"; "monitoring.coreos.com";
           "linstor.linbit.com"; "internal.linstor.linbit.com"; "piraeus.io";
           "nvidia.com"; "nfd.k8s-sigs.io"] ["*"] read_verbs].

(** Kubernetes' reading of a rule: each part names the request's value or [*]. *)
Definition covers (xs : list string) (x : string) : bool :=
  existsb (fun y => String.eqb y "*" || String.eqb y x) xs.
Definition rule_allows (group resource verb : string) (r : PolicyRule) : bool :=
  covers (APIGroups r) group && covers (Resources r) resource && covers (Verbs r) verb.
Definition role_allows (rules : list PolicyRule) (group resource verb : string) : bool :=
  existsb (rule_allows group resource verb) rules.

Definition role_ref : Ref := ("ClusterRole", "", readerClusterRole).
Definition sa_ref : Ref := ("ServiceAccount", Namespace, readerSA).
Definition binding_ref (name : string) : Ref := ("ClusterRoleBinding", "", name).
Definition kubeconfig_ref : Ref := configmap_ref Namespace readerKubeconfigCM.
Definition reader_bindings : list (string * Obj) :=
  [("runos-assistant-reader-view", OClusterRoleBinding "view" (readerSA, Namespace));
   ("runos-assistant-reader", OClusterRoleBinding readerClusterRole (readerSA, Namespace))].

Section rbac.
Context {K : Type} `{KubeApi K}.

(** Create, and be content when the object exists. *)
Definition create_missing (msg : string) (r : Ref) (o : Obj) : Api K unit :=
  api! x := acall (kcreate r o) in
  match x with
  | Ok _ => aret tt
  | Err e => if IsAlreadyExists e then aret tt else afail (msg ++ ": " ++ KError e)
  end.

(** Create; when the object exists and is not [fresh], update it to [o]. *)
Definition reconcile_object (what : string) (r : Ref) (o : Obj) (fresh : Obj -> bool) : Api K unit :=
  api! x := acall (kcreate r o) in
  match x with
  | Ok _ => aret tt
  | Err e =>
      if negb (IsAlreadyExists e) then afail ("create " ++ what ++ ": " ++ KError e)
      else
        api! g := acall (kget r) in
        match g with
        | Err e => afail ("get " ++ what ++ ": " ++ KError e)
        | Ok existing =>
            if fresh existing then aret tt
            else
              api! u := acall (kupdate r o) in
              match u with Ok _ => aret tt | Err e => afail ("update " ++ what ++ ": " ++ KError e) end
        end
  end.

Definition rules_of (o : Obj) : list PolicyRule := match o with OClusterRole rs => rs | _ => [] end.

Definition reconcileReaderClusterRole : Api K unit :=
  reconcile_object "reader ClusterRole" role_ref (OClusterRole readerClusterRoleRules)
    (fun o => bool_decide (rules_of o = readerClusterRoleRules)).

Definition ensureReaderKubeconfig : Api K unit :=
  reconcile_object "reader kubeconfig configmap" kubeconfig_ref
    (OConfigMap (<["config" := readerKubeconfig]> ∅))
    (fun o => String.eqb (field (obj_data o) "config") readerKubeconfig).

Fixpoint create_bindings (bs : list (string * Obj)) : Api K unit :=
  match bs with
  | [] => aret tt
  | (n, o) :: bs =>
      api! _ := create_missing ("create reader ClusterRoleBinding " ++ n) (binding_ref n) o in create_bindings bs
  end.

Definition ensureReaderRBAC : Api K unit :=
  api! _ := create_missing "create reader SA" sa_ref OServiceAccount in
  api! _ := reconcileReaderClusterRole in
  create_bindings reader_bindings.
End rbac.

(** ** Waiting for the pod *)

Record PodStatus := mkPodStatus { phase : string; conditions : list (string * string) }.

(** The first condition of type Ready decides. *)
Fixpoint podReady (cs : list (string * string)) : bool :=
  match cs with
  | [] => false
  | (t, s) :: cs => if String.eqb t "Ready" then String.eqb s "True" else podReady cs
  end.

Definition serving (p : result KErr PodStatus) : bool :=
  match p with
  | Ok p => String.eqb (phase p) "Running" && podReady (conditions p)
  | Err _ => false
  end.

(** What the cluster answers at a time, and how long a call takes. *)
Record PodEnv := mkPodEnv {
  pod_get : Z -> result KErr PodStatus;
  pod_create : Z -> result KErr unit;
  latency : Z -> Z;
  timer_first : Z -> bool      (* which of two events at one instant a select takes *)
}.

Section waiting.
Context (E : PodEnv) (ctxEnd : Z).

(** One round every two seconds; the answer carries the time it came. [None]:
    out of fuel. *)
Fixpoint wait_loop (fuel : nat) (deadline now : Z) : option (result string unit * Z) :=
  match fuel with
  | O => None
  | S fuel =>
      let p := pod_get E now in
      let now := now + latency E now in
      if serving p then Some (Ok tt, now)
      else if deadline <? now then Some (Err "reader-exec pod not ready", now)
      else
        let next := now + 2 * Second in
        if (next <? ctxEnd) || ((next =? ctxEnd) && timer_first E now) then wait_loop fuel deadline next
        else Some (Err "context ended", Z.max now ctxEnd)
  end.

(** Forty-six rounds reach beyond the deadline. *)
Definition waitReaderPodReady (now : Z) : option (result string unit * Z) :=
  wait_loop 47 (now + readerReadyTimeout) now.

(** The pod part of [ensureReaderExecPod]; the flag tells whether it created the pod. *)
Definition ensure_pod (now : Z) : option (result string unit * Z) * bool :=
  let p := pod_get E now in
  let now := now + latency E now in
  if serving p then (Some (Ok tt, now), false)
  else
    match p with
    | Err e =>
        if IsNotFound e then
          let c := pod_create E now in
          let now := now + latency E now in
          match c with
          | Err e => if IsAlreadyExists e then (waitReaderPodReady now, true)
                     else (Some (Err ("create reader pod: " ++ KError e), now), true)
          | Ok _ => (waitReaderPodReady now, true)
          end
        else (Some (Err ("get reader pod: " ++ KError e), now), false)
    | Ok _ => (waitReaderPodReady now, false)
    end.
End waiting.

(** The package's variables, guarded by [readerMu]. *)
Record ReaderState := mkReader { lastUsed : Z; reaperStarted : bool; rbacReconciled : bool }.

Section ensure.
Context {K : Type} `{KubeApi K} (E : PodEnv) (ctxEnd : Z).

Definition ensureReaderExecPod (now : Z) (s : ReaderState) (k : K) :
    option (result string unit * Z) * bool * ReaderState * K :=
  let s := mkReader now true (rbacReconciled s) in
  let rec :=
    if rbacReconciled s then (Ok tt, k)
    else (api! _ := ensureReaderRBAC in ensureReaderKubeconfig) k in
  match rec with
  | (Err e, k) => (Some (Err e, now), false, s, k)
  | (Ok _, k) =>
      let s := mkReader (lastUsed s) (reaperStarted s) true in
      let '(r, created) := ensure_pod E ctxEnd now in
      (r, created, s, k)
  end.
End ensure.

(** ** run_readonly_kubectl.go *)

Record RunReadonlyKubectlRequest := mkKubectlRequest { Args : list string; req_TimeoutSeconds : Z }.
Record RunReadonlyKubectlResponse := mkKubectlResponse {
  kubectl_Success : bool; Stdout : string; Stderr : string; kubectl_ExitCode : Z; kubectl_Message : string
}.

Definition defaultReadonlyKubectlTimeout : Z := 30.
Definition maxReadonlyKubectlTimeout : Z := 120.

Definition kubectl_timeout (t : Z) : Z :=
  let t := if t <=? 0 then defaultReadonlyKubectlTimeout else t in
  if maxReadonlyKubectlTimeout <? t then maxReadonlyKubectlTimeout else t.

(** How a stream in the pod ends. *)
Inductive StreamEnd := StreamOk | Exited (code : Z) | Broken (e : string).

Record ExecEnv := mkExecEnv {
  executor : result string unit;                            (* NewSPDYExecutor *)
  stream : list string -> Z -> string * string * StreamEnd  (* command, seconds allowed *)
}.

Definition execInReaderPod (X : ExecEnv) (args : list string) (timeout : Z) :
    string * string * Z * option string :=
  let command := "kubectl" :: args in
  match executor X with
  | Err e => ("", "", 0, Some ("build executor: " ++ e))
  | Ok _ =>
      match stream X command timeout with
      | (out, err, StreamOk) => (out, err, 0, None)
      | (out, err, Exited code) => (out, err, code, None)
      | (out, err, Broken e) => (out, err, 0, Some e)
      end
  end.

Section kubectl.
Context {K : Type} `{KubeApi K} (E : PodEnv) (X : ExecEnv).
Context (decode_kubectl : string -> result string RunReadonlyKubectlRequest).
Context (encode_kubectl : RunReadonlyKubectlResponse -> result string string).
Context (config clientset : result string unit).

Definition replyReadonlyKubectl (r : RunReadonlyKubectlResponse) : result string (string * string) :=
  match encode_kubectl r with
  | Err e => Err e
  | Ok s => Ok ("RUN_READONLY_KUBECTL_RESPONSE", s)
  end.

Definition kubectl_refuse (msg : string) : RunReadonlyKubectlResponse := mkKubectlResponse false "" "" 0 msg.

(** The response, the command run in the pod (with the seconds allowed), the
    state and the cluster. *)
Definition kubectl_outcome (req : RunReadonlyKubectlRequest) (now : Z) (s : ReaderState) (k : K) :
    RunReadonlyKubectlResponse * option (list string * Z) * ReaderState * K :=
  match Args req with
  | [] => (kubectl_refuse "args must be a non-empty kubectl argv", None, s, k)
  | args =>
      let timeout := kubectl_timeout (req_TimeoutSeconds req) in
      match config, clientset with
      | Err e, _ => (kubectl_refuse ("in-cluster config: " ++ e), None, s, k)
      | Ok _, Err e => (kubectl_refuse ("kubernetes client: " ++ e), None, s, k)
      | Ok _, Ok _ =>
          let ctxEnd := now + (timeout + 90 + 10) * Second in
          match ensureReaderExecPod E ctxEnd now s k with
          | (Some (Ok _, _), _, s, k) =>
              let '(out, err, code, e) := execInReaderPod X args timeout in
              (match e with
               | Some e => mkKubectlResponse false out err code ("exec failed: " ++ e)
               | None => mkKubectlResponse (code =? 0) out err code ""
               end, Some ("kubectl" :: args, timeout), s, k)
          | (Some (Err e, _), _, s, k) => (kubectl_refuse ("reader-exec pod not ready: " ++ e), None, s, k)
          | (None, _, s, k) => (kubectl_refuse "out of fuel", None, s, k)
          end
      end
  end.

Definition RunReadonlyKubectl (jsonB64 : string) (now : Z) (s : ReaderState) (k : K) :
    result string (string * string) * ReaderState * K :=
  match decode_kubectl jsonB64 with
  | Err e => (Err e, s, k)
  | Ok req => let '(resp, _, s, k) := kubectl_outcome req now s k in (replyReadonlyKubectl resp, s, k)
  end.
End kubectl.

(** The reaper's tick: the idle time is read under the lock, the pod is deleted
    after the lock was released. *)
Definition reap_decides (now : Z) (s : ReaderState) : bool := negb (now - lastUsed s <? readerIdleTTL).

(** ** The rules grant reads, and no Secrets *)

Lemma covers_spec xs x : covers xs x = true <-> "*" ∈ xs \/ x ∈ xs.
Proof.
  unfold covers. rewrite existsb_exists. split.
  - intros (y & Hy%list_elem_of_In & [->%String.eqb_eq | ->%String.eqb_eq]%orb_prop); auto.
  - intros [Hx|Hx]; apply list_elem_of_In in Hx; eexists; (split; [exact Hx|]);
      rewrite String.eqb_refl; [done|apply orb_true_r].
Qed.

Definition reads_only (r : PolicyRule) : bool :=
  forallb (fun v => bool_decide (v ∈ read_verbs)) (Verbs r) && negb (covers (APIGroups r) "" && covers (Resources r) "secrets").

(** The rules, one by one. *)
Lemma reader_rules_read_only : forallb reads_only readerClusterRoleRules = true.
Proof. vm_compute. reflexivity. Qed.

Lemma role_allows_reads g r v :
  role_allows readerClusterRoleRules g r v = true -> v ∈ read_verbs /\ ~ (g = "" /\ r = "secrets").
Proof.
  unfold role_allows. rewrite existsb_exists. intros (rule & Hin & Ha).
  pose proof reader_rules_read_only as Hall. rewrite forallb_forall in Hall. specialize (Hall rule Hin).
  unfold rule_allows, reads_only in *. apply andb_prop in Ha as [[Hg Hr]%andb_prop Hv]. apply andb_prop in Hall as [Hvs Hs].
  rewrite forallb_forall in Hvs. split.
  - apply covers_spec in Hv as [Hv|Hv]; apply list_elem_of_In, Hvs, bool_decide_eq_true in Hv; [|done].
    exfalso. apply list_elem_of_In in Hv. cbn in Hv. intuition discriminate.
  - intros [-> ->]. by rewrite Hg, Hr in Hs.
Qed.

Section rbac_laws.
Context {K : Type} `{KA : KubeApi K} `{KL : !KubeLaws K}.
Implicit Types (k : K).

(** Objects only appear or change at the given references. *)
Definition touches (rs : list Ref) k k' : Prop := forall r, r ∉ rs -> objects k' !! r = objects k !! r.

Lemma touches_trans rs rs' k1 k2 k3 : touches rs k1 k2 -> touches rs' k2 k3 -> touches (rs ++ rs')%list k1 k3.
Proof. intros H1 H2 r Hr. rewrite elem_of_app in Hr. rewrite H2, H1; tauto. Qed.

Lemma create_missing_spec msg r o k :
  let '(x, k') := create_missing msg r o k in
  touches [r] k k' /\
  (is_ok x = true -> objects k' !! r = (match objects k !! r with Some o' => Some o' | None => Some o end)).
Proof using KL.
  unfold create_missing, abind, acall, touches. pose proof (kcreate_spec r o k) as Hc.
  destruct (kcreate r o k) as [[[]|e] k1]; cbn in *.
  - destruct Hc as [Hn ->]. split; [|intros _; by rewrite Hn, lookup_insert_eq].
    intros r' Hr'. rewrite lookup_insert_ne; [done|]. intros <-. apply Hr'. by left.
  - assert (objects k1 = objects k \/ objects k1 = <[r := o]> (objects k)) as Hk by (destruct e; tauto).
    assert (forall r', r' ∉ [r] -> objects k1 !! r' = objects k !! r') as Ht.
    { intros r' Hr'. destruct Hk as [->| ->]; [done|]. rewrite lookup_insert_ne; [done|]. intros <-. apply Hr'. by left. }
    destruct e; cbn; (split; [exact Ht|try done]). intros _. destruct Hc as [[o' Ho'] ->]. by rewrite Ho'.
Qed.

Lemma reconcile_object_spec what r o fresh k :
  let '(x, k') := reconcile_object what r o fresh k in
  touches [r] k k' /\
  (is_ok x = true -> exists o', objects k' !! r = Some o' /\ (o' = o \/ fresh o' = true)).
Proof using KL.
  assert (forall k k' : K, objects k' = objects k \/ objects k' = <[r := o]> (objects k) -> touches [r] k k') as Hone.
  { intros k1 k2 Hk r' Hr'. destruct Hk as [->| ->]; [done|]. rewrite lookup_insert_ne; [done|]. intros <-. apply Hr'. by left. }
  unfold reconcile_object, abind, acall. pose proof (kcreate_spec r o k) as Hc.
  destruct (kcreate r o k) as [[[]|e] k1]; cbn in *.
  - split; [apply Hone; tauto|]. intros _. exists o. destruct Hc as [_ ->]. rewrite lookup_insert_eq. auto.
  - destruct (IsAlreadyExists e) eqn:He; cbn; [|split; [apply Hone; destruct e; tauto|done]].
    destruct e; try done. destruct Hc as [_ Hk1]. pose proof (kget_spec r k1) as [Hk2 Hg].
    destruct (kget r k1) as [[o'|e] k2]; cbn in *; rewrite Hk1 in Hk2.
    2:{ split; [apply Hone; auto|done]. }
    destruct (fresh o') eqn:Hf; cbn.
    + split; [apply Hone; auto|]. intros _. exists o'. rewrite Hk2, <-Hk1. auto.
    + pose proof (kupdate_spec r o k2) as Hu. destruct (kupdate r o k2) as [[[]|e] k3]; cbn in *; rewrite Hk2 in Hu.
      * split; [apply Hone; tauto|]. intros _. exists o. destruct Hu as [_ ->]. rewrite lookup_insert_eq. auto.
      * split; [apply Hone; destruct e; tauto|done].
Qed.

Definition reader_refs : list Ref :=
  [sa_ref; role_ref; binding_ref "runos-assistant-reader-view"; binding_ref "runos-assistant-reader"; kubeconfig_ref].

(** One step of a sequence: what it touches, and what holds between the state
    before it and the one after it when it succeeded. *)
Definition step_spec {A} (m : Api K A) (rs : list Ref) (P : K -> K -> Prop) : Prop :=
  forall k, let '(x, k') := m k in touches rs k k' /\ (is_ok x = true -> P k k').

(** A fact that survives steps after it, and before it, that touch only [rs]. *)
Definition stable (rs : list Ref) (P : K -> K -> Prop) : Prop :=
  (forall k k1 k2, touches rs k1 k2 -> P k k1 -> P k k2) /\ (forall k k1 k2, touches rs k k1 -> P k1 k2 -> P k k2).

Lemma step_bind {A B} (m : Api K A) (f : A -> Api K B) rs1 rs2 P1 P2 :
  step_spec m rs1 P1 -> (forall a, step_spec (f a) rs2 P2) -> stable rs2 P1 -> stable rs1 P2 ->
  step_spec (abind m f) (rs1 ++ rs2)%list (fun k k' => P1 k k' /\ P2 k k').
Proof.
  intros Hm Hf [Hst _] [_ Hst'] k. specialize (Hm k). unfold abind. destruct (m k) as [[a|e] k1]; destruct Hm as [T1 S1].
  - specialize (Hf a k1). destruct (f a k1) as [x k2]. destruct Hf as [T2 S2]. split; [by eapply touches_trans|].
    intros Hx. split; eauto.
  - split; [|done]. intros r Hr. apply T1. rewrite elem_of_app in Hr. tauto.
Qed.

(** The object at [r] is the one that was there before, or else [o]. *)
Definition there (r : Ref) (o : Obj) (k k' : K) : Prop := objects k' !! r = Some (default o (objects k !! r)).

(** The object at [r] satisfies [Q] afterwards. *)
Definition holds (r : Ref) (Q : Obj -> Prop) (k k' : K) : Prop := exists o, objects k' !! r = Some o /\ Q o.

Lemma stable_there rs r o : r ∉ rs -> stable rs (there r o).
Proof. intros Hr. unfold there. split; intros k k1 k2 Ht; by rewrite (Ht r Hr). Qed.

Lemma stable_holds rs r Q : r ∉ rs -> stable rs (holds r Q).
Proof. intros Hr. unfold holds. split; intros k k1 k2 Ht; [by rewrite (Ht r Hr)|done]. Qed.

Lemma stable_and rs P Q : stable rs P -> stable rs Q -> stable rs (fun k k' => P k k' /\ Q k k').
Proof. intros [HP HP'] [HQ HQ']. split; intros k k1 k2 Ht [? ?]; split; eauto. Qed.

Lemma stable_true rs : stable rs (fun _ _ => True).
Proof. done. Qed.

Lemma create_step msg r o : step_spec (create_missing msg r o) [r] (there r o).
Proof using KL.
  intros k. pose proof (create_missing_spec msg r o k) as Hc. destruct (create_missing msg r o k) as [x k'].
  destruct Hc as [Ht Hs]. split; [done|]. intros Hx. unfold there. rewrite (Hs Hx). by destruct (objects k !! r).
Qed.

Lemma reconcile_step what r o fresh :
  step_spec (reconcile_object what r o fresh) [r] (holds r (fun o' => o' = o \/ fresh o' = true)).
Proof using KL.
  intros k. pose proof (reconcile_object_spec what r o fresh k) as Hc. by destruct (reconcile_object what r o fresh k).
Qed.

Ltac outside := let H := fresh in intros H; apply list_elem_of_In in H; cbn in H; intuition discriminate.
Ltac stays := repeat apply stable_and; first [apply stable_there; outside|apply stable_holds; outside|apply stable_true].

(** The whole sequence. *)
Lemma reader_steps : step_spec (A := unit) (api! _ := ensureReaderRBAC in ensureReaderKubeconfig) reader_refs
    (fun k k' => (there sa_ref OServiceAccount k k' /\
       (holds role_ref (fun o => o = OClusterRole readerClusterRoleRules \/
          bool_decide (rules_of o = readerClusterRoleRules) = true) k k') /\
       there (binding_ref "runos-assistant-reader-view") (OClusterRoleBinding "view" (readerSA, Namespace)) k k' /\
       there (binding_ref "runos-assistant-reader") (OClusterRoleBinding readerClusterRole (readerSA, Namespace)) k k' /\ True) /\
       holds kubeconfig_ref (fun o => o = OConfigMap (<["config" := readerKubeconfig]> ∅) \/
          String.eqb (field (obj_data o) "config") readerKubeconfig = true) k k').
Proof using KL.
  apply (step_bind _ _ ([sa_ref] ++ [role_ref] ++ [binding_ref "runos-assistant-reader-view"] ++
    [binding_ref "runos-assistant-reader"] ++ [])%list [kubeconfig_ref]); [|intros _; apply reconcile_step|stays|stays].
  unfold ensureReaderRBAC. apply step_bind; [apply create_step|intros _|stays|stays].
  apply step_bind; [apply reconcile_step|intros _|stays|stays]. cbn [create_bindings reader_bindings].
  apply step_bind; [apply create_step|intros _|stays|stays].
  apply step_bind; [apply create_step|intros _; by split|stays|stays].
Qed.

(** C34: Once the reader's objects were reconciled, the cluster holds a role with
    exactly the rules of this version of the agent, whatever an older version
    had written, and the kubeconfig of this version. The service account and the
    two bindings are those that were there before; where there was none, the
    bindings are new ones that give the reader's own service account, and nobody
    else, the built-in role view and the reader's role. The rules of the
    reader's role allow nothing but get, list and watch, and never a core
    Secret; and no other object was touched, on any path. *)
Theorem reader_reconciled k :
  let '(x, k') := (api! _ := ensureReaderRBAC in ensureReaderKubeconfig) k in
  touches reader_refs k k' /\
  (is_ok x = true ->
     (exists o, objects k' !! role_ref = Some o /\ rules_of o = readerClusterRoleRules /\
        forall g r v, role_allows (rules_of o) g r v = true -> v ∈ ["get"; "list"; "watch"] /\ ~ (g = "" /\ r = "secrets")) /\
     (exists o, objects k' !! kubeconfig_ref = Some o /\ field (obj_data o) "config" = readerKubeconfig) /\
     objects k' !! sa_ref = Some (default OServiceAccount (objects k !! sa_ref)) /\
     (let view := ("ClusterRoleBinding", "", "runos-assistant-reader-view") in
      objects k' !! view =
        Some (default (OClusterRoleBinding "view" ("runos-assistant-reader", "runos")) (objects k !! view))) /\
     (let own := ("ClusterRoleBinding", "", "runos-assistant-reader") in
      objects k' !! own =
        Some (default (OClusterRoleBinding "runos-assistant-reader" ("runos-assistant-reader", "runos")) (objects k !! own)))).
Proof using KL.
  pose proof reader_steps as Hstep.
  specialize (Hstep k). destruct (abind _ _ k) as [x k']. destruct Hstep as [Ht Hs]. split; [exact Ht|].
  intros Hx. destruct (Hs Hx) as [(Hsa & (o & Ho & Hr) & Hb1 & Hb2 & _) (c & Hc & Hcfg)].
  assert (rules_of o = readerClusterRoleRules) as Hro by (destruct Hr as [->|Hr]; [done|by apply bool_decide_eq_true in Hr]).
  split_and!; [|exists c; split; [done|]|done..].
  - exists o. split_and!; [done|done|]. rewrite Hro. apply role_allows_reads.
  - destruct Hcfg as [->|Hcfg]; [reflexivity|by apply String.eqb_eq in Hcfg].
Qed.
End rbac_laws.

(** ** Waiting ends *)

Section wait_laws.
Context (E : PodEnv) (ctxEnd : Z) (Hlat : forall t, 0 <= latency E t).

Lemma wait_loop_total fuel deadline now :
  (0 < fuel)%nat -> deadline < now + 2 * Second * (Z.of_nat fuel - 1) ->
  exists r t, wait_loop E ctxEnd fuel deadline now = Some (r, t) /\
    (r = Ok tt -> exists t0, now <= t0 <= t /\ serving (pod_get E t0) = true).
Proof using Hlat.
  revert now. induction fuel as [|fuel IH]; intros now Hf Hd; [lia|]. cbn [wait_loop].
  pose proof (Hlat now) as Hl. destruct (serving (pod_get E now)) eqn:Hs.
  { eexists _, _. split; [done|]. intros _. exists now. split; [lia|done]. }
  destruct (Z.ltb_spec deadline (now + latency E now)); [by eexists _, _|].
  destruct (_ || _); [|by eexists _, _].
  assert (0 < fuel)%nat by (destruct fuel; [lia|lia]).
  destruct (IH (now + latency E now + 2 * Second)) as (r & t & -> & Hr); [done|unfold Second in *; lia|].
  exists r, t. split; [done|]. intros Hok. destruct (Hr Hok) as (t0 & ? & ?). exists t0. split; [unfold Second in *; lia|done].
Qed.

(** A pod that serves from [T] on is found, when calls take at most [L]. *)
Lemma wait_loop_finds fuel deadline now T L :
  (0 < fuel)%nat -> deadline < now + 2 * Second * (Z.of_nat fuel - 1) ->
  (forall t, latency E t <= L) -> (forall t, T <= t -> serving (pod_get E t) = true) ->
  now < T + L + 2 * Second + 1 -> T + L <= deadline -> T + L + 2 * Second < ctxEnd ->
  exists t, wait_loop E ctxEnd fuel deadline now = Some (Ok tt, t).
Proof using Hlat.
  intros Hf Hd HL HT. revert now Hf Hd. induction fuel as [|fuel IH]; intros now Hf Hd Hn Hdl Hc; [lia|]. cbn [wait_loop].
  pose proof (Hlat now) as Hl0. pose proof (HL now) as Hl1. destruct (serving (pod_get E now)) eqn:Hs; [by eexists|].
  assert (now < T) by (destruct (Z.lt_ge_cases now T); [done|rewrite HT in Hs; [done|lia]]).
  destruct (Z.ltb_spec deadline (now + latency E now)); [lia|].
  destruct (Z.ltb_spec (now + latency E now + 2 * Second) ctxEnd); [|lia]. cbn [orb].
  apply IH; [destruct fuel; lia|unfold Second in *; lia|lia|done|done].
Qed.

(** The wait for the reader pod always ends, within the code's own deadline
    of ninety seconds polled every two; it succeeds only if the pod was seen
    running and ready, and it does succeed when the pod comes up in time. *)
Theorem waitReaderPodReady_spec now :
  (exists r t, waitReaderPodReady E ctxEnd now = Some (r, t) /\
    (r = Ok tt -> exists t0, now <= t0 <= t /\ serving (pod_get E t0) = true)) /\
  (forall T L, (forall t, latency E t <= L) -> (forall t, T <= t -> serving (pod_get E t) = true) ->
     now <= T -> T + L <= now + readerReadyTimeout -> T + L + 2 * Second < ctxEnd ->
     exists t, waitReaderPodReady E ctxEnd now = Some (Ok tt, t)).
Proof using Hlat.
  split.
  - apply wait_loop_total; [lia|]. unfold readerReadyTimeout, Second. lia.
  - intros T L HL HT Hn Hd Hc. pose proof (Hlat now). pose proof (HL now).
    apply (wait_loop_finds _ _ _ T L); try done; unfold readerReadyTimeout, Second in *; lia.
Qed.

(** A pod that exists but has failed (it was evicted, say) is never replaced:
    every request waits for it and fails, and none creates a pod. *)
Lemma failed_pod_never_replaced now p :
  (forall t, pod_get E t = Ok p) -> phase p <> "Running" ->
  let '(r, created) := ensure_pod E ctxEnd now in
  created = false /\ exists e t, r = Some (Err e, t).
Proof using Hlat.
  intros Hp Hph. assert (forall t, serving (pod_get E t) = false) as Hs.
  { intros t. rewrite Hp. cbn. by apply String.eqb_neq in Hph as ->. }
  unfold ensure_pod. rewrite Hs, Hp. split; [done|].
  destruct (wait_loop_total 47 (now + latency E now + readerReadyTimeout) (now + latency E now)) as (r & t & Hw & Hr);
    [lia|unfold readerReadyTimeout, Second; lia|].
  unfold waitReaderPodReady. rewrite Hw. destruct r as [[]|e]; [|eauto].
  destruct (Hr eq_refl) as (t0 & _ & Ht0). by rewrite Hs in Ht0.
Qed.
End wait_laws.

Definition slow_pod : PodEnv :=
  mkPodEnv (fun t => if t <? 20 * Second then Ok (mkPodStatus "Pending" []) else Ok (mkPodStatus "Running" [("Ready", "True")]))
    (fun _ => Ok tt) (fun _ => Second) (fun _ => true).

Lemma waitReaderPodReady_spec_witness :
  exists t, waitReaderPodReady slow_pod (130 * Second) 0 = Some (Ok tt, t).
Proof.
  assert (forall t, 0 <= latency slow_pod t) as Hl by (intros t; cbn; unfold Second; lia).
  destruct (waitReaderPodReady_spec slow_pod (130 * Second) Hl 0) as [_ Hw].
  apply (Hw (20 * Second) Second); [intros t; cbn; lia| |unfold readerReadyTimeout, Second; lia..].
  intros t Ht. cbn [pod_get slow_pod]. apply Z.ltb_ge in Ht. rewrite Ht. reflexivity.
Defined.

Lemma reader_reconciled_witness :
  exists o, objects ((api! _ := ensureReaderRBAC in ensureReaderKubeconfig)
    (mkMemKube {[ role_ref := OClusterRole [mkRule ["*"] ["*"] ["*"]] ]} [])).2 !! role_ref = Some o /\
    rules_of o = readerClusterRoleRules.
Proof.
  pose proof (reader_reconciled (mkMemKube {[ role_ref := OClusterRole [mkRule ["*"] ["*"] ["*"]] ]} [])) as Hr.
  assert (is_ok ((api! _ := ensureReaderRBAC in ensureReaderKubeconfig)
    (mkMemKube {[ role_ref := OClusterRole [mkRule ["*"] ["*"] ["*"]] ]} [])).1 = true) as Hok by (vm_compute; reflexivity).
  set (x := abind _ _ _) in *. clearbody x. destruct x as [y k']. destruct Hr as [_ Hr].
  destruct (Hr Hok) as ((o & Ho & Hrules & _) & _). by exists o.
Defined.

(** ** The instruction *)

Section kubectl_laws.
Context {K : Type} `{KubeApi K} (E : PodEnv) (X : ExecEnv) (Hlat : forall t, 0 <= latency E t).
Context (config clientset : result string unit).

Lemma ensure_pod_total ctxEnd now :
  exists r t, (ensure_pod E ctxEnd now).1 = Some (r, t) /\
    (r = Ok tt -> exists t0, now <= t0 <= t /\ serving (pod_get E t0) = true).
Proof using Hlat.
  unfold ensure_pod. pose proof (Hlat now) as Hl. destruct (serving (pod_get E now)) eqn:Hs.
  { eexists _, _. split; [done|]. intros _. exists now. split; [lia|done]. }
  assert (forall n, now <= n -> exists r t, waitReaderPodReady E ctxEnd n = Some (r, t) /\
    (r = Ok tt -> exists t0, now <= t0 <= t /\ serving (pod_get E t0) = true)) as Hw.
  { intros n Hn. destruct (wait_loop_total E ctxEnd Hlat 47 (n + readerReadyTimeout) n) as (r & t & Hw & Hr);
      [lia|unfold readerReadyTimeout, Second; lia|].
    exists r, t. split; [done|]. intros Hok. destruct (Hr Hok) as (t0 & ? & ?). exists t0. split; [lia|done]. }
  destruct (pod_get E now) as [p|e]; [apply Hw; lia|]. destruct (IsNotFound e); [|by eexists _, _].
  pose proof (Hlat (now + latency E now)). destruct (pod_create E _) as [[]|e2]; [apply Hw; lia|].
  destruct (IsAlreadyExists e2); [apply Hw; lia|by eexists _, _].
Qed.

(** The instruction always answers. A command runs only after the reader pod
    was seen running and ready, at most one, as kubectl with exactly the given
    arguments and within one to 120 seconds; success is reported exactly when it
    ran to an exit code of zero, and output and exit code are passed on. *)
Theorem kubectl_outcome_spec req now s (k : K) :
  let '(resp, ran, s', _) := kubectl_outcome E X config clientset req now s k in
  match ran with
  | None => resp = kubectl_refuse (kubectl_Message resp) /\ kubectl_Message resp <> "out of fuel"
  | Some (cmd, seconds) =>
      lastUsed s' = now /\ cmd = "kubectl" :: Args req /\ Args req <> [] /\ 1 <= seconds <= 120 /\
      (0 < req_TimeoutSeconds req <= 120 -> seconds = req_TimeoutSeconds req) /\
      (exists t0, now <= t0 /\ serving (pod_get E t0) = true) /\
      (kubectl_Success resp = true <->
         executor X = Ok tt /\
         ((stream X cmd seconds).2 = StreamOk \/ (stream X cmd seconds).2 = Exited 0)) /\
      (executor X = Ok tt ->
         (Stdout resp, Stderr resp) = (stream X cmd seconds).1 /\
         forall code, (stream X cmd seconds).2 = Exited code -> kubectl_ExitCode resp = code)
  end.
Proof using Hlat.
  unfold kubectl_outcome. destruct (Args req) as [|a args] eqn:Ha; [done|].
  destruct config as [[]|]; [|done]. destruct clientset as [[]|]; [|done].
  set (timeout := kubectl_timeout (req_TimeoutSeconds req)). set (ctxEnd := now + _).
  unfold ensureReaderExecPod.
  set (rec := if rbacReconciled _ then _ else _). destruct rec as [[[]|e] k']; [|done].
  destruct (ensure_pod_total ctxEnd now) as (r & t & He & Hr). destruct (ensure_pod E ctxEnd now) as [r' created].
  cbn in He. subst r'. destruct r as [[]|e]; [|done].
  assert (1 <= timeout <= 120 /\ (0 < req_TimeoutSeconds req <= 120 -> timeout = req_TimeoutSeconds req)) as [Ht1 Ht2].
  { subst timeout. unfold kubectl_timeout, defaultReadonlyKubectlTimeout, maxReadonlyKubectlTimeout.
    destruct (Z.leb_spec (req_TimeoutSeconds req) 0); destruct (Z.ltb_spec 120 (if (req_TimeoutSeconds req <=? 0) then 30 else req_TimeoutSeconds req));
    repeat match goal with |- context [if ?b then _ else _] => destruct b eqn:? end; lia. }
  assert (exists t0, now <= t0 /\ serving (pod_get E t0) = true) as Hserv
    by (destruct (Hr eq_refl) as (t0 & ? & ?); exists t0; split; [lia|done]).
  unfold execInReaderPod. destruct (executor X) as [[]|e] eqn:Hx.
  2:{ cbn. split_and!; try done; try lia. split; [done|]. by intros [? _]. }
  destruct (stream X ("kubectl" :: a :: args) timeout) as [[out err] [|code|e]] eqn:Hst; rewrite ?Hst; cbn;
    split_and!; try done; try lia; rewrite ?Z.eqb_eq; naive_solver.
Qed.

End kubectl_laws.

Definition demo_exec : ExecEnv := mkExecEnv (Ok tt) (fun _ _ => ("NAME", "", Exited 1)).

Lemma kubectl_outcome_spec_witness :
  let '(resp, ran, _, _) := kubectl_outcome slow_pod demo_exec (Ok tt) (Ok tt) (mkKubectlRequest ["get"; "pods"] 500) 0
                              (mkReader 0 false false) (mkMemKube ∅ []) in
  ran = Some (["kubectl"; "get"; "pods"], 120) /\ kubectl_Success resp = false /\ kubectl_ExitCode resp = 1.
Proof.
  assert (forall t, 0 <= latency slow_pod t) as Hl by (intros t; cbn; unfold Second; lia).
  pose proof (kubectl_outcome_spec slow_pod demo_exec Hl (Ok tt) (Ok tt) (mkKubectlRequest ["get"; "pods"] 500) 0
    (mkReader 0 false false) (mkMemKube ∅ [])) as Hk.
  assert ((kubectl_outcome slow_pod demo_exec (Ok tt) (Ok tt) (mkKubectlRequest ["get"; "pods"] 500) 0
    (mkReader 0 false false) (mkMemKube ∅ [])).1.1.2 = Some (["kubectl"; "get"; "pods"], 120)) as Hran by (vm_compute; reflexivity).
  set (x := kubectl_outcome _ _ _ _ _ _ _ _) in *. clearbody x. destruct x as [[[resp ran] s'] k']. cbn in Hran. subst ran.
  destruct Hk as (_ & _ & _ & _ & _ & _ & Hsucc & Hout). split; [reflexivity|].
  split; [|by apply (Hout eq_refl)].
  destruct (kubectl_Success resp); [|reflexivity]. destruct (proj1 Hsucc eq_refl) as (_ & [?|?]); discriminate.
Defined.

(** The reaper reads the idle time under the lock and deletes after it: a request
    that comes in between is not seen, and its pod is deleted under it. *)
Lemma reaper_deletes_used_pod :
  let s := mkReader 0 true true in
  let tick := 16 * Minute in
  reap_decides tick s = true /\
  let '(r, _, s', _) := ensureReaderExecPod (K := MemKube) slow_pod (tick + 220 * Second) tick s (mkMemKube ∅ []) in
  (exists t, r = Some (Ok tt, t)) /\ reap_decides (tick + Second) s' = false.
Proof. vm_compute. split; [reflexivity|]. split; [by eexists|reflexivity]. Qed.
