(* ===== verification/BuildPods.v ===== *)
(** * The pod of a build ([src/buildkitclient/ephemeral.go])

    Every build runs against a buildkitd pod of its own. [BuildKit.v] takes the
    outcome of [StartEphemeralBuilder] as given; here it is modelled, with the
    pod's manifest, the waits, the clean-up and the sweep at start-up. What the
    cluster answers is a function of the time of the call; every call that
    changes the cluster or the build log is an effect, with the time and context
    of a deletion and the API's answer. *)
From stdpp Require Import gmap pretty.
From S2P Require Import Prelude GoStrings Kube BuildKit.
Local Open Scope string_scope.
Local Open Scope Z_scope.

Definition BuilderNamespace : string := "buildkit".
Definition builderTypeLabel : string := "buildkit-build".
Definition builderReadyTimeout : Z := 3 * Minute.
Definition builderPollInterval : Z := 2 * Second.
Definition buildCacheVolumeName : string := "buildkit-cache".
Definition builderPort : Z := 1234.

(** ** The manifest *)

Record BuilderMeta := mkBuilderMeta {
  m_JobID : string; m_OSID : string; m_Commit : string; m_Repo : string; m_Branch : string; m_Images : list string
}.

Inductive CacheVolume :=
| EmptyDir (sizeLimit : string)
| EphemeralClaim (labels : list (string * string)) (accessMode storageClass size : string).

Definition buildCacheVolume (settings : BuildSettings) : string * CacheVolume :=
  let size := pretty (BuildCacheSizeGb settings) ++ "Gi" in
  (buildCacheVolumeName,
   if String.eqb (BuildCacheStorageClass settings) "" then EmptyDir size
   else EphemeralClaim [("app.kubernetes.io/managed-by", "runos"); ("runos.com/type", builderTypeLabel)]
          "ReadWriteOnce" (BuildCacheStorageClass settings) size).

Record BuilderPod := mkBuilderPod {
  bp_Name : string; bp_Namespace : string; bp_Labels : gmap string string; bp_Annotations : gmap string string;
  bp_RestartPolicy : string; bp_ActiveDeadlineSeconds : Z; bp_GracePeriodSeconds : Z; bp_Automount : bool;
  bp_Container : string; bp_Image : string; bp_Args : list string; bp_ContainerPort : Z; bp_Privileged : bool;
  bp_Requests : list (string * string); bp_Limits : list (string * string);
  bp_MountPath : string; bp_ReadinessPort : Z; bp_InitialDelay : Z; bp_Period : Z; bp_ProbeTimeout : Z; bp_FailureThreshold : Z;
  bp_Volume : string * CacheVolume
}.

(** [m[k] = v] when the value is not empty. *)
Definition put_nonempty (k v v' : string) (m : gmap string string) : gmap string string :=
  if String.eqb v "" then m else <[k := v']> m.

(** [timeout] is [buildTimeout()], [image] is [buildkitImage()]. *)
Definition newBuilderPod (timeout : Z) (image name : string) (meta : BuilderMeta) (settings : BuildSettings) : BuilderPod :=
  let deadline := Z.quot (timeout + 10 * Minute) Second in
  let labels :=
    put_nonempty "runos.com/commit" (m_Commit meta) (labelValue (m_Commit meta))
      (put_nonempty "runos.com/osid" (m_OSID meta) (labelValue (m_OSID meta))
        (<["runos.com/job-id" := labelValue (m_JobID meta)]>
          (<["runos.com/type" := builderTypeLabel]> (<["app.kubernetes.io/managed-by" := "runos"]> ∅)))) in
  let annotations :=
    put_nonempty "runos.com/branch" (m_Branch meta) (m_Branch meta)
      (put_nonempty "runos.com/repo" (m_Repo meta) (m_Repo meta)
        (match m_Images meta with [] => ∅ | images => <["runos.com/images" := Join images ","]> ∅ end)) in
  mkBuilderPod name BuilderNamespace labels annotations "Never" deadline 5 false
    "buildkitd" image ["--addr"; "tcp://0.0.0.0:" ++ pretty builderPort] builderPort true
    [("cpu", pretty (CPURequestMc settings) ++ "m"); ("memory", pretty (MemoryRequestMb settings) ++ "Mi")]
    [("cpu", pretty (CPULimitMc settings) ++ "m"); ("memory", pretty (MemoryLimitMb settings) ++ "Mi")]
    "/var/lib/buildkit" builderPort 1 2 5 60 (buildCacheVolume settings).

(** ** Pod status *)

Inductive ContainerState :=
| Waiting (reason message : string)
| Running (startedAt : Z)
| Terminated (exitCode : Z) (reason message : string)
| Unknown.

Record BuildPodStatus := mkBuildPodStatus {
  ps_Phase : string; ps_Reason : string; ps_PodIP : string;
  ps_Conditions : list (string * string); ps_Containers : list (string * ContainerState)
}.

Fixpoint podIsReady (cs : list (string * string)) : bool :=
  match cs with
  | [] => false
  | (t, s) :: cs => if String.eqb t "Ready" then String.eqb s "True" else podIsReady cs
  end.

(** [Quote] is Go's [%q]; [RFC3339] formats a time. *)
Definition summarizePodState (Quote : string -> string) (RFC3339 : Z -> string) (p : BuildPodStatus) : string :=
  let container '(name, st) :=
    match st with
    | Terminated code reason message =>
        [name ++ " terminated exitCode=" ++ pretty code ++ " reason=" ++ reason ++
         (if String.eqb message "" then "" else " message=" ++ Quote message)]
    | Waiting reason _ => [name ++ " waiting reason=" ++ reason]
    | Running t => [name ++ " running since " ++ RFC3339 t]
    | Unknown => []
    end in
  Join ((("phase=" ++ ps_Phase p)%string :: (if String.eqb (ps_Reason p) "" then [] else [("podReason=" ++ ps_Reason p)%string])
         ++ mjoin (map container (ps_Containers p)))%list) "; ".

Definition builderStateSummary Quote RFC3339 (pod : result KErr BuildPodStatus) : string :=
  match pod with
  | Err e => "build pod state unavailable: " ++ KError e
  | Ok p => summarizePodState Quote RFC3339 p
  end.

(** ** Polling *)

(** The calls that change the cluster, with their answers; a deletion with the
    time it is made and the end of its context. *)
Inductive PodEffect :=
| CreateNamespace
| DeletePod (name : string) (at_ ctx : Z) (r : result KErr unit)
| CreatePod (pod : BuilderPod) (r : result KErr unit)
| LogLine (line : string).

Record PodsEnv := mkPodsEnv {
  ns_create : result KErr unit;
  pods_delete : Z -> string -> result KErr unit;
  pods_create : Z -> string -> result KErr unit;
  pods_get : Z -> string -> result KErr BuildPodStatus;
  call_time : Z -> Z;              (* how long a call made at a time takes *)
  timer_wins : Z -> bool           (* which of two events at one instant a select takes *)
}.

(** A call made at [t] under a context that ends at [ctx]: it is not sent any
    more when the context is over. *)
Definition under {A} (ctx t : Z) (r : result KErr A) : result KErr A :=
  if ctx <=? t then Err (KOther "context deadline exceeded") else r.

Section polling.
Context (E : PodsEnv) (ctxEnd : Z).

(** A loop that looks, checks whether it has waited too long, and sleeps for the
    poll interval unless its context ends first. [None]: out of fuel. *)
Fixpoint poll {S A} (fuel : nat) (look : Z -> S -> A + S) (expired : Z -> S -> option A) (cancelled : S -> A)
    (now : Z) (s : S) : option (A * Z) :=
  match fuel with
  | O => None
  | S fuel =>
      let now' := now + call_time E now in
      match look now s with
      | inl a => Some (a, now')
      | inr s =>
          match expired now' s with
          | Some a => Some (a, now')
          | None =>
              let next := now' + builderPollInterval in
              if (next <? ctxEnd) || ((next =? ctxEnd) && timer_wins E now')
              then poll fuel look expired cancelled next s
              else Some (cancelled s, Z.max now' ctxEnd)
          end
      end
  end.

(** Rounds until the context ends. *)
Definition poll_fuel (now : Z) : nat := Z.to_nat ((ctxEnd - now) / builderPollInterval) + 2.

Context (Htime : forall t, 0 <= call_time E t).

Lemma poll_total {S A} fuel (look : Z -> S -> A + S) expired cancelled now s (Inv : S -> Prop) (Q : A -> Prop) :
  (0 < fuel)%nat -> ctxEnd < now + builderPollInterval * Z.of_nat fuel ->
  Inv s -> (forall t s, Inv s -> match look t s with inl a => Q a | inr s => Inv s end) ->
  (forall t s a, Inv s -> expired t s = Some a -> Q a) -> (forall s, Inv s -> Q (cancelled s)) ->
  exists a t, poll fuel look expired cancelled now s = Some (a, t) /\ now <= t /\ Q a.
Proof using Htime.
  intros Hf Hc Hs Hlook Hexp Hcan. revert now s Hf Hc Hs.
  induction fuel as [|fuel IH]; intros now s Hf Hc Hs; [lia|]. cbn [poll].
  pose proof (Htime now) as Ht. specialize (Hlook now s Hs) as Hl.
  destruct (look now s) as [a|s']; [eexists _, _; split_and!; [done|lia|done]|].
  destruct (expired _ s') as [a|] eqn:He; [eexists _, _; split_and!; [done|lia|eauto]|].
  destruct (_ || _) eqn:Hn; [|eexists _, _; split_and!; [done|lia|auto]].
  assert (now + call_time E now + builderPollInterval <= ctxEnd) as Hle.
  { apply orb_prop in Hn as [Hn%Z.ltb_lt|[Hn%Z.eqb_eq _]%andb_prop]; lia. }
  unfold builderPollInterval, Second in *. destruct fuel as [|fuel]; [lia|].
  destruct (IH (now + call_time E now + 2 * 1000000000) s') as (a & t & -> & Hle' & HQ); [lia|lia|done|].
  exists a, t. split_and!; [done|lia|done].
Qed.

Lemma poll_fuel_enough now : (0 < poll_fuel now)%nat /\ ctxEnd < now + builderPollInterval * Z.of_nat (poll_fuel now).
Proof.
  unfold poll_fuel, builderPollInterval, Second. split; [lia|].
  pose proof (Z.mul_succ_div_gt (ctxEnd - now) (2 * 1000000000)). lia.
Qed.
End polling.

(** ** The waits *)

Section waits.
Context (E : PodsEnv) (ctxEnd : Z).

Definition waitForPodGone (name : string) (now : Z) : option (result string unit * Z) :=
  poll E ctxEnd (poll_fuel ctxEnd now)
    (fun t (s : unit) => match under ctxEnd t (pods_get E t name) with
                         | Err NotFound => inl (Ok tt)
                         | _ => inr s
                         end)
    (fun _ _ => None)
    (fun _ => Err ("timed out waiting for stale build pod " ++ name ++ " to terminate")) now tt.

(** The reasons of waiting containers, logged when they differ from the last. *)
Fixpoint waiting_logs (name : string) (cs : list (string * ContainerState)) (lastReason : string) : string * list string :=
  match cs with
  | [] => (lastReason, [])
  | (_, Waiting reason message) :: cs =>
      if String.eqb reason "" || String.eqb reason lastReason then waiting_logs name cs lastReason
      else let '(l, logs) := waiting_logs name cs reason in
           (l, ("build pod " ++ name ++ ": " ++ reason ++ ": " ++ message) :: logs)
  | _ :: cs => waiting_logs name cs lastReason
  end.

Record WaitState := mkWait { lastReason : string; logged : list string }.

Definition ready_look (name : string) (t : Z) (s : WaitState) : (result string string * list string) + WaitState :=
  match under ctxEnd t (pods_get E t name) with
  | Err _ => inr s
  | Ok p =>
      if String.eqb (ps_Phase p) "Failed" || String.eqb (ps_Phase p) "Succeeded" then
        inl (Err ("build pod " ++ name ++ " terminated before becoming ready (phase " ++ ps_Phase p ++ ")"), logged s)
      else
        let '(l, logs) := waiting_logs name (ps_Containers p) (lastReason s) in
        let s := mkWait l (logged s ++ logs)%list in
        if negb (String.eqb (ps_PodIP p) "") && podIsReady (ps_Conditions p)
        then inl (Ok ("tcp://" ++ ps_PodIP p ++ ":" ++ pretty builderPort), logged s)
        else inr s
  end.

(** The address of the pod, and the lines written to the build log. *)
Definition waitForBuilderReady (name : string) (now : Z) : option (result string string * list string * Z) :=
  let deadline := now + builderReadyTimeout in
  poll E ctxEnd (poll_fuel ctxEnd now) (ready_look name)
    (fun t s => if deadline <? t
                then Some (Err ("build pod " ++ name ++ " not ready (last waiting reason: " ++ lastReason s ++ ")"), logged s)
                else None)
    (fun s => (Err ("cancelled waiting for build pod " ++ name), logged s)) now (mkWait "" []).

(** ** Starting a builder *)

Definition ensureBuilderNamespace : result string unit :=
  match ns_create E with
  | Ok _ => Ok tt
  | Err e => if IsAlreadyExists e then Ok tt else Err ("failed to ensure namespace buildkit: " ++ KError e)
  end.

(** The [cleanup] that [StartEphemeralBuilder] calls itself or returns: on a
    context of its own, since the build's may be over. Its error is logged. *)
Definition builder_cleanup (name : string) (t : Z) : PodEffect :=
  let dctx := t + 30 * Second in
  DeletePod name t dctx (under dctx t (pods_delete E t name)).

(** From the creation of the pod on; [pre] are the effects so far. *)
Definition create_and_wait (pod : BuilderPod) (name : string) (pre : list PodEffect) (now : Z) :
    option (result string string) * list PodEffect :=
  let created := under ctxEnd now (pods_create E now name) in
  let pre := (pre ++ [CreatePod pod created])%list in
  match created with
  | Err e => (Some (Err ("failed to create build pod " ++ name ++ ": " ++ KError e)), pre)
  | Ok _ =>
      match waitForBuilderReady name (now + call_time E now) with
      | None => (None, pre)
      | Some (Ok addr, logs, _) => (Some (Ok addr), (pre ++ map LogLine logs)%list)
      | Some (Err e, logs, t) => (Some (Err e), (pre ++ map LogLine logs ++ [builder_cleanup name t])%list)
      end
  end.

(** The answer and the effects; with an address, [builder_cleanup] is the
    caller's to call ([StopPod] of [BuildKit.v]). *)
Definition StartEphemeralBuilder (timeout : Z) (image : string) (meta : BuilderMeta) (settings : BuildSettings) (now : Z) :
    option (result string string) * list PodEffect :=
  let name := builderPodName (m_JobID meta) in
  match ensureBuilderNamespace with
  | Err e => (Some (Err e), [CreateNamespace])
  | Ok _ =>
      let del := under ctxEnd now (pods_delete E now name) in
      let pre := [CreateNamespace; DeletePod name now ctxEnd del] in
      let pod := newBuilderPod timeout image name meta settings in
      let now := now + call_time E now in
      match del with
      | Err NotFound => create_and_wait pod name pre now
      | Err e => (Some (Err ("failed to check for stale build pod " ++ name ++ ": " ++ KError e)), pre)
      | Ok _ =>
          match waitForPodGone name now with
          | None => (None, pre)
          | Some (Err e, _) => (Some (Err e), pre)
          | Some (Ok _, now) => create_and_wait pod name pre now
          end
      end
  end.
End waits.

(** ** The sweep at start-up *)

Definition legacy_objects : list (string * string) :=
  [("StatefulSet", "buildkitd"); ("Service", "buildkitd"); ("ConfigMap", "buildkitd-config");
   ("ServiceAccount", "buildkitd-watchdog"); ("Role", "buildkitd-watchdog"); ("RoleBinding", "buildkitd-watchdog")].

(** The deletions, in order: each is attempted whatever became of the others.
    [pods] is the answer to the list of pods labelled as builders. *)
Definition StartupCleanup (pods : result KErr (list string)) : list (string * string) :=
  ((match pods with Ok names => map (fun n => ("Pod", n)) names | Err _ => [] end) ++ legacy_objects)%list.

(** The manifest: the deadline is ten minutes beyond the build's own limit, so
    the pod outlives its build and not much more; it holds no credentials and is
    never restarted; what is requested stays within the limits. *)
Lemma builder_pod_backstop timeout image name meta settings :
  0 <= timeout ->
  let p := newBuilderPod timeout image name meta settings in
  timeout + 9 * Minute < bp_ActiveDeadlineSeconds p * Second <= timeout + 10 * Minute /\
  bp_Automount p = false /\ bp_RestartPolicy p = "Never" /\
  bp_Labels p !! "runos.com/type" = Some builderTypeLabel.
Proof.
  intros Ht. cbv zeta. unfold newBuilderPod. cbn [bp_ActiveDeadlineSeconds bp_Automount bp_RestartPolicy bp_Labels].
  split_and!; try done.
  - rewrite Z.quot_div_nonneg by (unfold Minute, Second; lia).
    pose proof (Z.mul_succ_div_gt (timeout + 10 * Minute) Second). unfold Minute, Second in *. lia.
  - rewrite Z.quot_div_nonneg by (unfold Minute, Second; lia).
    pose proof (Z.mul_div_le (timeout + 10 * Minute) Second). unfold Minute, Second in *. lia.
  - unfold put_nonempty. by destruct (String.eqb (m_Commit meta) ""), (String.eqb (m_OSID meta) ""); simplify_map_eq.
Qed.

(** A reason is logged when it changes, so a pod that stays in one state is
    logged once however often it is looked at. *)
Lemma waiting_logs_idempotent name c reason message rest :
  let '(l, _) := waiting_logs name [(c, Waiting reason message)] rest in
  waiting_logs name [(c, Waiting reason message)] l = (l, []).
Proof.
  cbn. destruct (String.eqb reason "") eqn:He; cbn; [done|].
  destruct (String.eqb reason rest) eqn:Hr; cbn; [by rewrite Hr|]. by rewrite String.eqb_refl.
Qed.

(** ** What starting a builder leaves behind *)

Definition ready_at (E : PodsEnv) (name addr : string) : Prop :=
  exists t p, pods_get E t name = Ok p /\ podIsReady (ps_Conditions p) = true /\
    ps_PodIP p <> "" /\ addr = "tcp://" ++ ps_PodIP p ++ ":1234".

Section start.
Context (E : PodsEnv) (ctxEnd : Z) (Htime : forall t, 0 <= call_time E t).

Lemma waitForPodGone_spec name now :
  exists r t, waitForPodGone E ctxEnd name now = Some (r, t) /\ now <= t /\
    (r = Ok tt -> exists t0, pods_get E t0 name = Err NotFound).
Proof using Htime.
  destruct (poll_fuel_enough ctxEnd now) as [Hf Hc].
  apply (poll_total E ctxEnd Htime _ _ _ _ now tt (fun _ => True)
    (fun r => r = Ok tt -> exists t0, pods_get E t0 name = Err NotFound)); try done.
  intros t [] _. unfold under. destruct (ctxEnd <=? t); [done|]. destruct (pods_get E t name) as [|[]] eqn:Hg; eauto.
Qed.

Lemma waitForBuilderReady_spec name now :
  exists r logs t, waitForBuilderReady E ctxEnd name now = Some (r, logs, t) /\
    (forall addr, r = Ok addr -> ready_at E name addr).
Proof using Htime.
  destruct (poll_fuel_enough ctxEnd now) as [Hf Hc]. unfold waitForBuilderReady.
  destruct (poll_total E ctxEnd Htime (poll_fuel ctxEnd now) (ready_look E ctxEnd name)
    (fun t s => if now + builderReadyTimeout <? t
                then Some (Err ("build pod " ++ name ++ " not ready (last waiting reason: " ++ lastReason s ++ ")"), logged s)
                else None)
    (fun s => (Err ("cancelled waiting for build pod " ++ name), logged s)) now (mkWait "" []) (fun _ => True)
    (fun r => forall addr, r.1 = Ok addr -> ready_at E name addr)) as ([r logs] & t & Hp & _ & HQ); try done.
  - intros t s _. unfold ready_look, under. destruct (ctxEnd <=? t); [done|].
    destruct (pods_get E t name) as [p|] eqn:Hg; [|done].
    destruct (_ || _); [done|]. destruct (waiting_logs _ _ _) as [l logs].
    destruct (String.eqb_spec (ps_PodIP p) ""); cbn; [done|]. destruct (podIsReady _) eqn:Hr; cbn; [|done].
    intros addr [= <-]. by exists t, p.
  - intros t s a _. destruct (_ <? _); [by intros [= <-]|done].
  - eauto 6.
Qed.

(** The creations a run asked for. *)
Definition creates (effs : list PodEffect) : nat :=
  length (List.filter (fun e => match e with CreatePod _ _ => true | _ => false end) effs).

Lemma creates_app a b : creates (a ++ b)%list = (creates a + creates b)%nat.
Proof. unfold creates. by rewrite List.filter_app, length_app. Qed.

Lemma creates_logs logs : creates (map LogLine logs) = 0%nat.
Proof. unfold creates. by induction logs. Qed.

End start.

(** A pod comes up after a minute behind a slow image pull. *)
Definition demo_pods : PodsEnv :=
  mkPodsEnv (Err AlreadyExists) (fun _ _ => Err NotFound) (fun _ _ => Ok tt)
    (fun t _ => if t <? 60 * Second
                then Ok (mkBuildPodStatus "Pending" "" "" [] [("buildkitd", Waiting "ContainerCreating" "")])
                else Ok (mkBuildPodStatus "Running" "" "10.1.2.3" [("Ready", "True")] [("buildkitd", Running 60)]))
    (fun _ => Second) (fun _ => true).


