(* ===== verification/BuildSlots.v ===== *)
(** * Build slots ([src/buildkitclient/ephemeral.go], [acquireBuildSlot];
      [src/buildkitclient/client.go], [Build])

    The builds of the process share a counter under a mutex. A build polls it
    once a second until fewer builds are active than the limit it has read for
    itself, or until its context ends; it gives its slot back when it returns.
    Here any number of builds do so at once, with the passes of [BuildKit.v]
    under the mutex as steps, each with a limit of its own, since the settings
    may change between two builds. *)
From stdpp Require Import gmap.
From S2P Require Import Prelude GoStrings BuildKit.
Local Open Scope Z_scope.

Definition slotPoll : Z := 1 * Second.

(** A build: about to look at the counter; asleep until [wake]; with a slot;
    with its context ended while it slept; or over. *)
Inductive SlotPc :=
| SlotPolling (limit deadline : Z)
| SlotSleeping (limit deadline wake : Z)
| SlotHeld (limit : Z)
| SlotTimedOut
| SlotReturned.

Record Slots := mkSlots { sl_now : Z; activeBuilds : Z; builds : gmap nat SlotPc }.

Definition slots_init : Slots := mkSlots 0 0 ∅.
Definition set_build b pc (s : Slots) : Slots := mkSlots (sl_now s) (activeBuilds s) (<[b := pc]> (builds s)).

Inductive slot_step : Slots -> Slots -> Prop :=
| slot_begin s b limit deadline :
    builds s !! b = None -> slot_step s (set_build b (SlotPolling limit deadline) s)
(* under the mutex *)
| slot_poll s b limit deadline :
    builds s !! b = Some (SlotPolling limit deadline) ->
    slot_step s (match try_acquire limit (activeBuilds s) with
                 | Some n => mkSlots (sl_now s) n (<[b := SlotHeld limit]> (builds s))
                 | None => set_build b (SlotSleeping limit deadline (sl_now s + slotPoll)) s
                 end)
(* time.After(time.Second) *)
| slot_wake s b limit deadline wake :
    builds s !! b = Some (SlotSleeping limit deadline wake) -> wake <= sl_now s ->
    slot_step s (set_build b (SlotPolling limit deadline) s)
(* ctx.Done() *)
| slot_timeout s b limit deadline wake :
    builds s !! b = Some (SlotSleeping limit deadline wake) -> deadline <= sl_now s ->
    slot_step s (set_build b SlotTimedOut s)
(* the deferred release *)
| slot_release s b limit :
    builds s !! b = Some (SlotHeld limit) ->
    slot_step s (mkSlots (sl_now s) (releaseBuildSlot (activeBuilds s)) (<[b := SlotReturned]> (builds s)))
| slot_tick s dt : 0 <= dt -> slot_step s (mkSlots (sl_now s + dt) (activeBuilds s) (builds s)).

Definition slots_reachable : Slots -> Prop := rtc slot_step slots_init.

(** ** The counter counts the holders *)

Definition held_limit (pc : SlotPc) : option Z := match pc with SlotHeld limit => Some limit | _ => None end.

(** The builds with a slot and their limits. *)
Definition holders (s : Slots) : gmap nat Z := omap held_limit (builds s).

(** The holders in the order they came in: each found fewer before it than its
    limit, and those that have left can only have moved it forward. *)
Definition queue_of (s : Slots) (l : list (nat * Z)) : Prop :=
  NoDup l.*1 /\ holders s = list_to_map l /\ activeBuilds s = Z.of_nat (length l) /\
  forall i b limit, l !! i = Some (b, limit) -> Z.of_nat i < limit.

Lemma holders_insert b pc now n m :
  holders (mkSlots now n (<[b := pc]> m)) =
  match held_limit pc with
  | Some limit => <[b := limit]> (omap held_limit m)
  | None => delete b (omap held_limit m)
  end.
Proof.
  unfold holders. cbn. destruct (held_limit pc) as [limit|] eqn:Hp.
  - by apply omap_insert_Some.
  - by apply omap_insert_None.
Qed.

Lemma not_holder b s : (forall limit, builds s !! b <> Some (SlotHeld limit)) -> holders s !! b = None.
Proof.
  intros Hb. unfold holders. rewrite lookup_omap. destruct (builds s !! b) as [[]|]; try done. by destruct (Hb limit).
Qed.

(** A build that neither has nor gets a slot. *)
Lemma queue_other b pc s l :
  queue_of s l -> holders s !! b = None -> held_limit pc = None -> queue_of (set_build b pc s) l.
Proof.
  intros (Hn & Hh & Hc & Hl) Hb Hp. split_and!; [done| |done|done].
  unfold set_build. rewrite holders_insert, Hp. rewrite delete_id; [done|exact Hb].
Qed.

Lemma queue_acquire b s l limit n :
  queue_of s l -> holders s !! b = None -> try_acquire limit (activeBuilds s) = Some n ->
  queue_of (mkSlots (sl_now s) n (<[b := SlotHeld limit]> (builds s))) (l ++ [(b, limit)])%list.
Proof.
  intros (Hn & Hh & Hc & Hl) Hb. unfold try_acquire. destruct (Z.ltb_spec (activeBuilds s) limit) as [Hlt|]; [|done].
  intros [= <-]. assert (b ∉ l.*1) as Hb' by (apply not_elem_of_list_to_map; by rewrite <-Hh).
  split_and!.
  - rewrite fmap_app. apply NoDup_app. cbn. split_and!; [done| |apply NoDup_singleton].
    intros x Hx ->%list_elem_of_singleton. done.
  - rewrite holders_insert. cbn [held_limit]. fold (holders s). rewrite Hh, list_to_map_app. cbn [list_to_map foldr uncurry]. rewrite insert_empty.
    apply insert_union_singleton_r. by apply not_elem_of_list_to_map.
  - cbn. rewrite length_app, Hc. cbn. lia.
  - intros i b' limit' [Hi|(Hge & Hi)]%lookup_app_Some; [by eapply Hl|].
    apply list_lookup_singleton_Some in Hi as [Hi [= <- <-]]. lia.
Qed.

Lemma queue_release b s l limit :
  queue_of s l -> builds s !! b = Some (SlotHeld limit) ->
  exists l', queue_of (mkSlots (sl_now s) (releaseBuildSlot (activeBuilds s)) (<[b := SlotReturned]> (builds s))) l'.
Proof.
  intros (Hn & Hh & Hc & Hl) Hb. assert ((b, limit) ∈ l) as (l1 & l2 & ->)%list_elem_of_split.
  { apply elem_of_list_to_map_2. rewrite <-Hh. unfold holders. by rewrite lookup_omap, Hb. }
  exists (l1 ++ l2)%list. rewrite fmap_app, fmap_cons in Hn. cbn in Hn. pose proof Hn as Hn'.
  rewrite <-Permutation_middle in Hn'. apply NoDup_cons in Hn' as [Hnot Hn']. split_and!.
  - by rewrite fmap_app.
  - rewrite holders_insert. cbn [held_limit]. fold (holders s). rewrite Hh.
    rewrite <-(list_to_map_proper ((b, limit) :: l1 ++ l2)); [|by rewrite fmap_cons, fmap_app; cbn; constructor|apply Permutation_middle].
    rewrite list_to_map_cons, delete_insert_id; [done|]. apply not_elem_of_list_to_map. by rewrite fmap_app.
  - cbn. unfold releaseBuildSlot. rewrite Hc, !length_app. cbn. lia.
  - intros i b' limit' [Hi|(Hge & Hi)]%lookup_app_Some.
    + apply (Hl i b'). apply lookup_app_Some. by left.
    + assert (Z.of_nat (S i) < limit'); [|lia]. apply (Hl (S i) b'). rewrite lookup_app_r by lia.
      replace (S i - length l1)%nat with (S (i - length l1)) by lia. exact Hi.
Qed.

Lemma slot_step_queue s s' l : slot_step s s' -> queue_of s l -> exists l', queue_of s' l'.
Proof.
  intros Hs Q. destruct Hs as [s b limit deadline Hb|s b limit deadline Hb|s b limit deadline wake Hb _|s b limit deadline wake Hb _|s b limit Hb|s dt _].
  - exists l. apply queue_other; [done| |done]. apply not_holder. by rewrite Hb.
  - assert (holders s !! b = None) as Hn by (apply not_holder; by rewrite Hb).
    destruct (try_acquire limit (activeBuilds s)) as [n|] eqn:Ht; [eexists; by apply queue_acquire|exists l; by apply queue_other].
  - exists l. apply queue_other; [done| |done]. apply not_holder. by rewrite Hb.
  - exists l. apply queue_other; [done| |done]. apply not_holder. by rewrite Hb.
  - by eapply queue_release.
  - by exists l.
Qed.

Lemma slots_queue s : slots_reachable s -> exists l, queue_of s l.
Proof.
  intros Hr. assert (exists l, queue_of slots_init l) as H0 by (exists []; split_and!; [constructor|done|done|done]).
  revert H0. unfold slots_reachable in Hr. induction Hr as [|s s1 s2 Hs _ IH]; [done|]. intros [l Q]. apply IH. by eapply slot_step_queue.
Qed.

(** C27: Concurrent builds stay within their limits. In every interleaving of
    builds that begin, poll, sleep, time out, run and return, with limits that
    differ from build to build, the counter is exactly the number of builds that
    hold a slot, so it is never negative, a build that gave up or is over counts
    for nothing, and when nothing holds a slot a build with a positive limit
    gets one at its next look. And there are never more builds at once than the
    limit of one of them: a cap that was lowered is respected by every later
    build, one that was raised lets more in. *)
Theorem slots_bounded s :
  slots_reachable s ->
  activeBuilds s = Z.of_nat (size (holders s)) /\
  (holders s = ∅ \/ exists b limit, builds s !! b = Some (SlotHeld limit) /\ Z.of_nat (size (holders s)) <= limit) /\
  (forall b limit deadline, builds s !! b = Some (SlotPolling limit deadline) ->
     (exists s', slot_step s s' /\ builds s' !! b = Some (SlotHeld limit)) <-> Z.of_nat (size (holders s)) < limit).
Proof.
  intros [l (Hn & Hh & Hc & Hl)]%slots_queue.
  assert (size (holders s) = length l) as Hs by (rewrite Hh; by apply map_size_list_to_map).
  assert (forall b limit, holders s !! b = Some limit -> builds s !! b = Some (SlotHeld limit)) as Hb.
  { intros b limit. unfold holders. rewrite lookup_omap. destruct (builds s !! b) as [[]|]; try done. by intros [= ->]. }
  split_and!.
  - by rewrite Hc, Hs.
  - destruct l as [|x l0 _] using rev_ind; [by left|]. right. destruct x as [b limit]. exists b, limit. split.
    + apply Hb. rewrite Hh. apply elem_of_list_to_map; [done|]. apply elem_of_app. right. by apply list_elem_of_singleton.
    + rewrite Hs, length_app. cbn. assert (Z.of_nat (length l0) < limit); [|lia]. apply (Hl _ b). by apply list_lookup_middle.
  - intros b limit deadline Hp. rewrite Hs, <-Hc. split.
    + intros (s' & Hst & Hh'). destruct Hst as [s b' ? ? Hb'|s b' ? ? Hb'|s b' ? ? ? Hb' _|s b' ? ? ? Hb' _|s b' ? Hb'|s dt _]; cbn in Hh'.
      all: try (destruct (decide (b' = b)) as [->|]; [rewrite lookup_insert_eq in Hh'; simplify_eq|rewrite lookup_insert_ne in Hh' by done; simplify_eq]).
      all: try simplify_eq.
      unfold try_acquire in Hh'. destruct (Z.ltb_spec (activeBuilds s) limit0); cbn in Hh';
        (destruct (decide (b' = b)) as [->|]; [rewrite lookup_insert_eq in Hh'; simplify_eq; done|rewrite lookup_insert_ne in Hh' by done; simplify_eq]).
    + intros Hlt. eexists. split; [by eapply slot_poll|]. unfold try_acquire. apply Z.ltb_lt in Hlt. rewrite Hlt. cbn. apply lookup_insert_eq.
Qed.

(** ** Two builds and one slot *)

Definition demo_slots : Slots :=
  mkSlots 0 1 (<[1%nat := SlotSleeping 1 100 slotPoll]> (<[1%nat := SlotPolling 1 100]> (<[0%nat := SlotHeld 1]>
    (<[0%nat := SlotPolling 1 100]> ∅)))).

Lemma demo_slots_reachable : slots_reachable demo_slots.
Proof.
  eapply rtc_l; [apply (slot_begin _ 0 1 100); reflexivity|].
  eapply rtc_l; [apply (slot_poll _ 0 1 100); reflexivity|].
  eapply rtc_l; [apply (slot_begin _ 1 1 100); reflexivity|].
  eapply rtc_l; [apply (slot_poll _ 1 1 100); reflexivity|]. apply rtc_refl.
Qed.

Lemma slots_bounded_witness : activeBuilds demo_slots = 1 /\ Z.of_nat (size (holders demo_slots)) = 1.
Proof.
  destruct (slots_bounded demo_slots demo_slots_reachable) as [Hc _]. split; [reflexivity|]. rewrite <-Hc. reflexivity.
Defined.
