(* ===== verification/Certs.v ===== *)
(** * Certificates
      ([src/agentstream/certmonitor.go], [csrmint.go], [servercert.go])

    Renewal of the agent's certificate, minting with a local key and a signed
    proof, and the extra check of server certificates. X.509, PEM, the
    signature schemes, SHA-256 and the random source are the environment; a key
    is named by a string, a parsed certificate is a record of the fields the
    code looks at. Times are nanoseconds. *)
From stdpp Require Import gmap pretty.
From S2P Require Import Prelude GoStrings Conninfo Kube KubeObjects.
Local Open Scope string_scope.
Local Open Scope Z_scope.

(** ** Certificates as the code sees them *)

Inductive EKU := ClientAuth | ServerAuth | OtherEKU (n : Z).
#[export] Instance EKU_eq_dec : EqDecision EKU.
Proof. solve_decision. Defined.

Record Certificate := mkCert {
  CommonName : string; NotBefore : Z; NotAfter : Z;
  EcdsaKey : option string;            (* the ECDSA public key, if it is one *)
  ExtKeyUsage : list EKU; Extensions : list (list Z)
}.

Record Pem := mkPem { pem_Type : string; pem_Bytes : string; pem_Rest : string }.

Record CryptoEnv := mkCryptoEnv {
  pem_Decode : string -> option Pem;
  pem_Encode : string -> string -> string;                        (* type, bytes *)
  ParseCertificate : string -> result string Certificate;
  Pool : string -> bool;                                          (* AppendCertsFromPEM *)
  Verify : string -> Certificate -> Z -> option string;           (* CA, certificate, time; for ClientAuth *)
  MarshalPKCS8 : string -> result string string;
  sha256 : string -> string;
  X509KeyPair : string -> string -> result string (list string * option string)
    (* the chain, and the key when it is ECDSA or RSA *)
}.

(** ** servercert.go *)

Definition runosOIDArc : list Z := [1; 3; 6; 1; 4; 1; 99999].

Definition underArc (oid arc : list Z) : bool :=
  if (length oid <? length arc)%nat then false else bool_decide (take (length arc) oid = arc).

Definition checkServerLeaf (leaf : Certificate) : result string unit :=
  if existsb (fun u => bool_decide (u = ClientAuth)) (ExtKeyUsage leaf) then
    Err ("server certificate " ++ CommonName leaf ++ " has ClientAuth, which only agent certificates carry")
  else if existsb (fun e => underArc e runosOIDArc) (Extensions leaf) then
    Err ("server certificate " ++ CommonName leaf ++ " has an extension under the RunOS arc")
  else Ok tt.

Definition verifyServerConnection (peers : list Certificate) : result string unit :=
  match peers with
  | [] => Err "server sent no certificate"
  | leaf :: _ => checkServerLeaf leaf
  end.

Record TLSConfig := mkTLSConfig {
  InsecureSkipVerify : bool; ServerName : string; Certificates : TLSData; RootCAs : string; MinTLS12 : bool;
  VerifyConnection : list Certificate -> result string unit
}.

Section crypto.
Context (C : CryptoEnv).

Definition serverTLSConfig (t : TLSData) (serverHost : string) : result string TLSConfig :=
  match X509KeyPair C (TLSCert t) (TLSKey t) with
  | Err e => Err ("failed to load client cert: " ++ e)
  | Ok _ =>
      if negb (Pool C (CACert t)) then Err "failed to append CA cert to pool"
      else Ok (mkTLSConfig false serverHost t (CACert t) true verifyServerConnection)
  end.

(** ** certmonitor.go *)

Definition renewalThresholdDays : Z := 30.
Definition certCheckInterval : Z := 24 * Hour.

Definition ParseCertExpiry (t : TLSData) : result string Z :=
  match pem_Decode C (TLSCert t) with
  | None => Err "failed to decode PEM block from TLS cert"
  | Some b =>
      match ParseCertificate C (pem_Bytes b) with
      | Err e => Err ("failed to parse certificate: " ++ e)
      | Ok c => Ok (NotAfter c)
      end
  end.

(** [int(d.Hours() / 24)]: differences of times saturate, and the conversion
    drops the fraction. *)
Definition saturate (d : Z) : Z := Z.max min_int64 (Z.min max_int64 d).
Definition daysRemaining (expiry now : Z) : Z := Z.quot (saturate (expiry - now)) (24 * Hour).

(** The status line of [LogCertStatus]. *)
Definition LogCertStatus (t : TLSData) (now : Z) : string :=
  match pem_Decode C (TLSCert t) with
  | None => "WARNING: Failed to decode certificate PEM block"
  | Some b =>
      match ParseCertificate C (pem_Bytes b) with
      | Err e => "WARNING: Failed to parse certificate: " ++ e
      | Ok c =>
          let days := daysRemaining (NotAfter c) now in
          if days <? 0 then "EXPIRED (" ++ pretty (- days) ++ " days ago)"
          else if days <=? renewalThresholdDays then "EXPIRING SOON (" ++ pretty days ++ " days remaining)"
          else "Valid (" ++ pretty days ++ " days remaining)"
      end
  end.

(** Whether [checkAndRenew] asks for a new certificate. *)
Definition renewal_due (t : TLSData) (now : Z) : bool :=
  match ParseCertExpiry t with
  | Err _ => false
  | Ok expiry => daysRemaining expiry now <=? renewalThresholdDays
  end.

(** ** csrmint.go: the proof *)

Definition mintProofLabel : string := "runos-mint-proof-v1".
Definition mintProofNonceSize : Z := 32.
Definition skewRefusalPrefix : string := "mint proof time is outside the 5 minute window".
Definition skewServerTimeTag : string := "server time ".

Record mintResponse := mkMintResponse { CertificatePem : string; PrivateKey : string; PublicKey : string; CaCert : string }.

Definition newline : ascii := ascii_of_nat 10.

Definition mintProofInput (method csrDER leafDER : string) (unixSeconds : Z) (nonce : string) : string :=
  Join [mintProofLabel; method; hex_encode (sha256 C csrDER); pretty unixSeconds; hex_encode nonce;
        hex_encode (sha256 C leafDER)] (String newline "").

Record MintProof := mkMintProof { UnixSeconds : Z; Nonce : string; Signature : string }.

(** [rand] is the nonce drawn; [sign] signs a digest with the leaf's key. *)
Definition newMintProof (rand : result string string) (sign : string -> string -> result string string)
    (presented : TLSData) (method csrDER : string) (unixSeconds : Z) : result string MintProof :=
  match X509KeyPair C (TLSCert presented) (TLSKey presented) with
  | Err e => Err ("load the presented certificate for the mint proof: " ++ e)
  | Ok ([], _) => Err "presented certificate has no leaf"
  | Ok (leafDER :: _, key) =>
      match rand with
      | Err e => Err ("make mint proof nonce: " ++ e)
      | Ok nonce =>
          match key with
          | None => Err "mint proof: unsupported key type"
          | Some k =>
              match sign k (sha256 C (mintProofInput method csrDER leafDER unixSeconds nonce)) with
              | Err e => Err ("sign mint proof: " ++ e)
              | Ok sig => Ok (mkMintProof unixSeconds nonce sig)
              end
          end
      end
  end.

(** A gRPC error: status code and message; [None] for any other error. *)
Record RpcError := mkRpcError { rpc_status : option (string * string); rpc_text : string }.

Fixpoint last_index_str (i : Z) (sub s : string) : Z :=
  let here := if String.prefix sub s then i else -1 in
  match s with
  | EmptyString => here
  | String _ r => let j := last_index_str (i + 1) sub r in if 0 <=? j then j else here
  end.

Definition serverTimeFromSkewRefusal (err : option RpcError) : option Z :=
  match err with
  | None => None
  | Some e =>
      match rpc_status e with
      | None => None
      | Some (code, msg) =>
          if negb (String.eqb code "FailedPrecondition") || negb (HasPrefix msg skewRefusalPrefix) then None
          else
            let i := last_index_str 0 skewServerTimeTag msg in
            if i <? 0 then None
            else
              match Atoi (TrimSpace (drop_string (Z.to_nat i + String.length skewServerTimeTag) msg)) with
              | None => None
              | Some v => if v <=? 0 then None else Some v
              end
      end
  end.

(** ** csrmint.go: the answer *)

Definition checkMintedCertificate (key certPem caPem : string) (now : Z) : result string unit :=
  match pem_Decode C certPem with
  | None => Err "not a PEM certificate"
  | Some b =>
      if negb (String.eqb (pem_Type b) "CERTIFICATE") then Err "not a PEM certificate"
      else if negb (String.eqb (TrimSpace (pem_Rest b)) "") then Err "more than one PEM block"
      else
        match ParseCertificate C (pem_Bytes b) with
        | Err e => Err ("parse certificate: " ++ e)
        | Ok cert =>
            if negb (bool_decide (EcdsaKey cert = Some key)) then Err "certificate is not for the local key"
            else if negb (existsb (fun u => bool_decide (u = ClientAuth)) (ExtKeyUsage cert)) then Err "certificate lacks client auth"
            else if negb (now <? NotAfter cert) then Err "certificate is expired"
            else if negb (Pool C caPem) then Err "no CA certificate in the response"
            else
              let at_ := if now <? NotBefore cert then NotBefore cert else now in
              match Verify C caPem cert at_ with
              | Some e => Err ("certificate does not verify against the CA: " ++ e)
              | None => Ok tt
              end
        end
  end.

(** A key pair made in the pod: the public key names it. *)
Definition acceptMintResponse (key : string) (res : mintResponse) (now : Z) : result string TLSData :=
  if String.eqb (CertificatePem res) "" then
    if String.eqb (PrivateKey res) "" || String.eqb (PublicKey res) "" then
      Err "nodeward returned neither a certificate nor a legacy key"
    else Ok (mkTLS (PublicKey res) (PrivateKey res) (CaCert res))
  else
    match checkMintedCertificate key (CertificatePem res) (CaCert res) now with
    | Err e => Err ("nodeward certificate refused: " ++ e)
    | Ok _ =>
        match MarshalPKCS8 C key with
        | Err e => Err ("encode agent key: " ++ e)
        | Ok keyDER => Ok (mkTLS (CertificatePem res) (pem_Encode C "PRIVATE KEY" keyDER) (CaCert res))
        end
    end.

(** *** The key and its request *)

(** [GenerateKey] and [CreateCertificateRequest] draw from the random source;
    the key is named by its public key. *)
Definition newAgentKeyAndCSR (GenerateKey : result string string)
    (CreateCertificateRequest : string -> string -> result string string) : result string (string * string * string) :=
  match GenerateKey with
  | Err e => Err ("generate agent key: " ++ e)
  | Ok key =>
      match CreateCertificateRequest "runos-agent" key with
      | Err e => Err ("create certificate signing request: " ++ e)
      | Ok der => Ok (key, pem_Encode C "CERTIFICATE REQUEST" der, der)
      end
  end.

(** A short name of a key for the log. *)
Definition publicKeyID (marshalled : result string string) : string :=
  match marshalled with
  | Err _ => "unknown"
  | Ok der => hex_encode (take_string 6 (sha256 C der))
  end.

(** What the run of one minting meets: the key and CSR, the clock at each
    reading, the nonces, and the server's answer to each call. *)
Record MintEnv := mkMintEnv {
  keygen : result string (string * string * string);      (* key, CSR as PEM, CSR as DER *)
  clock : nat -> Z;
  nonce_of : nat -> result string string;
  sign_with : string -> string -> result string string;
  rpc : nat -> string -> MintProof -> result RpcError mintResponse
}.

(** The answer and the requests sent, in order. *)
Definition mintWithCSR (M : MintEnv) (method : string) (presented : TLSData) :
    result string TLSData * list (string * MintProof) :=
  match keygen M with
  | Err e => (Err e, [])
  | Ok (key, csrPem, csrDER) =>
      match newMintProof (nonce_of M 0) (sign_with M) presented method csrDER (clock M 0 / Second) with
      | Err e => (Err e, [])
      | Ok proof =>
          let first := rpc M 0 csrPem proof in
          match serverTimeFromSkewRefusal (match first with Err e => Some e | Ok _ => None end) with
          | Some serverTime =>
              let t := wrap64 (serverTime + Z.quot (saturate (clock M 2 - clock M 1)) Second) in
              match newMintProof (nonce_of M 1) (sign_with M) presented method csrDER t with
              | Err e => (Err e, [(csrPem, proof)])
              | Ok proof2 =>
                  (match rpc M 1 csrPem proof2 with
                   | Err e => Err (rpc_text e)
                   | Ok res => acceptMintResponse key res (clock M 3)
                   end, [(csrPem, proof); (csrPem, proof2)])
              end
          | None =>
              (match first with
               | Err e => Err (rpc_text e)
               | Ok res => acceptMintResponse key res (clock M 1)
               end, [(csrPem, proof)])
          end
      end
  end.
End crypto.

(** ** Renewing *)

Definition RegenerateCertificate_method : string := "/runos.nodeward.proto.l2sec.Nodeward/RegenerateCertificate".
Definition GetClusterAgentCredentials_method : string :=
  "/runos.nodeward.proto.l2sec.Nodeward/GetClusterAgentCredentials".

(** The dial itself belongs to gRPC; [dialed] is its error, if any. *)
Definition ConnectToServer (C : CryptoEnv) (t : TLSData) (serverHost : string) (dialed : option string) :
    result string TLSConfig :=
  match serverTLSConfig C t serverHost with
  | Err e => Err e
  | Ok cfg => match dialed with Some e => Err ("failed to connect: " ++ e) | None => Ok cfg end
  end.

Definition requestClusterAgentCredentials (C : CryptoEnv) (M : MintEnv) (presented : TLSData) : result string TLSData :=
  (mintWithCSR C M GetClusterAgentCredentials_method presented).1.
Definition requestRenewedCertificate (C : CryptoEnv) (M : MintEnv) (presented : TLSData) : result string TLSData :=
  (mintWithCSR C M RegenerateCertificate_method presented).1.

(** What one attempt to reach the server meets. *)
Record ServerEnv := mkServerEnv { dialed : option string; mint_env : MintEnv }.

Section renewing.
Context (C : CryptoEnv) (serverHost : string).
Context {K : Type} `{KubeApi K}.

(** The credentials in memory and the cluster. *)
Definition renewCert (R : ServerEnv) (mem : TLSData) (k : K) : result string unit * TLSData * K :=
  match ConnectToServer C mem serverHost (dialed R) with
  | Err e => (Err ("failed to connect for renewal: " ++ e), mem, k)
  | Ok _ =>
      match requestRenewedCertificate C (mint_env R) mem with
      | Err e => (Err ("RegenerateCertificate RPC failed: " ++ e), mem, k)
      | Ok newTLS =>
          match SetClusterAgentTLS newTLS k with
          | (Err e, k) => (Err ("failed to update cluster-agent-tls secret: " ++ e), mem, k)
          | (Ok _, k) => (Ok tt, newTLS, k)
          end
      end
  end.

Definition checkAndRenew (R : ServerEnv) (now : Z) (mem : TLSData) (k : K) : TLSData * K :=
  if renewal_due C mem now then let '(_, mem, k) := renewCert R mem k in (mem, k) else (mem, k).

(** What wakes the monitor, each with what a renewal would meet. *)
Inductive MonitorEvent := Tick (now : Z) (R : ServerEnv) | SIGUSR1 (R : ServerEnv).

(** The monitor over the events of its life; the first is the check at start. *)
Fixpoint startCertMonitor (events : list MonitorEvent) (mem : TLSData) (k : K) : TLSData * K :=
  match events with
  | [] => (mem, k)
  | Tick now R :: events => let '(mem, k) := checkAndRenew R now mem k in startCertMonitor events mem k
  | SIGUSR1 R :: events => let '(_, mem, k) := renewCert R mem k in startCertMonitor events mem k
  end.
End renewing.

(** ** A certificate is accepted only for the local key *)

Section accept.
Context (C : CryptoEnv).

(** What [checkMintedCertificate] has established when it accepts. *)
Definition minted_for (key certPem caPem : string) (now : Z) (cert : Certificate) : Prop :=
  (exists b, pem_Decode C certPem = Some b /\ ParseCertificate C (pem_Bytes b) = Ok cert) /\
  EcdsaKey cert = Some key /\ ClientAuth ∈ ExtKeyUsage cert /\ now < NotAfter cert /\
  exists at_, Z.max now (NotBefore cert) = at_ /\ Verify C caPem cert at_ = None.

Lemma existsb_client us : existsb (fun u => bool_decide (u = ClientAuth)) us = true <-> ClientAuth ∈ us.
Proof.
  rewrite existsb_exists, list_elem_of_In. split; [by intros (u & Hu & ->%bool_decide_eq_true)|].
  intros Hu. exists ClientAuth. split; [done|]. by apply bool_decide_eq_true.
Qed.

Lemma checkMinted_spec key certPem caPem now :
  checkMintedCertificate C key certPem caPem now = Ok tt -> exists cert, minted_for key certPem caPem now cert.
Proof.
  unfold checkMintedCertificate. destruct (pem_Decode C certPem) as [b|] eqn:Hb; [|done].
  destruct (negb _); [done|]. destruct (negb _); [done|].
  destruct (ParseCertificate C (pem_Bytes b)) as [cert|] eqn:Hc; [|done].
  destruct (bool_decide_reflect (EcdsaKey cert = Some key)); cbn; [|done].
  destruct (existsb _ (ExtKeyUsage cert)) eqn:Hu; cbn; [|done].
  destruct (Z.ltb_spec now (NotAfter cert)); cbn; [|done]. destruct (Pool C caPem); cbn; [|done].
  destruct (Verify C caPem cert _) eqn:Hv; [done|]. intros _. exists cert. split_and!; [eauto|done|by apply existsb_client|done|].
  eexists. split; [reflexivity|]. rewrite <-Hv. f_equal. destruct (Z.ltb_spec now (NotBefore cert)); lia.
Qed.

(** What makes an accepted response: the checked certificate beside the local
    key, or an old server's pair when no certificate came. *)
Definition accepted_as (key : string) (res : mintResponse) (now : Z) (t : TLSData) : Prop :=
  CACert t = CaCert res /\
  ((CertificatePem res <> "" /\ TLSCert t = CertificatePem res /\
    (exists keyDER, MarshalPKCS8 C key = Ok keyDER /\ TLSKey t = pem_Encode C "PRIVATE KEY" keyDER) /\
    exists cert, minted_for key (TLSCert t) (CACert t) now cert) \/
   (CertificatePem res = "" /\ PrivateKey res <> "" /\ PublicKey res <> "" /\
    TLSCert t = PublicKey res /\ TLSKey t = PrivateKey res)).

Lemma acceptMintResponse_spec key res now t :
  acceptMintResponse C key res now = Ok t -> accepted_as key res now t.
Proof.
  unfold acceptMintResponse, accepted_as. destruct (String.eqb_spec (CertificatePem res) "") as [He|He].
  - destruct (String.eqb_spec (PrivateKey res) ""), (String.eqb_spec (PublicKey res) ""); try done.
    intros [= <-]. cbn. auto 8.
  - destruct (checkMintedCertificate C key _ _ now) as [[]|] eqn:Hc; [|done].
    destruct (MarshalPKCS8 C key) as [der|] eqn:Hm; [|done]. intros [= <-]. cbn. split; [done|]. left.
    apply checkMinted_spec in Hc. eauto 6.
Qed.

Lemma newMintProof_time rand sign presented method csrDER t proof :
  newMintProof C rand sign presented method csrDER t = Ok proof -> UnixSeconds proof = t.
Proof.
  unfold newMintProof. destruct (X509KeyPair C _ _) as [[[|l ?] k]|]; try done. destruct rand; [|done].
  destruct k; [|done]. destruct (sign _ _); [|done]. by intros [= <-].
Qed.

(** The answer a minting took its credentials from, with the time it was
    checked at: the answer to the last request it sent. *)
Definition mint_exchange (M : MintEnv) (method : string) (presented : TLSData) : option (mintResponse * Z) :=
  match (mintWithCSR C M method presented).2 with
  | [q] => match rpc M 0 q.1 q.2 with Ok res => Some (res, clock M 1) | Err _ => None end
  | [_; q] => match rpc M 1 q.1 q.2 with Ok res => Some (res, clock M 3) | Err _ => None end
  | _ => None
  end.

Lemma mint_accepts M method presented t :
  (mintWithCSR C M method presented).1 = Ok t ->
  exists key csrPem csrDER res now, keygen M = Ok (key, csrPem, csrDER) /\
    mint_exchange M method presented = Some (res, now) /\ acceptMintResponse C key res now = Ok t.
Proof.
  unfold mint_exchange, mintWithCSR. destruct (keygen M) as [[[key csrPem] csrDER]|]; [|done].
  destruct (newMintProof C (nonce_of M 0) _ presented method csrDER _) as [proof|]; [|done].
  destruct (serverTimeFromSkewRefusal _) as [st|].
  - destruct (newMintProof C (nonce_of M 1) _ presented method csrDER _) as [proof2|]; [|done].
    cbn. destruct (rpc M 1 csrPem proof2) as [res|]; [|done]. intros Ht. by eexists _, _, _, _, _.
  - cbn. destruct (rpc M 0 csrPem proof) as [res|]; [|done]. intros Ht. by eexists _, _, _, _, _.
Qed.

(** [t] is the pair that an old server made and sent in this minting. *)
Definition legacy_pair (M : MintEnv) (method : string) (presented t : TLSData) : Prop :=
  exists res now, mint_exchange M method presented = Some (res, now) /\ CertificatePem res = "" /\
    t = mkTLS (PublicKey res) (PrivateKey res) (CaCert res).

Lemma minted_populated M method presented t :
  (forall ty b, pem_Encode C ty b <> "") ->
  (mintWithCSR C M method presented).1 = Ok t -> TLSCert t <> "" /\ TLSKey t <> "".
Proof.
  intros Hp (key & _ & _ & res & now & _ & _ & Ha)%mint_accepts. apply acceptMintResponse_spec in Ha as [_ Ha].
  destruct Ha as [(Hc & -> & (der & _ & ->) & _)|(_ & Hk & Hc & -> & ->)]; auto.
Qed.

(** C17: Minting sends at most two requests, both with the request made for the
    key drawn here, the first with a proof of the local time, the second only
    after the server refused that time and with the server's own. What it
    returns comes from the answer the server gave to the last of them, judged at
    the clock's reading after it: when that answer holds a certificate, it is one
    for the key made here, usable for client authentication, unexpired and
    verified against the authority it came with, and it is stored beside that
    very key; only when that answer holds no certificate it is the key pair an
    old server made. Anything else is an error. *)
Theorem mintWithCSR_spec M method presented :
  let '(r, reqs) := mintWithCSR C M method presented in
  (length reqs <= 2)%nat /\
  (forall q rest, reqs = q :: rest -> UnixSeconds q.2 = clock M 0 / Second) /\
  (forall q1 q2, reqs = [q1; q2] -> exists e t, rpc M 0 q1.1 q1.2 = Err e /\ serverTimeFromSkewRefusal (Some e) = Some t /\
     UnixSeconds q2.2 = wrap64 (t + Z.quot (saturate (clock M 2 - clock M 1)) Second)) /\
  forall t, r = Ok t ->
    exists key csrPem csrDER res now, keygen M = Ok (key, csrPem, csrDER) /\ Forall (fun q => q.1 = csrPem) reqs /\
      ((exists q, reqs = [q] /\ rpc M 0 q.1 q.2 = Ok res /\ now = clock M 1) \/
       (exists q1 q2, reqs = [q1; q2] /\ rpc M 1 q2.1 q2.2 = Ok res /\ now = clock M 3)) /\
      CACert t = CaCert res /\
      ((CertificatePem res <> "" /\ TLSCert t = CertificatePem res /\
        (exists keyDER, MarshalPKCS8 C key = Ok keyDER /\ TLSKey t = pem_Encode C "PRIVATE KEY" keyDER) /\
        exists cert, minted_for key (TLSCert t) (CACert t) now cert) \/
       (CertificatePem res = "" /\ PrivateKey res <> "" /\ PublicKey res <> "" /\
        TLSCert t = PublicKey res /\ TLSKey t = PrivateKey res)).
Proof.
  unfold mintWithCSR. destruct (keygen M) as [[[key csrPem] csrDER]|]; [|by cbn; split_and!; [lia|..]].
  destruct (newMintProof C (nonce_of M 0) _ presented method csrDER _) as [proof|] eqn:Hp1; [|by cbn; split_and!; [lia|..]].
  apply newMintProof_time in Hp1.
  assert (forall rest (q : string * MintProof) r, (csrPem, proof) :: rest = q :: r -> UnixSeconds q.2 = clock M 0 / Second) as Ht1
    by (by intros rest q r [= <- _]).
  destruct (serverTimeFromSkewRefusal _) as [st|] eqn:Hst.
  - destruct (rpc M 0 csrPem proof) as [|e] eqn:Hrpc; [done|].
    destruct (newMintProof C (nonce_of M 1) _ presented method csrDER _) as [proof2|] eqn:Hp2;
      [|split_and!; [cbn; lia|by apply Ht1|done|done]].
    apply newMintProof_time in Hp2. split_and!; [cbn; lia|by apply Ht1| |].
    + intros ? ? [= <- <-]. by exists e, st.
    + intros t Ht. destruct (rpc M 1 csrPem proof2) as [res|] eqn:Hr; [|done].
      exists key, csrPem, csrDER, res, (clock M 3). split_and!; [done|by repeat constructor|right; by eexists _, _|by apply acceptMintResponse_spec in Ht as []..].
  - split_and!; [cbn; lia|by apply Ht1|done|]. intros t Ht. destruct (rpc M 0 csrPem proof) as [res|] eqn:Hr; [|done].
    exists key, csrPem, csrDER, res, (clock M 1). split_and!; [done|by repeat constructor|left; by eexists|by apply acceptMintResponse_spec in Ht as []..].
Qed.

(** ** The signed text names its parts *)

Lemma hex_no_newline x : contains_char newline (hex_encode x) = false.
Proof. apply contains_char_plain; [apply hex_encode_plain|done]. Qed.

Lemma pretty_no_newline (z : Z) : contains_char newline (pretty z) = false.
Proof.
  pose proof (pretty_Z_bare z) as Hp. unfold contains_char. apply negb_false_iff. revert Hp.
  generalize (pretty z) as s. induction s as [|c s IH]; cbn; [done|]. intros [Hc Hs]%andb_prop. rewrite (IH Hs), andb_true_r.
  apply negb_true_iff. destruct (Ascii.eqb_spec c newline) as [->|]; [by vm_compute in Hc|done].
Qed.

(** The text a mint proof signs determines everything in it: for methods
    without a newline (gRPC method names have none), two proofs over the same
    text are for the same method, time and nonce and for requests and leaf
    certificates with the same hashes. A signature for one minting method, one
    moment or one request says nothing about another. *)
Theorem mintProofInput_injective method1 method2 csr1 csr2 leaf1 leaf2 t1 t2 nonce1 nonce2 :
  contains_char newline method1 = false -> contains_char newline method2 = false ->
  mintProofInput C method1 csr1 leaf1 t1 nonce1 = mintProofInput C method2 csr2 leaf2 t2 nonce2 ->
  method1 = method2 /\ sha256 C csr1 = sha256 C csr2 /\ t1 = t2 /\ nonce1 = nonce2 /\
  sha256 C leaf1 = sha256 C leaf2.
Proof.
  intros H1 H2 He. apply (f_equal (Split newline)) in He. unfold mintProofInput in He.
  rewrite !Split_Join in He by (repeat constructor; auto using hex_no_newline, pretty_no_newline; done).
  injection He as -> Hc%(inj hex_encode) Ht%(inj pretty) Hn%(inj hex_encode) Hl%(inj hex_encode). auto.
Qed.

(** ** An agent's certificate is no server's *)

(** A certificate the agent would accept for itself is refused when a server
    presents it, whatever follows it in the chain: with the key of an agent,
    stolen or its own, nobody can pose as the server. *)
Theorem agent_certificate_no_server key certPem caPem now cert rest :
  minted_for key certPem caPem now cert ->
  exists e, verifyServerConnection (cert :: rest) = Err e.
Proof.
  intros (_ & _ & Hu & _). cbn. unfold checkServerLeaf. apply existsb_client in Hu. rewrite Hu. by eexists.
Qed.

Lemma underArc_spec oid arc : underArc oid arc = true <-> arc `prefix_of` oid.
Proof.
  unfold underArc. destruct (Nat.ltb_spec (length oid) (length arc)) as [Hl|Hl].
  - split; [done|]. intros Hp%prefix_length. lia.
  - rewrite bool_decide_eq_true. split.
    + intros He. exists (drop (length arc) oid). rewrite <-He at 1. by rewrite take_drop.
    + intros [r ->]. by rewrite take_app_length.
Qed.

(** The whole verdict on a server's leaf. *)
Lemma checkServerLeaf_spec leaf :
  checkServerLeaf leaf = Ok tt <->
  ((ClientAuth ∉ ExtKeyUsage leaf) /\ Forall (fun oid => ~ runosOIDArc `prefix_of` oid) (Extensions leaf)).
Proof.
  unfold checkServerLeaf. rewrite <-existsb_client, not_true_iff_false. destruct (existsb _ (ExtKeyUsage leaf)).
  { split; [done|by intros []]. }
  assert (existsb (fun e => underArc e runosOIDArc) (Extensions leaf) = false <->
    Forall (fun oid => ~ runosOIDArc `prefix_of` oid) (Extensions leaf)) as Hx.
  { induction (Extensions leaf) as [|e l IH]; cbn; [by split|].
    rewrite orb_false_iff, Forall_cons, IH, <-underArc_spec, not_true_iff_false. done. }
  destruct (existsb _ (Extensions leaf)); cbn; [|by rewrite <-Hx].
  split; [done|]. intros [_ Hf]. by apply Hx in Hf.
Qed.

(** ** When a renewal starts *)

(** The days are whole days rounded towards zero, so a renewal starts in the
    thirty-first day before expiry, and stays due ever after. *)
Lemma renewal_due_spec t now expiry :
  ParseCertExpiry C t = Ok expiry -> is_int64 (expiry - now) ->
  (renewal_due C t now = true <-> expiry - now < 31 * (24 * Hour)).
Proof.
  intros He H64. unfold renewal_due. rewrite He. unfold daysRemaining, saturate.
  unfold is_int64, min_int64, max_int64, two63 in *. rewrite Z.leb_le, Z.max_r, Z.min_r by lia.
  unfold renewalThresholdDays. change (24 * Hour) with 86400000000000.
  generalize dependent (expiry - now). intros d _. split; intros Hd.
  - destruct (Z.le_gt_cases (31 * 86400000000000) d); [|lia].
    assert (31 <= d ÷ 86400000000000); [|lia]. apply Z.quot_le_lower_bound; lia.
  - assert (d ÷ 86400000000000 < 31); [|lia]. destruct (Z.le_gt_cases 0 d).
    + apply Z.quot_lt_upper_bound; lia.
    + rewrite <-(Z.opp_involutive d), Z.quot_opp_l by lia.
      pose proof (Z.quot_pos (- d) 86400000000000). lia.
Qed.

(** The first day past expiry still reads as a certificate about to expire:
    the rounding towards zero makes the day count zero, not negative. *)
Lemma just_expired_reported_expiring t now expiry b c :
  pem_Decode C (TLSCert t) = Some b -> ParseCertificate C (pem_Bytes b) = Ok c -> NotAfter c = expiry ->
  0 <= now - expiry < 24 * Hour ->
  LogCertStatus C t now = "EXPIRING SOON (0 days remaining)".
Proof.
  intros Hb Hc He Hn. unfold LogCertStatus. rewrite Hb, Hc, He. unfold daysRemaining, saturate.
  change (24 * Hour) with 86400000000000 in *.
  unfold min_int64, max_int64, two63 in *. rewrite Z.max_r, Z.min_r by lia.
  replace ((expiry - now) ÷ _) with 0; [done|]. symmetry.
  rewrite <-(Z.opp_involutive (expiry - now)), Z.quot_opp_l, Z.quot_small by lia. done.
Qed.
(** The request that is sent is the very one the proof was made over, in PEM. *)
Lemma csr_sent_is_proved M gen create method presented pem proof :
  keygen M = newAgentKeyAndCSR C gen create ->
  (pem, proof) ∈ (mintWithCSR C M method presented).2 ->
  exists key der, gen = Ok key /\ create "runos-agent" key = Ok der /\ pem = pem_Encode C "CERTIFICATE REQUEST" der /\
    exists i t, newMintProof C (nonce_of M i) (sign_with M) presented method der t = Ok proof.
Proof.
  intros Hk. unfold mintWithCSR. rewrite Hk. unfold newAgentKeyAndCSR.
  destruct gen as [key|]; [|by intros ?%elem_of_nil]. destruct (create _ key) as [der|] eqn:Hc; [|by intros ?%elem_of_nil].
  destruct (newMintProof C (nonce_of M 0) _ _ _ _ _) as [p1|] eqn:H1; [|by intros ?%elem_of_nil].
  assert (forall p, (p = p1 \/ exists t, newMintProof C (nonce_of M 1) (sign_with M) presented method der t = Ok p) ->
    (pem, proof) = (pem_Encode C "CERTIFICATE REQUEST" der, p) ->
    exists key' der', @Ok string _ key = Ok key' /\ create "runos-agent" key' = Ok der' /\ pem = pem_Encode C "CERTIFICATE REQUEST" der' /\
      exists i t, newMintProof C (nonce_of M i) (sign_with M) presented method der' t = Ok proof) as Hp.
  { intros p Hx [= -> ->]. exists key, der. split_and!; [done..|]. destruct Hx as [->|[t Ht]]; eauto. }
  destruct (serverTimeFromSkewRefusal _).
  - destruct (newMintProof C (nonce_of M 1) _ _ _ _ _) as [p2|] eqn:H2; cbn; rewrite ?elem_of_cons, ?elem_of_nil;
      [intros [H|[H|[]]]|intros [H|[]]]; (eapply Hp; [|exact H]); eauto.
  - cbn. rewrite elem_of_cons, elem_of_nil. intros [H|[]]. eapply Hp; [|exact H]. by left.
Qed.
End accept.

(** ** Renewal keeps memory and cluster together *)

Section renewal.
Context (C : CryptoEnv) (serverHost : string).
Context {K : Type} `{KL : KubeLaws K}.

Definition identity_ref : Ref := secret_ref Namespace ClusterAgentTLSSecret.

(** One round of the monitor: the credentials in memory afterwards are the old
    ones or newly minted ones that the Secret holds too. *)
Lemma renewCert_spec R mem k :
  let '(r, mem', k') := renewCert C serverHost R mem k in
  match r with
  | Ok _ => requestRenewedCertificate C (mint_env R) mem = Ok mem' /\
            objects k' = <[identity_ref := tls_secret mem']> (objects k)
  | Err _ => mem' = mem /\
             (objects k' = objects k \/
              exists t, requestRenewedCertificate C (mint_env R) mem = Ok t /\ at_most identity_ref (tls_secret t) k k')
  end.
Proof using KL.
  unfold renewCert. destruct (ConnectToServer C mem serverHost (dialed R)); [|by auto].
  destruct (requestRenewedCertificate C (mint_env R) mem) as [t|]; [|by auto].
  pose proof (SetClusterAgentTLS_spec t k) as Hs. destruct (SetClusterAgentTLS t k) as [[[]|e] k']; [by auto|].
  split; [done|]. eauto.
Qed.

(** [t] came from the server as the answer to one of these renewals, which
    presented [prev]. *)
Definition renewed_by (Rs : list ServerEnv) (prev t : TLSData) : Prop :=
  exists R, R ∈ Rs /\ requestRenewedCertificate C (mint_env R) prev = Ok t.

(** The Secret holds the credentials in memory, or ones minted for them. *)
Definition in_step (Rs : list ServerEnv) (mem : TLSData) (k : K) : Prop :=
  exists t, objects k !! identity_ref = Some (tls_secret t) /\ (t = mem \/ renewed_by Rs mem t).

Lemma renewed_by_mono Rs Rs' prev t : Rs ⊆ Rs' -> renewed_by Rs prev t -> renewed_by Rs' prev t.
Proof. intros Hs (R & HR & Ht). exists R. split; [by apply Hs|done]. Qed.

Lemma in_step_mono Rs Rs' mem k : Rs ⊆ Rs' -> in_step Rs mem k -> in_step Rs' mem k.
Proof. intros Hs (t & Ht & Hm). exists t. split; [done|]. destruct Hm; eauto using renewed_by_mono. Qed.

Lemma renewCert_in_step Rs R mem k :
  R ∈ Rs -> in_step Rs mem k ->
  let '(_, mem', k') := renewCert C serverHost R mem k in
  in_step Rs mem' k' /\ (mem' = mem \/ renewed_by Rs mem mem') /\
  forall r, r <> identity_ref -> objects k' !! r = objects k !! r.
Proof using KL.
  intros HR Hin. pose proof (renewCert_spec R mem k) as Hr.
  destruct (renewCert C serverHost R mem k) as [[[[]|e] mem'] k'].
  - destruct Hr as [Hm Hk]. split_and!.
    + exists mem'. rewrite Hk, lookup_insert_eq. auto.
    + right. by exists R.
    + intros r Hne. by rewrite Hk, lookup_insert_ne.
  - destruct Hr as [-> Hr]. assert (objects k' = objects k \/
      exists t, renewed_by Rs mem t /\ objects k' = <[identity_ref := tls_secret t]> (objects k)) as [Hk|(t & Ht & Hk)].
    { destruct Hr as [?|(t & Ht & [?|?])]; [by left..|]. right. exists t. split; [by exists R|done]. }
    + unfold in_step. rewrite Hk. auto.
    + split_and!; [|by left|intros r Hne; by rewrite Hk, lookup_insert_ne].
      exists t. rewrite Hk, lookup_insert_eq. auto.
Qed.

Definition env_of (e : MonitorEvent) : ServerEnv := match e with Tick _ R | SIGUSR1 R => R end.

(** Over any life of the monitor (daily checks, forced renewals, failures of
    the dial, of the server and of the API server at any point) the Secret holds
    the credentials the agent has in memory, or ones the server minted in one of
    these renewals when the agent presented these: whichever copy survives a
    restart is one the server gave this agent. The credentials in memory only
    move from one of these renewals to the next, and no other object of the
    cluster is touched. *)
Theorem monitor_invariant events mem k :
  in_step [] mem k ->
  let '(mem', k') := startCertMonitor C serverHost events mem k in
  in_step (env_of <$> events) mem' k' /\ rtc (renewed_by (env_of <$> events)) mem mem' /\
  forall r, r <> identity_ref -> objects k' !! r = objects k !! r.
Proof using KL.
  intros Hin. assert (forall Rs, (env_of <$> events) ⊆ Rs -> in_step Rs mem k ->
    let '(mem', k') := startCertMonitor C serverHost events mem k in
    in_step Rs mem' k' /\ rtc (renewed_by Rs) mem mem' /\ forall r, r <> identity_ref -> objects k' !! r = objects k !! r) as H'.
  2: { apply H'; [done|]. eapply in_step_mono; [|done]. apply list_subseteq_nil. }
  intros Rs. clear Hin. revert mem k. induction events as [|ev events IH]; intros mem k Hsub Hin.
  { cbn. split_and!; [done|apply rtc_refl|done]. }
  assert ((env_of <$> events) ⊆ Rs) as Hsub' by (intros R HR; apply Hsub; cbn; by right).
  assert (let '(_, mem1, k1) := renewCert C serverHost (env_of ev) mem k in
    let '(mem', k') := startCertMonitor C serverHost events mem1 k1 in
    in_step Rs mem' k' /\ rtc (renewed_by Rs) mem mem' /\ forall r, r <> identity_ref -> objects k' !! r = objects k !! r) as Hstep.
  { pose proof (renewCert_in_step Rs (env_of ev) mem k (Hsub _ (list_elem_of_here _ _)) Hin) as Hr.
    destruct (renewCert C serverHost (env_of ev) mem k) as [[? mem1] k1]. destruct Hr as (Hin1 & Hm & Ho).
    specialize (IH mem1 k1 Hsub' Hin1). destruct (startCertMonitor C serverHost events mem1 k1) as [mem' k'].
    destruct IH as (? & Hs & Ho'). split_and!; [done| |by intros; rewrite Ho', Ho].
    destruct Hm as [->|Hm]; [done|by econstructor]. }
  destruct ev as [now R|R]; cbn in *.
  - unfold checkAndRenew. destruct (renewal_due C mem now); [|by apply IH].
    by destruct (renewCert C serverHost R mem k) as [[? ?] ?].
  - by destruct (renewCert C serverHost R mem k) as [[? ?] ?].
Qed.
End renewal.

(** ** At concrete values *)

(** A toy authority: a certificate is written as its fields, a key is its own
    encoding, and the hash is the identity. *)
Definition demo_cert : Certificate := mkCert "agent" 0 (400 * 24 * Hour) (Some "K") [ClientAuth] [].
Definition demo_crypto : CryptoEnv := {|
  pem_Decode s := if HasPrefix s "PEM:" then Some (mkPem "CERTIFICATE" (TrimPrefix s "PEM:") "") else None;
  pem_Encode _ b := "PEM:" ++ b;
  ParseCertificate b := if String.eqb b "agent" then Ok demo_cert else Err "bad certificate";
  Pool ca := String.eqb ca "CA";
  Verify ca _ _ := if String.eqb ca "CA" then None else Some "unknown authority";
  MarshalPKCS8 k := Ok k;
  sha256 s := s;
  X509KeyPair c k := if String.eqb c "" then Err "no certificate" else Ok ([c], Some k)
|}.
Definition demo_mint : MintEnv := {|
  keygen := Ok ("K", "CSR", "csr"); clock _ := Second; nonce_of _ := Ok "n"; sign_with k d := Ok (k ++ d);
  rpc _ _ _ := Ok (mkMintResponse "PEM:agent" "" "" "CA")
|}.
Definition demo_old : TLSData := mkTLS "PEM:agent" "old" "CA".
Definition demo_new : TLSData := mkTLS "PEM:agent" "PEM:K" "CA".

Lemma mintProofInput_injective_witness :
  mintProofInput demo_crypto "/m" "csr" "leaf" 5 "n" = mintProofInput demo_crypto "/m" "csr" "leaf" 5 "n" /\
  "/m" = "/m" /\ sha256 demo_crypto "csr" = sha256 demo_crypto "csr" /\ 5 = 5 /\ "n" = "n" /\
  sha256 demo_crypto "leaf" = sha256 demo_crypto "leaf".
Proof.
  split; [reflexivity|]. apply (mintProofInput_injective demo_crypto "/m" "/m" "csr" "csr" "leaf" "leaf" 5 5 "n" "n"); reflexivity.
Defined.

Lemma agent_certificate_no_server_witness :
  checkMintedCertificate demo_crypto "K" "PEM:agent" "CA" Second = Ok tt /\
  exists e, verifyServerConnection [demo_cert] = Err e.
Proof.
  split; [reflexivity|]. apply (agent_certificate_no_server demo_crypto "K" "PEM:agent" "CA" Second demo_cert []).
  split_and!; [eexists; split; reflexivity|reflexivity|constructor|reflexivity|eexists; split; reflexivity].
Defined.

(** A forced renewal, then a daily check: both copies are the new ones. *)
Lemma monitor_invariant_witness :
  let k := mkMemKube {[ identity_ref := tls_secret demo_old ]} [] in
  let events := [SIGUSR1 (mkServerEnv None demo_mint); Tick Second (mkServerEnv None demo_mint)] in
  (startCertMonitor demo_crypto "host" events demo_old k).1 = demo_new /\
  let '(mem', k') := startCertMonitor demo_crypto "host" events demo_old k in
  in_step demo_crypto (env_of <$> events) mem' k' /\ rtc (renewed_by demo_crypto (env_of <$> events)) demo_old mem' /\
  forall r, r <> identity_ref -> objects k' !! r = objects k !! r.
Proof.
  intros k events. split; [vm_compute; reflexivity|].
  apply (monitor_invariant demo_crypto "host" events demo_old k).
  exists demo_old. split; [apply lookup_insert_eq|by left].
Defined.
