(* ===== verification/Bootstrap.v ===== *)
(** * Bringing the agent up
      ([src/agentstream/agent.go], [bootstrap], [bootstrapTLS], [validateTLSData])

    The start of the control link over the retry loop of [Retry.v], the Secrets
    of [KubeObjects.v] and the minting of [Certs.v]. The cluster is shared with
    the installer, which may change it while a step waits; the control plane
    answers each attempt as its environment says. A run that has not finished
    when the fuel ends is a run of the process up to that attempt, so what is
    proved of it holds when the pod is killed at any retry. The attempts that got
    credentials, with the pair they presented, are recorded in the state for the
    statements only: no operation reads them. *)
From stdpp Require Import gmap.
From S2P Require Import Prelude GoStrings Retry Kube KubeObjects Certs.
Local Open Scope string_scope.
Local Open Scope Z_scope.

Record streamManager := mkStreamManager { clusterAgentTLS : TLSData; sm_serverHost : string }.

Section bootstrap.
Context (C : CryptoEnv) {K : Type} `{KubeApi K} {E : Type} `{EF : ErrorFacts E}.

(** Errors as the retry loop sees them: [other] makes one that does not wrap
    [errMalformedCert], [malformed] one that does. *)
Context (other malformed : string -> E).

(** The answers to the attempt of each number, and what others do to the cluster
    during a wait. *)
Record BootEnv := mkBootEnv {
  new_client : nat -> option string;
  server : nat -> ServerEnv;
  others : Z -> K -> K;
  draws : Z -> Z
}.
Context (B : BootEnv) (fuel : nat).

(** The cluster, the attempts made so far and, as a record for the theorems, the
    mintings that succeeded: the number of the attempt and what it presented. *)
Record BState := mkBState { cluster : K; attempts : nat; exchanges : list (nat * TLSData) }.

Definition Boot (A : Type) := BState -> Outcome E A * BState.
Definition boot_ret {A} (a : A) : Boot A := fun s => (Returned a, s).
Definition boot_bind {A B} (m : Boot A) (f : A -> Boot B) : Boot B :=
  fun s => match m s with
           | (Returned a, s) => f a s
           | (Fatal e, s) => (Fatal e, s)
           | (OutOfFuel, s) => (OutOfFuel, s)
           end.
Local Notation "'boot!' x ':=' m 'in' k" := (boot_bind m (fun x => k))
  (at level 10, x pattern, m at level 100, k at level 200).

Definition attempt {A} (op : nat -> K -> result string A * K) (s : BState) : result E A * BState :=
  let '(r, k) := op (attempts s) (cluster s) in
  (match r with Ok a => Ok a | Err e => Err (other e) end, mkBState k (S (attempts s)) (exchanges s)).
Definition wait (d : Z) (s : BState) : BState := mkBState (others B d (cluster s)) (attempts s) (exchanges s).

Definition retryStep {A} (op : nat -> K -> result string A * K) : Boot A :=
  fun s => let '(o, _, s) := retryStepWith (attempt op) wait (draws B) fuel s in (o, s).

(** ** The steps *)

Definition validateTLSData (t : TLSData) : result E unit :=
  if String.eqb (TLSCert t) "" || String.eqb (TLSKey t) "" then
    Err (malformed "missing tls.crt or tls.key")
  else match X509KeyPair C (TLSCert t) (TLSKey t) with
       | Err e => Err (malformed e)
       | Ok _ => Ok tt
       end.

Definition client_step (n : nat) (k : K) : result string unit * K :=
  (match new_client B n with Some e => Err e | None => Ok tt end, k).

Definition config_step (_ : nat) (k : K) : result string RunosConfig * K :=
  match GetRunosConfig k with
  | (Err e, k) => (Err e, k)
  | (Ok cfg, k) =>
      if String.eqb (Server cfg) "" then (Err "runos-config present but 'server' not yet set: dependency not ready yet", k)
      else (Ok cfg, k)
  end.

Definition read_tls_step (_ : nat) (k : K) : result string TLSData * K :=
  match GetClusterAgentTLS k with
  | (Err e, k) => (Err e, k)
  | (Ok td, k) =>
      if String.eqb (TLSCert td) "" || String.eqb (TLSKey td) "" then
        (Err "cluster-agent-tls present but tls.crt/tls.key not populated yet: dependency not ready yet", k)
      else (Ok td, k)
  end.

Definition generateNewClusterAgentTLSCredentials (S : ServerEnv) (nodeAgentTLS : TLSData) (serverHost : string) :
    result string TLSData :=
  match ConnectToServer C nodeAgentTLS serverHost (dialed S) with
  | Err e => Err ("failed to connect to server: " ++ e)
  | Ok _ =>
      match requestClusterAgentCredentials C (mint_env S) nodeAgentTLS with
      | Err e => Err ("failed to get cluster agent credentials: " ++ e)
      | Ok t => Ok t
      end
  end.

Definition generate_step (nodeTLS : TLSData) (host : string) (n : nat) (k : K) : result string TLSData * K :=
  (generateNewClusterAgentTLSCredentials (server B n) nodeTLS host, k).

Definition connect_step (t : TLSData) (host : string) (n : nat) (k : K) : result string TLSConfig * K :=
  (ConnectToServer C t host (dialed (server B n)), k).

(** The record of a minting that just succeeded; no effect in the code. *)
Definition exchanged (presented : TLSData) : Boot unit :=
  fun s => (Returned tt, mkBState (cluster s) (attempts s) ((pred (attempts s), presented) :: exchanges s)).

(** ** [bootstrapTLS] and [bootstrap] *)

Definition bootstrapTLS (host : string) : Boot (TLSData * bool) :=
  boot! exists_ := retryStep (fun _ => ClusterAgentTLSExists) in
  if exists_ : bool then
    boot! td := retryStep read_tls_step in
    match validateTLSData td with
    | Err e => fun s => (Fatal e, s)
    | Ok _ => boot_ret (td, false)
    end
  else
    boot! nodeTLS := retryStep (fun _ => GetNodeAgentTLS) in
    boot! td := retryStep (generate_step nodeTLS host) in
    boot! _ := exchanged nodeTLS in
    boot! _ := retryStep (fun _ => SetClusterAgentTLS td) in
    boot_ret (td, true).

Definition bootstrap : Boot streamManager :=
  boot! _ := retryStep client_step in
  boot! cfg := retryStep config_step in
  boot! (td, usedNodeAgentCredentials) := bootstrapTLS (Server cfg) in
  boot! _ := retryStep (connect_step td (Server cfg)) in
  fun s =>
    let k := if usedNodeAgentCredentials : bool then (DeleteNodeAgentTLS (cluster s)).2 else cluster s in
    (Returned (mkStreamManager td (Server cfg)), mkBState k (attempts s) (exchanges s)).

(** ** Rules for the steps *)

Section rules.
Context {KL : KubeLaws K}.
Hypothesis other_retried : forall e, is_malformed_cert (other e) = false.

(** A step whose every attempt keeps [I], or ends it with [Q], which may speak of
    the number of the attempt. *)
Lemma retryStep_rule {A} (op : nat -> K -> result string A * K) (I : K -> Prop) (Q : A -> nat -> K -> Prop) s :
  (forall n k, I k -> match op n k with (Ok a, k') => Q a n k' | (Err _, k') => I k' end) ->
  (forall d k, I k -> I (others B d k)) -> I (cluster s) ->
  match retryStep op s with
  | (Returned a, s') => exchanges s' = exchanges s /\ Q a (pred (attempts s')) (cluster s')
  | (Fatal _, _) => False
  | (OutOfFuel, s') => exchanges s' = exchanges s /\ I (cluster s')
  end.
Proof using other_retried.
  intros Hop Hothers. unfold retryStep, retryStepWith. generalize 0 as a. revert s.
  induction fuel as [|f IH]; intros s a Hs; [done|]. cbn [retry_loop]. unfold attempt at 1.
  pose proof (Hop (attempts s) (cluster s) Hs) as H1. destruct (op (attempts s) (cluster s)) as [[x|e] k']; [done|].
  rewrite isRetryable_some, other_retried. cbn [negb].
  specialize (IH (wait (fullJitter (nextBackoff (wrap64 (a + 1))) (draws B)) (mkBState k' (S (attempts s)) (exchanges s)))
                (wrap64 (a + 1)) (Hothers _ _ H1)).
  destruct (retry_loop _ _ _ _ _ _) as [[o ws] s']. done.
Qed.

Lemma boot_bind_rule {A D} (m : Boot A) (f : A -> Boot D) (R : Outcome E D -> BState -> Prop) s :
  match m s with
  | (Returned a, s') => R (f a s').1 (f a s').2
  | (Fatal e, s') => R (Fatal e) s'
  | (OutOfFuel, s') => R OutOfFuel s'
  end -> R (boot_bind m f s).1 (boot_bind m f s).2.
Proof. unfold boot_bind. by destruct (m s) as [[]]. Qed.

(** The two together. *)
Lemma step_rule {A D} (op : nat -> K -> result string A * K) (I : K -> Prop) (Q : A -> nat -> K -> Prop)
    (f : A -> Boot D) (R : Outcome E D -> BState -> Prop) s :
  (forall n k, I k -> match op n k with (Ok a, k') => Q a n k' | (Err _, k') => I k' end) ->
  (forall d k, I k -> I (others B d k)) -> I (cluster s) ->
  (forall s', exchanges s' = exchanges s -> I (cluster s') -> R OutOfFuel s') ->
  (forall a s', exchanges s' = exchanges s -> Q a (pred (attempts s')) (cluster s') -> R (f a s').1 (f a s').2) ->
  R (boot_bind (retryStep op) f s).1 (boot_bind (retryStep op) f s).2.
Proof using other_retried.
  intros Hop Hothers Hs Hout Hret. apply boot_bind_rule.
  pose proof (retryStep_rule op I Q s Hop Hothers Hs) as Hr.
  destruct (retryStep op s) as [[a|e|] s']; [apply Hret; apply Hr|done|apply Hout; apply Hr].
Qed.
End rules.

(** ** Safety *)

Definition node_ref : Ref := secret_ref Namespace NodeAgentTLSSecret.

Lemma get_or_spec {KL : KubeLaws K} msg r k :
  objects (get_or msg r k).2 = objects k /\
  match (get_or msg r k).1 with Ok o => objects k !! r = Some o | Err _ => True end.
Proof.
  unfold get_or, abind, acall. pose proof (kget_spec r k) as [Hk Hg].
  by destruct (kget r k) as [[o|e] k']; cbn in *.
Qed.

(** A Secret with a certificate and a key in it. The installer may create a
    Secret a moment before it fills it. *)
Definition populated (o : Obj) : Prop := TLSCert (tls_of o) <> "" /\ TLSKey (tls_of o) <> "".

(** The agent's and the node's Secret are still there, and unchanged once they
    are filled. *)
Definition keeps (k k' : K) : Prop :=
  forall r o, r = identity_ref \/ r = node_ref -> objects k !! r = Some o ->
    exists o', objects k' !! r = Some o' /\ (populated o -> o' = o).

(** The agent can identify itself to the control plane, by its own Secret or by
    the node's. *)
Definition identifiable (k : K) : Prop :=
  is_Some (objects k !! identity_ref) \/ is_Some (objects k !! node_ref).

Definition own_identity (t : TLSData) (k : K) : Prop :=
  exists o, objects k !! identity_ref = Some o /\ tls_of o = t.

Lemma keeps_refl k : keeps k k.
Proof. intros r o _ Ho. eauto. Qed.

Lemma keeps_trans k1 k2 k3 : keeps k1 k2 -> keeps k2 k3 -> keeps k1 k3.
Proof.
  intros H12 H23 r o Hr Ho. destruct (H12 r o Hr Ho) as (o2 & Ho2 & He2).
  destruct (H23 r o2 Hr Ho2) as (o3 & Ho3 & He3). exists o3. split; [done|]. intros Hp. specialize (He2 Hp) as ->. auto.
Qed.

Lemma keeps_same k k1 k2 : objects k2 = objects k1 -> keeps k k1 -> keeps k k2.
Proof. unfold keeps. by intros ->. Qed.

Lemma keeps_identifiable k k' : keeps k k' -> identifiable k -> identifiable k'.
Proof.
  intros Hk [[o Ho]|[o Ho]]; [left|right].
  - destruct (Hk identity_ref o) as (o' & -> & _); [by left|done|by eexists].
  - destruct (Hk node_ref o) as (o' & -> & _); [by right|done|by eexists].
Qed.

Lemma own_identity_keeps t k k' :
  TLSCert t <> "" /\ TLSKey t <> "" -> keeps k k' -> own_identity t k -> own_identity t k'.
Proof.
  intros Hp Hk (o & Ho & Ht). subst t. destruct (Hk identity_ref o) as (o' & Ho' & He); [by left|done|]. specialize (He Hp) as ->.
  by exists o.
Qed.

(** Writing the agent's own Secret where none was. *)
Lemma keeps_insert k k1 k2 o :
  objects k !! identity_ref = None -> objects k2 = <[identity_ref := o]> (objects k1) -> keeps k k1 -> keeps k k2.
Proof.
  intros Hn Hk2 Hk r x [->| ->] Hx; [congruence|]. destruct (Hk node_ref x) as (y & Hy & He); [by right|done|].
  exists y. split; [|done]. by rewrite Hk2, lookup_insert_ne.
Qed.

Section safety.
Context {KL : KubeLaws K}.
Hypothesis other_retried : forall e, is_malformed_cert (other e) = false.
(** Nobody else removes the two Secrets, or rewrites one that is filled. *)
Hypothesis others_keep : forall d k, keeps k (others B d k).
(** A PEM block is not empty. *)
Hypothesis pem_nonempty : forall ty b, pem_Encode C ty b <> "".

Lemma others_kept k0 d k : keeps k0 k -> keeps k0 (others B d k).
Proof using others_keep. intros Hk. by eapply keeps_trans. Qed.

(** Where new credentials came from: the answer to attempt [n], which presented
    [p], the content of the node's Secret. *)
Definition minted_at (k0 : K) (host : string) (n : nat) (p t : TLSData) : Prop :=
  is_ok (ConnectToServer C p host (dialed (server B n))) = true /\
  requestClusterAgentCredentials C (mint_env (server B n)) p = Ok t /\
  forall o, objects k0 !! node_ref = Some o -> populated o -> p = tls_of o.

(** What [bootstrapTLS] leaves, on every way out of it. *)
Definition tls_post (k0 : K) (x0 : list (nat * TLSData)) (host : string) (x : Outcome E (TLSData * bool)) (s : BState) : Prop :=
  keeps k0 (cluster s) /\
  match x with
  | Returned (t, minted) => own_identity t (cluster s) /\ (TLSCert t <> "" /\ TLSKey t <> "") /\
      if minted : bool then objects k0 !! identity_ref = None /\ exists n p, exchanges s = (n, p) :: x0 /\ minted_at k0 host n p t
      else exchanges s = x0 /\ validateTLSData t = Ok tt
  | Fatal e => exchanges s = x0 /\ exists o, objects (cluster s) !! identity_ref = Some o /\ validateTLSData (tls_of o) = Err e
  | OutOfFuel => True
  end.

Lemma reuse_post k0 host s :
  keeps k0 (cluster s) ->
  let m := boot_bind (retryStep read_tls_step) (fun td =>
    match validateTLSData td with Err e => fun s => (Fatal e, s) | Ok _ => boot_ret (td, false) end) in
  tls_post k0 (exchanges s) host (m s).1 (m s).2.
Proof using other_retried others_keep KL.
  intros Hi m. apply (step_rule other_retried read_tls_step (keeps k0)
    (fun td _ k => keeps k0 k /\ own_identity td k /\ TLSCert td <> "" /\ TLSKey td <> "") _ (tls_post k0 (exchanges s) host));
    [|by apply others_kept|done|by split|].
  - intros n k Hk. unfold read_tls_step, GetClusterAgentTLS, abind.
    destruct (get_or_spec "failed to get Secret cluster-agent-tls" identity_ref k) as [Hs Hg].
    fold identity_ref. destruct (get_or _ identity_ref k) as [[o|e] k']; cbn -[tls_of] in *; [|by eapply keeps_same].
    destruct (String.eqb_spec (TLSCert (tls_of o)) ""), (String.eqb_spec (TLSKey (tls_of o)) ""); cbn -[tls_of];
      try by eapply keeps_same. split_and!; [by eapply keeps_same|by exists o; rewrite Hs|done|done].
  - intros td s' Hx (Hk & Ho & Hp). destruct (validateTLSData td) as [[]|e] eqn:Hv; (split; [done|]); [done|].
    destruct Ho as (o & Ho & <-). cbn. eauto.
Qed.

Lemma mint_post k0 host s :
  keeps k0 (cluster s) -> objects k0 !! identity_ref = None ->
  let m := boot_bind (retryStep (fun _ => GetNodeAgentTLS)) (fun nodeTLS =>
    boot_bind (retryStep (generate_step nodeTLS host)) (fun td =>
    boot_bind (exchanged nodeTLS) (fun _ =>
    boot_bind (retryStep (fun _ => SetClusterAgentTLS td)) (fun _ => boot_ret (td, true))))) in
  tls_post k0 (exchanges s) host (m s).1 (m s).2.
Proof using other_retried others_keep pem_nonempty KL.
  intros Hi Hnone m. apply (step_rule other_retried _ (keeps k0)
    (fun p _ k => keeps k0 k /\ forall o, objects k0 !! node_ref = Some o -> populated o -> p = tls_of o)
    _ (tls_post k0 (exchanges s) host)); [|by apply others_kept|done|by split|].
  { intros _ k Hk. unfold GetNodeAgentTLS, abind.
    destruct (get_or_spec "failed to get Secret node-agent-tls" node_ref k) as [Hs Hg].
    fold node_ref. destruct (get_or _ node_ref k) as [[o|e] k']; cbn in *; [|by eapply keeps_same].
    split; [by eapply keeps_same|]. intros o0 Ho0 Hp. destruct (Hk node_ref o0) as (o1 & Ho1 & He); [by right|done|].
    specialize (He Hp) as ->. congruence. }
  intros nodeTLS s1 Hx1 [H1 Hnode]. apply (step_rule other_retried _ (keeps k0)
    (fun td n k => keeps k0 k /\ minted_at k0 host n nodeTLS td) _ (tls_post k0 (exchanges s) host));
    [|by apply others_kept|done|by split|].
  { intros n k Hk. unfold generate_step, generateNewClusterAgentTLSCredentials.
    destruct (ConnectToServer _ _ _ _) eqn:Hc; [|done].
    destruct (requestClusterAgentCredentials _ _ _) eqn:Hr; [|done]. split; [done|]. split_and!; [by rewrite Hc|done|done]. }
  intros td s2 Hx2 [H2 Hu]. apply boot_bind_rule. cbn.
  assert (TLSCert td <> "" /\ TLSKey td <> "") as Hp by (destruct Hu as (_ & Hu & _); by eapply minted_populated).
  apply (step_rule other_retried _ (keeps k0)
    (fun _ _ k => keeps k0 k /\ own_identity td k) _ (tls_post k0 (exchanges s) host)); [|by apply others_kept|done|by split|].
  { intros _ k Hk. pose proof (SetClusterAgentTLS_spec td k) as Hs. fold identity_ref in Hs.
    destruct (SetClusterAgentTLS td k) as [[u|e] k'].
    - split; [by eapply keeps_insert|]. exists (tls_secret td). rewrite Hs, lookup_insert_eq.
      by rewrite tls_of_secret.
    - destruct Hs as [Hs|Hs]; [by eapply keeps_same|by eapply keeps_insert]. }
  intros _ s3 Hx3 [H3 Ho]. split; [done|]. cbn in *. split_and!; [done|apply Hp..|done|].
  eexists _, nodeTLS. rewrite Hx3, Hx2, Hx1. by split.
Qed.

Lemma bootstrapTLS_post k0 host s :
  keeps k0 (cluster s) -> tls_post k0 (exchanges s) host (bootstrapTLS host s).1 (bootstrapTLS host s).2.
Proof using other_retried others_keep pem_nonempty KL.
  intros Hi. unfold bootstrapTLS. apply (step_rule other_retried _ (keeps k0)
    (fun b _ k => keeps k0 k /\ (b = false -> objects k !! identity_ref = None)) _ (tls_post k0 (exchanges s) host));
    [|by apply others_kept|done|by split|].
  - intros _ k Hk. unfold ClusterAgentTLSExists, abind, acall. fold identity_ref.
    pose proof (kget_spec identity_ref k) as [Hs Hn]. destruct (kget identity_ref k) as [[o|e] k']; cbn in *.
    + split; [by eapply keeps_same|done].
    + destruct e; cbn; try (by eapply keeps_same). split; [by eapply keeps_same|]. intros _. by rewrite Hs.
  - intros [] s1 Hx [H1 Hn]; rewrite <-Hx; [by apply reuse_post|]. apply mint_post; [done|].
    specialize (Hn eq_refl). destruct (objects k0 !! identity_ref) as [o|] eqn:Ho; [|done].
    destruct (H1 identity_ref o) as (? & ? & _); [by left|done|congruence].
Qed.

Lemma DeleteNodeAgentTLS_other r k :
  r <> node_ref -> objects (DeleteNodeAgentTLS k).2 !! r = objects k !! r.
Proof using KL.
  intros Hne. unfold DeleteNodeAgentTLS, abind, acall. fold node_ref.
  pose proof (kdelete_spec node_ref k) as Hd. destruct (kdelete node_ref k) as [[[]|e] k']; cbn in *.
  - destruct Hd as [_ ->]. by rewrite lookup_delete_ne.
  - destruct e; cbn; [by destruct Hd as [_ ->]|..]; destruct Hd as [->| ->]; done || by rewrite lookup_delete_ne.
Qed.

(** What [bootstrap] leaves, on every way out of it. *)
Definition boot_post (k0 : K) (x0 : list (nat * TLSData)) (x : Outcome E streamManager) (s : BState) : Prop :=
  match x with
  | Returned sm =>
      let t := clusterAgentTLS sm in
      own_identity t (cluster s) /\ is_ok (serverTLSConfig C t (sm_serverHost sm)) = true /\
      ((keeps k0 (cluster s) /\ exchanges s = x0 /\ validateTLSData t = Ok tt) \/
       (objects k0 !! identity_ref = None /\
        exists n p, exchanges s = (n, p) :: x0 /\ minted_at k0 (sm_serverHost sm) n p t))
  | Fatal e => keeps k0 (cluster s) /\ exchanges s = x0 /\
      exists o, objects (cluster s) !! identity_ref = Some o /\ validateTLSData (tls_of o) = Err e
  | OutOfFuel => keeps k0 (cluster s)
  end.

Lemma bootstrap_post s : boot_post (cluster s) (exchanges s) (bootstrap s).1 (bootstrap s).2.
Proof using other_retried others_keep pem_nonempty KL.
  set (k0 := cluster s). set (R := boot_post k0 (exchanges s)).
  apply (step_rule other_retried _ (keeps k0) (fun _ _ => keeps k0) _ R); [|by apply others_kept|apply keeps_refl|done|].
  { intros n k Hk. unfold client_step. by destruct (new_client B n). }
  intros _ s1 Hx1 H1. apply (step_rule other_retried _ (keeps k0) (fun _ _ => keeps k0) _ R); [|by apply others_kept|done|done|].
  { intros n k Hk. unfold config_step, GetRunosConfig, abind.
    pose proof (get_or_spec "failed to get ConfigMap runos-config" (configmap_ref Namespace RunosConfigMap) k) as [Hs _].
    destruct (get_or _ _ k) as [[o|e] k']; cbn in *; [|by eapply keeps_same]. destruct (String.eqb _ ""); by eapply keeps_same. }
  intros cfg s2 Hx2 H2. apply boot_bind_rule. pose proof (bootstrapTLS_post k0 (Server cfg) s2 H2) as Ht.
  rewrite Hx2, Hx1 in Ht. destruct (bootstrapTLS (Server cfg) s2) as [[[td used]|e|] s3]; [|exact Ht|exact (proj1 Ht)].
  destruct Ht as (H3 & Ho & Hp & Hu).
  apply (step_rule other_retried _ (fun k => keeps k0 k /\ own_identity td k)
    (fun _ _ k => keeps k0 k /\ own_identity td k /\ is_ok (serverTLSConfig C td (Server cfg)) = true) _ R);
    [| |done|by intros s' _ []|].
  - intros n k [Hk Hk']. unfold connect_step, ConnectToServer. destruct (serverTLSConfig C td (Server cfg)); [|done]. by destruct (dialed _).
  - intros d k [Hk Hk']. split; [by apply others_kept|by eapply own_identity_keeps].
  - intros _ s4 Hx4 (H4 & (o & Ho4 & Ht4) & Hc). cbn. split_and!; [exists o; split; [|done]|done|].
    + destruct used; [|done]. by rewrite DeleteNodeAgentTLS_other.
    + rewrite Hx4. destruct used; [by right|by left].
Qed.

(** A start that finds the agent's own Secret filled only reads it. *)
Lemma bootstrap_reuses s o :
  objects (cluster s) !! identity_ref = Some o -> populated o ->
  objects (cluster (bootstrap s).2) !! identity_ref = Some o /\
  match (bootstrap s).1 with
  | Returned sm => clusterAgentTLS sm = tls_of o /\ exchanges (bootstrap s).2 = exchanges s
  | Fatal e => validateTLSData (tls_of o) = Err e
  | OutOfFuel => True
  end.
Proof using other_retried others_keep pem_nonempty KL.
  intros Ho Hp. pose proof (bootstrap_post s) as H1.
  assert (forall k, keeps (cluster s) k -> objects k !! identity_ref = Some o) as Hk.
  { intros k Hk. destruct (Hk identity_ref o) as (o' & Ho' & He); [by left|done|]. by rewrite Ho', (He Hp). }
  destruct (bootstrap s) as [[sm|e|] s']; cbn in *.
  - destruct H1 as ((o' & Ho' & Ht) & _ & [(Hks & Hx & _)|(Hn & _)]); [|congruence].
    specialize (Hk _ Hks). split_and!; [done| |done]. congruence.
  - destruct H1 as (Hks & _ & o' & Ho' & Hv). specialize (Hk _ Hks). split; [done|]. congruence.
  - auto.
Qed.

End safety.

(** ** A bad authority is not malformed *)

(** [validateTLSData] looks at the pair only. A Secret whose [ca.crt] holds no
    certificate passes it, and the dial then fails the same way on every attempt
    without ever being fatal: the agent waits forever, without the hint. *)
Lemma bad_authority_never_connects t host s :
  (forall e, is_malformed_cert (other e) = false) ->
  validateTLSData t = Ok tt -> Pool C (CACert t) = false ->
  (retryStep (connect_step t host) s).1 = OutOfFuel.
Proof.
  intros Hother Hv Hp.
  assert (forall n k, exists e, connect_step t host n k = (Err e, k)) as Hc.
  { intros n k. unfold connect_step, ConnectToServer, serverTLSConfig.
    destruct (X509KeyPair C _ _); [rewrite Hp|]; by eexists. }
  pose proof (retryStep_rule Hother (connect_step t host) (fun _ => True) (fun _ _ _ => False) s) as Hr.
  assert (forall n k, True -> match connect_step t host n k with (Ok _, _) => False | (Err _, _) => True end) as Hop
    by (intros n k _; by destruct (Hc n k) as [e ->]).
  specialize (Hr Hop (fun _ _ _ => I) I). destruct (retryStep _ s) as [[a|e|] s']; [by destruct Hr|done|done].
Qed.
(** The node's Secret is read once. When the installer has created it and not
    filled it yet, every attempt to mint presents the empty pair, also after the
    Secret was filled: the agent waits until it is restarted. *)
Lemma unfilled_node_secret_never_mints nodeTLS host s e :
  (forall e, is_malformed_cert (other e) = false) ->
  X509KeyPair C (TLSCert nodeTLS) (TLSKey nodeTLS) = Err e ->
  (retryStep (generate_step nodeTLS host) s).1 = OutOfFuel.
Proof.
  intros Hother Hx.
  pose proof (retryStep_rule Hother (generate_step nodeTLS host) (fun _ => True) (fun _ _ _ => False) s) as Hr.
  assert (forall n k, True -> match generate_step nodeTLS host n k with (Ok _, _) => False | (Err _, _) => True end) as Hop
    by (intros n k _; unfold generate_step, generateNewClusterAgentTLSCredentials, ConnectToServer, serverTLSConfig; by rewrite Hx).
  specialize (Hr Hop (fun _ _ _ => I) I). destruct (retryStep _ s) as [[a|e'|] s']; [by destruct Hr|done|done].
Qed.
End bootstrap.

(** ** A fresh cluster *)

Definition demo_boot_env : BootEnv (K := MemKube) := {|
  new_client n := if (n <? 1)%nat then Some "token not projected yet" else None;
  server n := mkServerEnv (if (n <? 6)%nat then Some "connection refused" else None) demo_mint;
  others _ k := k; draws n := n - 1
|}.
Definition demo_cluster : MemKube := mkMemKube
  (<[configmap_ref Namespace RunosConfigMap := OConfigMap {["server" := "nodeward.example"]}]>
     {[node_ref := tls_secret demo_old]}) [Some "timeout"; None; None; None; Some "timeout"].

