(* ===== verification/CertCache.v ===== *)
(** * The cached certificate of the cluster's domain
      ([src/certcache/startup.go], [src/agentstream/instructions/cert_cache.go])

    At the first connection the agent asks the control plane for the wildcard
    certificate of the cluster's domain, waiting while one is being made, and
    writes it to the ingress's Secret. The answers and the time they take are
    the environment; the cluster is [Kube]'s interface. *)
From stdpp Require Import gmap.
From S2P Require Import Prelude GoStrings Codec Kube KubeObjects.
Local Open Scope string_scope.
Local Open Scope Z_scope.
Local Open Scope agent_scope.

Record GetCachedCertResponse := mkCached {
  Success : bool; Found : bool; Pending : bool; ErrorCode : string; Message : string;
  cc_TLSCert : string; cc_TLSKey : string; cc_CACert : string
}.

Definition CertErrorCached : string := "CACHED".
Definition CertErrorAlreadyInProgress : string := "ALREADY_IN_PROGRESS".
Definition CertErrorDNSPropagation : string := "DNS_PROPAGATION_FAILED".
Definition CertErrorACME : string := "ACME_ERROR".
Definition CertErrorTimeout : string := "TIMEOUT".
Definition CertErrorStorage : string := "STORAGE_ERROR".
Definition CertErrorInvalidRequest : string := "INVALID_REQUEST".

Definition clusterDomainSecretName : string := "cluster-domain".
Definition clusterDomainSecretNamespace : string := "traefik".
Definition cacheRequestTimeout : Z := 30 * Second.
Definition certRetryInterval : Z := 45 * Second.
Definition certMaxRetryDuration : Z := 10 * Minute.

(** ** Messages to the control plane *)

Section messages.
Context (marshal_get : string -> result string string)
        (marshal_store : string * string * string * string -> result string string).

(** An encoding failure is only logged: the message then has no body. *)
Definition encoded {A} (marshal : A -> result string string) (a : A) : string :=
  match JsonB64Encode marshal a with Ok m => m | Err _ => "" end.

Definition GetCachedCertToServer (domain : string) : string * string :=
  ("GetCachedCert", encoded marshal_get domain).
Definition StoreCertToServer (domain tlsCert tlsKey caCert : string) : string * string :=
  ("StoreCert", encoded marshal_store (domain, tlsCert, tlsKey, caCert)).
End messages.

(** ** [requestCachedCert] *)

(** The answer to a request: its type, and its body as decoded. *)
Record CacheAnswer := mkAnswer { ans_Type : string; ans_body : result string GetCachedCertResponse }.

(** What the requests meet: the answer to each, how long each took, and how long
    each sleep really was. *)
Record CacheEnv := mkCacheEnv {
  reply : nat -> result string CacheAnswer;
  took : nat -> Z;
  slept : nat -> Z
}.

Inductive Step := Again | Answer (r : result string (option GetCachedCertResponse)).

(** One turn of the loop, with the time elapsed when the reply is looked at. *)
Definition cache_turn (r : result string CacheAnswer) (elapsed : Z) : Step :=
  let wait := if certMaxRetryDuration <=? elapsed then Answer (Ok None) else Again in
  match r with
  | Err e => Answer (Err e)
  | Ok a =>
      if String.eqb (ans_Type a) "ERROR" then Answer (Ok None)
      else
        match ans_body a with
        | Err e => Answer (Err e)
        | Ok c =>
            if Pending c then wait
            else if String.eqb (ErrorCode c) "" || String.eqb (ErrorCode c) CertErrorCached then
              if Found c || Success c then Answer (Ok (Some c)) else Answer (Ok None)
            else if String.eqb (ErrorCode c) CertErrorAlreadyInProgress then wait
            else if String.eqb (ErrorCode c) CertErrorInvalidRequest then
              Answer (Err ("invalid cert request: " ++ Message c))
            else if String.eqb (ErrorCode c) CertErrorDNSPropagation || String.eqb (ErrorCode c) CertErrorACME
                 || String.eqb (ErrorCode c) CertErrorTimeout || String.eqb (ErrorCode c) CertErrorStorage then
              Answer (Ok None)
            else Answer (Ok None)
        end
  end.

(** The loop from request [n] on, at time [t] since the start; with the number
    of requests sent and the time at the end. *)
Fixpoint request_loop (E : CacheEnv) (fuel : nat) (n : nat) (t : Z) :
    option (result string (option GetCachedCertResponse)) * nat * Z :=
  match fuel with
  | O => (None, n, t)
  | S fuel =>
      let t := t + took E n in
      match cache_turn (reply E n) t with
      | Answer r => (Some r, S n, t)
      | Again => request_loop E fuel (S n) (t + slept E n)
      end
  end.

Definition requestCachedCert (E : CacheEnv) (fuel : nat) := request_loop E fuel 0 0.

(** ** [storeCertInK8s] *)

Section store.
Context {K : Type} `{KubeApi K}.

Definition domain_secret (tlsCert tlsKey caCert domain : string) : Obj :=
  OSecret "kubernetes.io/tls"
    {["controller.cert-manager.io/fao" := "true"]}
    (list_to_map [
       ("cert-manager.io/issuer-name", "letsencrypt-prod-runos");
       ("cert-manager.io/issuer-kind", "ClusterIssuer");
       ("cert-manager.io/issuer-group", "");
       ("cert-manager.io/certificate-name", "cluster-domain");
       ("cert-manager.io/common-name", "*." ++ domain);
       ("cert-manager.io/alt-names", "*." ++ domain);
       ("cert-manager.io/ip-sans", "");
       ("cert-manager.io/uri-sans", "")])
    (let d := <["tls.crt" := tlsCert]> {["tls.key" := tlsKey]} in
     if String.eqb caCert "" then d else <["ca.crt" := caCert]> d).

Definition domain_ref : Ref := secret_ref clusterDomainSecretNamespace clusterDomainSecretName.
Definition ingress_ns : Ref := namespace_ref clusterDomainSecretNamespace.

Definition ensure_namespace : Api K unit :=
  api! g := acall (kget ingress_ns) in
  match g with
  | Ok _ => aret tt
  | Err e =>
      if IsNotFound e then
        api! c := acall (kcreate ingress_ns (ONamespace ∅)) in
        match c with
        | Ok _ => aret tt
        | Err e => afail ("failed to create namespace traefik: " ++ KError e)
        end
      else afail ("failed to check namespace: " ++ KError e)
  end.

Definition write_secret (o : Obj) : Api K unit :=
  api! g := acall (kget domain_ref) in
  let report x := match x with Ok _ => aret tt | Err e => afail (KError e) end in
  match g with
  | Ok _ => api! u := acall (kupdate domain_ref o) in report u
  | Err e => if IsNotFound e then api! c := acall (kcreate domain_ref o) in report c else afail (KError e)
  end.

(** [client] is the error of building the in-cluster client, if any. *)
Definition storeCertInK8s (client : option string) (cert : GetCachedCertResponse) (clusterDomain : string) : Api K unit :=
  match client with
  | Some e => afail e
  | None =>
      match DecodeString (cc_TLSCert cert), DecodeString (cc_TLSKey cert),
            (if String.eqb (cc_CACert cert) "" then Some "" else DecodeString (cc_CACert cert)) with
      | Some tlsCert, Some tlsKey, Some caCert =>
          api! _ := ensure_namespace in write_secret (domain_secret tlsCert tlsKey caCert clusterDomain)
      | _, _, _ => afail "illegal base64 data"
      end
  end.

Definition getClusterDomainFromConfigMap (client : option string) : Api K string :=
  match client with
  | Some e => afail e
  | None =>
      api! cm := get_or "failed to get ConfigMap" (configmap_ref Namespace RunosConfigMap) in
      aret (field (obj_data cm) "cd")
  end.

(** How the check ended; each is a line in the log. *)
Inductive Restored := NoDomain | DomainError (e : string) | CacheError (e : string) | NotCached | StoreError (e : string) | RestoredCert | StillAsking.

Definition CheckAndRestoreClusterDomainCert (E : CacheEnv) (fuel : nat) (client1 client2 : option string) (k : K) : Restored * K :=
  match getClusterDomainFromConfigMap client1 k with
  | (Err e, k) => (DomainError e, k)
  | (Ok domain, k) =>
      if String.eqb domain "" then (NoDomain, k)
      else
        match (requestCachedCert E fuel).1.1 with
        | None => (StillAsking, k)
        | Some (Err e) => (CacheError e, k)
        | Some (Ok None) => (NotCached, k)
        | Some (Ok (Some c)) =>
            if negb (Found c) then (NotCached, k)
            else
              match storeCertInK8s client2 c domain k with
              | (Err e, k) => (StoreError e, k)
              | (Ok _, k) => (RestoredCert, k)
              end
        end
  end.
End store.

(** ** The wait is bounded *)

(** The replies that make the agent wait. *)
Definition still_being_made (r : result string CacheAnswer) : bool :=
  match r with
  | Ok (mkAnswer ty (Ok c)) =>
      negb (String.eqb ty "ERROR") && (Pending c || String.eqb (ErrorCode c) CertErrorAlreadyInProgress)
  | _ => false
  end.

Lemma cache_turn_waiting r t :
  still_being_made r = true ->
  cache_turn r t = if certMaxRetryDuration <=? t then Answer (Ok None) else Again.
Proof.
  destruct r as [[ty [c|]]|]; cbn; try done. unfold cache_turn. cbn.
  destruct (String.eqb ty "ERROR"); [done|]. destruct (Pending c); [done|]. cbn. intros ->%String.eqb_eq. done.
Qed.

Lemma cache_turn_decided r t : still_being_made r = false -> cache_turn r t = cache_turn r 0 /\ cache_turn r t <> Again.
Proof.
  destruct r as [[ty [c|]]|]; cbn; try done.
  - unfold cache_turn. cbn. destruct (String.eqb ty "ERROR"); [done|]. destruct (Pending c); [done|]. cbn.
    intros Hc. rewrite Hc. repeat (case_match; try done).
  - unfold cache_turn. cbn. by destruct (String.eqb ty "ERROR").
Qed.

Lemma request_loop_spec E fuel n t :
  (forall i, 0 <= took E i) -> (forall i, certRetryInterval <= slept E i) ->
  (15 <= fuel + n)%nat -> (n <= 14)%nat -> certRetryInterval * Z.of_nat n <= t ->
  exists r m t', request_loop E fuel n t = (Some r, S m, t') /\ (n <= m < 15)%nat /\
    (forall i, (n <= i < m)%nat -> still_being_made (reply E i) = true) /\
    (if still_being_made (reply E m) then r = Ok None /\ certMaxRetryDuration <= t'
     else cache_turn (reply E m) 0 = Answer r).
Proof.
  intros Htook Hslept. revert n t. induction fuel as [|fuel IH]; intros n t Hf Hn Ht; [lia|].
  cbn [request_loop]. specialize (Htook n). specialize (Hslept n) as Hs.
  destruct (still_being_made (reply E n)) eqn:Hw.
  - rewrite (cache_turn_waiting _ _ Hw). destruct (Z.leb_spec certMaxRetryDuration (t + took E n)).
    + exists (Ok None), n, (t + took E n). rewrite Hw. split_and!; [done|lia|lia|intros; lia|done|done].
    + unfold certMaxRetryDuration, certRetryInterval, Minute, Second in *.
      destruct (IH (S n) (t + took E n + slept E n)) as (r & m & t' & He & Hm & Hi & Hr); [lia|lia|lia|].
      exists r, m, t'. split_and!; [done|lia|lia| |done].
      intros i Hi'. destruct (decide (i = n)) as [->|]; [done|]. apply Hi. lia.
  - destruct (cache_turn_decided (reply E n) (t + took E n) Hw) as [He Hne]. rewrite He.
    rewrite He in Hne. destruct (cache_turn (reply E n) 0) as [|r] eqn:Hr; [done|].
    exists r, n, (t + took E n). rewrite Hw. split_and!; [done|lia|lia|intros; lia|done].
Qed.

(** C39: Asking for the cached certificate ends: whatever the control plane
    answers, at most fifteen requests are sent. The agent keeps asking exactly
    while a certificate is being made; the first other reply decides, and when
    there is none before ten minutes are over the certificate counts as not
    cached. *)
Theorem requestCachedCert_bounded E fuel :
  (forall i, 0 <= took E i) -> (forall i, certRetryInterval <= slept E i) -> (15 <= fuel)%nat ->
  exists r m t, requestCachedCert E fuel = (Some r, S m, t) /\ (m < 15)%nat /\
    (forall i, (i < m)%nat -> still_being_made (reply E i) = true) /\
    (if still_being_made (reply E m) then r = Ok None /\ certMaxRetryDuration <= t
     else cache_turn (reply E m) 0 = Answer r).
Proof.
  intros Htook Hslept Hf.
  destruct (request_loop_spec E fuel 0 0 Htook Hslept) as (r & m & t & He & Hm & Hi & Hr); [lia|lia|lia|].
  exists r, m, t. split_and!; [done|lia| |done]. intros i Hi'. apply Hi. lia.
Qed.

(** ** What is restored *)

Section laws.
Context {K : Type} `{KL : KubeLaws K}.

Definition only_ingress (k k' : K) : Prop :=
  forall r, r <> domain_ref -> r <> ingress_ns -> objects k' !! r = objects k !! r.

Lemma ensure_namespace_spec k :
  let '(_, k') := ensure_namespace k in forall r, r <> ingress_ns -> objects k' !! r = objects k !! r.
Proof using KL.
  unfold ensure_namespace, abind, acall, aret, afail. pose proof (kget_spec ingress_ns k) as [Hk _].
  destruct (kget ingress_ns k) as [[o|e] k1]; cbn in Hk; [by intros; rewrite Hk|].
  destruct (IsNotFound e); [|by intros; rewrite Hk].
  pose proof (kcreate_spec ingress_ns (ONamespace ∅) k1) as Hc.
  destruct (kcreate ingress_ns _ k1) as [[u|e'] k2]; cbn in Hc; intros r Hr; rewrite <-Hk.
  - destruct Hc as [_ ->]. by rewrite lookup_insert_ne.
  - destruct e'; [destruct Hc as [->| ->]|destruct Hc as [_ ->]|destruct Hc as [->| ->]];
      done || by rewrite lookup_insert_ne.
Qed.

Lemma write_secret_spec o k :
  match write_secret o k with
  | (Ok _, k') => objects k' = <[domain_ref := o]> (objects k)
  | (Err _, k') => at_most domain_ref o k k'
  end.
Proof using KL.
  unfold write_secret, abind, acall, aret, afail, at_most. pose proof (kget_spec domain_ref k) as [Hk _].
  destruct (kget domain_ref k) as [[g|e] k1]; cbn in Hk |- *; rewrite <-Hk.
  - pose proof (kupdate_spec domain_ref o k1) as Hu. destruct (kupdate domain_ref o k1) as [[u|e] k2]; cbn in *.
    + by destruct Hu as [_ ->].
    + destruct e; tauto.
  - destruct (IsNotFound e); [|by left].
    pose proof (kcreate_spec domain_ref o k1) as Hc. destruct (kcreate domain_ref o k1) as [[u|e'] k2]; cbn in *.
    + by destruct Hc as [_ ->].
    + destruct e'; tauto.
Qed.

(** The ingress's Secret is only ever replaced by a certificate the control
    plane said it found, decoded unchanged and marked for this cluster's domain;
    on every other outcome but a failed write the cluster is left as it was, and
    nothing but that Secret and its namespace is touched at all. *)
Theorem restore_spec E fuel client1 client2 k :
  let '(o, k') := CheckAndRestoreClusterDomainCert E fuel client1 client2 k in
  only_ingress k k' /\
  match o with
  | RestoredCert =>
      exists domain c cert key ca, domain <> "" /\
        (requestCachedCert E fuel).1.1 = Some (Ok (Some c)) /\ Found c = true /\
        DecodeString (cc_TLSCert c) = Some cert /\ DecodeString (cc_TLSKey c) = Some key /\
        (if String.eqb (cc_CACert c) "" then ca = "" else DecodeString (cc_CACert c) = Some ca) /\
        objects k' !! domain_ref = Some (domain_secret cert key ca domain)
  | StoreError _ => True
  | _ => objects k' = objects k
  end.
Proof using KL.
  unfold CheckAndRestoreClusterDomainCert.
  assert (forall r k', getClusterDomainFromConfigMap client1 k = (r, k') -> objects k' = objects k) as Hsame.
  { unfold getClusterDomainFromConfigMap, get_or, abind, acall, aret, afail. intros r k'.
    destruct client1; [by intros [= _ <-]|]. pose proof (kget_spec (configmap_ref Namespace RunosConfigMap) k) as [Hk _].
    destruct (kget _ k) as [[o|e] k1]; by intros [= _ <-]. }
  destruct (getClusterDomainFromConfigMap client1 k) as [[domain|e] k1]; specialize (Hsame _ _ eq_refl).
  2:{ split; [intros r _ _; by rewrite Hsame|done]. }
  destruct (String.eqb_spec domain "") as [|Hd]; [split; [intros r _ _; by rewrite Hsame|done]|].
  destruct ((requestCachedCert E fuel).1.1) as [[[c|]|e]|] eqn:Hreq; try (split; [intros r _ _; by rewrite Hsame|done]).
  destruct (Found c) eqn:Hfound; cbn [negb]; [|split; [intros r _ _; by rewrite Hsame|done]].
  unfold storeCertInK8s. destruct client2 as [e|]; [split; [intros r _ _; by rewrite Hsame|done]|].
  destruct (DecodeString (cc_TLSCert c)) as [cert|] eqn:Hc; [|split; [intros r _ _; by rewrite Hsame|done]].
  destruct (DecodeString (cc_TLSKey c)) as [key|] eqn:Hk; [|split; [intros r _ _; by rewrite Hsame|done]].
  destruct (if String.eqb (cc_CACert c) "" then _ else _) as [ca|] eqn:Hca; [|split; [intros r _ _; by rewrite Hsame|done]].
  unfold abind at 1. pose proof (ensure_namespace_spec k1) as Hn. rewrite <-Hsame.
  destruct (ensure_namespace k1) as [[u|e] k2]; [|split; [intros r _ ?; rewrite <-Hsame; by apply Hn|done]].
  pose proof (write_secret_spec (domain_secret cert key ca domain) k2) as Hw.
  destruct (write_secret _ k2) as [[u'|e] k3].
  - split.
    + intros r H1 H2. by rewrite Hw, lookup_insert_ne, Hn, Hsame.
    + exists domain, c, cert, key, ca. split_and!; try done.
      * destruct (String.eqb (cc_CACert c) ""); by simplify_eq.
      * by rewrite Hw, lookup_insert_eq.
  - split; [|done]. intros r H1 H2. destruct Hw as [->| ->]; [|rewrite lookup_insert_ne by done]; by rewrite Hn, Hsame.
Qed.

(** A certificate that was just made comes as [success] without [found]: the
    request takes it for an answer, and the check then reports it as missing. *)
Lemma provisioned_certificate_dropped E fuel client2 k domain c :
  getClusterDomainFromConfigMap None k = (Ok domain, k) -> domain <> "" ->
  (requestCachedCert E fuel).1.1 = Some (Ok (Some c)) -> Success c = true -> Found c = false ->
  CheckAndRestoreClusterDomainCert E fuel None client2 k = (NotCached, k).
Proof.
  intros Hg Hd Hr _ Hf. unfold CheckAndRestoreClusterDomainCert. rewrite Hg, Hr, Hf.
  by destruct (String.eqb_spec domain "").
Qed.
End laws.

(** ** At concrete values *)

Definition demo_cached : GetCachedCertResponse := mkCached true true false "CACHED" "" "Y2VydA==" "a2V5" "".
Definition demo_pending : GetCachedCertResponse := mkCached false false true "" "" "" "" "".
Definition demo_cache : CacheEnv := {|
  reply n := Ok (mkAnswer "CachedCert" (Ok (if (n <? 3)%nat then demo_pending else demo_cached)));
  took _ := Second; slept _ := certRetryInterval
|}.

Lemma requestCachedCert_bounded_witness :
  requestCachedCert demo_cache 15 = (Some (Ok (Some demo_cached)), 4%nat, 139 * Second) /\
  exists r m t, requestCachedCert demo_cache 15 = (Some r, S m, t) /\ (m < 15)%nat /\
    (forall i, (i < m)%nat -> still_being_made (reply demo_cache i) = true) /\
    (if still_being_made (reply demo_cache m) then r = Ok None /\ certMaxRetryDuration <= t
     else cache_turn (reply demo_cache m) 0 = Answer r).
Proof.
  split; [vm_compute; reflexivity|].
  apply (requestCachedCert_bounded demo_cache 15); [intros; vm_compute; discriminate|intros; vm_compute; discriminate|lia].
Defined.

Lemma restore_spec_witness :
  let k := mkMemKube {[configmap_ref Namespace RunosConfigMap := OConfigMap {["cd" := "c1.example"]}]} [] in
  let x := CheckAndRestoreClusterDomainCert demo_cache 15 None None k in
  x.1 = RestoredCert /\ objects x.2 !! domain_ref = Some (domain_secret "cert" "key" "" "c1.example") /\ only_ingress k x.2.
Proof.
  intros k x. split; [vm_compute; reflexivity|]. split; [vm_compute; reflexivity|].
  pose proof (restore_spec demo_cache 15 None None k) as Hr. fold x in Hr. clearbody x. destruct x as [o k']. apply Hr.
Defined.
