(* ===== verification/Dns01.v ===== *)
(** * The DNS-01 solver
      ([src/dns01/dns01.go], [src/agentstream/instructions/dns01.go])

    The webhook cert-manager calls for a challenge: the key goes to the control
    plane, and after the challenge the new certificate is looked up among the
    cluster's TLS Secrets and sent to the control plane's cache, from where
    [CertCache] restores it. PEM and X.509 parsing, the listing of Secrets and
    the control plane's answers are the environment. *)
From stdpp Require Import gmap.
From S2P Require Import Prelude GoStrings Codec Kube KubeObjects CertCache.
Local Open Scope string_scope.
Local Open Scope Z_scope.

Definition certFetchMaxAttempts : nat := 10.
Definition certFetchRetryDelay : Z := 1 * Minute.

(** ** Which certificate covers a domain *)

Record X509 := mkX509 { x_CommonName : string; x_DNSNames : list string; x_NotBefore : Z }.

(** One name of the certificate against the domain. *)
Definition san_matches (san domain : string) : bool :=
  if String.eqb san domain then true
  else if HasPrefix san "*." then
    let wildcardBase := drop_string 2 san in
    if HasSuffix domain wildcardBase then
      let domainPrefix := TrimSuffix (TrimSuffix domain wildcardBase) "." in
      negb (Contains domainPrefix ".")
    else false
  else false.

Section solver.
(** [pem.Decode] and [x509.ParseCertificate] together. *)
Context (parse : string -> option X509).

Definition certIssuedAfter (certPEM : string) (after : Z) : bool :=
  match parse certPEM with None => false | Some c => negb (x_NotBefore c <? after) end.

Definition certMatchesDomain (certPEM domain : string) : bool :=
  match parse certPEM with
  | None => false
  | Some c => if String.eqb (x_CommonName c) domain then true
              else existsb (fun san => san_matches san domain) (x_DNSNames c)
  end.

(** ** Looking the new certificate up *)

Record tlsDataInternal := mkTlsData { td_TLSCert : string; td_TLSKey : string; td_CACert : string }.

(** The loop over the listed TLS Secrets. *)
Fixpoint find_cert (secrets : list Data) (domain : string) (issuedAfter : Z) : option tlsDataInternal :=
  match secrets with
  | [] => None
  | d :: secrets =>
      if String.eqb (field d "tls.crt") "" then find_cert secrets domain issuedAfter
      else if certMatchesDomain (field d "tls.crt") domain then
        if negb (certIssuedAfter (field d "tls.crt") issuedAfter) then find_cert secrets domain issuedAfter
        else if String.eqb (field d "tls.key") "" then find_cert secrets domain issuedAfter
        else Some (mkTlsData (field d "tls.crt") (field d "tls.key") (field d "ca.crt"))
      else find_cert secrets domain issuedAfter
  end.

Definition fetchCertFromK8s (client_ready : bool) (listing : result string (list Data)) (domain : string)
    (issuedAfter : Z) : result string tlsDataInternal :=
  if negb client_ready then Err "kubernetes client not initialized"
  else
    match listing with
    | Err e => Err ("failed to list TLS secrets: " ++ e)
    | Ok secrets =>
        match find_cert secrets domain issuedAfter with
        | Some t => Ok t
        | None => Err ("no TLS secret found containing certificate for domain " ++ domain)
        end
    end.

(** ** Sending it to the cache *)

Context (marshal_store : string * string * string * string -> result string string).

Definition cache_fields (domain : string) (t : tlsDataInternal) : string * string * string * string :=
  (domain, EncodeToString (td_TLSCert t), EncodeToString (td_TLSKey t),
   if 0 <? slen (td_CACert t) then EncodeToString (td_CACert t) else "").

(** The answer: its type, and the decoded success flag and message. *)
Record StoreAnswer := mkStoreAnswer { sa_Type : string; sa_body : result string (bool * string) }.

Definition storeCertInCache (send : string * string -> result string StoreAnswer) (domain : string)
    (t : tlsDataInternal) : result string unit :=
  let '(domain, crt, key, ca) := cache_fields domain t in
  match send (StoreCertToServer marshal_store domain crt key ca) with
  | Err e => Err ("failed to send cert to cache: " ++ e)
  | Ok a =>
      if String.eqb (sa_Type a) "ERROR" then Err "server returned error when caching cert"
      else
        match sa_body a with
        | Err e => Err ("failed to decode store cert response: " ++ e)
        | Ok (success, message) => if success : bool then Ok tt else Err ("failed to cache cert: " ++ message)
        end
  end.

(** The attempts [n], [n+1], ... while [tries] are left, each with its listing;
    with the number of sleeps. *)
Fixpoint fetch_attempts (client_ready : bool) (listing : nat -> result string (list Data)) (domain : string)
    (issuedAfter : Z) (tries n : nat) : option tlsDataInternal * nat :=
  match tries with
  | O => (None, 0%nat)
  | S tries =>
      match fetchCertFromK8s client_ready (listing n) domain issuedAfter with
      | Ok t => (Some t, 0%nat)
      | Err _ =>
          match tries with
          | O => (None, 0%nat)
          | S _ => let '(r, sleeps) := fetch_attempts client_ready listing domain issuedAfter tries (S n) in (r, S sleeps)
          end
      end
  end.

(** What was sent to the cache, if anything, and how that ended. *)
Definition cacheNewCert (client_ready : bool) (now : Z) (listing : nat -> result string (list Data))
    (send : string * string -> result string StoreAnswer) (domain : string) :
    option (tlsDataInternal * result string unit) * nat :=
  let issuedAfter := now - 5 * Minute in
  let '(r, sleeps) := fetch_attempts client_ready listing domain issuedAfter certFetchMaxAttempts 1 in
  (match r with None => None | Some t => Some (t, storeCertInCache send domain t) end, sleeps).

(** ** The challenge *)

Context (marshal_key : string -> result string string).

Definition Dns01ToServer (key : string) : string * string := ("Dns01ToServer", encoded marshal_key key).

(** The solver's configuration has no fields: only its syntax matters. *)
Definition loadConfig (cfgJSON : option (result string unit)) : result string unit :=
  match cfgJSON with
  | None => Ok tt
  | Some (Err e) => Err ("error decoding solver config: " ++ e)
  | Some (Ok _) => Ok tt
  end.

Definition Present (cfgJSON : option (result string unit)) (send : string * string -> option string) (key : string) :
    result string unit :=
  match loadConfig cfgJSON with
  | Err e => Err e
  | Ok _ => match send (Dns01ToServer key) with Some e => Err ("failed to send DNS01 key: " ++ e) | None => Ok tt end
  end.

(** *** The solver *)

(** The group the webhook server is registered under, from [GROUP_NAME]. *)
Definition solver_group (GROUP_NAME : string) : string :=
  if String.eqb GROUP_NAME "" then "acme.runos.com" else GROUP_NAME.
Definition solver_Name : string := "runos-dns".

Record runosDNSProviderSolver := mkSolver { k8sClient_set : bool }.

(** [new_client]: the error of [kubernetes.NewForConfig], if any. *)
Definition solver_Initialize (new_client : option string) (c : runosDNSProviderSolver) :
    result string unit * runosDNSProviderSolver :=
  match new_client with
  | Some e => (Err ("failed to create Kubernetes client: " ++ e), c)
  | None => (Ok tt, mkSolver true)
  end.

(** [CleanUp] answers at once; with what its goroutine comes to. *)
Definition CleanUp (c : runosDNSProviderSolver) (now : Z) (listing : nat -> result string (list Data))
    (send : string * string -> result string StoreAnswer) (domain : string) :
    option string * (option (tlsDataInternal * result string unit) * nat) :=
  (None, cacheNewCert (k8sClient_set c) now listing send domain).

(** A solver that was never initialised never sends anything, whatever the
    cluster holds; a challenge is still answered. *)
Lemma uninitialised_sends_nothing e now listing send domain :
  let c := (solver_Initialize (Some e) (mkSolver false)).2 in
  CleanUp c now listing send domain = (None, (None, 9%nat)).
Proof. reflexivity. Qed.
End solver.

(** ** What covers a domain *)

(** A wildcard name covers the names with one more label. *)
Definition covers (san domain : string) : Prop :=
  san = domain \/
  exists base label, san = "*." ++ base /\ domain = label ++ "." ++ base /\ contains_char "." label = false.

(** What the code checks: the rest of the name may be glued to a longer label. *)
Lemma san_matches_spec san domain :
  san_matches san domain = true <->
  (san = domain \/
   exists base pre, san = "*." ++ base /\ domain = pre ++ base /\ contains_char "." (TrimSuffix pre ".") = false).
Proof.
  unfold san_matches. destruct (String.eqb_spec san domain) as [->|Hne]; [by split; auto|].
  assert (forall base, san = "*." ++ base -> drop_string 2 san = base) as Hdrop by (by intros ? ->).
  split.
  - destruct (HasPrefix san "*.") eqn:Hp; [|done]. unfold HasPrefix in Hp. apply prefix_app in Hp as [base ->].
    rewrite (Hdrop base eq_refl). destruct (HasSuffix domain base) eqn:Hs; [|done].
    apply HasSuffix_app in Hs as [pre ->]. rewrite TrimSuffix_app, Contains_char, negb_true_iff. eauto 6.
  - intros [->|(base & pre & -> & -> & Hd)]; [done|].
    assert (HasPrefix ("*." ++ base) "*." = true) as -> by (unfold HasPrefix; apply prefix_app; eauto).
    rewrite (Hdrop base eq_refl), (proj2 (HasSuffix_app _ base)) by eauto.
    by rewrite TrimSuffix_app, Contains_char, Hd.
Qed.

Lemma covers_matches san domain : covers san domain -> san_matches san domain = true.
Proof.
  intros [->|(base & label & -> & -> & Hl)]; apply san_matches_spec; [by left|].
  right. exists base, (label ++ "."). rewrite append_assoc. split_and!; [done..|]. by rewrite TrimSuffix_app.
Qed.

(** The base is compared as text, so a wildcard also passes for another domain
    that merely ends with the same letters. *)
Lemma lookalike_matches : san_matches "*.example.com" "notexample.com" = true /\ ~ covers "*.example.com" "notexample.com".
Proof.
  split; [reflexivity|]. intros [[=]|(base & label & Hb & Hd & Hl)]. injection Hb as <-.
  assert (HasSuffix "notexample.com" ".example.com" = true) as Hs; [|by vm_compute in Hs].
  apply HasSuffix_app. by exists label.
Qed.

(** ** What is sent to the cache *)

Section props.
Context (parse : string -> option X509) (marshal_store : string * string * string * string -> result string string).

(** A Secret the solver may take for a domain. *)
Definition eligible (domain : string) (issuedAfter : Z) (d : Data) : Prop :=
  field d "tls.crt" <> "" /\ field d "tls.key" <> "" /\
  certMatchesDomain parse (field d "tls.crt") domain = true /\
  certIssuedAfter parse (field d "tls.crt") issuedAfter = true.

Definition data_of (d : Data) : tlsDataInternal := mkTlsData (field d "tls.crt") (field d "tls.key") (field d "ca.crt").

Lemma find_cert_spec secrets domain issuedAfter :
  match find_cert parse secrets domain issuedAfter with
  | Some t => exists l d r, (secrets = l ++ d :: r)%list /\ Forall (fun d' => ~ eligible domain issuedAfter d') l /\
                eligible domain issuedAfter d /\ t = data_of d
  | None => Forall (fun d => ~ eligible domain issuedAfter d) secrets
  end.
Proof.
  induction secrets as [|d secrets IH]; [constructor|]. cbn [find_cert].
  assert (~ eligible domain issuedAfter d ->
    match find_cert parse secrets domain issuedAfter with
    | Some t => exists l d' r, (d :: secrets = l ++ d' :: r)%list /\ Forall (fun d' => ~ eligible domain issuedAfter d') l /\
                  eligible domain issuedAfter d' /\ t = data_of d'
    | None => Forall (fun d => ~ eligible domain issuedAfter d) (d :: secrets)
    end) as Hskip.
  { intros Hd. destruct (find_cert parse secrets domain issuedAfter); [|by constructor].
    destruct IH as (l & d' & r & -> & Hl & Hd' & ->). exists (d :: l)%list, d', r. split_and!; [done|by constructor|done|done]. }
  unfold eligible in Hskip at 1. destruct (String.eqb_spec (field d "tls.crt") ""); [apply Hskip; tauto|].
  destruct (certMatchesDomain parse _ domain) eqn:Hm; [|apply Hskip; intuition congruence].
  destruct (certIssuedAfter parse _ issuedAfter) eqn:Hi; [|apply Hskip; intuition congruence]. cbn [negb].
  destruct (String.eqb_spec (field d "tls.key") ""); [apply Hskip; tauto|].
  exists []%list, d, secrets. by split_and!.
Qed.

Lemma fetch_attempts_spec ready listing domain issuedAfter tries n :
  let '(r, sleeps) := fetch_attempts parse ready listing domain issuedAfter tries n in
  (sleeps <= tries - 1)%nat /\
  match r with
  | Some t => exists i, (n <= i < n + tries)%nat /\
      (forall j, (n <= j < i)%nat -> is_ok (fetchCertFromK8s parse ready (listing j) domain issuedAfter) = false) /\
      fetchCertFromK8s parse ready (listing i) domain issuedAfter = Ok t
  | None => forall j, (n <= j < n + tries)%nat -> is_ok (fetchCertFromK8s parse ready (listing j) domain issuedAfter) = false
  end.
Proof.
  revert n. induction tries as [|tries IH]; intros n; cbn [fetch_attempts]; [split; [lia|intros; lia]|].
  destruct (fetchCertFromK8s parse ready (listing n) domain issuedAfter) as [t|e] eqn:Hf.
  - split; [lia|]. exists n. split_and!; [lia|lia|intros; lia|done].
  - destruct tries as [|tries]; [split; [lia|]; intros j Hj; replace j with n by lia; by rewrite Hf|].
    specialize (IH (S n)). destruct (fetch_attempts _ _ _ _ _ (S tries) (S n)) as [r sleeps].
    destruct IH as [Hs Hr]. split; [lia|]. destruct r as [t|].
    + destruct Hr as (i & Hi & Hj & Ht). exists i. split_and!; [lia|lia| |done].
      intros j Hj'. destruct (decide (j = n)) as [->|]; [by rewrite Hf|]. apply Hj. lia.
    + intros j Hj. destruct (decide (j = n)) as [->|]; [by rewrite Hf|]. apply Hr. lia.
Qed.

(** After a challenge the solver looks for the new certificate at most ten
    times, a minute apart, and then stops. What it sends to the cache is the
    first Secret, of the first listing that has one, whose certificate is for
    the domain, was issued no more than five minutes before the challenge ended
    and comes with its key; it sends nothing only if no listing had one. *)
Theorem cacheNewCert_spec ready now listing send domain :
  let since := now - 5 * Minute in
  let '(r, sleeps) := cacheNewCert parse marshal_store ready now listing send domain in
  (sleeps <= 9)%nat /\
  match r with
  | Some (t, sent) => ready = true /\ sent = storeCertInCache marshal_store send domain t /\
      exists i l1 d l2, (1 <= i <= 10)%nat /\ listing i = Ok (l1 ++ d :: l2)%list /\
        eligible domain since d /\ t = data_of d /\ Forall (fun d' => ~ eligible domain since d') l1 /\
        forall j secrets, (1 <= j < i)%nat -> listing j = Ok secrets -> Forall (fun d' => ~ eligible domain since d') secrets
  | None => ready = true -> forall j secrets, (1 <= j <= 10)%nat -> listing j = Ok secrets ->
      Forall (fun d => ~ eligible domain since d) secrets
  end.
Proof.
  cbv zeta. unfold cacheNewCert. set (since := now - 5 * Minute).
  assert (forall j secrets, ready = true -> listing j = Ok secrets ->
    is_ok (fetchCertFromK8s parse ready (listing j) domain since) = false ->
    Forall (fun d => ~ eligible domain since d) secrets) as Hnone.
  { intros j secrets -> Hl. unfold fetchCertFromK8s. rewrite Hl. cbn [negb].
    pose proof (find_cert_spec secrets domain since) as Hf. by destruct (find_cert parse secrets domain since). }
  pose proof (fetch_attempts_spec ready listing domain since certFetchMaxAttempts 1) as Hf.
  unfold certFetchMaxAttempts in *.
  destruct (fetch_attempts parse ready listing domain since 10 1) as [[t|] sleeps]; destruct Hf as [Hs Hf];
    (split; [lia|]).
  - destruct Hf as (i & Hi & Hj & Ht). revert Ht. unfold fetchCertFromK8s. destruct ready; [|done]. cbn [negb].
    destruct (listing i) as [secrets|] eqn:Hl; [|done].
    pose proof (find_cert_spec secrets domain since) as Hc. destruct (find_cert parse secrets domain since) as [t'|]; [|done].
    intros [= <-]. destruct Hc as (l1 & d & l2 & -> & Hl1 & Hd & Ht). split; [done|]. split; [done|].
    exists i, l1, d, l2. split_and!; [lia|lia|done|done|done|done|].
    intros j secrets Hj' Hlj. apply (Hnone j secrets eq_refl Hlj). apply Hj. lia.
  - intros -> j secrets Hj Hl. apply (Hnone j secrets eq_refl Hl). apply Hf. lia.
Qed.

Lemma DecodeString_encode s : DecodeString (EncodeToString s) = Some s.
Proof. unfold DecodeString. by rewrite skip_newlines_encode, decode_quanta_encode. Qed.

Lemma EncodeToString_empty s : EncodeToString s = "" -> s = "".
Proof. intros He. pose proof (DecodeString_encode s) as Hd. rewrite He in Hd. vm_compute in Hd. congruence. Qed.

(** A certificate survives the round trip through the cache: when the control
    plane hands back the very texts the solver sent, restoring them writes a
    Secret with the same certificate, key and authority, byte for byte, an empty
    authority included. *)
Theorem cache_roundtrip {K} `{KubeLaws K} domain t c (k : K) :
  (cc_TLSCert c, cc_TLSKey c, cc_CACert c) = (let '(_, crt, key, ca) := cache_fields domain t in (crt, key, ca)) ->
  match storeCertInK8s None c domain k with
  | (Ok _, k') => objects k' !! domain_ref =
      Some (domain_secret (td_TLSCert t) (td_TLSKey t) (td_CACert t) domain)
  | (Err _, _) => True
  end.
Proof.
  intros Hc. unfold cache_fields in Hc. injection Hc as Hc1 Hc2 Hc3.
  unfold storeCertInK8s. rewrite Hc1, Hc2, Hc3, !DecodeString_encode.
  assert ((if String.eqb (if 0 <? slen (td_CACert t) then EncodeToString (td_CACert t) else "") "" then Some ""
           else DecodeString (if 0 <? slen (td_CACert t) then EncodeToString (td_CACert t) else "")) = Some (td_CACert t)) as ->.
  { destruct (Z.ltb_spec 0 (slen (td_CACert t))) as [Hl|Hl].
    - destruct (String.eqb_spec (EncodeToString (td_CACert t)) "") as [He%EncodeToString_empty|_].
      + by rewrite He in Hl.
      + apply DecodeString_encode.
    - destruct (td_CACert t); [done|]. unfold slen in Hl. cbn in Hl. lia. }
  unfold abind. destruct (ensure_namespace k) as [[u|e] k1]; [|done].
  pose proof (write_secret_spec (domain_secret (td_TLSCert t) (td_TLSKey t) (td_CACert t) domain) k1) as Hw.
  destruct (write_secret _ k1) as [[u'|e] k2]; [|done]. by rewrite Hw, lookup_insert_eq.
Qed.
End props.

Lemma cache_roundtrip_witness :
  let t := mkTlsData "cert" "key" "" in
  let c := mkCached true true false "" "" "Y2VydA==" "a2V5" "" in
  match storeCertInK8s None c "c1.example" (mkMemKube ∅ []) with
  | (Ok _, k') => objects k' !! domain_ref = Some (domain_secret "cert" "key" "" "c1.example")
  | (Err _, _) => False
  end.
Proof.
  intros t c. pose proof (cache_roundtrip "c1.example" t c (mkMemKube ∅ [])) as Hr.
  assert (is_ok (storeCertInK8s None c "c1.example" (mkMemKube ∅ [])).1 = true) as Hok by (vm_compute; reflexivity).
  specialize (Hr ltac:(vm_compute; reflexivity)).
  set (x := storeCertInK8s _ _ _ _) in *. clearbody x. destruct x as [[[]|] k']; [exact Hr|discriminate Hok].
Defined.
