(* ===== verification/Harbor.v ===== *)
(** * Archives and images in Harbor
      ([src/harborclient/client.go], [src/webhook/harbor_image_exists_executor.go],
      [src/agentstream/instructions/harbor_image_exists.go], [list_cli_archives.go],
      [src/webhook/osid.go])

    Uploaded archives are kept as one-layer artifacts in the cluster's registry.
    The registry and the library that talks to it are a class, [Oras], with what
    the OCI protocol documents of content-addressed blobs as its laws; [MemOras]
    is an executable instance. HTTP answers are the environment. *)
From stdpp Require Import gmap pretty.
From S2P Require Import Prelude GoStrings Codec Kube KubeObjects.
Local Open Scope string_scope.
Local Open Scope Z_scope.

Definition ArchivesProject : string := "runos-archives".
Definition ArtifactType : string := "application/vnd.runos.cli-archive+gzip".
Definition LayerMediaType : string := "application/vnd.oci.image.layer.v1.tar+gzip".
Definition harborErrBodyLimit : Z := Z.shiftl 64 10.
Definition maxArchiveLayerBytes : Z := Z.shiftl 1 30.

Record Config := mkConfig { URL : string; Username : string; Password : string }.

Definition host (cfg : Config) : string :=
  TrimSuffix (TrimPrefix (TrimPrefix (URL cfg) "https://") "http://") "/".

(** ** Streams *)

(** A reader gives its content and then ends, or fails. A writer takes so many
    bytes and then fails. *)
Record Stream := mkStream { content : string; read_err : option string }.
Record Sink := mkSink { room : option (Z * string) }.

(** [io.Copy(w, io.LimitReader(r, n))]: what was written and the error. *)
Definition copy_limited (w : Sink) (r : Stream) (n : Z) : string * option string :=
  let data := take_string (Z.to_nat n) (content r) in
  let rest := if slen (content r) <? n then read_err r else None in
  match room w with
  | Some (cap, e) => if cap <? slen data then (take_string (Z.to_nat cap) data, Some e) else (data, rest)
  | None => (data, rest)
  end.

(** What was written, and the count or the error. *)
Definition copyBoundedLayer (w : Sink) (r : Stream) (advertisedSize ceiling : Z) : string * result string Z :=
  if ceiling <? advertisedSize then
    ("", Err ("layer advertises " ++ pretty advertisedSize ++ " bytes, over the " ++ pretty ceiling ++ "-byte limit"))
  else
    let limit := if advertisedSize <=? 0 then ceiling else advertisedSize in
    let '(out, err) := copy_limited w r (wrap64 (limit + 1)) in
    let n := slen out in
    match err with
    | Some e => (out, Err e)
    | None =>
        if limit <? n then
          (out, Err ("layer streamed more than its advertised " ++ pretty limit ++ " bytes (possible decompression bomb)"))
        else (out, Ok n)
    end.

(** ** The registry *)

Record Desc := mkDesc { Digest : string; Size : Z }.
#[export] Instance Desc_eq_dec : EqDecision Desc.
Proof. solve_decision. Defined.

(** [M] is oras-go's in-memory store, [R] the remote registry. *)
Class Oras (M R : Type) := {
  memory_New : M;
  NewRepository : string -> option string;                       (* its error *)
  PushBytes : string -> string -> M -> result string Desc * M;   (* media type, bytes *)
  PackManifest : string -> list Desc -> M -> result string Desc * M;
  Tag : Desc -> string -> M -> option string * M;
  Copy : M -> string -> string -> R -> option string * R;        (* tag, repository *)
  Resolve : string -> string -> R -> result string Desc;         (* repository, tag *)
  Fetch : string -> Desc -> R -> result string Stream;
  ParseManifest : string -> result string (list Desc)            (* its layers *)
}.

(** A stream of [b] may break off with an error, but never gives anything else. *)
Definition streams (s : Stream) (b : string) : Prop :=
  (content s = b /\ read_err s = None) \/ (String.prefix (content s) b = true /\ read_err s <> None).

Class OrasLaws (M R : Type) `{Oras M R} := {
  holds : M -> Desc -> string -> Prop;
  tagged : M -> string -> Desc -> Prop;
  stored : R -> string -> Desc -> string -> Prop;
  resolves : R -> string -> string -> Desc -> Prop;
  PushBytes_spec : forall ty b m d m', PushBytes ty b m = (Ok d, m') ->
    holds m' d b /\ Size d = slen b;
  PackManifest_spec : forall ty ls m d m', PackManifest ty ls m = (Ok d, m') ->
    (exists mb, holds m' d mb /\ ParseManifest mb = Ok ls) /\ forall d' b, holds m d' b -> holds m' d' b;
  Tag_spec : forall d t m m', Tag d t m = (None, m') ->
    tagged m' t d /\ forall d' b, holds m d' b -> holds m' d' b;
  Copy_spec : forall m t repo r r' d mb ls, Copy m t repo r = (None, r') ->
    tagged m t d -> holds m d mb -> ParseManifest mb = Ok ls ->
    resolves r' repo t d /\ stored r' repo d mb /\
    forall l b, l ∈ ls -> holds m l b -> stored r' repo l b;
  Resolve_spec : forall repo t r d d', Resolve repo t r = Ok d' -> resolves r repo t d -> d' = d;
  Fetch_spec : forall repo d r b s, Fetch repo d r = Ok s -> stored r repo d b -> streams s b
}.

Section client.
Context {M R : Type} `{Oras M R}.

(** The answer to an HTTP request: status and body. *)
Record HttpResp := mkHttp { StatusCode : Z; Body : string }.

Definition ensureProject (answer : result string HttpResp) : result string unit :=
  match answer with
  | Err e => Err e
  | Ok resp =>
      if (StatusCode resp =? 201) || (StatusCode resp =? 409) then Ok tt
      else Err ("create project returned " ++ pretty (StatusCode resp) ++ ": "
                ++ take_string (Z.to_nat harborErrBodyLimit) (Body resp))
  end.

Definition repo_name (cfg : Config) (osid : string) : string :=
  host cfg ++ "/" ++ ArchivesProject ++ "/" ++ osid.

(** The registry's repository, or its error. *)
Definition newRepo (cfg : Config) (osid : string) : result string string :=
  match NewRepository (repo_name cfg osid) with Some e => Err e | None => Ok (repo_name cfg osid) end.

Definition PushArchive (project : result string HttpResp) (cfg : Config) (osid cliUploadID tarball : string) (r : R) :
    result string unit * R :=
  match ensureProject project with
  | Err e => (Err ("ensure project: " ++ e), r)
  | Ok _ =>
      match newRepo cfg osid with
      | Err e => (Err ("new repository: " ++ e), r)
      | Ok repo =>
          match PushBytes LayerMediaType tarball memory_New with
          | (Err e, _) => (Err ("push layer to memory: " ++ e), r)
          | (Ok layerDesc, store) =>
              match PackManifest ArtifactType [layerDesc] store with
              | (Err e, _) => (Err ("pack manifest: " ++ e), r)
              | (Ok manifestDesc, store) =>
                  match Tag manifestDesc cliUploadID store with
                  | (Some e, _) => (Err ("tag manifest: " ++ e), r)
                  | (None, store) =>
                      match Copy store cliUploadID repo r with
                      | (Some e, r) => (Err ("copy to remote: " ++ e), r)
                      | (None, r) => (Ok tt, r)
                      end
                  end
              end
          end
      end
  end.

(** What reached the writer, and the outcome. *)
Definition PullArchive (cfg : Config) (osid cliUploadID : string) (w : Sink) (r : R) : string * result string unit :=
  match newRepo cfg osid with
  | Err e => ("", Err ("new repository: " ++ e))
  | Ok repo =>
      match Resolve repo cliUploadID r with
      | Err e => ("", Err ("resolve manifest: " ++ e))
      | Ok manifestDesc =>
          match Fetch repo manifestDesc r with
          | Err e => ("", Err ("fetch manifest: " ++ e))
          | Ok rc =>
              match read_err rc with
              | Some e => ("", Err ("read manifest: " ++ e))
              | None =>
                  match ParseManifest (content rc) with
                  | Err e => ("", Err ("parse manifest: " ++ e))
                  | Ok [] => ("", Err "manifest has no layers")
                  | Ok (layer :: _) =>
                      match Fetch repo layer r with
                      | Err e => ("", Err ("fetch layer: " ++ e))
                      | Ok layerRC =>
                          match copyBoundedLayer w layerRC (Size layer) maxArchiveLayerBytes with
                          | (out, Err e) => (out, Err ("stream layer: " ++ e))
                          | (out, Ok _) => (out, Ok tt)
                          end
                      end
                  end
              end
          end
      end
  end.
End client.

(** ** Listing *)

Record Artifact := mkArtifact { art_Digest : string; art_Size : Z; art_PushTime : Z; art_Tags : list string }.
Record Archive := mkArchive { CliUploadID : string; a_Digest : string; a_Size : Z; a_PushTime : Z }.

Definition list_url (cfg : Config) (osid : string) : string :=
  TrimSuffix (URL cfg) "/" ++ "/api/v2.0/projects/" ++ ArchivesProject ++ "/repositories/" ++ osid
  ++ "/artifacts?with_tag=true&page_size=100".

Definition ListArchives (decode : string -> result string (list Artifact)) (answer : result string HttpResp) :
    result string (list Archive) :=
  match answer with
  | Err e => Err e
  | Ok resp =>
      if StatusCode resp =? 404 then Ok []
      else if negb (StatusCode resp =? 200) then
        Err ("harbor list returned " ++ pretty (StatusCode resp) ++ ": "
             ++ take_string (Z.to_nat harborErrBodyLimit) (Body resp))
      else
        match decode (Body resp) with
        | Err e => Err ("decode harbor response: " ++ e)
        | Ok raw => Ok (raw ≫= (fun a => map (fun t => mkArchive t (art_Digest a) (art_Size a) (art_PushTime a)) (art_Tags a)))
        end
  end.

Definition project_url (cfg : Config) : string := TrimSuffix (URL cfg) "/" ++ "/api/v2.0/projects".

(** ** list_cli_archives.go *)

Record ListCLIArchivesResponse := mkListArchives { la_Success : bool; la_Archives : list Archive; la_Message : string }.

Section instructions.
Context {K : Type} `{KubeApi K}.

(** [client] is the error of building the cluster client, if any. *)
Definition loadHarborConfig (client : option string) (k : K) : result string Config * K :=
  match client with
  | Some e => (Err ("k8s clientset: " ++ e), k)
  | None =>
      match kget (configmap_ref Namespace "buildkit") k with
      | (Err e, k) => (Err ("get configmap buildkit: " ++ KError e), k)
      | (Ok cm, k) =>
          match kget (secret_ref Namespace "buildkit") k with
          | (Err e, k) => (Err ("get secret buildkit: " ++ KError e), k)
          | (Ok s, k) =>
              (Ok (mkConfig (field (obj_data cm) "harbor-url") (field (obj_data s) "harbor-username")
                     (field (obj_data s) "harbor-password")), k)
          end
      end
  end.

(** The reply of LIST_CLI_ARCHIVES; [query] is Harbor's answer for a
    configuration and an application. *)
Definition ListCLIArchives (decode : string -> result string (list Artifact)) (client : option string)
    (query : Config -> string -> result string HttpResp) (osid : string) (k : K) : ListCLIArchivesResponse * K :=
  if String.eqb osid "" then (mkListArchives false [] "osid is required", k)
  else
    match loadHarborConfig client k with
    | (Err _, k) => (mkListArchives false [] "Failed to load Harbor configuration", k)
    | (Ok cfg, k) =>
        match ListArchives decode (query cfg osid) with
        | Err e => (mkListArchives false [] e, k)
        | Ok archives => (mkListArchives true archives "", k)
        end
    end.

(** ** harbor_image_exists_executor.go and harbor_image_exists.go *)

Definition harborProject : string := "runos-apps".

Record HeadRequest := mkHead { head_url : string; head_auth : string; head_accept : string }.

Definition manifest_types : string :=
  "application/vnd.docker.distribution.manifest.v2+json, application/vnd.oci.image.manifest.v1+json, "
  ++ "application/vnd.docker.distribution.manifest.list.v2+json, application/vnd.oci.image.index.v1+json".

Definition image_request (cfg : BuildKitConfig) (osid tag : string) : HeadRequest :=
  let base := TrimPrefix (TrimPrefix (TrimSuffix (HarborURL cfg) "/") "https://") "http://" in
  mkHead ("https://" ++ base ++ "/v2/" ++ harborProject ++ "/" ++ osid ++ "/manifests/" ++ tag)
         ("Basic " ++ EncodeToString (HarborUsername cfg ++ ":" ++ HarborPassword cfg)) manifest_types.

(** [new_request] is the error of building the request for a URL, if any; [Do]
    answers it. The reply, with the request sent, if any. *)
Definition HarborImageExists (client : option string) (new_request : string -> option string)
    (Do : HeadRequest -> result string HttpResp) (osid tag : string) (k : K) :
    result string bool * option HeadRequest * K :=
  match client with
  | Some e => (Err ("k8s client: " ++ e), None, k)
  | None =>
      match GetBuildKitConfig k with
      | (Err e, k) => (Err ("buildkit config: " ++ e), None, k)
      | (Ok cfg, k) =>
          if String.eqb (HarborURL cfg) "" then (Err "buildkit config has no harbor-url", None, k)
          else
            let req := image_request cfg osid tag in
            match new_request (head_url req) with
            | Some e => (Err ("build request: " ++ e), None, k)
            | None =>
                (match Do req with
                 | Err e => Err ("HEAD " ++ head_url req ++ ": " ++ e)
                 | Ok resp =>
                     if StatusCode resp =? 200 then Ok true
                     else if StatusCode resp =? 404 then Ok false
                     else Err ("unexpected status " ++ pretty (StatusCode resp) ++ ": "
                               ++ TrimSpace (take_string 1024 (Body resp)))
                 end, Some req, k)
            end
      end
  end.

Record HarborImageExistsResponse := mkImageExists { ie_Success : bool; ie_Exists : bool; ie_Message : string }.

(** The reply of HARBOR_IMAGE_EXISTS; the executor may not have been set. *)
Definition image_exists_reply (executor : option (string -> string -> K -> result string bool * K)) (osid tag : string)
    (k : K) : HarborImageExistsResponse * K :=
  if String.eqb osid "" || String.eqb tag "" then (mkImageExists false false "osid and tag are required", k)
  else
    match executor with
    | None => (mkImageExists false false "Harbor image-exists executor not registered (cluster agent misconfigured)", k)
    | Some f =>
        match f osid tag k with
        | (Err e, k) => (mkImageExists false false e, k)
        | (Ok exists_, k) => (mkImageExists true exists_ "", k)
        end
    end.
End instructions.

(** ** osid.go *)

Definition letters : string := "abcdefghijklmnopqrstuvwxyz".
Definition alphanumeric : string := "abcdefghijklmnopqrstuvwxyz0123456789".

(** [draw n max] is the [n]th number [rand.Int] gives for that bound. *)
Definition randomChar (draw : Z -> result string Z) (charset : string) : result string ascii :=
  match draw (slen charset) with
  | Err e => Err e
  | Ok n => match String.get (Z.to_nat n) charset with Some c => Ok c | None => Err "index out of range" end
  end.

Definition GenerateOSID (draw : nat -> Z -> result string Z) : result string string :=
  match randomChar (draw 0) letters with
  | Err e => Err e
  | Ok a =>
      match randomChar (draw 1) alphanumeric with
      | Err e => Err e
      | Ok b =>
          match randomChar (draw 2) alphanumeric with
          | Err e => Err e
          | Ok c =>
              match randomChar (draw 3) alphanumeric with
              | Err e => Err e
              | Ok d =>
                  match randomChar (draw 4) letters with
                  | Err e => Err e
                  | Ok z => Ok ("app-" ++ String a (String b (String c (String d (String z "")))))
                  end
              end
          end
      end
  end%nat.

(** ** A layer is streamed whole or refused *)

Lemma take_string_all n s : (String.length s <= n)%nat -> take_string n s = s.
Proof. revert n. induction s as [|c s IH]; intros [|n]; cbn; try done; [lia|]. intros Hl. rewrite IH; [done|lia]. Qed.

Lemma prefix_take n s : String.prefix (take_string n s) s = true.
Proof. apply prefix_app. exists (drop_string n s). by rewrite take_drop_string. Qed.

Lemma prefix_trans a b c : String.prefix a b = true -> String.prefix b c = true -> String.prefix a c = true.
Proof. rewrite !prefix_app. intros [r ->] [r' ->]. exists (r ++ r'). by rewrite append_assoc. Qed.

Lemma slen_take n s : 0 <= n -> slen (take_string (Z.to_nat n) s) = Z.min n (slen s).
Proof. intros Hn. unfold slen. rewrite length_take_string. lia. Qed.

Lemma slen_take_le m s : slen (take_string m s) <= slen s.
Proof. unfold slen. rewrite length_take_string. lia. Qed.

Lemma copy_limited_spec w r n :
  0 <= n ->
  let '(out, err) := copy_limited w r n in
  String.prefix out (content r) = true /\ slen out <= n /\
  (err = None -> slen out = Z.min n (slen (content r)) /\ (slen (content r) < n -> out = content r /\ read_err r = None)) /\
  (room w = None -> out = take_string (Z.to_nat n) (content r) /\ (n <= slen (content r) -> err = None) /\
     (slen (content r) < n -> err = read_err r)).
Proof.
  intros Hn. unfold copy_limited. set (data := take_string (Z.to_nat n) (content r)).
  assert (slen data = Z.min n (slen (content r))) as Hd by (by apply slen_take).
  assert (slen (content r) < n -> data = content r) as Hall.
  { intros Hl. apply take_string_all. unfold slen in Hl. lia. }
  assert (String.prefix data (content r) = true) as Hp by apply prefix_take.
  destruct (Z.ltb_spec (slen (content r)) n).
  all: destruct (room w) as [[cap e]|]; [destruct (Z.ltb_spec cap (slen data))|].
  all: split_and!; try done; try lia; auto.
  all: try (by eapply prefix_trans; [apply prefix_take|]).
  all: try (by intros _; split_and!; [done|lia|done]).
  3: intros _; split_and!; [done|done|lia].
  all: pose proof (slen_take_le (Z.to_nat cap) data); lia.
Qed.

Definition layer_limit (advertisedSize ceiling : Z) : Z := if advertisedSize <=? 0 then ceiling else advertisedSize.

(** A layer is streamed whole or the caller is told: on success the writer got
    everything the registry sent and the stream ended without an error, within
    the advertised size, or the ceiling when none is advertised; on failure it got
    a prefix, at most one byte more than that, and nothing at all when the
    advertised size is over the ceiling. To a writer that takes everything, a
    layer within its size arrives, and a longer one is always refused. *)
Lemma copyBoundedLayer_spec w r advertisedSize ceiling :
  0 <= ceiling < max_int64 ->
  let limit := layer_limit advertisedSize ceiling in
  let '(out, x) := copyBoundedLayer w r advertisedSize ceiling in
  String.prefix out (content r) = true /\
  slen out <= (if ceiling <? advertisedSize then 0 else limit + 1) /\
  (forall n, x = Ok n -> out = content r /\ read_err r = None /\ n = slen out /\ n <= limit /\ advertisedSize <= ceiling) /\
  (room w = None -> advertisedSize <= ceiling -> read_err r = None ->
     (is_ok x = true <-> slen (content r) <= limit)).
Proof.
  intros Hc. cbv zeta. unfold copyBoundedLayer, layer_limit. destruct (Z.ltb_spec ceiling advertisedSize) as [Ha|Ha].
  { split_and!; [by destruct (content r)|unfold slen; cbn; lia|done|intros; lia]. }
  set (limit := if advertisedSize <=? 0 then ceiling else advertisedSize).
  assert (0 <= limit <= ceiling) as Hl by (subst limit; destruct (Z.leb_spec advertisedSize 0); lia).
  rewrite wrap64_id by (unfold is_int64, min_int64, max_int64, two63 in *; lia).
  pose proof (copy_limited_spec w r (limit + 1) ltac:(lia)) as Hs.
  destruct (copy_limited w r (limit + 1)) as [out err]. destruct Hs as (Hp & Hb & Hok & Hroom).
  destruct err as [e|].
  - split_and!; [done|done|done|]. intros Hr _ Hre. destruct (Hroom Hr) as (_ & Hfull & Hshort).
    split; [done|]. intros Hle. rewrite Hre in Hshort. by discriminate Hshort; lia.
  - destruct (Hok eq_refl) as [Hlen Hshort]. destruct (Z.ltb_spec limit (slen out)).
    + split_and!; [done|done|done|]. intros _ _ _. split; [done|]. lia.
    + split_and!; [done|done| |].
      * intros n [= <-]. destruct Hshort as [-> ?]; [lia|]. by split_and!.
      * intros _ _ _. split; [|done]. lia.
Qed.

(** The byte over the limit does reach the writer before the layer is refused. *)
Lemma one_byte_over r advertisedSize :
  0 < advertisedSize <= maxArchiveLayerBytes -> advertisedSize < slen (content r) ->
  slen (copyBoundedLayer (mkSink None) r advertisedSize maxArchiveLayerBytes).1 = advertisedSize + 1.
Proof.
  change maxArchiveLayerBytes with 1073741824. intros Ha Hl. unfold copyBoundedLayer. destruct (Z.ltb_spec 1073741824 advertisedSize); [lia|].
  destruct (Z.leb_spec advertisedSize 0); [lia|].
  rewrite wrap64_id by (unfold is_int64, min_int64, max_int64, two63; lia).
  pose proof (copy_limited_spec (mkSink None) r (advertisedSize + 1) ltac:(lia)) as Hs.
  destruct (copy_limited _ r _) as [out err]. destruct Hs as (_ & _ & _ & Hroom).
  destruct (Hroom eq_refl) as (-> & He & _). rewrite He, slen_take by lia.
  destruct (Z.ltb_spec advertisedSize (Z.min (advertisedSize + 1) (slen (content r)))); [cbn [fst]|lia].
  rewrite slen_take by lia. lia.
Qed.

(** ** An archive comes back as it went *)

Section roundtrip.
Context {M R : Type} `{OL : OrasLaws M R}.

(** C38: An archive that was pushed comes back unchanged. Pulling it (under the
    same registry state) streams the very bytes of the tarball when it reports
    success, and never anything but a prefix of them; an archive of more than one
    gibibyte can be pushed but is refused on the way back, before any byte. *)
Theorem archive_roundtrip project cfg osid cliUploadID tarball (r r' : R) w :
  PushArchive project cfg osid cliUploadID tarball r = (Ok tt, r') ->
  let '(out, x) := PullArchive cfg osid cliUploadID w r' in
  String.prefix out tarball = true /\
  (x = Ok tt -> out = tarball /\ slen tarball <= maxArchiveLayerBytes) /\
  (maxArchiveLayerBytes < slen tarball -> out = "").
Proof using OL.
  unfold PushArchive. destruct (ensureProject project); [|done].
  destruct (newRepo cfg osid) as [repo|] eqn:Hrepo; [|done].
  destruct (PushBytes _ tarball _) as [[ld|] m1] eqn:H1; [|done].
  destruct (PackManifest _ [ld] m1) as [[md|] m2] eqn:H2; [|done].
  destruct (Tag md cliUploadID m2) as [[|] m3] eqn:H3; [done|].
  destruct (Copy m3 cliUploadID repo r) as [[|] r1] eqn:H4; [done|]. intros [= <-].
  destruct (PushBytes_spec _ _ _ _ _ H1) as [Hl1 Hsize].
  destruct (PackManifest_spec _ _ _ _ _ H2) as ((mb & Hm2 & Hparse) & Hk2).
  destruct (Tag_spec _ _ _ _ H3) as [Htag Hk3].
  destruct (Copy_spec _ _ _ _ _ md mb [ld] H4 Htag (Hk3 _ _ Hm2) Hparse) as (Hres & Hsm & Hsl).
  specialize (Hsl ld tarball ltac:(by constructor) (Hk3 _ _ (Hk2 _ _ Hl1))).
  assert (String.prefix "" tarball = true /\ (forall e : string, @Err string unit e = Ok tt -> "" = tarball /\ slen tarball <= maxArchiveLayerBytes)
    /\ (maxArchiveLayerBytes < slen tarball -> "" = "")) as (He1 & He2 & He3) by (split_and!; by destruct tarball).
  unfold PullArchive. rewrite Hrepo.
  destruct (Resolve repo cliUploadID r1) as [d|] eqn:Hd; [|by split_and!; eauto].
  apply (Resolve_spec _ _ _ _ _ Hd) in Hres as ->.
  destruct (Fetch repo md r1) as [rc|] eqn:Hf; [|by split_and!; eauto].
  destruct (Fetch_spec _ _ _ _ _ Hf Hsm) as [[Hc He]|[_ He]].
  2:{ destruct (read_err rc); [|done]. by split_and!; eauto. }
  rewrite He, Hc, Hparse. destruct (Fetch repo ld r1) as [rl|] eqn:Hfl; [|by split_and!; eauto].
  apply (Fetch_spec _ _ _ _ _ Hfl) in Hsl.
  assert (0 <= maxArchiveLayerBytes < max_int64) as Hmax by (vm_compute; split; [discriminate|reflexivity]).
  pose proof (copyBoundedLayer_spec w rl (Size ld) maxArchiveLayerBytes Hmax) as Hb.
  destruct (copyBoundedLayer w rl (Size ld) maxArchiveLayerBytes) as [out x]. destruct Hb as (Hp & Hlen & Hok & _).
  assert (String.prefix out tarball = true) as Hpre.
  { destruct Hsl as [[<- _]|[Hrl _]]; [done|by eapply prefix_trans]. }
  assert (maxArchiveLayerBytes < slen tarball -> out = "") as Hempty.
  { intros Hl. rewrite Hsize in Hlen. destruct (Z.ltb_spec maxArchiveLayerBytes (slen tarball)); [|lia].
    destruct out; [done|]. unfold slen in Hlen. cbn in Hlen. lia. }
  destruct x as [n|e]; split_and!; try done.
  intros _. destruct (Hok n eq_refl) as (-> & Hre & _ & _ & Hle). rewrite Hsize in Hle.
  destruct Hsl as [[-> _]|[_ ?]]; [done|congruence].
Qed.
End roundtrip.

(** ** Asking for an image *)

Section images.
Context {K : Type} `{KubeApi K}.

(** A host as it stands in an address: no scheme before it, no slash after it. *)
Definition bare_host (h : string) : Prop :=
  HasPrefix h "https://" = false /\ HasPrefix h "http://" = false /\ HasSuffix h "/" = false /\ h <> "".

(** How a configuration may write it. *)
Definition spellings (h : string) : list string :=
  [h; h ++ "/"; "https://" ++ h; "https://" ++ h ++ "/"; "http://" ++ h; "http://" ++ h ++ "/"].

Lemma HasSuffix_scheme scheme h : h <> "" -> HasSuffix (scheme ++ h) "/" = HasSuffix h "/".
Proof.
  intros Hh. destruct (HasSuffix h "/") eqn:Hs.
  - apply HasSuffix_app in Hs as [r ->]. apply HasSuffix_app. exists (scheme ++ r). by rewrite append_assoc.
  - apply not_true_is_false. intros [r Ht]%HasSuffix_app. apply (f_equal rev_string) in Ht. rewrite !rev_string_app in Ht.
    destruct (rev_string h) as [|c x] eqn:Hr.
    { apply (f_equal rev_string) in Hr. by rewrite rev_string_involutive in Hr. }
    injection Ht as -> _. assert (HasSuffix h "/" = true) as Hc; [|congruence].
    unfold HasSuffix. rewrite Hr. apply prefix_app. by exists x.
Qed.

Lemma host_written h u :
  bare_host h -> u ∈ spellings h -> TrimPrefix (TrimPrefix (TrimSuffix u "/") "https://") "http://" = h.
Proof.
  intros (H1 & H2 & H3 & Hn) Hu.
  assert (TrimSuffix u "/" ∈ [h; "https://" ++ h; "http://" ++ h]) as Ht.
  { unfold spellings in Hu. rewrite !elem_of_cons in Hu.
    assert (forall scheme, TrimSuffix (scheme ++ h) "/" = scheme ++ h) as Hnone
      by (intros scheme; apply TrimSuffix_none; by rewrite HasSuffix_scheme).
    assert (forall scheme, TrimSuffix (scheme ++ h ++ "/") "/" = scheme ++ h) as Hslash
      by (intros scheme; rewrite <-append_assoc; apply TrimSuffix_app).
    rewrite !elem_of_cons. destruct Hu as [->|[->|[->|[->|[->|[->|Hu]]]]]].
    - left. apply (Hnone "").
    - left. apply (Hslash "").
    - right; left. apply (Hnone "https://").
    - right; left. apply (Hslash "https://").
    - right; right; left. apply (Hnone "http://").
    - right; right; left. apply (Hslash "http://").
    - by apply not_elem_of_nil in Hu. }
  rewrite !elem_of_cons in Ht. destruct Ht as [->|[->|[->|Ht]]]; [| | |by apply not_elem_of_nil in Ht].
  - rewrite (TrimPrefix_none h "https://") by done. by apply TrimPrefix_none.
  - rewrite TrimPrefix_app. by apply TrimPrefix_none.
  - rewrite (TrimPrefix_none ("http://" ++ h) "https://") by done. apply TrimPrefix_app.
Qed.

(** C40: An image is reported present only when the registry answered 200, and
    absent only when it answered 404, to a HEAD request for exactly that
    application and tag: to the manifest of the tag in the project's repository
    of that name, over HTTPS on the configured host, whether the configuration
    writes it bare, with either scheme or with a slash at the end, with the
    configured user name and password. Every other outcome (a missing argument,
    no configuration, an unreachable registry, any other status) is an
    unsuccessful reply, never an absent image. *)
Theorem image_exists_spec client new_request Do osid tag (k : K) :
  let exec o t k := let '(r, _, k) := HarborImageExists client new_request Do o t k in (r, k) in
  let '(reply, k') := image_exists_reply (Some exec) osid tag k in
  (ie_Exists reply = true -> ie_Success reply = true) /\
  (ie_Success reply = true ->
     osid <> "" /\ tag <> "" /\
     exists cfg req resp, GetBuildKitConfig k = (Ok cfg, k') /\ HarborURL cfg <> "" /\
       (forall h, bare_host h -> HarborURL cfg ∈ spellings h ->
          head_url req = "https://" ++ h ++ "/v2/runos-apps/" ++ osid ++ "/manifests/" ++ tag) /\
       head_auth req = "Basic " ++ EncodeToString (HarborUsername cfg ++ ":" ++ HarborPassword cfg) /\
       Do req = Ok resp /\ StatusCode resp = (if ie_Exists reply then 200 else 404)).
Proof.
  cbv zeta. unfold image_exists_reply.
  destruct (String.eqb_spec osid ""), (String.eqb_spec tag ""); cbn [orb]; try by split.
  unfold HarborImageExists. destruct client; [by split|]. destruct (GetBuildKitConfig k) as [[cfg|e] k1] eqn:Hcfg; [|by split].
  destruct (String.eqb_spec (HarborURL cfg) "") as [|Hu]; [by split|].
  cbv zeta. destruct (new_request _); [by split|]. destruct (Do (image_request cfg osid tag)) as [resp|] eqn:Hd; [|by split].
  assert (forall h, bare_host h -> HarborURL cfg ∈ spellings h ->
    head_url (image_request cfg osid tag) = "https://" ++ h ++ "/v2/runos-apps/" ++ osid ++ "/manifests/" ++ tag) as Hp
    by (intros h Hh Hs; unfold image_request; by rewrite (host_written h)).
  destruct (Z.eqb_spec (StatusCode resp) 200);
    [|destruct (Z.eqb_spec (StatusCode resp) 404); [|by split]];
    (split; [done|]; intros _; split_and!; [done|done|exists cfg, (image_request cfg osid tag), resp; by split_and!]).
Qed.
End images.

(** The REST calls use the configured URL as their base, scheme included; a bare
    host, as the image check expects it, leaves them without one. *)
Lemma rest_urls_without_scheme :
  list_url (mkConfig "harbor:443" "" "") "app-1" =
    "harbor:443/api/v2.0/projects/runos-archives/repositories/app-1/artifacts?with_tag=true&page_size=100" /\
  project_url (mkConfig "harbor:443" "" "") = "harbor:443/api/v2.0/projects".
Proof. split; reflexivity. Qed.

(** ** Names of applications *)

Definition is_letter (c : ascii) : bool := in_range 97 122 c.
Definition is_alphanumeric (c : ascii) : bool := is_letter c || in_range 48 57 c.

(** A name the generator may give: what a DNS label starting and ending with a
    letter is. *)
Definition osid_wf (s : string) : Prop :=
  exists a b c d z, s = "app-" ++ String a (String b (String c (String d (String z "")))) /\
    is_letter a = true /\ is_letter z = true /\
    is_alphanumeric b = true /\ is_alphanumeric c = true /\ is_alphanumeric d = true.

Lemma all_chars_get p s n c : all_chars p s = true -> String.get n s = Some c -> p c = true.
Proof.
  revert n. induction s as [|d s IH]; intros [|n]; cbn; [done..| |]; intros [Hd Hs]%andb_prop; [by intros [= <-]|eauto].
Qed.

Lemma randomChar_spec draw charset p c :
  all_chars p charset = true -> randomChar draw charset = Ok c -> p c = true.
Proof.
  intros Hp. unfold randomChar. destruct (draw _) as [n|]; [|done].
  destruct (String.get (Z.to_nat n) charset) eqn:Hg; [|done]. intros [= <-]. by eapply all_chars_get.
Qed.

Lemma randomChar_total draw charset :
  (forall max, exists n, draw max = Ok n /\ 0 <= n < max) -> exists c, randomChar draw charset = Ok c.
Proof.
  intros Hd. destruct (Hd (slen charset)) as (n & Hn & Hr). unfold randomChar. rewrite Hn.
  assert (String.get (Z.to_nat n) charset <> None) as Hg.
  { clear Hn Hd. unfold slen in Hr. assert (Z.to_nat n < String.length charset)%nat as Hl by lia. clear Hr. revert Hl.
    generalize (Z.to_nat n) as i. clear n. induction charset as [|c s IH]; intros [|i]; cbn; [lia|lia|done|].
    intros Hl. apply IH. lia. }
  destruct (String.get (Z.to_nat n) charset); [by eexists|done].
Qed.

(** Every generated application name is well formed, whatever numbers the
    random source gives: the fixed prefix, a letter, three letters or digits, and
    a letter, all lower case. *)
Theorem GenerateOSID_wf draw s : GenerateOSID draw = Ok s -> osid_wf s.
Proof.
  assert (all_chars is_letter letters = true) as Hl by reflexivity.
  assert (all_chars is_alphanumeric alphanumeric = true) as Ha by reflexivity.
  unfold GenerateOSID. destruct (randomChar (draw 0%nat) letters) as [a|] eqn:H0; [|done].
  destruct (randomChar (draw 1%nat) _) as [b|] eqn:H1; [|done].
  destruct (randomChar (draw 2%nat) _) as [c|] eqn:H2; [|done].
  destruct (randomChar (draw 3%nat) _) as [d|] eqn:H3; [|done].
  destruct (randomChar (draw 4%nat) _) as [z|] eqn:H4; [|done]. intros [= <-].
  exists a, b, c, d, z. split_and!; [done|eauto using randomChar_spec..].
Qed.

Lemma GenerateOSID_total draw :
  (forall i max, exists n, draw i max = Ok n /\ 0 <= n < max) -> exists s, GenerateOSID draw = Ok s.
Proof.
  intros Hd. unfold GenerateOSID.
  destruct (randomChar_total (draw 0%nat) letters (Hd 0%nat)) as [? ->].
  destruct (randomChar_total (draw 1%nat) alphanumeric (Hd 1%nat)) as [? ->].
  destruct (randomChar_total (draw 2%nat) alphanumeric (Hd 2%nat)) as [? ->].
  destruct (randomChar_total (draw 3%nat) alphanumeric (Hd 3%nat)) as [? ->].
  destruct (randomChar_total (draw 4%nat) letters (Hd 4%nat)) as [? ->]. by eexists.
Qed.

(** ** An executable registry *)

(** Blobs are named by their own text; a manifest is the digest of its layer. *)
Record MemStore := mkMemStore { ms_blobs : list (Desc * string); ms_tags : list (string * Desc) }.

Definition desc_of (b : string) : Desc := mkDesc b (slen b).
Definition find_tag (tags : list (string * Desc)) (t : string) : option Desc :=
  snd <$> List.find (fun x => String.eqb x.1 t) tags.

#[export] Instance MemOras : Oras MemStore (list (string * MemStore)) := {
  memory_New := mkMemStore [] [];
  NewRepository repo := if String.eqb repo "" then Some "invalid reference" else None;
  PushBytes _ b m := (Ok (desc_of b), mkMemStore ((desc_of b, b) :: ms_blobs m)%list (ms_tags m));
  PackManifest _ ls m :=
    match ls with
    | [l] =>
        if bool_decide (l = desc_of (Digest l)) then
          (Ok (desc_of (Digest l)), mkMemStore ((desc_of (Digest l), Digest l) :: ms_blobs m)%list (ms_tags m))
        else (Err "unknown layer", m)
    | _ => (Err "one layer", m)
    end;
  Tag d t m := (None, mkMemStore (ms_blobs m) ((t, d) :: ms_tags m)%list);
  Copy m t repo r := match find_tag (ms_tags m) t with None => (Some "not found", r) | Some _ => (None, (repo, m) :: r)%list end;
  Resolve repo t r :=
    match List.find (fun x => String.eqb x.1 repo) r with
    | None => Err "not found"
    | Some (_, m) => match find_tag (ms_tags m) t with None => Err "not found" | Some d => Ok d end
    end;
  Fetch repo d r := if bool_decide (d = desc_of (Digest d)) then Ok (mkStream (Digest d) None) else Err "not found";
  ParseManifest b := Ok [desc_of b]
}.

#[export] Instance MemOras_laws : OrasLaws MemStore (list (string * MemStore)).
Proof.
  refine (Build_OrasLaws _ _ _
    (fun _ d b => d = desc_of b) (fun m t d => find_tag (ms_tags m) t = Some d)
    (fun _ _ d b => d = desc_of b) (fun r repo t d => Resolve repo t r = Ok d) _ _ _ _ _ _).
  - by intros ty b m d m' [= <- <-].
  - intros ty ls m d m'. cbn. destruct ls as [|l [|]]; try done. case_bool_decide as Hl; [|done].
    intros [= <- <-]. split; [|done]. exists (Digest l). split; [done|]. by rewrite <-Hl.
  - intros d t m m' [= <-]. split; [|done]. cbn. unfold find_tag. cbn. by rewrite String.eqb_refl.
  - intros m t repo r r' d mb ls Hc Ht ->. cbn in Hc. unfold find_tag in *. cbn in Ht. rewrite Ht in Hc.
    injection Hc as <-. intros [= <-]. cbn. rewrite String.eqb_refl. unfold find_tag. rewrite Ht. split_and!; [done..|].
    by intros l b ->%list_elem_of_singleton.
  - intros repo t r d d' -> [= ->]. done.
  - intros repo d r b s Hf ->. cbn in Hf. rewrite bool_decide_true in Hf by done. injection Hf as <-. by left.
Defined.

Lemma archive_roundtrip_witness :
  let cfg := mkConfig "https://harbor.example/" "robot" "secret" in
  exists r', PushArchive (M := MemStore) (Ok (mkHttp 201 "")) cfg "app-a1b2c" "up1" "tarball" ([] : list (string * MemStore)) = (Ok tt, r') /\
    let '(out, x) := PullArchive (M := MemStore) cfg "app-a1b2c" "up1" (mkSink None) r' in out = "tarball" /\ x = Ok tt.
Proof.
  intros cfg. eexists. split; [reflexivity|].
  pose proof (archive_roundtrip (M := MemStore) (Ok (mkHttp 201 "")) cfg "app-a1b2c" "up1" "tarball" [] _ (mkSink None) eq_refl) as Hr.
  assert ((PullArchive (M := MemStore) cfg "app-a1b2c" "up1" (mkSink None)
    (PushArchive (M := MemStore) (Ok (mkHttp 201 "")) cfg "app-a1b2c" "up1" "tarball" ([] : list (string * MemStore))).2).2 = Ok tt) as Hok
    by (vm_compute; reflexivity).
  cbn [snd PushArchive] in Hok, Hr |- *. 
  set (x := PullArchive _ _ _ _ _) in *. clearbody x. destruct x as [out x]. cbn in Hok. destruct Hr as (_ & Hr & _).
  split; [by apply Hr|done].
Defined.

Lemma GenerateOSID_wf_witness : GenerateOSID (fun i _ => Ok (Z.of_nat i)) = Ok "app-abcde" /\ osid_wf "app-abcde".
Proof. split; [reflexivity|]. apply (GenerateOSID_wf (fun i _ => Ok (Z.of_nat i))). reflexivity. Defined.
