(* ===== verification/TokenInstr.v ===== *)
(** * The token instructions
      ([src/agentstream/instructions/create_cli_deploy_token.go],
      [create_cli_pull_token.go])

    The handlers that mint the single-use tokens of [TokenStore.v] for the
    control plane. The random source, the clock, the printing of times and the
    JSON codecs are parameters. *)
From S2P Require Import Prelude GoStrings Codec Db BuildJobs TokenStore.
Local Open Scope string_scope.
Local Open Scope Z_scope.

Record CreateCLIDeployTokenRequest := mkDeployTokenReq {
  dt_OSID : string; dt_CliUploadID : string; dt_Dockerfile : string; dt_BuildArgs : list BuildArg;
  dt_ExpirySeconds : Z; dt_Purpose : string; dt_Repo : string; dt_Tags : list string
}.
Record CreateCLIPullTokenRequest := mkPullTokenReq { pt_OSID : string; pt_CliUploadID : string; pt_ExpirySeconds : Z }.

(** Both replies have the same fields; [tr_URL] is the upload or download path. *)
Record TokenResponse := mkTokenResponse {
  tr_Success : bool; tr_Token : string; tr_ExpiresAt : string; tr_URL : string; tr_Message : string
}.

Definition defaultExpirySeconds : Z := 300.
Definition maxExpirySeconds : Z := 600.
Definition tokenBytes : Z := 32.

Definition refused (msg : string) : TokenResponse := mkTokenResponse false "" "" "" msg.

Definition expiry_seconds (asked : Z) : Z :=
  let s := if asked <=? 0 then defaultExpirySeconds else asked in
  if maxExpirySeconds <? s then maxExpirySeconds else s.

(** The random bytes of the token, the clock and [time.Format]. *)
Record MintInputs := mkMintInputs { mi_rand : result string string; mi_now : Z; mi_format : Z -> string }.

Definition expires_at (I : MintInputs) (asked : Z) : Z := mi_now I + expiry_seconds asked * Second.

Section handlers.
Context {DB : Type} {DBI : Database DB} {TC : TokenCodec}.

Definition deploy_request_missing (req : CreateCLIDeployTokenRequest) : option string :=
  if String.eqb (dt_Purpose req) PurposeBuildImage then
    if String.eqb (dt_Repo req) "" || (length (dt_Tags req) =? 0)%nat then
      Some "repo and at least one tag are required for a build_image token"
    else None
  else if String.eqb (dt_OSID req) "" then Some "osid is required" else None.

Definition store_deploy_token (token : string) (req : CreateCLIDeployTokenRequest) (expiresAt : Z) : DB -> result string unit * DB :=
  if String.eqb (dt_Purpose req) PurposeBuildImage then
    let uploadID := if String.eqb (dt_CliUploadID req) "" then take_string 16 token else dt_CliUploadID req in
    CreateBuildImageToken token uploadID (dt_Repo req) (dt_Tags req) (dt_Dockerfile req) (dt_BuildArgs req) expiresAt
  else CreateUploadToken token (dt_OSID req) (dt_CliUploadID req) (dt_Dockerfile req) (dt_BuildArgs req) expiresAt.

(** The part both handlers share once the request is known to be complete. *)
Definition mint_and_store (I : MintInputs) (asked : Z) (store : string -> Z -> DB -> result string unit * DB)
    (path done_msg : string) (db : DB) : TokenResponse * DB :=
  let expiresAt := expires_at I asked in
  match mi_rand I with
  | Err _ => (refused "Failed to generate secure token", db)
  | Ok buf =>
      let token := hex_encode buf in
      match store token expiresAt db with
      | (Err _, db) => (refused "Failed to store token", db)
      | (Ok _, db) => (mkTokenResponse true token (mi_format I expiresAt) (path ++ token) done_msg, db)
      end
  end.

Definition deploy_token_outcome (I : MintInputs) (req : CreateCLIDeployTokenRequest) (db : DB) : TokenResponse * DB :=
  match deploy_request_missing req with
  | Some msg => (refused msg, db)
  | None =>
      mint_and_store I (dt_ExpirySeconds req) (fun token e => store_deploy_token token req e)
        "/cli-deploy/" "CLI deploy token created successfully" db
  end.

Definition pull_token_outcome (I : MintInputs) (req : CreateCLIPullTokenRequest) (db : DB) : TokenResponse * DB :=
  if String.eqb (pt_OSID req) "" || String.eqb (pt_CliUploadID req) "" then
    (refused "osid and cliUploadId are required", db)
  else
    mint_and_store I (pt_ExpirySeconds req) (fun token e => CreatePullToken token (pt_OSID req) (pt_CliUploadID req) e)
      "/cli-pull/" "CLI pull token created successfully" db.

(** A refusal is sent even when it cannot be encoded. *)
Definition token_reply (ty : string) (marshal : TokenResponse -> result string string) (r : TokenResponse) :
    result string (string * string) :=
  match JsonB64Encode marshal r with
  | Ok s => Ok (ty, s)
  | Err e => if tr_Success r then Err e else Ok (ty, "")
  end.

Definition CreateCLIDeployToken (unmarshal : string -> result string CreateCLIDeployTokenRequest)
    (marshal : TokenResponse -> result string string) (I : MintInputs) (jsonB64 : string) (db : DB) :
    result string (string * string) * DB :=
  match JsonB64Decode unmarshal jsonB64 with
  | Err e => (Err e, db)
  | Ok req => let '(r, db) := deploy_token_outcome I req db in (token_reply "CREATE_CLI_DEPLOY_TOKEN_RESPONSE" marshal r, db)
  end.

Definition CreateCLIPullToken (unmarshal : string -> result string CreateCLIPullTokenRequest)
    (marshal : TokenResponse -> result string string) (I : MintInputs) (jsonB64 : string) (db : DB) :
    result string (string * string) * DB :=
  match JsonB64Decode unmarshal jsonB64 with
  | Err e => (Err e, db)
  | Ok req => let '(r, db) := pull_token_outcome I req db in (token_reply "CREATE_CLI_PULL_TOKEN_RESPONSE" marshal r, db)
  end.
End handlers.

(** ** Properties *)

Lemma expiry_seconds_range asked : 1 <= expiry_seconds asked <= maxExpirySeconds.
Proof.
  unfold expiry_seconds, maxExpirySeconds, defaultExpirySeconds.
  destruct (Z.leb_spec asked 0), (Z.ltb_spec 600 asked); cbn; lia.
Qed.

Section properties.
Context {DB : Type} {DBI : Database DB} {DBL : DatabaseLaws DB} {TC : TokenCodec}.

(** What a token is to be for: its purpose, the app or repository, and the
    Dockerfile, build arguments and build target, these as they are encoded. *)
Record Wanted := mkWanted {
  wt_purpose : string; wt_config : string -> string; wt_dockerfile : string;
  wt_args : result string string; wt_target : result string string
}.

(** A row for a token: what the row says of it. *)
Record row_for (token : string) (wt : Wanted) (expiresAt : Z) (m : UploadTokenModel) : Prop := {
  rf_hash : TokenHash m = hashToken token;
  rf_purpose : Purpose m = wt_purpose wt;
  rf_config : DeployConfig m = wt_config wt token;
  rf_dockerfile : Dockerfile m = wt_dockerfile wt;
  rf_args : wt_args wt = Ok (BuildArgs m);
  rf_target : wt_target wt = Ok (BuildTarget m);
  rf_expiry : ExpiresAt m = expiresAt;
  rf_unused : Used m = false
}.

(** A store that succeeds has added one row for the token, which was not there
    before; a store that fails has changed nothing. *)
Definition stores_row (token : string) (wt : Wanted) (expiresAt : Z) (db : DB) (r : result string unit * DB) : Prop :=
  match r with
  | (Ok _, db') => existsb (has_hash (hashToken token)) (tokens_t (tables db)) = false /\
      exists m, tokens_t (tables db') = (tokens_t (tables db) ++ [m])%list /\ row_for token wt expiresAt m
  | (Err _, db') => tables db' = tables db
  end.

Lemma insert_stores token wt expiresAt mk (db : DB) :
  (forall now i, row_for token wt expiresAt (mk now i)) ->
  stores_row token wt expiresAt db (stmt (insert_token (hashToken token) mk) db).
Proof using DBL.
  intros Hmk. unfold stores_row. stmt_cases (insert_token (hashToken token) mk) db; [|done].
  unfold insert_token in *. destruct (existsb _ _) eqn:He; cbn in *; [done|].
  split; [done|]. rewrite Htab. cbn. unfold insert_rows. cbn. eauto.
Qed.

Definition upload_wanted (osid cli dockerfile : string) (args : list BuildArg) : Wanted :=
  mkWanted "upload" (fun _ => if String.eqb cli "" then osid else osid ++ ":" ++ cli) dockerfile (encodeBuildArgs args) (Ok "").
Definition image_wanted (repo cli : string) (tags : list string) (dockerfile : string) (args : list BuildArg) : Wanted :=
  mkWanted "build_image" (fun token => repo ++ ":" ++ (if String.eqb cli "" then take_string 16 token else cli)) dockerfile
    (encodeBuildArgs args) (marshal_target (mkTarget repo tags)).
Definition pull_wanted (osid cli : string) : Wanted := mkWanted "pull" (fun _ => osid ++ ":" ++ cli) "" (Ok "[]") (Ok "").

Lemma upload_stores token osid cli dockerfile args e (db : DB) :
  stores_row token (upload_wanted osid cli dockerfile args) e db (CreateUploadToken token osid cli dockerfile args e db).
Proof using DBL.
  unfold CreateUploadToken, activeDB. destruct (handle db); [|done]. destruct (encodeBuildArgs args) eqn:Ha; [|done].
  by apply insert_stores.
Qed.

Lemma image_stores token cli repo tags dockerfile args e (db : DB) :
  stores_row token (image_wanted repo cli tags dockerfile args) e db
    (CreateBuildImageToken token (if String.eqb cli "" then take_string 16 token else cli) repo tags dockerfile args e db).
Proof using DBL.
  unfold CreateBuildImageToken, activeDB. destruct (handle db); [|done]. destruct (encodeBuildArgs args) eqn:Ha; [|done].
  destruct (marshal_target _) eqn:Ht; [|done]. by apply insert_stores.
Qed.

Lemma pull_stores token osid cli e (db : DB) :
  stores_row token (pull_wanted osid cli) e db (CreatePullToken token osid cli e db).
Proof using DBL. unfold CreatePullToken, activeDB. destruct (handle db); [|done]. by apply insert_stores. Qed.

(** What minting means for the reply and the store, for any way to store. *)
Definition minted_token (I : MintInputs) (asked : Z) (wt : Wanted) (db : DB) (x : TokenResponse * DB) : Prop :=
  let '(r, db') := x in
  if tr_Success r then
    exists buf m, mi_rand I = Ok buf /\ tr_Token r = hex_encode buf /\
      existsb (has_hash (hashToken (tr_Token r))) (tokens_t (tables db)) = false /\
      tokens_t (tables db') = (tokens_t (tables db) ++ [m])%list /\
      row_for (tr_Token r) wt (expires_at I asked) m /\
      Second <= expires_at I asked - mi_now I <= 600 * Second
  else tr_Token r = "" /\ tables db' = tables db.

Lemma mint_and_store_spec I asked store wt path msg (db : DB) :
  (forall token e, stores_row token wt e db (store token e db)) ->
  minted_token I asked wt db (mint_and_store I asked store path msg db).
Proof using DBL.
  intros Hs. unfold minted_token, mint_and_store. destruct (mi_rand I) as [buf|e]; [|done].
  specialize (Hs (hex_encode buf) (expires_at I asked)). destruct (store _ _ db) as [[u|e] db']; [|done].
  destruct Hs as (Hn & m & Hm & Hrow). cbn. exists buf, m. split_and!; try done.
  all: unfold expires_at; pose proof (expiry_seconds_range asked); unfold maxExpirySeconds, Second in *; lia.
Qed.

(** C33: Each token instruction mints at most one token. On success there is
    exactly one new row, unused, under the hash of the token that was returned,
    which no row had before; it says what the request says: for a build_image
    token the repository with the upload id (or the token's first sixteen
    digits), the repository and tags as build target, for any other deploy token
    the app with the upload id if there is one and no build target, both with
    the request's Dockerfile and build arguments, for a pull token the app with
    the upload id and nothing else; and its expiry is between one second and ten
    minutes away, whatever was asked for. On every other reply no token is given
    out and the store is unchanged. *)
Theorem token_instructions_spec I dreq preq (db : DB) :
  minted_token I (dt_ExpirySeconds dreq)
    (if String.eqb (dt_Purpose dreq) "build_image" then
       mkWanted "build_image"
         (fun token => dt_Repo dreq ++ ":" ++ (if String.eqb (dt_CliUploadID dreq) "" then take_string 16 token else dt_CliUploadID dreq))
         (dt_Dockerfile dreq) (encodeBuildArgs (dt_BuildArgs dreq)) (marshal_target (mkTarget (dt_Repo dreq) (dt_Tags dreq)))
     else
       mkWanted "upload"
         (fun _ => if String.eqb (dt_CliUploadID dreq) "" then dt_OSID dreq else dt_OSID dreq ++ ":" ++ dt_CliUploadID dreq)
         (dt_Dockerfile dreq) (encodeBuildArgs (dt_BuildArgs dreq)) (Ok ""))
    db (deploy_token_outcome I dreq db) /\
  minted_token I (pt_ExpirySeconds preq) (mkWanted "pull" (fun _ => pt_OSID preq ++ ":" ++ pt_CliUploadID preq) "" (Ok "[]") (Ok ""))
    db (pull_token_outcome I preq db).
Proof using DBL.
  split.
  - unfold deploy_token_outcome. destruct (deploy_request_missing dreq); [by split|].
    apply mint_and_store_spec. intros token e. unfold store_deploy_token.
    change PurposeBuildImage with "build_image".
    destruct (String.eqb (dt_Purpose dreq) "build_image"); [apply image_stores|apply upload_stores].
  - unfold pull_token_outcome. destruct (_ || _); [by split|].
    apply mint_and_store_spec. intros token e. apply pull_stores.
Qed.
End properties.

Lemma token_instructions_spec_witness :
  let I := mkMintInputs (Ok "abc") 1000 (fun _ => "soon") in
  let dreq := mkDeployTokenReq "app1" "cli1" "" [] 100000 "" "" [] in
  let preq := mkPullTokenReq "app1" "" 5 in
  tr_Success (deploy_token_outcome I dreq (mem_ready empty_tables)).1 = true /\
  tables (pull_token_outcome I preq (mem_ready empty_tables)).2 = empty_tables /\
  minted_token (DB := MemDb) I 100000 (upload_wanted "app1" "cli1" "" []) (mem_ready empty_tables)
    (deploy_token_outcome I dreq (mem_ready empty_tables)).
Proof.
  intros I dreq preq. split; [vm_compute; reflexivity|].
  pose proof (token_instructions_spec (DB := MemDb) I dreq preq (mem_ready empty_tables)) as [Hd Hp].
  split; [exact (proj2 Hp)|exact Hd].
Defined.
