(* ===== verification/Listings.v ===== *)
(** * The listing instructions
      ([src/agentstream/instructions/list_build_jobs.go], [list_build_logs.go],
      [list_ingresses.go], [list_certificates.go], [pod_viewer.go])

    Handlers that read the store or the cluster and reply with a list. What the
    API server answers to a list call, the metrics and their quantities, the
    parsing and printing of times and the case folding are parameters. Hours and
    days are computed on the duration itself; the code goes through a float,
    which is exact for ages of a few years. *)
From stdpp Require Import gmap pretty sorting.
From S2P Require Import Prelude GoStrings Codec Db BuildJobs.
Local Open Scope string_scope.
Local Open Scope Z_scope.

(** ** Build jobs and their logs *)

Record ListBuildJobsRequest := mkListJobs {
  lj_Status : string; lj_OSID : string; lj_CreatedAt : string; lj_Limit : Z; lj_Desc : bool
}.
Record ListBuildLogsRequest := mkListLogs { ll_JobID : string; ll_SinceID : Z; ll_Limit : Z; ll_Desc : bool }.

Section store.
Context {DB : Type} {DBI : Database DB}.

(** [parse] is [time.Parse] for RFC 3339. *)
Definition list_jobs_outcome (parse : string -> result string Z) (req : ListBuildJobsRequest) (db : DB) :
    result string (list BuildKitJob) * DB :=
  let query createdAt :=
    QueryBuildKitJobs (mkJobQuery (lj_Status req) (lj_OSID req) createdAt (lj_Limit req) (lj_Desc req)) db in
  if negb (String.eqb (lj_CreatedAt req) "") then
    match parse (lj_CreatedAt req) with Err e => (Err e, db) | Ok t => query (Some t) end
  else query None.

Definition list_logs_outcome (req : ListBuildLogsRequest) (db : DB) : result string (list BuildKitLog) * DB :=
  if String.eqb (ll_JobID req) "" then (Err "job_id is required", db)
  else
    let limit := if ll_Limit req =? 0 then 100 else ll_Limit req in
    QueryBuildKitLogs (mkLogQuery (ll_JobID req) (ll_SinceID req) limit (ll_Desc req)) db.

(** Both handlers answer an error with the type ERROR and no text. *)
Definition list_reply {A} (ty : string) (marshal : list A -> result string string) (r : result string (list A)) :
    string * string * option string :=
  match r with
  | Err e => ("ERROR", "", Some e)
  | Ok rows => match JsonB64Encode marshal rows with Err e => ("ERROR", "", Some e) | Ok s => (ty, s, None) end
  end.

Definition ListBuildJobs (unmarshal : string -> result string ListBuildJobsRequest) (marshal : list BuildKitJob -> result string string)
    (parse : string -> result string Z) (jsonB64 : string) (db : DB) : string * string * option string * DB :=
  match JsonB64Decode unmarshal jsonB64 with
  | Err e => ("ERROR", "", Some e, db)
  | Ok req => let '(r, db) := list_jobs_outcome parse req db in (list_reply "LIST_BUILD_JOBS_RESPONSE" marshal r, db)
  end.

Definition ListBuildLogs (unmarshal : string -> result string ListBuildLogsRequest) (marshal : list BuildKitLog -> result string string)
    (jsonB64 : string) (db : DB) : string * string * option string * DB :=
  match JsonB64Decode unmarshal jsonB64 with
  | Err e => ("ERROR", "", Some e, db)
  | Ok req => let '(r, db) := list_logs_outcome req db in (list_reply "LIST_BUILD_LOGS_RESPONSE" marshal r, db)
  end.
End store.

(** ** Ingresses *)

Record Backend := mkBackend { svc_Name : string; svc_Port : Z }.
Record IngressRule := mkIngressRule { rule_Host : string; rule_HTTP : option (list (option Backend)) }.
Record Ingress := mkIngress { ing_Name : string; ing_Namespace : string; ing_Rules : list IngressRule }.
Record IngressEntry := mkIngressEntry {
  ie_Name : string; ie_Namespace : string; ie_Host : string; ServiceName : string; ServicePort : Z
}.

(** One turn of the loop over the listed ingresses. *)
Definition ingress_entry (ing : Ingress) : option IngressEntry :=
  match ing_Rules ing with
  | [] => None
  | rule :: _ =>
      match rule_HTTP rule with
      | None | Some [] => None
      | Some (path :: _) =>
          match path with
          | None => None
          | Some s => Some (mkIngressEntry (ing_Name ing) (ing_Namespace ing) (rule_Host rule) (svc_Name s) (svc_Port s))
          end
      end
  end.

Definition ListIngresses (listing : result string (list Ingress)) : result string (list IngressEntry) :=
  match listing with Err e => Err e | Ok items => Ok (omap ingress_entry items) end.

(** ** Certificates *)

Record Condition := mkCondition { cond_Type : string; cond_Status : string; cond_Reason : string; cond_Message : string }.
Record CMCertificate := mkCMCert {
  cm_Name : string; cm_Namespace : string; cm_DNSNames : list string; cm_SecretName : string; cm_Issuer : string;
  cm_Conditions : list Condition; cm_NotBefore : option Z; cm_NotAfter : option Z
}.
Record CertificateEntry := mkCertEntry {
  ce_Name : string; ce_Namespace : string; ce_DNSNames : list string; ce_SecretName : string; ce_Issuer : string;
  Ready : bool; Reason : string; ce_Message : string; ce_NotBefore : string; ce_NotAfter : string
}.

(** The loop over the conditions: the first one of type Ready decides. *)
Fixpoint ready_condition (conds : list Condition) : bool * string * string :=
  match conds with
  | [] => (false, "Unknown", "")
  | c :: conds =>
      if String.eqb (cond_Type c) "Ready" then (String.eqb (cond_Status c) "True", cond_Reason c, cond_Message c)
      else ready_condition conds
  end.

Definition certificate_entry (format : Z -> string) (c : CMCertificate) : CertificateEntry :=
  let '(ready, reason, message) := ready_condition (cm_Conditions c) in
  let time t := match t with None => "" | Some t => format t end in
  mkCertEntry (cm_Name c) (cm_Namespace c) (cm_DNSNames c) (cm_SecretName c) (cm_Issuer c) ready reason message
    (time (cm_NotBefore c)) (time (cm_NotAfter c)).

Definition ListCertificates (format : Z -> string) (listing : result string (list CMCertificate)) :
    result string (list CertificateEntry) :=
  match listing with Err e => Err e | Ok items => Ok (map (certificate_entry format) items) end.

(** ** Pods *)

Definition podListServerCap : Z := 2000.
Definition wrap32 (z : Z) : Z := (z + 2147483648) mod 4294967296 - 2147483648.

Record ContainerStatus := mkCS { RestartCount : Z; WaitingReason : option string; TerminatedReason : option string }.
Record Pod := mkPod {
  pod_Name : string; pod_Namespace : string; pod_Deleting : bool; pod_Phase : string; pod_Node : string;
  pod_Created : Z; pod_Containers : list ContainerStatus
}.
Record k8sPodResponse := mkPodResponse {
  pr_Name : string; pr_Namespace : string; pr_Status : string; pr_Restarts : Z; pr_Age : string; pr_Node : string;
  CPUUsageMc : Z; MemoryUsageMb : Z
}.

Fixpoint container_reason (cs : list ContainerStatus) : option string :=
  match cs with
  | [] => None
  | c :: cs =>
      match WaitingReason c, TerminatedReason c with
      | Some (String _ _ as w), _ => Some w
      | _, Some (String _ _ as t) => Some t
      | _, _ => container_reason cs
      end
  end.

Definition getPodStatus (p : Pod) : string :=
  if pod_Deleting p then "Terminating"
  else match pod_Containers p with
       | [] => pod_Phase p
       | cs => match container_reason cs with Some r => r | None => pod_Phase p end
       end.

Definition humanReadableAge (d : Z) : string :=
  if 24 * Hour <? d then pretty (Z.quot d (24 * Hour)) ++ "d"
  else if Hour <=? d then pretty (Z.quot d Hour) ++ "h"
  else if Minute <=? d then pretty (Z.quot d Minute) ++ "m"
  else pretty (Z.quot d Second) ++ "s".

Section pods.
(** [resource.Quantity] and [strings.ToLower]. *)
Context {Q : Type} (qzero : Q) (qadd : Q -> Q -> Q) (MilliValue Value : Q -> Z) (ToLower : string -> string).

Record PodMetrics := mkPodMetrics { pm_Namespace : string; pm_Name : string; pm_Containers : list (Q * Q) }.

Definition pod_usage (m : PodMetrics) : Q * Q :=
  fold_left (fun acc c => (qadd acc.1 c.1, qadd acc.2 c.2)) (pm_Containers m) (qzero, qzero).

(** Later metrics of a pod replace earlier ones. *)
Definition metricsMap (ms : list PodMetrics) : gmap (string * string) (Q * Q) :=
  fold_left (fun mp m => <[(pm_Namespace m, pm_Name m) := pod_usage m]> mp) ms ∅.

Definition pod_matches (searchTerm : string) (p : Pod) : bool :=
  String.eqb searchTerm "" || Contains (ToLower (pod_Name p)) (ToLower searchTerm)
  || Contains (ToLower (pod_Namespace p)) (ToLower searchTerm).

Definition pod_entry (mp : gmap (string * string) (Q * Q)) (now : Z) (p : Pod) : k8sPodResponse :=
  let restarts := fold_left (fun r cs => wrap32 (r + RestartCount cs)) (pod_Containers p) 0 in
  let '(cpu, mem) := match mp !! (pod_Namespace p, pod_Name p) with
                     | None => (0, 0)
                     | Some (c, m) => (MilliValue c, Z.quot (Value m) (1024 * 1024))
                     end in
  mkPodResponse (pod_Name p) (pod_Namespace p) (getPodStatus p) restarts (humanReadableAge (now - pod_Created p))
    (pod_Node p) cpu mem.

(** The loop: [count] entries were made already. *)
Fixpoint pod_loop (limit : Z) (searchTerm : string) (mp : gmap (string * string) (Q * Q)) (now : Z) (count : Z)
    (pods : list Pod) : list k8sPodResponse :=
  match pods with
  | [] => []
  | p :: pods =>
      if limit <=? count then []
      else if negb (pod_matches searchTerm p) then pod_loop limit searchTerm mp now count pods
      else pod_entry mp now p :: pod_loop limit searchTerm mp now (count + 1) pods
  end.

Definition pod_limit (asked : Z) : Z := if asked <=? 0 then 50 else asked.

(** A failed metrics call only leaves the usage out. [Total] counts the entries
    of the reply. *)
Definition pod_stats (searchTerm : string) (asked : Z) (now : Z) (listing : result string (list Pod))
    (metrics : result string (list PodMetrics)) : result string (list k8sPodResponse * Z) :=
  match listing with
  | Err e => Err e
  | Ok pods =>
      let mp := metricsMap (match metrics with Ok ms => ms | Err _ => [] end) in
      let results := pod_loop (pod_limit asked) searchTerm mp now 0 pods in
      Ok (results, Z.of_nat (length results))
  end.
End pods.

(** ** The pod loop is take, filter and map *)

(** The pod listing is what its request describes: the first pods, in the
    API server's order and up to the limit (fifty when none is given), whose name
    or namespace contains the search term, each turned into its entry; and the
    total is the number of entries sent. *)
Theorem pod_stats_reference {Q} (qzero : Q) qadd MilliValue Value ToLower searchTerm asked now listing metrics :
  pod_stats qzero qadd MilliValue Value ToLower searchTerm asked now listing metrics =
  match listing with
  | Err e => Err e
  | Ok pods =>
      let shown := take (Z.to_nat (pod_limit asked)) (List.filter (pod_matches ToLower searchTerm) pods) in
      let mp := metricsMap qzero qadd (match metrics with Ok ms => ms | Err _ => [] end) in
      Ok (map (pod_entry MilliValue Value mp now) shown, Z.of_nat (length shown))
  end.
Proof.
  unfold pod_stats. destruct listing as [pods|]; [|done]. cbv zeta. set (mp := metricsMap _ _ _).
  assert (forall limit count, 0 <= count ->
    pod_loop MilliValue Value ToLower limit searchTerm mp now count pods =
    map (pod_entry MilliValue Value mp now)
      (take (Z.to_nat (limit - count)) (List.filter (pod_matches ToLower searchTerm) pods))) as Hl.
  { intros limit. induction pods as [|p pods IH]; intros count Hc; cbn [pod_loop List.filter]; [by rewrite take_nil|].
    destruct (Z.leb_spec limit count).
    { replace (Z.to_nat (limit - count)) with 0%nat by lia. done. }
    destruct (pod_matches ToLower searchTerm p); cbn [negb]; [|by apply IH].
    replace (Z.to_nat (limit - count)) with (S (Z.to_nat (limit - (count + 1)))) by lia. cbn. by rewrite IH by lia. }
  rewrite Hl by lia. rewrite Z.sub_0_r, length_map. done.
Qed.

(** ** Reading all the logs of a job, page by page *)

Section logs.
Context {DB : Type} {DBI : Database DB} {DBL : DatabaseLaws DB}.

Abbreviation by_id := (fun a b : BuildKitLogModel => log_row_id a < log_row_id b).

(** A reader that asks for each page after the last entry it has seen. *)
Inductive reads (job : string) (limit : Z) : Z -> DB -> list BuildKitLog -> Prop :=
| reads_end since db db' :
    list_logs_outcome (mkListLogs job since limit false) db = (Ok [], db') -> reads job limit since db []
| reads_page since db db' rows l rest :
    list_logs_outcome (mkListLogs job since limit false) db = (Ok rows, db') -> last rows = Some l ->
    reads job limit (log_row_id l) db' rest -> reads job limit since db (rows ++ rest)%list.

(** The log rows of a job in the order of their ids. *)
Definition job_logs (job : string) (t : Tables) : list BuildKitLogModel :=
  merge_sort (order_le false log_row_id) (List.filter (fun m => String.eqb (LogJobID m) job) (logs_t t)).

Definition later (since : Z) (m : BuildKitLogModel) : bool := since <? log_row_id m.

Lemma sorted_by_id (l : list BuildKitLogModel) :
  NoDup (map log_row_id l) -> StronglySorted by_id (merge_sort (order_le false log_row_id) l).
Proof.
  intros Hnd. set (s := merge_sort _ _).
  assert (NoDup (map log_row_id s)) as Hs.
  { eapply NoDup_Permutation_proper; [|exact Hnd]. apply Permutation_map, merge_sort_Permutation. }
  assert (StronglySorted (order_le false log_row_id) s) as Hsorted.
  { apply Sorted_StronglySorted; [intros a b c; unfold order_le; lia|].
    apply Sorted_merge_sort. intros a b. unfold order_le. lia. }
  clearbody s. induction Hsorted as [|a s Hsorted IH Ha]; [constructor|].
  cbn in Hs. apply NoDup_cons in Hs as [Hna Hs]. constructor; [by apply IH|].
  rewrite Forall_forall in *. intros b Hb. specialize (Ha b Hb). unfold order_le in Ha.
  assert (log_row_id a <> log_row_id b); [|lia]. intros He. apply Hna. rewrite He. by apply list_elem_of_fmap_2.
Qed.

Lemma strongly_filter (p : BuildKitLogModel -> bool) l : StronglySorted by_id l -> StronglySorted by_id (List.filter p l).
Proof.
  induction 1 as [|a l Hl IH Ha]; cbn; [constructor|]. destruct (p a); [|done]. constructor; [done|].
  rewrite Forall_forall in *. intros b [Hb _]%list_elem_of_In%List.filter_In. by apply Ha, list_elem_of_In.
Qed.

Lemma NoDup_filter_ids (p : BuildKitLogModel -> bool) l :
  NoDup (map log_row_id l) -> NoDup (map log_row_id (List.filter p l)).
Proof.
  induction l as [|a l IH]; cbn; [done|]. intros [Ha Hl]%NoDup_cons. destruct (p a); [|by apply IH]. cbn.
  constructor; [|by apply IH]. intros (b & He & [Hb _]%list_elem_of_In%List.filter_In)%list_elem_of_fmap.
  apply Ha. rewrite He. apply list_elem_of_fmap_2. by apply list_elem_of_In.
Qed.

(** Sorting and filtering commute when ids are unique. *)
Lemma sort_filter p (l : list BuildKitLogModel) :
  NoDup (map log_row_id l) ->
  merge_sort (order_le false log_row_id) (List.filter p l) = List.filter p (merge_sort (order_le false log_row_id) l).
Proof.
  intros Hnd.
  assert (NoDup (map log_row_id (List.filter p l))) as Hnd' by (by apply NoDup_filter_ids).
  apply (StronglySorted_unique_strong by_id).
  - intros a b _ _. lia.
  - by apply sorted_by_id.
  - by apply strongly_filter, sorted_by_id.
  - rewrite merge_sort_Permutation.
    assert (Permutation l (merge_sort (order_le false log_row_id) l)) as Hp by (symmetry; apply merge_sort_Permutation).
    revert Hp. generalize (merge_sort (order_le false log_row_id) l) as s. clear. induction 1 as [|a l s H IH|a b l|]; cbn.
    + done.
    + destruct (p a); [by rewrite IH|done].
    + destruct (p a), (p b); [apply Permutation_swap|done..].
    + by etrans.
Qed.

(** Ids are unique and positive, as the table's serial column makes them. *)
Definition logs_wf (t : Tables) : Prop :=
  NoDup (map log_row_id (logs_t t)) /\ forall m, m ∈ logs_t t -> 0 < log_row_id m.

Lemma filter_andb {A} (p q : A -> bool) l :
  List.filter (fun x => p x && q x) l = List.filter q (List.filter p l).
Proof. induction l as [|a l IH]; cbn; [done|]. destruct (p a); cbn; [destruct (q a); by rewrite IH|done]. Qed.

(** One page: the next rows after [since]. *)
Lemma page_spec job since limit (db db' : DB) rows :
  logs_wf (tables db) -> 0 <= since ->
  list_logs_outcome (mkListLogs job since limit false) db = (Ok rows, db') ->
  tables db' = tables db /\
  rows = limit_rows (if limit =? 0 then 100 else limit) (List.filter (later since) (job_logs job (tables db))).
Proof using DBL.
  intros [Hnd Hpos] Hs. unfold list_logs_outcome. cbn [ll_JobID ll_SinceID ll_Limit ll_Desc].
  destruct (String.eqb job ""); [done|]. unfold QueryBuildKitLogs, activeDB. destruct (handle db); [|done].
  set (o := mkLogQuery job since _ false). stmt_cases (select_logs o) db; [|done]. cbn.
  intros [= <- <-]. split; [done|]. unfold BuildKitLog. rewrite map_id. f_equal.
  unfold job_logs. rewrite <-sort_filter by (by apply NoDup_filter_ids).
  f_equal. rewrite <-filter_andb. apply List.filter_ext_in. intros m Hm%list_elem_of_In.
  unfold log_matches, later. cbn. f_equal. destruct (Z.ltb_spec 0 since); [done|].
  assert (since = 0) as -> by lia. symmetry. apply Z.ltb_lt. by apply Hpos.
Qed.

Lemma filter_later_app rows tail l :
  StronglySorted by_id (rows ++ tail)%list -> last rows = Some l ->
  List.filter (later (log_row_id l)) (rows ++ tail)%list = tail.
Proof.
  intros Hs Hl. apply last_Some in Hl as [init ->]. rewrite <-app_assoc in Hs. cbn in Hs.
  assert (StronglySorted by_id (l :: tail)) as Ht.
  { clear -Hs. induction init as [|a init IH]; [done|]. cbn in Hs. by apply StronglySorted_inv in Hs as [Hs _]; auto. }
  assert (forall a, a ∈ init -> log_row_id a < log_row_id l) as Hi.
  { intros a Ha. clear Ht. induction init as [|b init IH]; [by apply not_elem_of_nil in Ha|].
    cbn in Hs. apply StronglySorted_inv in Hs as [Hs Hb]. apply elem_of_cons in Ha as [->|Ha]; [|by apply IH].
    rewrite Forall_forall in Hb. apply Hb. rewrite elem_of_app, elem_of_cons. auto. }
  rewrite !List.filter_app. apply StronglySorted_inv in Ht as [_ Ht]. rewrite Forall_forall in Ht.
  replace (List.filter (later (log_row_id l)) init) with (@nil BuildKitLogModel).
  2:{ symmetry. clear Hs Ht. induction init as [|a init IH]; [done|]. cbn. unfold later at 1.
      assert ((log_row_id l <? log_row_id a) = false) as -> by (apply Z.ltb_ge; pose proof (Hi a ltac:(by constructor)); lia).
      apply IH. intros b Hb. apply Hi. by constructor. }
  cbn. unfold later at 1. rewrite Z.ltb_irrefl. cbn. clear -Ht. induction tail as [|a tail IH]; [done|]. cbn. unfold later at 1.
  assert ((log_row_id l <? log_row_id a) = true) as -> by (apply Z.ltb_lt, Ht; by constructor).
  f_equal. apply IH. intros b Hb. apply Ht. by constructor.
Qed.

Lemma filter_later_later s s' l :
  s <= s' -> List.filter (later s') (List.filter (later s) l) = List.filter (later s') l.
Proof.
  intros Hs. rewrite <-filter_andb. apply List.filter_ext. intros a. unfold later.
  destruct (Z.ltb_spec s (log_row_id a)), (Z.ltb_spec s' (log_row_id a)); cbn; lia || done.
Qed.

Lemma reads_spec job limit since (db : DB) out :
  reads job limit since db out -> logs_wf (tables db) -> 0 <= since ->
  out = List.filter (later since) (job_logs job (tables db)).
Proof using DBL.
  induction 1 as [since db db' Hp|since db db' rows l rest Hp Hl _ IH]; intros Hwf Hs.
  - apply page_spec in Hp as [_ Hp]; [|done..]. set (F := List.filter _ _) in *. clearbody F.
    unfold limit_rows in Hp. destruct (Z.ltb_spec 0 (if limit =? 0 then 100 else limit)) as [Hpos|]; [|done].
    destruct F as [|a F]; [done|]. destruct (Z.to_nat _) eqn:Hn; [lia|done].
  - pose proof (page_spec _ _ _ _ _ _ Hwf Hs Hp) as [Ht Hrows]. rewrite Ht in IH.
    set (F := List.filter (later since) (job_logs job (tables db))) in *.
    assert (exists tail, F = (rows ++ tail)%list) as [tail HF].
    { unfold limit_rows in Hrows. destruct (_ <? _); [|exists []; by rewrite app_nil_r, Hrows].
      exists (drop (Z.to_nat (if limit =? 0 then 100 else limit)) F). by rewrite Hrows, take_drop. }
    assert (StronglySorted by_id F) as HFs.
    { apply strongly_filter, sorted_by_id, NoDup_filter_ids, Hwf. }
    assert (since < log_row_id l) as Hsl.
    { assert (l ∈ F) as Hin by (rewrite HF; apply elem_of_app; left; by apply last_Some_elem_of).
      apply list_elem_of_In, List.filter_In in Hin as [_ Hin]. by apply Z.ltb_lt. }
    rewrite IH by (done || lia). rewrite <-(filter_later_later since) by lia. fold F. rewrite HF at 1 2.
    rewrite HF in HFs. by rewrite filter_later_app.
Qed.

(** Following a job's log by pages misses nothing and repeats nothing: a
    reader that starts at zero and asks each time for what comes after the last
    entry it saw, until a page is empty, has read exactly the job's entries, each
    once, in the order they were written, whatever the page size. *)
Theorem log_pages_complete job limit (db : DB) out :
  logs_wf (tables db) -> reads job limit 0 db out ->
  Permutation out (List.filter (fun m => String.eqb (LogJobID m) job) (logs_t (tables db))) /\
  StronglySorted by_id out.
Proof using DBL.
  intros Hwf Hr. apply reads_spec in Hr as ->; [|done..].
  assert (List.filter (later 0) (job_logs job (tables db)) = job_logs job (tables db)) as ->.
  { unfold job_logs. rewrite <-sort_filter by (apply NoDup_filter_ids, Hwf). f_equal.
    rewrite <-filter_andb. apply List.filter_ext_in. intros m Hm%list_elem_of_In.
    unfold later. rewrite (proj2 (Z.ltb_lt _ _)); [by rewrite andb_true_r|by apply Hwf]. }
  split; [apply merge_sort_Permutation|apply sorted_by_id, NoDup_filter_ids, Hwf].
Qed.
End logs.

(** ** At concrete values *)

Definition demo_logs : Tables :=
  mkTables [] [mkLog 1 "a" "one" 10; mkLog 2 "b" "other" 10; mkLog 3 "a" "two" 11; mkLog 5 "a" "three" 12] [] [] [] [].

Lemma log_pages_complete_witness :
  exists out, reads (DB := MemDb) "a" 2 0 (mem_ready demo_logs) out /\ map LogEntry out = ["one"; "two"; "three"] /\
    Permutation out (List.filter (fun m => String.eqb (LogJobID m) "a") (logs_t demo_logs)).
Proof.
  assert (reads (DB := MemDb) "a" 2 0 (mem_ready demo_logs)
    [mkLog 1 "a" "one" 10; mkLog 3 "a" "two" 11; mkLog 5 "a" "three" 12]) as Hr.
  { eapply (reads_page "a" 2 0 (mem_ready demo_logs) _ [mkLog 1 "a" "one" 10; mkLog 3 "a" "two" 11] (mkLog 3 "a" "two" 11)
             [mkLog 5 "a" "three" 12]); [vm_compute; reflexivity|reflexivity|].
    eapply (reads_page "a" 2 3 _ _ [mkLog 5 "a" "three" 12] (mkLog 5 "a" "three" 12) []); [vm_compute; reflexivity|reflexivity|].
    eapply reads_end. vm_compute. reflexivity. }
  eexists. split; [exact Hr|]. split; [reflexivity|].
  refine (proj1 (log_pages_complete (DB := MemDb) "a" 2 (mem_ready demo_logs) _ _ Hr)).
  split; [by repeat constructor; set_solver|]. intros m Hm. cbn in Hm.
  apply list_elem_of_In in Hm. cbn in Hm. intuition (subst; reflexivity).
Defined.
