(* ===== verification/SqlSchema.v ===== *)
(** * Schema introspection and its cache
      ([src/sqlwrapper/schema.go], [src/datastore/sql_schema_cache.go],
      [src/agentstream/instructions/sql_schema.go])

    Listing the databases, tables and columns of a tenant's server over the
    connection pools of [Sql.v], and the rows of the cache over the store of
    [Db.v]. What the server answers on each connection and the JSON codec are
    parameters. *)
From stdpp Require Import gmap.
From S2P Require Import Prelude GoStrings Codec Db BuildJobs Sql.
Local Open Scope string_scope.
Local Open Scope Z_scope.

Record SchemaColumn := mkColumn {
  col_Name : string; DataType : string; IsNullable : bool; IsPrimaryKey : bool; DefaultValue : string
}.
Record SchemaTable := mkTable { tbl_Schema : string; tbl_Name : string; tbl_Columns : list SchemaColumn }.
Record SchemaDatabase := mkSchemaDb { sdb_Name : string; sdb_Tables : list SchemaTable }.
Record SchemaRequest := mkSchemaRequest { sr_Connection : ConnectionParams; Refresh : bool }.
Record SchemaResponse := mkSchemaResponse { Databases : list SchemaDatabase; FromCache : bool; sr_DurationMs : Z }.

(** ** [scanSchemaRows] *)

Record SchemaRow := mkSchemaRow {
  row_schema : string; row_table : string; row_col : string; row_type : string; row_nullable : string;
  row_default : string; row_pk : bool
}.

Abbreviation tableKey := (string * string)%type.
Definition row_key (r : SchemaRow) : tableKey := (row_schema r, row_table r).
Definition row_column (r : SchemaRow) : SchemaColumn :=
  mkColumn (row_col r) (row_type r) (String.eqb (row_nullable r) "YES") (row_pk r) (row_default r).

Definition add_column (c : SchemaColumn) (t : SchemaTable) : SchemaTable :=
  mkTable (tbl_Schema t) (tbl_Name t) (tbl_Columns t ++ [c])%list.

(** The loop over the rows: the order of the tables and the map of them. *)
Fixpoint scan_loop (rows : list (result string SchemaRow)) (order : list tableKey) (m : gmap tableKey SchemaTable) :
    result string (list tableKey * gmap tableKey SchemaTable) :=
  match rows with
  | [] => Ok (order, m)
  | Err e :: _ => Err ("failed to scan schema row: " ++ e)
  | Ok r :: rows =>
      let key := row_key r in
      let '(tbl, order) := match m !! key with
                           | Some tbl => (tbl, order)
                           | None => (mkTable (row_schema r) (row_table r) [], (order ++ [key])%list)
                           end in
      scan_loop rows order (<[key := add_column (row_column r) tbl]> m)
  end.

(** The rows a driver yields and [rows.Err()] after them. *)
Definition scanSchemaRows (rows : list (result string SchemaRow)) (rows_err : option string) : result string (list SchemaTable) :=
  match scan_loop rows [] ∅ with
  | Err e => Err e
  | Ok (order, m) => match rows_err with Some e => Err e | None => Ok (omap (fun k => m !! k) order) end
  end.

(** ** [FetchSchema] *)

(** What the server answers on an open connection. *)
Record SchemaEnv := mkSchemaEnv {
  list_databases : nat -> result string (list (result string string) * option string);
  table_rows : nat -> string -> result string (list (result string SchemaRow) * option string)
}.

Section fetch.
Context (cenv : ConnEnv) (env : SchemaEnv) (now : Z).

Definition fetch_tables (what : string) (d : nat) (databaseName : string) : result string (list SchemaTable) :=
  match table_rows env d databaseName with
  | Err e => Err ("failed to query " ++ what ++ " schema: " ++ e)
  | Ok (rows, err) => scanSchemaRows rows err
  end.
(** The Postgres query has no parameter: it reads the connected database. *)
Definition fetchPostgresTables (d : nat) : result string (list SchemaTable) := fetch_tables "postgres" d "".
Definition fetchMySQLTables (d : nat) (databaseName : string) : result string (list SchemaTable) :=
  fetch_tables "mysql" d databaseName.

Fixpoint scan_names (rows : list (result string string)) : result string (list string) :=
  match rows with
  | [] => Ok []
  | Err e :: _ => Err ("failed to scan database name: " ++ e)
  | Ok n :: rows => match scan_names rows with Err e => Err e | Ok ns => Ok (n :: ns) end
  end.

Definition database_names (d : nat) : result string (list string) :=
  match list_databases env d with
  | Err e => Err ("failed to list databases: " ++ e)
  | Ok (rows, err) =>
      match scan_names rows with
      | Err e => Err e
      | Ok names => match err with Some e => Err e | None => Ok names end
      end
  end.

Definition with_database (p : ConnectionParams) (name : string) : ConnectionParams :=
  mkParams (Username p) (Password p) (Host p) (Port p) (DatabaseType p) name.

(** The databases one by one; one that cannot be read is left out. *)
Fixpoint postgres_each (p : ConnectionParams) (names : list string) (σ : PoolState) : list SchemaDatabase * PoolState :=
  match names with
  | [] => ([], σ)
  | n :: names =>
      match GetConnection cenv (with_database p n) now σ with
      | (Err _, σ) => postgres_each p names σ
      | (Ok d, σ) =>
          match fetchPostgresTables d with
          | Err _ => postgres_each p names σ
          | Ok tables => let '(dbs, σ) := postgres_each p names σ in (mkSchemaDb n tables :: dbs, σ)
          end
      end
  end.

Definition fetchPostgresSchema (p : ConnectionParams) (σ : PoolState) : result string (list SchemaDatabase) * PoolState :=
  if negb (String.eqb (DatabaseName p) "") then
    match GetConnection cenv p now σ with
    | (Err e, σ) => (Err ("failed to connect to database " ++ DatabaseName p ++ ": " ++ e), σ)
    | (Ok d, σ) =>
        match fetchPostgresTables d with
        | Err e => (Err e, σ)
        | Ok tables => (Ok [mkSchemaDb (DatabaseName p) tables], σ)
        end
    end
  else
    match GetConnection cenv (with_database p "postgres") now σ with
    | (Err e, σ) => (Err ("failed to connect to postgres database: " ++ e), σ)
    | (Ok d, σ) =>
        match database_names d with
        | Err e => (Err e, σ)
        | Ok names => let '(dbs, σ) := postgres_each p names σ in (Ok dbs, σ)
        end
    end.

Definition systemDBs : list string := ["information_schema"; "mysql"; "performance_schema"; "sys"].

Definition mysql_each (d : nat) (names : list string) : list SchemaDatabase :=
  omap (fun n => match fetchMySQLTables d n with Err _ => None | Ok tables => Some (mkSchemaDb n tables) end) names.

Definition fetchMySQLSchema (p : ConnectionParams) (σ : PoolState) : result string (list SchemaDatabase) * PoolState :=
  if negb (String.eqb (DatabaseName p) "") then
    match GetConnection cenv p now σ with
    | (Err e, σ) => (Err ("failed to connect to database " ++ DatabaseName p ++ ": " ++ e), σ)
    | (Ok d, σ) =>
        match fetchMySQLTables d (DatabaseName p) with
        | Err e => (Err e, σ)
        | Ok tables => (Ok [mkSchemaDb (DatabaseName p) tables], σ)
        end
    end
  else
    match GetConnection cenv p now σ with
    | (Err e, σ) => (Err ("failed to connect to mysql: " ++ e), σ)
    | (Ok d, σ) =>
        match database_names d with
        | Err e => (Err e, σ)
        | Ok names => (Ok (mysql_each d (List.filter (fun n => negb (existsb (String.eqb n) systemDBs)) names)), σ)
        end
    end.

Definition FetchSchema (p : ConnectionParams) (σ : PoolState) : result string (list SchemaDatabase) * PoolState :=
  if String.eqb (DatabaseType p) "postgres" then fetchPostgresSchema p σ
  else if String.eqb (DatabaseType p) "mysql" then fetchMySQLSchema p σ
  else (Err ("unsupported database type: " ++ DatabaseType p), σ).
End fetch.

(** ** The cache rows *)

Section cache.
Context {DB : Type} {DBI : Database DB}.

Definition has_conn (h : string) (m : SQLSchemaCacheModel) : bool := String.eqb (Db.ConnectionHash m) h.

Definition first_schema (h : string) : Stmt (option SQLSchemaCacheModel) :=
  fun _ t => (Ok (List.find (has_conn h) (schemas_t t)), t).

Definition GetSQLSchemaCache (h : string) : DB -> result string (option SQLSchemaCacheModel) * DB :=
  activeDB (fun gdb =>
    match stmt (first_schema h) gdb with
    | (Err e, gdb) => (Err ("failed to query schema cache: " ++ e), gdb)
    | (Ok m, gdb) => (Ok m, gdb)
    end).

(** INSERT .. ON CONFLICT (connection_hash) DO UPDATE; [now] is the clock of the
    process, the server's own is used on a conflict. *)
Definition upsert_schema (h json : string) (now : Z) : Stmt unit :=
  fun s t =>
    if existsb (has_conn h) (schemas_t t) then
      (Ok tt, set_schemas (update_where (has_conn h)
        (fun m => mkSchema (schema_row_id m) (Db.ConnectionHash m) json (SchemaCreatedAt m) (at_time s)) (schemas_t t)).1 t)
    else (Ok tt, set_schemas (insert_rows [fun i => mkSchema i h json (at_time s) now] s (schemas_t t)) t).

Definition UpsertSQLSchemaCache (h json : string) (now : Z) : DB -> result string unit * DB :=
  activeDB (fun gdb =>
    match stmt (upsert_schema h json now) gdb with
    | (Err e, gdb) => (Err ("failed to upsert schema cache: " ++ e), gdb)
    | (Ok _, gdb) => (Ok tt, gdb)
    end).

Definition delete_schema (h : string) : Stmt unit :=
  fun _ t => (Ok tt, set_schemas (List.filter (fun m => negb (has_conn h m)) (schemas_t t)) t).

Definition DeleteSQLSchemaCache (h : string) : DB -> result string unit * DB :=
  activeDB (fun gdb =>
    match stmt (delete_schema h) gdb with
    | (Err e, gdb) => (Err ("failed to delete schema cache: " ++ e), gdb)
    | (Ok _, gdb) => (Ok tt, gdb)
    end).

(** ** [SQLSchema] *)

Context (unmarshal_dbs : string -> option (list SchemaDatabase)) (marshal_dbs : list SchemaDatabase -> result string string).

(** The cached answer, if there is one that can be read. *)
Definition from_cache (h : string) (db : DB) : option (list SchemaDatabase) * DB :=
  match GetSQLSchemaCache h db with
  | (Ok (Some m), db) => (unmarshal_dbs (SchemaJSON m), db)
  | (_, db) => (None, db)
  end.

(** The handler up to the encoding of its answer. *)
Definition schema_outcome (cenv : ConnEnv) (env : SchemaEnv) (now duration : Z) (req : SchemaRequest) (σ : PoolState) (db : DB) :
    result string SchemaResponse * PoolState * DB :=
  match validateConnectionParams (sr_Connection req) with
  | Err e => (Err e, σ, db)
  | Ok _ =>
      let h := Sql.ConnectionHash (sha256_hex cenv) (sr_Connection req) in
      let '(cached, db) := if Refresh req then (None, db) else from_cache h db in
      match cached with
      | Some databases => (Ok (mkSchemaResponse databases true 0), σ, db)
      | None =>
          match FetchSchema cenv env now (sr_Connection req) σ with
          | (Err e, σ) => (Err ("schema fetch failed: " ++ e), σ, db)
          | (Ok databases, σ) =>
              let db := match marshal_dbs databases with
                        | Err _ => db
                        | Ok json => (UpsertSQLSchemaCache h json now db).2
                        end in
              (Ok (mkSchemaResponse databases false duration), σ, db)
          end
      end
  end.

Definition SQLSchema (decode : string -> result string SchemaRequest) (encode : SchemaResponse -> result string string)
    (cenv : ConnEnv) (env : SchemaEnv) (now duration : Z) (jsonB64 : string) (σ : PoolState) (db : DB) :
    string * string * option string * PoolState * DB :=
  match JsonB64Decode decode jsonB64 with
  | Err e => ("ERROR", "", Some e, σ, db)
  | Ok req =>
      match schema_outcome cenv env now duration req σ db with
      | (Err e, σ, db) => ("ERROR", "", Some e, σ, db)
      | (Ok resp, σ, db) =>
          match JsonB64Encode encode resp with
          | Err e => ("ERROR", "", Some e, σ, db)
          | Ok s => ("SQL_SCHEMA_RESPONSE", s, None, σ, db)
          end
      end
  end.
End cache.

(** ** Grouping *)

(** The tables in the order of their first row. *)
Definition first_keys (rows : list SchemaRow) : list tableKey :=
  fold_left (fun acc r => if decide (row_key r ∈ acc) then acc else (acc ++ [row_key r])%list) rows [].

(** A table with the columns of all its rows, in their order. *)
Definition table_of (rows : list SchemaRow) (k : tableKey) : SchemaTable :=
  mkTable k.1 k.2 (map row_column (List.filter (fun r => bool_decide (row_key r = k)) rows)).

Definition grouped (seen : list SchemaRow) (order : list tableKey) (m : gmap tableKey SchemaTable) : Prop :=
  order = first_keys seen /\ forall k, m !! k = if decide (k ∈ order) then Some (table_of seen k) else None.

Lemma first_keys_snoc seen r :
  first_keys (seen ++ [r]) = if decide (row_key r ∈ first_keys seen) then first_keys seen
                             else (first_keys seen ++ [row_key r])%list.
Proof. unfold first_keys. by rewrite fold_left_app. Qed.

Lemma table_of_snoc seen r k :
  table_of (seen ++ [r])%list k =
  if decide (row_key r = k) then add_column (row_column r) (table_of seen k) else table_of seen k.
Proof.
  unfold table_of, add_column. rewrite List.filter_app, map_app. cbn.
  case_decide as Hk; [by rewrite bool_decide_true|]. rewrite bool_decide_false by done. cbn. by rewrite app_nil_r.
Qed.

Lemma table_of_fresh seen k : k ∉ first_keys seen -> table_of seen k = mkTable k.1 k.2 [].
Proof.
  induction seen as [|r seen IH] using rev_ind; intros Hk; [done|].
  rewrite first_keys_snoc in Hk. rewrite table_of_snoc.
  destruct (decide (row_key r ∈ first_keys seen)), (decide (row_key r = k)) as [<-|]; try done; [by apply IH|..].
  - destruct Hk. apply elem_of_app. right. by apply list_elem_of_singleton.
  - apply IH. intros Hin. apply Hk, elem_of_app. by left.
Qed.

Lemma scan_loop_ok rows seen order m :
  grouped seen order m ->
  exists m', scan_loop (map Ok rows) order m = Ok (first_keys (seen ++ rows), m') /\
    grouped (seen ++ rows) (first_keys (seen ++ rows)) m'.
Proof.
  revert seen order m. induction rows as [|r rows IH]; intros seen order m Hg.
  { rewrite app_nil_r. destruct Hg as [-> Hm]. by exists m. }
  cbn [map scan_loop]. destruct Hg as [-> Hm].
  replace (seen ++ r :: rows)%list with ((seen ++ [r]) ++ rows)%list by (by rewrite <-app_assoc).
  rewrite (Hm (row_key r)). destruct (decide (row_key r ∈ first_keys seen)) as [Hin|Hin].
  all: apply IH; split; [rewrite first_keys_snoc; by case_decide|]; intros k; rewrite table_of_snoc.
  - destruct (decide (row_key r = k)) as [<-|Hne]; [|by rewrite lookup_insert_ne, Hm].
    rewrite lookup_insert_eq. by case_decide.
  - destruct (decide (row_key r = k)) as [<-|Hne].
    + rewrite lookup_insert_eq. case_decide as Hd; [by rewrite table_of_fresh|].
      destruct Hd. apply elem_of_app. right. by apply list_elem_of_singleton.
    + rewrite lookup_insert_ne, Hm by done.
      destruct (decide (k ∈ first_keys seen)) as [H1|H1], (decide (k ∈ (first_keys seen ++ [row_key r])%list)) as [H2|H2]; try done.
      * destruct H2. apply elem_of_app. by left.
      * apply elem_of_app in H2 as [?|?%list_elem_of_singleton]; [done|by subst].
Qed.

(** Grouping the rows of a schema in one pass over a map is the same as
    listing the tables in the order they first appear and giving each the columns
    of its rows, in their order: no column is lost, moved or repeated, even if
    the rows of a table are not next to each other. A row that cannot be read, or
    an error after the last one, makes the whole result an error. *)
Theorem scanSchemaRows_groups rows :
  scanSchemaRows (map Ok rows) None = Ok (map (table_of rows) (first_keys rows)) /\
  (forall e, scanSchemaRows (map Ok rows) (Some e) = Err e) /\
  (forall e rest err, is_ok (scanSchemaRows (map Ok rows ++ Err e :: rest) err) = false).
Proof.
  destruct (scan_loop_ok rows [] [] ∅) as (m & Hs & _ & Hm); [by split|]. cbn [app] in *.
  split_and!.
  - unfold scanSchemaRows. rewrite Hs. f_equal.
    assert (forall l, (forall k, k ∈ l -> k ∈ first_keys rows) -> omap (fun k => m !! k) l = map (table_of rows) l) as Hl.
    { induction l as [|k l IH]; intros Hin; [done|]. cbn. rewrite Hm.
      destruct (decide (k ∈ first_keys rows)) as [_|Hn]; [|by destruct Hn; apply Hin; constructor].
      f_equal. apply IH. intros k' Hk'. apply Hin. by constructor. }
    by apply Hl.
  - intros e. unfold scanSchemaRows. by rewrite Hs.
  - intros e rest err. unfold scanSchemaRows.
    assert (forall order mp, exists msg, scan_loop (map Ok rows ++ Err e :: rest) order mp = Err msg) as Hbad.
    { clear. induction rows as [|r rows IH]; intros order mp; cbn; [by eexists|].
      destruct (mp !! row_key r); apply IH. }
    destruct (Hbad [] ∅) as [msg ->]. done.
Qed.

(** ** The pools stay in step *)

Lemma postgres_each_wf cenv env now p names σ :
  pool_wf σ -> pool_wf (postgres_each cenv env now p names σ).2.
Proof.
  revert σ. induction names as [|n names IH]; intros σ Hwf; [done|]. cbn.
  pose proof (GetConnection_result cenv (with_database p n) now σ Hwf) as Hr.
  destruct (GetConnection _ _ _ σ) as [[d|] σ1]; destruct Hr as [Hwf1 _]; [|by apply IH].
  destruct (fetchPostgresTables env d); [|by apply IH].
  specialize (IH σ1 Hwf1). by destruct (postgres_each _ _ _ _ _ σ1).
Qed.

(** Introspection only goes through the pools: every connection it opens is
    pooled, and none is leaked, however many databases fail. *)
Lemma FetchSchema_wf cenv env now p σ : pool_wf σ -> pool_wf (FetchSchema cenv env now p σ).2.
Proof.
  intros Hwf. unfold FetchSchema, fetchPostgresSchema, fetchMySQLSchema.
  pose proof (GetConnection_result cenv p now σ Hwf) as Hr.
  pose proof (GetConnection_result cenv (with_database p "postgres") now σ Hwf) as Hr'.
  destruct (String.eqb (DatabaseType p) "postgres"), (String.eqb (DatabaseName p) ""); cbn [negb].
  2,3,4: destruct (GetConnection _ p _ σ) as [[d|] σ1]; destruct Hr as [Hwf1 _]; repeat case_match; by simplify_eq/=.
  destruct (GetConnection _ (with_database p "postgres") _ σ) as [[d|] σ1]; destruct Hr' as [Hwf1 _]; [|done].
  destruct (database_names env d) as [names|]; [|done].
  pose proof (postgres_each_wf cenv env now p names σ1 Hwf1). by destruct (postgres_each _ _ _ _ _ σ1).
Qed.

(** ** The cache answers what was fetched *)

Section laws.
Context {DB : Type} {DBI : Database DB} {DBL : DatabaseLaws DB}.

Lemma find_update (h : string) f (rows : list SQLSchemaCacheModel) :
  (forall m, Db.ConnectionHash (f m) = Db.ConnectionHash m) ->
  List.find (has_conn h) (update_where (has_conn h) f rows).1 = f <$> List.find (has_conn h) rows.
Proof.
  intros Hf. cbn. induction rows as [|m rows IH]; [done|]. cbn. destruct (has_conn h m) eqn:Hm.
  - assert (has_conn h (f m) = true) as -> by (unfold has_conn in *; by rewrite Hf). done.
  - by rewrite Hm.
Qed.

Lemma find_none_snoc (h : string) (rows : list SQLSchemaCacheModel) x :
  existsb (has_conn h) rows = false -> has_conn h x = true -> List.find (has_conn h) (rows ++ [x])%list = Some x.
Proof. induction rows as [|m rows IH]; cbn; [by intros _ ->|]. destruct (has_conn h m); [done|]. exact IH. Qed.

Lemma upsert_found h json now (db : DB) :
  match UpsertSQLSchemaCache h json now db with
  | (Ok _, db') => exists m, List.find (has_conn h) (schemas_t (tables db')) = Some m /\ SchemaJSON m = json
  | (Err _, db') => tables db' = tables db
  end.
Proof using DBL.
  unfold UpsertSQLSchemaCache, activeDB. destruct (handle db); [|done].
  stmt_cases (upsert_schema h json now) db; [|done].
  unfold upsert_schema in *. destruct (existsb (has_conn h) (schemas_t (tables db))) eqn:He; cbn -[update_where] in *.
  - rewrite Htab. cbn -[update_where]. rewrite find_update by done. apply existsb_exists in He as (m & Hin & Hm).
    destruct (List.find (has_conn h) (schemas_t (tables db))) as [m'|] eqn:Hf; [cbn; eauto|].
    by rewrite (List.find_none _ _ Hf _ Hin) in Hm.
  - rewrite Htab. cbn. unfold insert_rows. cbn. eexists.
    split; [apply find_none_snoc; [done|unfold has_conn; cbn; apply String.eqb_refl]|done].
Qed.

Lemma get_found h (db : DB) :
  match GetSQLSchemaCache h db with
  | (Ok m, db') => m = List.find (has_conn h) (schemas_t (tables db)) /\ tables db' = tables db
  | (Err _, db') => tables db' = tables db
  end.
Proof using DBL.
  unfold GetSQLSchemaCache, activeDB. destruct (handle db); [|done]. stmt_cases (first_schema h) db; done.
Qed.

Context (unmarshal_dbs : string -> option (list SchemaDatabase)) (marshal_dbs : list SchemaDatabase -> result string string).

(** A schema that was fetched is served from the cache afterwards: unless the
    write to the cache failed, the next request for the same connection that does
    not ask for a refresh gets the same databases, marked as cached, without
    touching any connection, whatever the server would answer now (or the look-up
    itself fails). A request for a refresh never gets a cached answer. The
    hypothesis is that the JSON of a schema reads back as that schema. *)
Theorem schema_cache_spec cenv env now duration req (σ σ1 : PoolState) (db db1 : DB) resp :
  (forall json, marshal_dbs (Databases resp) = Ok json -> unmarshal_dbs json = Some (Databases resp)) ->
  schema_outcome unmarshal_dbs marshal_dbs cenv env now duration req σ db = (Ok resp, σ1, db1) ->
  (Refresh req = true -> FromCache resp = false) /\
  (FromCache resp = false ->
   tables db1 = tables db \/
   forall env' now' duration' σ',
     let h := Sql.ConnectionHash (sha256_hex cenv) (sr_Connection req) in
     let '(r, σ2, db2) := schema_outcome unmarshal_dbs marshal_dbs cenv env' now' duration'
                            (mkSchemaRequest (sr_Connection req) false) σ' db1 in
     (r = Ok (mkSchemaResponse (Databases resp) true 0) /\ σ2 = σ' /\ tables db2 = tables db1) \/
     is_ok (GetSQLSchemaCache h db1).1 = false).
Proof using DBL.
  intros Hjson. unfold schema_outcome. cbn [sr_Connection Refresh].
  destruct (validateConnectionParams (sr_Connection req)) as [[]|]; [|done].
  set (h := Sql.ConnectionHash (sha256_hex cenv) (sr_Connection req)).
  assert (exists cached db0, (if Refresh req then (None, db) else from_cache unmarshal_dbs h db) = (cached, db0) /\
    tables db0 = tables db /\ (Refresh req = true -> cached = None)) as (cached & db0 & -> & Ht0 & Href).
  { destruct (Refresh req); [by exists None, db|]. unfold from_cache. pose proof (get_found h db) as Hg.
    destruct (GetSQLSchemaCache h db) as [[[m|]|] db']; eexists _, _; (split; [reflexivity|]); naive_solver. }
  destruct cached as [dbs|].
  { intros [= <- <- <-]. split; [by intros ?%Href|done]. }
  destruct (FetchSchema cenv env now (sr_Connection req) σ) as [[dbs|] σ']; [|done].
  intros [= <- <- <-]. split; [done|]. intros _. cbn [Databases] in *.
  destruct (marshal_dbs dbs) as [json|]; [|by left]. specialize (Hjson json eq_refl).
  pose proof (upsert_found h json now db0) as Hu. destruct (UpsertSQLSchemaCache h json now db0) as [[u|] db2]; cbn [snd].
  2:{ left. by rewrite Hu. }
  right. intros env' now' duration' σ2. destruct Hu as (m & Hf & Hm). unfold from_cache.
  pose proof (get_found h db2) as Hg. destruct (GetSQLSchemaCache h db2) as [[x|] db3]; cbn [fst is_ok].
  - destruct Hg as [-> Ht]. rewrite Hf, Hm, Hjson. by left.
  - destruct (FetchSchema cenv env' now' (sr_Connection req) σ2) as [[?|] ?]; by right.
Qed.
End laws.

(** ** At concrete values *)

Definition demo_schema : list SchemaDatabase := [mkSchemaDb "a" [mkTable "public" "t" [mkColumn "id" "int" false true ""]]].
Definition demo_schema_env : SchemaEnv := mkSchemaEnv
  (fun _ => Ok ([Ok "a"; Ok "b"], None))
  (fun _ _ => Ok ([Ok (mkSchemaRow "public" "t" "id" "int" "NO" "" true)], None)).
(** A server where only some of the connections answer. *)
Definition demo_conn (up : nat -> bool) : ConnEnv :=
  mkConnEnv (fun s => "sha:" ++ s) (fun _ _ _ _ d => d) (fun _ _ => None)
    (fun d => if up d then None else Some "connection refused").
Definition demo_schema_req : SchemaRequest := mkSchemaRequest (mkParams "u" "p" "h" 5432 "postgres" "") false.
Definition demo_unmarshal (s : string) : option (list SchemaDatabase) := if String.eqb s "J" then Some demo_schema else None.

(** A database that cannot be reached is left out of the answer, and the answer
    without it is what the cache then serves, also once it can be reached. *)
Lemma partial_schema_cached :
  let '(r, σ, db) := schema_outcome demo_unmarshal (fun _ => Ok "J") (demo_conn (fun d => (d <? 2)%nat)) demo_schema_env
                       5 7 demo_schema_req pools_init (mem_ready empty_tables) in
  r = Ok (mkSchemaResponse demo_schema false 7) /\
  (schema_outcome demo_unmarshal (fun _ => Ok "J") (demo_conn (fun _ => true)) demo_schema_env 6 7 demo_schema_req σ db).1.1
  = Ok (mkSchemaResponse demo_schema true 0).
Proof. vm_compute. split; reflexivity. Qed.

Lemma schema_cache_spec_witness :
  let x := schema_outcome demo_unmarshal (fun _ => Ok "J") (demo_conn (fun d => (d <? 2)%nat)) demo_schema_env
                       5 7 demo_schema_req pools_init (mem_ready empty_tables) in
  x.1.1 = Ok (mkSchemaResponse demo_schema false 7) /\
  (false = true -> false = false) /\
  (tables x.2 = empty_tables \/
   forall env' now' duration' σ',
     let '(r, σ2, db2) := schema_outcome demo_unmarshal (fun _ => Ok "J") (demo_conn (fun d => (d <? 2)%nat)) env' now' duration'
                            demo_schema_req σ' x.2 in
     (r = Ok (mkSchemaResponse demo_schema true 0) /\ σ2 = σ' /\ tables db2 = tables x.2) \/
     is_ok (GetSQLSchemaCache (Sql.ConnectionHash (fun s => "sha:" ++ s) (sr_Connection demo_schema_req)) x.2).1 = false).
Proof.
  intros x. assert (x.1.1 = Ok (mkSchemaResponse demo_schema false 7)) as Hx by (vm_compute; reflexivity).
  split; [exact Hx|].
  pose proof (schema_cache_spec demo_unmarshal (fun _ => Ok "J") (demo_conn (fun d => (d <? 2)%nat)) demo_schema_env 5 7
    demo_schema_req pools_init x.1.2 (mem_ready empty_tables) x.2 (mkSchemaResponse demo_schema false 7)) as Ht.
  fold x in Ht. clearbody x. destruct x as [[r σ] db]. cbn in Hx. subst r.
  destruct Ht as [H1 H2]; [by intros json [= <-]|reflexivity|].
  split; [exact H1|exact (H2 eq_refl)].
Defined.
