(* ===== verification/StreamLife.v ===== *)
(** * The life of the control stream
      ([src/agentstream/agent.go], [establishAndMaintainStream],
      [listenForInstructions])

    One round of the reconnect loop of [Retry.v]: a stream is opened, published
    for the senders, served until its listener or its heartbeat ends, and taken
    down. Senders and the health endpoint look at the shared variables between
    any two of these steps, so the round is a step relation; the answers of gRPC
    are its nondeterminism. *)
From stdpp Require Import gmap.
From S2P Require Import Prelude GoStrings AgentStream.
Local Open Scope string_scope.

(** ** Receiving *)

(** What [stream.Recv] can answer. *)
Inductive Recv := RecvMsg (m : Msg) | RecvEOF | RecvCanceled | RecvErr (e : string).

(** The instructions started, in order, and the error the listener ends with;
    [None] while it is still waiting. *)
Fixpoint listenForInstructions (answers : list Recv) : list Msg * option string :=
  match answers with
  | [] => ([], None)
  | RecvMsg m :: answers => let '(ms, e) := listenForInstructions answers in (m :: ms, e)
  | RecvEOF :: _ => ([], Some "server closed the stream")
  | RecvCanceled :: _ => ([], Some "stream was canceled")
  | RecvErr e :: _ => ([], Some ("error receiving instruction: " ++ e))
  end.

(** ** The round *)

(** Where [establishAndMaintainStream] is, with its stream. *)
Inductive Place :=
| Idle
| Opened (s : nat)        (* ClusterAgentStream returned it *)
| Published (s : nat)     (* globalStream is set *)
| Connected (s : nat)     (* streamConnected is set *)
| Serving (s : nat)       (* the two goroutines run *)
| Cancelled (s : nat)     (* one of them ended; cancelStream was called *)
| Disconnected (s : nat)  (* streamConnected is cleared *)
| Cleared (s : nat).      (* globalStream is cleared; the pending responses go *)

Record Link := mkLink {
  place : Place;
  globalStream : option nat;
  streamConnected : bool;
  live : gset nat;              (* streams whose context is not cancelled *)
  callback_set : bool;
  once_done : bool;
  callback_runs : nat;
  opened_streams : nat
}.

Definition link_init (callback : bool) : Link := mkLink Idle None false ∅ callback false 0 0.

(** [onConnectOnce.Do], when there is a callback. *)
Definition run_callback (l : Link) : Link :=
  if callback_set l && negb (once_done l) then
    mkLink (place l) (globalStream l) (streamConnected l) (live l) (callback_set l) true (S (callback_runs l)) (opened_streams l)
  else l.

Definition at_place (p : Place) (l : Link) : Link :=
  mkLink p (globalStream l) (streamConnected l) (live l) (callback_set l) (once_done l) (callback_runs l) (opened_streams l).

Inductive link_step : Link -> Link -> Prop :=
(* the stream cannot be created: the error is returned, its context cancelled *)
| lk_open_failed l : place l = Idle -> link_step l l
| lk_open l : place l = Idle ->
    link_step l (mkLink (Opened (opened_streams l)) (globalStream l) (streamConnected l) ({[opened_streams l]} ∪ live l)
                   (callback_set l) (once_done l) (callback_runs l) (S (opened_streams l)))
| lk_publish l s : place l = Opened s ->
    link_step l (mkLink (Published s) (Some s) (streamConnected l) (live l) (callback_set l) (once_done l) (callback_runs l) (opened_streams l))
| lk_connected l s : place l = Published s ->
    link_step l (mkLink (Connected s) (globalStream l) true (live l) (callback_set l) (once_done l) (callback_runs l) (opened_streams l))
| lk_callback l s : place l = Connected s -> link_step l (at_place (Serving s) (run_callback l))
(* err = <-errChan; cancelStream() *)
| lk_cancel l s : place l = Serving s ->
    link_step l (mkLink (Cancelled s) (globalStream l) (streamConnected l) (live l ∖ {[s]}) (callback_set l) (once_done l)
                   (callback_runs l) (opened_streams l))
| lk_disconnected l s : place l = Cancelled s ->
    link_step l (mkLink (Disconnected s) (globalStream l) false (live l) (callback_set l) (once_done l) (callback_runs l) (opened_streams l))
| lk_clear l s : place l = Disconnected s ->
    link_step l (mkLink (Cleared s) None (streamConnected l) (live l) (callback_set l) (once_done l) (callback_runs l) (opened_streams l))
| lk_return l s : place l = Cleared s -> link_step l (at_place Idle l).

(** ** What holds between any two steps *)

(** The streams, the published one and the flag, by the place in the code. *)
Definition shared_at (p : Place) : gset nat * option nat * bool :=
  match p with
  | Idle => (∅, None, false)
  | Opened s => ({[s]}, None, false)
  | Published s => ({[s]}, Some s, false)
  | Connected s | Serving s => ({[s]}, Some s, true)
  | Cancelled s => (∅, Some s, true)
  | Disconnected s => (∅, Some s, false)
  | Cleared s => (∅, None, false)
  end.

(** The callback has had its turn: a stream has got as far as serving. *)
Definition served (l : Link) : Prop :=
  match place l with
  | Idle => opened_streams l <> 0%nat
  | Opened _ | Published _ | Connected _ => (1 < opened_streams l)%nat
  | _ => True
  end.

Record link_inv (l : Link) : Prop := {
  li_shared : (live l, globalStream l, streamConnected l) = shared_at (place l);
  li_opened : place l <> Idle -> opened_streams l <> 0%nat;
  li_once : callback_runs l = if callback_set l && once_done l then 1%nat else 0%nat;
  li_set : once_done l = true -> callback_set l = true;
  li_served : callback_set l = true -> served l -> once_done l = true
}.

Lemma link_init_inv b : link_inv (link_init b).
Proof. by split; cbn; [..|intros _ []]; rewrite ?andb_false_r. Qed.

Lemma link_step_inv l l' : link_step l l' -> link_inv l -> link_inv l'.
Proof.
  intros Hs [Hsh Ho Hon Hset Hsv]. unfold served in *. destruct Hs as [l Hp|l Hp|l s Hp|l s Hp|l s Hp|l s Hp|l s Hp|l s Hp|l s Hp];
    rewrite Hp in *; cbn in Hsh; injection Hsh as Hl Hg Hc.
  - split; unfold served; rewrite ?Hp; cbn; [by rewrite Hl, Hg, Hc|by auto..].
  - split; unfold served; cbn; [rewrite Hl, Hg, Hc; by rewrite union_empty_r_L|by auto..|].
    intros Hcb Hlt. apply Hsv; [done|]. lia.
  - split; unfold served; cbn; [by rewrite Hl, Hc|by auto..].
  - split; unfold served; cbn; [by rewrite Hl, Hg|by auto..].
  - unfold run_callback. destruct (callback_set l) eqn:Hcb, (once_done l) eqn:Hd; cbn in *;
      (split; unfold served; cbn; rewrite ?Hcb, ?Hd; cbn; [by rewrite Hl, Hg, Hc|by auto|by rewrite ?Hon|by auto|by auto]).
  - split; unfold served; cbn; [rewrite Hl, Hg, Hc; by rewrite difference_diag_L|by auto..].
  - split; unfold served; cbn; [by rewrite Hl, Hg|by auto..].
  - split; unfold served; cbn; [by rewrite Hl, Hc|by auto..].
  - split; unfold served; cbn; [by rewrite Hl, Hg, Hc|by auto..].
Qed.

Lemma link_step_callback l l' : link_step l l' -> callback_set l' = callback_set l.
Proof. intros []; cbn; try done. unfold run_callback. by destruct (_ && _). Qed.

Lemma link_reach l l' : rtc link_step l l' -> link_inv l -> link_inv l' /\ callback_set l' = callback_set l.
Proof.
  induction 1 as [|x y z Hxy _ IH]; intros Hi; [done|]. destruct IH as [Hz Hc]; [by eapply link_step_inv|].
  split; [done|]. rewrite Hc. by apply link_step_callback.
Qed.

(** C24: Between any two steps of the stream's life, over any number of
    reconnects: at most one stream has a live context; senders find a stream
    whenever the agent reports itself connected, and none is left when a round
    has returned; and the connect callback runs at most once, and has run once a
    stream was served. *)
Theorem stream_lifecycle callback l :
  rtc link_step (link_init callback) l ->
  (size (live l) <= 1)%nat /\
  (streamConnected l = true -> is_Some (globalStream l)) /\
  (place l = Idle -> globalStream l = None /\ streamConnected l = false /\ live l = ∅) /\
  (callback_runs l <= 1)%nat /\
  (callback = true -> served l -> callback_runs l = 1%nat).
Proof.
  intros Hr. destruct (link_reach _ _ Hr (link_init_inv callback)) as [[Hsh _ Hon _ Hsv] Hcb].
  cbn in Hcb. pose proof (f_equal (fun x => x.1.1) Hsh) as Hl. pose proof (f_equal (fun x => x.1.2) Hsh) as Hg.
  pose proof (f_equal snd Hsh) as Hc. cbn [fst snd] in Hl, Hg, Hc. rewrite Hl, Hg, Hc, Hon, Hcb.
  split_and!.
  - destruct (place l); cbn; rewrite ?size_empty, ?size_singleton; lia.
  - destruct (place l); cbn; by eauto.
  - by intros ->.
  - destruct (callback && once_done l); lia.
  - intros -> Hs. by rewrite (Hsv Hcb Hs).
Qed.

(** The listener starts every instruction that arrives before the stream
    ends, once and in order, and ends exactly when the stream does, with an error
    in every case: a stream is never given up silently. *)
Theorem listen_spec answers :
  let '(started, e) := listenForInstructions answers in
  exists n, started = omap (fun a => match a with RecvMsg m => Some m | _ => None end) (take n answers) /\
    Forall (fun a => match a with RecvMsg _ => True | _ => False end) (take n answers) /\
    match e with
    | None => n = length answers
    | Some _ => exists a, answers !! n = Some a /\ match a with RecvMsg _ => False | _ => True end
    end.
Proof.
  induction answers as [|a answers IH]; cbn; [by exists 0%nat|].
  destruct a as [m| | |e].
  - destruct (listenForInstructions answers) as [ms e]. destruct IH as (n & -> & Hf & He).
    exists (S n). cbn. split_and!; [done|by constructor|]. destruct e; [done|by rewrite He].
  - exists 0%nat. cbn. split_and!; [done|constructor|by eexists].
  - exists 0%nat. cbn. split_and!; [done|constructor|by eexists].
  - exists 0%nat. cbn. split_and!; [done|constructor|by eexists].
Qed.

(** ** A run with one reconnect *)

Ltac next_link :=
  cbn [place globalStream streamConnected live callback_set once_done callback_runs opened_streams
       link_init at_place run_callback andb negb].

Lemma demo_reconnect : exists l, rtc link_step (link_init true) l /\ place l = Opened 1 /\ callback_runs l = 1%nat.
Proof.
  eexists. split.
  - eapply rtc_l; [by apply lk_open|next_link]. eapply rtc_l; [by apply lk_publish|next_link].
    eapply rtc_l; [by apply lk_connected|next_link]. eapply rtc_l; [by eapply lk_callback|next_link].
    eapply rtc_l; [by eapply lk_cancel|next_link]. eapply rtc_l; [by eapply lk_disconnected|next_link].
    eapply rtc_l; [by eapply lk_clear|next_link]. eapply rtc_l; [by eapply lk_return|next_link].
    eapply rtc_l; [by apply lk_open|next_link]. apply rtc_refl.
  - split; reflexivity.
Qed.

Lemma stream_lifecycle_witness :
  exists l, rtc link_step (link_init true) l /\ place l = Opened 1 /\ callback_runs l = 1%nat /\ (size (live l) <= 1)%nat.
Proof.
  destruct demo_reconnect as (l & Hr & Hp & Hc). exists l. split; [exact Hr|]. split; [exact Hp|]. split; [exact Hc|].
  exact (proj1 (stream_lifecycle true l Hr)).
Defined.
