(* ===== verification/ControlLink.v ===== *)
(** * The control link over the lives of the agent
      ([src/agentstream/agent.go] [Start], [runWithReconnect];
       [src/agentstream/certmonitor.go] [renewCert];
       [src/agentstream/nodeward_l2sec.go])

    [Start] composes [Bootstrap.v], the certificate monitor of [Certs.v] and the
    reconnect loop around the stream of [StreamLife.v]. The monitor and the loop
    run side by side and share [clusterAgentTLS], and Kubernetes starts the
    process again whenever it ends, on the Secrets it left. A step is a start, a
    step of the stream, a dial of the loop, one of the three effects of a
    renewal, a change by somebody else, or the end of the process at any of these
    points. Every exchange with the control plane is recorded ([history], which no
    step reads). *)
From stdpp Require Import gmap.
From S2P Require Import Prelude GoStrings Retry Kube KubeObjects Certs Bootstrap StreamLife.
Local Open Scope string_scope.
Local Open Scope Z_scope.

(** ** The gRPC service config *)

(** [nodewardServiceConfig]: the methods with a retry policy, and the policy. *)
Record RetryPolicy := mkPolicy {
  maxAttempts : Z; initialBackoff : Z; maxBackoff : Z; backoffMultiplier : Z; retryableStatusCodes : list string }.
Record MethodConfig := mkMethodConfig { mc_names : list (string * string); mc_retry : RetryPolicy }.

Definition nodewardServiceConfig : list MethodConfig :=
  [mkMethodConfig
     [("runos.nodeward.proto.l2sec.Nodeward", "GetControlPlaneNodes");
      ("runos.nodeward.proto.l2sec.Nodeward", "GetInstallVpnCommands")]
     (mkPolicy 4 (Second / 2) (5 * Second) 2 ["UNAVAILABLE"])].

(** The policy gRPC finds for a full method name, [/service/method]; the config
    has no entry for a whole service. *)
Definition policy_of (cfg : list MethodConfig) (fullMethod : string) : option RetryPolicy :=
  mc_retry <$> List.find (fun mc => existsb (fun '(s, m) => String.eqb fullMethod ("/" ++ s ++ "/" ++ m)) (mc_names mc)) cfg.

(** The attempts of one call whose every answer is UNAVAILABLE. *)
Definition attempts_of (fullMethod : string) : Z :=
  match policy_of nodewardServiceConfig fullMethod with Some p => maxAttempts p | None => 1 end.

(** A call that mints a certificate goes out once. *)
Lemma minting_not_retried :
  attempts_of RegenerateCertificate_method = 1 /\ attempts_of GetClusterAgentCredentials_method = 1 /\
  attempts_of "/runos.nodeward.proto.l2sec.Nodeward/GetControlPlaneNodes" = 4.
Proof. vm_compute. auto. Qed.

(** The transport's own waits inside one dial. *)
Record ConnectParams := mkConnectParams { BaseDelay : Z; Multiplier : Z; Jitter : Z; MaxDelay : Z; MinConnectTimeout : Z }.
Definition connectParams : ConnectParams := mkConnectParams (Second / 2) 2 1 (15 * Second) (20 * Second).

(** gRPC's schedule: the delay before retry [n] doubles up to the cap and is
    spread over [1 - Jitter, 1 + Jitter] times itself; the first is unspread. *)
Definition transport_delay (p : ConnectParams) (n : nat) : Z := Z.min (BaseDelay p * Multiplier p ^ Z.of_nat n) (MaxDelay p).
Definition transport_window (p : ConnectParams) (n : nat) : Z * Z :=
  match n with
  | O => (BaseDelay p, BaseDelay p)
  | S _ => let d := transport_delay p n in (d * (1 - Jitter p), d * (1 + Jitter p))
  end.

(** Full jitter from the second wait on, under a cap that doubles up to thirty
    seconds. *)
Lemma transport_full_jitter n :
  (0 < n)%nat ->
  transport_window connectParams n = (0, Z.min (Second * 2 ^ Z.of_nat n) (30 * Second)).
Proof.
  intros Hn. destruct n as [|n]; [lia|]. unfold transport_window, transport_delay, connectParams.
  cbn [BaseDelay Multiplier Jitter MaxDelay MinConnectTimeout]. f_equal; [lia|].
  change (Second / 2) with 500000000. unfold Second. set (x := 2 ^ Z.of_nat (S n)). lia.
Qed.

(** ** The process and its lives *)

(** Where [renewCert] is: about to dial; with new credentials from the server;
    with the Secret written and the memory not yet. *)
Inductive Renewal := RenewIdle | RenewMinted (t : TLSData) | RenewStored (t : TLSData).

(** Whose turn it is in [reconnectLoop]. *)
Inductive Turn := Establish | Redial.

Record Up := mkUp {
  up_host : string;
  up_renewal : Renewal;
  up_turn : Turn;
  up_link : Link
}.

Section life.
Context (C : CryptoEnv) {K : Type} `{KubeApi K} {E : Type} `{EF : ErrorFacts E}.
Context (other malformed : string -> E).
(** [main] has set the callback. *)
Context (callback : bool).

(** An exchange with the control plane that brought credentials: by which
    method, what the agent presented, and what the exchange met. *)
Record Exchange := mkExchange { ex_method : string; ex_presented : TLSData; ex_env : MintEnv }.

(** [memory]: [clusterAgentTLS], of the last process that had one; [dials]: the
    credentials of every dial of a process that is or was up; [history]: the
    exchanges of all lives; both newest first. *)
Record Life := mkLife {
  st_cluster : K;
  st_up : option Up;
  memory : option TLSData;
  dials : list TLSData;
  history : list Exchange
}.

Definition first_life (k : K) : Life := mkLife k None None [] [].

(** Nobody else removes the two Secrets, or rewrites one that is filled; this
    leaves out an instruction of the control plane that writes a file into one
    of them. *)
Definition boot_ok (B : BootEnv (K := K)) : Prop := forall d k, keeps k (others B d k).

(** The mintings of a start. *)
Definition boot_exchanges (B : BootEnv (K := K)) (s : BState (K := K)) : list Exchange :=
  (fun '(n, p) => mkExchange GetClusterAgentCredentials_method p (mint_env (server B n))) <$> exchanges s.

Definition set_cluster k (s : Life) : Life := mkLife k (st_up s) (memory s) (dials s) (history s).
Definition set_up u (s : Life) : Life := mkLife (st_cluster s) (Some u) (memory s) (dials s) (history s).
Definition with_renewal r (u : Up) : Up := mkUp (up_host u) r (up_turn u) (up_link u).

(** The turn after a step of the stream: a round that has ended has failed,
    since neither goroutine ends without an error. *)
Definition turn_after (l : Link) : Turn := match place l with Idle => Redial | _ => Establish end.

Inductive life_step : Life -> Life -> Prop :=
| life_start s B fuel n sm s' :
    st_up s = None -> boot_ok B ->
    bootstrap C other malformed B fuel (mkBState (st_cluster s) n []) = (Returned sm, s') ->
    life_step s (mkLife (cluster s') (Some (mkUp (sm_serverHost sm) RenewIdle Establish (link_init callback)))
                   (Some (clusterAgentTLS sm)) (clusterAgentTLS sm :: dials s) (boot_exchanges B s' ++ history s)%list)
(* log.Fatalf, or the pod was killed while it retried *)
| life_start_failed s B fuel n r s' :
    st_up s = None -> boot_ok B ->
    bootstrap C other malformed B fuel (mkBState (st_cluster s) n []) = (r, s') -> (forall sm, r <> Returned sm) ->
    life_step s (mkLife (cluster s') (st_up s) (memory s) (dials s) (boot_exchanges B s' ++ history s)%list)
| life_stream s u l :
    st_up s = Some u -> up_turn u = Establish -> link_step (up_link u) l ->
    life_step s (set_up (mkUp (up_host u) (up_renewal u) (turn_after l) l) s)
| life_redial s u t dialed r :
    st_up s = Some u -> up_turn u = Redial -> memory s = Some t ->
    ConnectToServer C t (up_host u) dialed = r ->
    life_step s (mkLife (st_cluster s) (Some (mkUp (up_host u) (up_renewal u) Establish (up_link u))) (memory s) (t :: dials s) (history s))
| life_mint s u t R t' now forced :
    st_up s = Some u -> up_renewal u = RenewIdle -> memory s = Some t ->
    forced || renewal_due C t now = true ->
    is_ok (ConnectToServer C t (up_host u) (Certs.dialed R)) = true ->
    requestRenewedCertificate C (mint_env R) t = Ok t' ->
    life_step s (mkLife (st_cluster s) (Some (with_renewal (RenewMinted t') u)) (memory s) (t :: dials s)
                   (mkExchange RegenerateCertificate_method t (mint_env R) :: history s))
| life_mint_failed s u t R :
    st_up s = Some u -> up_renewal u = RenewIdle -> memory s = Some t ->
    (is_ok (ConnectToServer C t (up_host u) (Certs.dialed R)) = true -> is_ok (requestRenewedCertificate C (mint_env R) t) = false) ->
    life_step s (mkLife (st_cluster s) (st_up s) (memory s) (t :: dials s) (history s))
| life_store s u t' r k' :
    st_up s = Some u -> up_renewal u = RenewMinted t' -> SetClusterAgentTLS t' (st_cluster s) = (r, k') ->
    life_step s (set_cluster k' (set_up (with_renewal (if is_ok r then RenewStored t' else RenewIdle) u) s))
| life_remember s u t' :
    st_up s = Some u -> up_renewal u = RenewStored t' ->
    life_step s (mkLife (st_cluster s) (Some (with_renewal RenewIdle u)) (Some t') (dials s) (history s))
| life_others s k' :
    keeps (st_cluster s) k' -> life_step s (set_cluster k' s)
| life_killed s :
    life_step s (mkLife (st_cluster s) None (memory s) (dials s) (history s)).

(** ** What every life keeps *)

(** A renewal of the history presented [m] and was answered with [t]. *)
Definition renewed_in (h : list Exchange) (m t : TLSData) : Prop :=
  exists M, mkExchange RegenerateCertificate_method m M ∈ h /\ requestRenewedCertificate C M m = Ok t.

(** [t] is a key pair that the server made and sent in an exchange of the
    history, in an answer without a certificate: nothing checks it. *)
Definition legacy_in (h : list Exchange) (t : TLSData) : Prop :=
  exists x, x ∈ h /\ legacy_pair C (ex_env x) (ex_method x) (ex_presented x) t.

(** [crypto/tls] accepts a certificate with the key it was issued for, and a PEM
    block is not empty. *)
Hypothesis keypair_law : forall key certPem caPem now keyDER,
  checkMintedCertificate C key certPem caPem now = Ok tt -> MarshalPKCS8 C key = Ok keyDER ->
  is_ok (X509KeyPair C certPem (pem_Encode C "PRIVATE KEY" keyDER)) = true.
Hypothesis pem_nonempty : forall ty b, pem_Encode C ty b <> "".

Lemma minted_valid M method presented t :
  (mintWithCSR C M method presented).1 = Ok t ->
  (TLSCert t <> "" /\ TLSKey t <> "") /\ (validateTLSData C malformed t = Ok tt \/ legacy_pair C M method presented t).
Proof using keypair_law pem_nonempty.
  intros Hm. split; [by eapply minted_populated|]. apply mint_accepts in Hm as (key & _ & _ & res & now & _ & Hx & Ha).
  destruct (String.eqb_spec (CertificatePem res) "") as [He|He].
  { right. exists res, now. split_and!; [done|done|]. apply acceptMintResponse_spec in Ha as [Hca [(Hc & _)|(_ & _ & _ & Hcrt & Hkey)]]; [done|].
    destruct t; cbn in *. congruence. }
  left. unfold acceptMintResponse in Ha. apply String.eqb_neq in He. rewrite He in Ha.
  destruct (checkMintedCertificate C key _ _ now) as [[]|] eqn:Hc; [|done].
  destruct (MarshalPKCS8 C key) as [der|] eqn:Hm; [|done]. injection Ha as <-.
  unfold validateTLSData. cbn. rewrite He. specialize (pem_nonempty "PRIVATE KEY" der) as Hp. apply String.eqb_neq in Hp.
  rewrite Hp. cbn. pose proof (keypair_law _ _ _ _ _ Hc Hm) as Hk. by destruct (X509KeyPair C _ _).
Qed.

Context {KL : KubeLaws K}.
Hypothesis other_retried : forall e, is_malformed_cert (other e) = false.

(** A filled pair, which parses or which an old server made. *)
Definition fit (h : list Exchange) (t : TLSData) : Prop :=
  (TLSCert t <> "" /\ TLSKey t <> "") /\ (validateTLSData C malformed t = Ok tt \/ legacy_in h t).

(** The Secret beside the credentials in memory, and a renewal under way. *)
Definition identity_inv (h : list Exchange) (m : TLSData) (u : option Up) (k : K) : Prop :=
  exists o, objects k !! identity_ref = Some o /\ fit h (tls_of o) /\
    (tls_of o = m \/ renewed_in h m (tls_of o)) /\
    match up_renewal <$> u with
    | Some (RenewMinted t') => renewed_in h m t'
    | Some (RenewStored t') => tls_of o = t' /\ renewed_in h m t'
    | _ => True
    end.

Record life_inv (s : Life) : Prop := {
  lv_present : identifiable (st_cluster s);
  lv_memory : is_Some (st_up s) -> is_Some (memory s);
  lv_identity : forall m, memory s = Some m ->
    identity_inv (history s) m (st_up s) (st_cluster s) /\ Forall (fun t => rtc (renewed_in (history s)) t m) (dials s);
  lv_none : memory s = None -> dials s = [];
  lv_link : forall u, st_up s = Some u -> link_inv (up_link u) /\ callback_set (up_link u) = callback /\
    (up_turn u = Redial -> place (up_link u) = Idle)
}.

(** *** A longer history says more *)

Lemma longer (h h' : list Exchange) : h' ⊆ (h ++ h')%list.
Proof. intros x Hx. apply elem_of_app. by right. Qed.

Lemma renewed_mono h h' m t : h ⊆ h' -> renewed_in h m t -> renewed_in h' m t.
Proof. intros Hh (M & HM & Ht). exists M. split; [by apply Hh|done]. Qed.

Lemma fit_mono h h' t : h ⊆ h' -> fit h t -> fit h' t.
Proof. intros Hh [Hp [Hv|(x & Hx & Hl)]]; (split; [done|]); [by left|]. right. exists x. split; [by apply Hh|done]. Qed.

Lemma identity_mono h h' m u k : h ⊆ h' -> identity_inv h m u k -> identity_inv h' m u k.
Proof.
  intros Hh (o & Ho & Hf & Hm & Hr). exists o. split_and!; [done|by eapply fit_mono|destruct Hm; eauto using renewed_mono|].
  destruct (up_renewal <$> u) as [[]|]; [done| |..|done]; [|destruct Hr]; eauto using renewed_mono.
Qed.

Lemma chain_mono h h' m m' l :
  h ⊆ h' -> rtc (renewed_in h') m m' -> Forall (fun t => rtc (renewed_in h) t m) l -> Forall (fun t => rtc (renewed_in h') t m') l.
Proof.
  intros Hh Hm Hl. eapply Forall_impl; [exact Hl|]. intros t Ht. transitivity m; [|done].
  eapply rtc_subrel; [|exact Ht]. intros x y. by apply renewed_mono.
Qed.

Lemma renewed_fit h m t : renewed_in h m t -> fit h t.
Proof using keypair_law pem_nonempty.
  intros (M & HM & Ht). apply minted_valid in Ht as [Hp Hv]. split; [done|]. destruct Hv as [Hv|Hl]; [by left|right].
  by exists (mkExchange RegenerateCertificate_method m M).
Qed.

(** *** The steps *)

Lemma identity_present h m u k : identity_inv h m u k -> identifiable k.
Proof. intros (o & Ho & _). left. by rewrite Ho. Qed.

Lemma identity_keeps h m u k k' : keeps k k' -> identity_inv h m u k -> identity_inv h m u k'.
Proof.
  intros Hk (o & Ho & Hf & Hx). exists o. split; [|done]. destruct (Hk identity_ref o) as (o' & Ho' & He); [by left|done|].
  by rewrite Ho', (He (proj1 Hf)).
Qed.

(** The steps that leave the cluster, or change it as others do. *)
Lemma identity_quiet h m u u' k :
  (up_renewal <$> u' = up_renewal <$> u \/ up_renewal <$> u' = Some RenewIdle \/ u' = None) ->
  identity_inv h m u k -> identity_inv h m u' k.
Proof.
  intros Hu (o & Ho & Hf & Hm & Hr). exists o. split_and!; [done..|].
  destruct Hu as [->|[->| ->]]; done.
Qed.

(** Writing the new credentials to the Secret. *)
Lemma store_identity h m u t' k r k' :
  identity_inv h m (Some u) k -> up_renewal u = RenewMinted t' -> SetClusterAgentTLS t' k = (r, k') ->
  identity_inv h m (Some (with_renewal (if is_ok r then RenewStored t' else RenewIdle) u)) k'.
Proof using KL keypair_law pem_nonempty.
  intros (o & Ho & Hf & Hm & Hr) Hu Hset. cbn in Hr. rewrite Hu in Hr.
  pose proof (SetClusterAgentTLS_spec t' k) as Hs. rewrite Hset in Hs. fold identity_ref in Hs.
  assert (objects k' = <[identity_ref := tls_secret t']> (objects k) ->
    identity_inv h m (Some (with_renewal (if is_ok r then RenewStored t' else RenewIdle) u)) k') as Hw.
  { intros Hk. exists (tls_secret t'). rewrite Hk, lookup_insert_eq, tls_of_secret. split_and!; [done|by eapply renewed_fit|by right|].
    by destruct r. }
  destruct r as [[]|e]; [by apply Hw|]. destruct Hs as [Hk|Hk]; [|by apply Hw].
  exists o. by rewrite Hk.
Qed.

(** A start, whatever comes of it. *)
Lemma start_identity B fuel n s :
  boot_ok B -> life_inv s ->
  match bootstrap C other malformed B fuel (mkBState (st_cluster s) n []) with
  | (Returned sm, s') => own_identity (clusterAgentTLS sm) (cluster s') /\ fit (boot_exchanges B s' ++ history s)%list (clusterAgentTLS sm) /\
      forall m, memory s = Some m -> rtc (renewed_in (history s)) m (clusterAgentTLS sm)
  | (_, s') => identifiable (cluster s') /\ forall m, memory s = Some m -> identity_inv (history s) m None (cluster s')
  end.
Proof using KL other_retried keypair_law pem_nonempty.
  intros HB I. set (b := mkBState (st_cluster s) n []).
  pose proof (bootstrap_post C other malformed B fuel other_retried HB pem_nonempty b) as Hp.
  assert (forall m, memory s = Some m -> exists o, objects (st_cluster s) !! identity_ref = Some o /\ fit (history s) (tls_of o) /\
    (tls_of o = m \/ renewed_in (history s) m (tls_of o))) as Hm.
  { intros m Hm. destruct (lv_identity _ I m Hm) as [(o & ? & ? & ? & _) _]. by exists o. }
  pose proof (fun o Ho Hf => bootstrap_reuses C other malformed B fuel other_retried HB pem_nonempty b o Ho Hf) as Hr.
  destruct (bootstrap C other malformed B fuel b) as [[sm|e|] s']; cbn in Hp, Hr.
  - destruct Hp as (Ho & Hc & Hu). split_and!; [done| |].
    + destruct Ho as (o & Ho & Ht). destruct Hu as [(Hk & Hx & Hv)|(_ & k & p & Hx & _ & Hreq & _)].
      * split; [|by left]. revert Hv. unfold validateTLSData.
        by destruct (String.eqb_spec (TLSCert (clusterAgentTLS sm)) ""), (String.eqb_spec (TLSKey (clusterAgentTLS sm)) "").
      * apply minted_valid in Hreq as [Hp Hv]. split; [done|]. destruct Hv as [Hv|Hl]; [by left|right].
        exists (mkExchange GetClusterAgentCredentials_method p (mint_env (server B k))). split; [|exact Hl].
        unfold boot_exchanges. rewrite Hx. cbn. left.
    + intros m (o & Ho' & Hf & Hx)%Hm. destruct (Hr o Ho' (proj1 Hf)) as (_ & -> & _).
      destruct Hx as [<-|Hx]; [done|by apply rtc_once].
  - destruct Hp as (Hk & _). split; [by eapply keeps_identifiable, (lv_present _ I)|].
    intros m (o & Ho & Hf & ?)%Hm. exists o. split_and!; [by apply (Hr o Ho (proj1 Hf))|done..].
  - split; [by eapply keeps_identifiable, (lv_present _ I)|].
    intros m (o & Ho & Hf & ?)%Hm. exists o. split_and!; [by apply (Hr o Ho (proj1 Hf))|done..].
Qed.

Lemma dialled m s :
  life_inv s -> memory s = Some m -> Forall (fun t => rtc (renewed_in (history s)) t m) (m :: dials s).
Proof. intros I Hm. constructor; [done|]. by apply (lv_identity _ I m Hm). Qed.

Lemma life_step_inv s s' : life_step s s' -> life_inv s -> life_inv s'.
Proof using KL other_retried keypair_law pem_nonempty.
  intros Hs I. destruct Hs as [s B fuel n sm s' Hu HB Hb|s B fuel n r s' Hu HB Hb Hr|s u l Hu Ht Hl|s u t dialed r Hu Ht Hm _
    |s u t R t' now forced Hu Hr Hm _ _ Hreq|s u t R Hu Hr Hm _|s u t' r k' Hu Hr Hset|s u t' Hu Hr|s k' Hk|s].
  - pose proof (start_identity B fuel n s HB I) as Hi. rewrite Hb in Hi. destruct Hi as ((o & Ho & Ht) & Hf & Hc).
    split; cbn; [left; by exists o|intros _; by eexists| |done|].
    + intros m [= <-]. split; [exists o; rewrite Ht; by split_and!; [..|left|]|]. constructor; [done|].
      destruct (memory s) as [m|] eqn:Em; [|by rewrite (lv_none _ I Em)].
      eapply (chain_mono (history s)); [apply longer| |by apply (lv_identity _ I m Em)].
      eapply rtc_subrel; [|by apply Hc]. intros x y. apply renewed_mono, longer.
    + intros u [= <-]. cbn. split_and!; [apply link_init_inv|done|done].
  - pose proof (start_identity B fuel n s HB I) as Hi. rewrite Hb in Hi.
    assert (identifiable (cluster s') /\ forall m, memory s = Some m -> identity_inv (history s) m None (cluster s')) as [Hp Hi']
      by (destruct r; [by destruct (Hr a)|done..]).
    split; cbn; [done|apply I| |apply I|apply I].
    intros m Hm. rewrite Hu. split; [eapply identity_mono; [apply longer|by apply Hi']|].
    eapply (chain_mono (history s)); [apply longer|done|by apply (lv_identity _ I m Hm)].
  - destruct (lv_link _ I u Hu) as (Hi & Hc & _). split; cbn; [apply I|intros _; apply (lv_memory _ I); by rewrite Hu| |apply I|].
    + intros m Hm. destruct (lv_identity _ I m Hm) as [Hx ?]. split; [|done]. rewrite Hu in Hx. by eapply identity_quiet; [left|].
    + intros u' [= <-]. cbn. split_and!; [by eapply link_step_inv|rewrite <-Hc; by eapply link_step_callback|].
      unfold turn_after. by destruct (place l).
  - destruct (lv_link _ I u Hu) as (Hi & Hc & _). destruct (lv_identity _ I t Hm) as [Hx _]. rewrite Hu in Hx.
    split; cbn; [apply I|intros _; by rewrite Hm| |by rewrite Hm|by intros u' [= <-]].
    intros m Hm'. rewrite Hm in Hm'. injection Hm' as <-. split; [by eapply identity_quiet; [left|]|by apply dialled].
  - destruct (lv_identity _ I t Hm) as [Hx _]. set (x := mkExchange RegenerateCertificate_method t (mint_env R)).
    assert (history s ⊆ x :: history s) as Hh by apply (longer [x]).
    destruct (identity_mono _ _ _ _ _ Hh Hx) as (o & Ho & Hf & Hx' & _).
    split; cbn; [apply I|intros _; by rewrite Hm| |by rewrite Hm|intros u' [= <-]; by apply (lv_link _ I u Hu)].
    intros m Hm'. rewrite Hm in Hm'. injection Hm' as <-.
    split; [|by eapply (chain_mono (history s)); [|done|apply dialled]]. exists o. cbn. split_and!; [done..|].
    exists (mint_env R). split; [left|done].
  - split; cbn; [apply I|apply I| |by rewrite Hm|apply I].
    intros m Hm'. rewrite Hm in Hm'. injection Hm' as <-. split; [by apply (lv_identity _ I t Hm)|by apply dialled].
  - assert (is_Some (memory s)) as [m Hm] by (apply (lv_memory _ I); by rewrite Hu).
    destruct (lv_identity _ I m Hm) as [Hx Hd]. rewrite Hu in Hx. pose proof (store_identity _ _ _ _ _ _ _ Hx Hr Hset) as Hy.
    split; cbn; [by eapply identity_present|intros _; by rewrite Hm| |by rewrite Hm|intros u' [= <-]; by apply (lv_link _ I u Hu)].
    intros m' Hm'. rewrite Hm in Hm'. by injection Hm' as <-.
  - assert (is_Some (memory s)) as [m Hm] by (apply (lv_memory _ I); by rewrite Hu).
    destruct (lv_identity _ I m Hm) as [(o & Ho & Hf & _ & Hx) Hd]. rewrite Hu in Hx. cbn in Hx. rewrite Hr in Hx. destruct Hx as [Ht Hren].
    split; cbn; [apply I|intros _; by eexists| |done|intros u' [= <-]; by apply (lv_link _ I u Hu)].
    intros m' [= <-]. split; [exists o; by split_and!; [..|left|]|]. eapply (chain_mono (history s)); [done| |done]. by apply rtc_once.
  - split; cbn; [by eapply keeps_identifiable, (lv_present _ I)|apply I| |apply I|apply I].
    intros m Hm. destruct (lv_identity _ I m Hm). split; [by eapply identity_keeps|done].
  - split; cbn; [apply I|by intros []| |apply I|done].
    intros m Hm. destruct (lv_identity _ I m Hm). split; [by eapply identity_quiet; [right; right|]|done].
Qed.

Definition life_reachable (k0 : K) : Life -> Prop := rtc life_step (first_life k0).

Lemma life_reachable_inv k0 s :
  is_Some (objects k0 !! identity_ref) \/ is_Some (objects k0 !! node_ref) -> life_reachable k0 s -> life_inv s.
Proof using KL other_retried keypair_law pem_nonempty.
  intros H0 Hr. assert (life_inv (first_life k0)) as I by (by split; cbn; try done; intros []).
  revert I. unfold life_reachable in Hr. induction Hr; [done|]. eauto using life_step_inv.
Qed.

(** C3: The agent's identity survives every life of the process, as long as
    nobody else removes the agent's or the node's Secret or rewrites one that is
    filled, by an instruction included. Whatever the servers answer, and whenever
    the process ends and is started again, also between the two writes of a
    renewal, the cluster holds the agent's Secret or the node's. While the agent
    is up, its Secret holds the credentials in memory or ones that a recorded
    renewal presenting these was answered with; every dial of this and all
    earlier lives used credentials from which the present ones were reached by
    recorded renewals, each presenting the one before, so the agent never goes
    back to older ones; and the stream of the current life keeps its invariant.
    Once an agent has come up, a later start is refused as malformed only when
    the Secret holds a key pair that an old server made and sent in a recorded
    exchange, in an answer without a certificate. (Of the libraries: the laws of
    the Kubernetes verbs, PEM text is not empty, a checked certificate loads with
    its key, and an ordinary error is not the malformed-certificate one.) *)
Theorem identity_over_lives k0 s :
  is_Some (objects k0 !! identity_ref) \/ is_Some (objects k0 !! node_ref) -> life_reachable k0 s ->
  (is_Some (objects (st_cluster s) !! identity_ref) \/ is_Some (objects (st_cluster s) !! node_ref)) /\
  (forall u, st_up s = Some u -> link_inv (up_link u) /\
     exists m o, memory s = Some m /\ objects (st_cluster s) !! identity_ref = Some o /\
       (tls_of o = m \/ renewed_in (history s) m (tls_of o)) /\ Forall (fun t => rtc (renewed_in (history s)) t m) (dials s)) /\
  (forall m B fuel n e s', memory s = Some m -> boot_ok B ->
     bootstrap C other malformed B fuel (mkBState (st_cluster s) n []) = (Fatal e, s') ->
     exists o, objects (st_cluster s) !! identity_ref = Some o /\ legacy_in (history s) (tls_of o)).
Proof using KL other_retried keypair_law pem_nonempty.
  intros H0 I%life_reachable_inv; [|done]. split_and!.
  - apply I.
  - intros u Hu. split; [by apply (lv_link _ I u Hu)|]. assert (is_Some (memory s)) as [m Hm] by (apply (lv_memory _ I); by rewrite Hu).
    destruct (lv_identity _ I m Hm) as [(o & Ho & _ & Hx & _) Hd]. by exists m, o.
  - intros m B fuel n e s' Hm HB Hb. destruct (lv_identity _ I m Hm) as [(o & Ho & [Hp Hf] & _) _]. exists o. split; [done|].
    pose proof (bootstrap_reuses C other malformed B fuel other_retried HB pem_nonempty (mkBState (st_cluster s) n []) o Ho Hp) as Hr.
    rewrite Hb in Hr. destruct Hr as [_ Hv]. destruct Hf as [Hf|Hf]; [congruence|done].
Qed.
End life.

(** ** A renewal cut short *)

Definition demo_up (r : Renewal) : Up := mkUp "nodeward.example" r Establish (link_init true).
Definition demo_boot (k : MemKube) (n : nat) : Outcome bool streamManager * BState (K := MemKube) :=
  bootstrap demo_crypto (EF := demo_facts) (fun _ => false) (fun _ => true) demo_boot_env 9 (mkBState k n []).
Abbreviation demo_reachable := (life_reachable demo_crypto (EF := demo_facts) (fun _ => false) (fun _ => true) true demo_cluster).

Definition born : Life := mkLife (cluster (demo_boot demo_cluster 0).2) (Some (demo_up RenewIdle)) (Some demo_new) [demo_new]
  (boot_exchanges demo_boot_env (demo_boot demo_cluster 0).2).
Definition stored_cluster : MemKube := (SetClusterAgentTLS demo_new (st_cluster born)).2.
Definition cut_short : Life := mkLife stored_cluster None (Some demo_new) [demo_new; demo_new]
  (mkExchange RegenerateCertificate_method demo_new demo_mint :: history born).

Lemma demo_boot_ok : boot_ok demo_boot_env.
Proof. intros d k. apply keeps_refl. Qed.

(** The pod is killed after the Secret was written and before the memory was. *)
Lemma cut_short_reachable : demo_reachable cut_short.
Proof.
  eapply rtc_l.
  { apply (life_start _ _ _ _ _ demo_boot_env 9 0 (mkStreamManager demo_new "nodeward.example") (demo_boot demo_cluster 0).2);
      [reflexivity|apply demo_boot_ok|vm_compute; reflexivity]. }
  eapply rtc_l.
  { apply (life_mint _ _ _ _ _ (demo_up RenewIdle) demo_new (mkServerEnv None demo_mint) demo_new 0 true);
      vm_compute; reflexivity. }
  eapply rtc_l.
  { eapply (life_store _ _ _ _ _ (demo_up (RenewMinted demo_new)) demo_new (Ok tt) stored_cluster); vm_compute; reflexivity. }
  eapply rtc_l; [apply life_killed|]. apply rtc_refl.
Qed.

Lemma demo_keypair_law key certPem caPem now keyDER :
  checkMintedCertificate demo_crypto key certPem caPem now = Ok tt -> MarshalPKCS8 demo_crypto key = Ok keyDER ->
  is_ok (X509KeyPair demo_crypto certPem (pem_Encode demo_crypto "PRIVATE KEY" keyDER)) = true.
Proof. intros Hc _. cbn. destruct (String.eqb_spec certPem "") as [->|_]; [discriminate Hc|reflexivity]. Qed.

Lemma identity_over_lives_witness :
  demo_reachable cut_short /\
  (is_Some (objects (st_cluster cut_short) !! identity_ref) \/ is_Some (objects (st_cluster cut_short) !! node_ref)).
Proof.
  split; [apply cut_short_reachable|].
  apply (identity_over_lives demo_crypto (EF := demo_facts) (fun _ => false) (fun _ => true) true
    demo_keypair_law (fun ty b => ltac:(discriminate)) (fun _ => eq_refl) demo_cluster cut_short).
  - right. eexists. vm_compute. reflexivity.
  - apply cut_short_reachable.
Defined.

(** ** An old server's key pair is not checked *)

(** A server that sends no certificate but a key pair, which does not parse. *)
Definition strict_crypto : CryptoEnv := {|
  pem_Decode := pem_Decode demo_crypto; pem_Encode := pem_Encode demo_crypto; ParseCertificate := ParseCertificate demo_crypto;
  Pool := Pool demo_crypto; Verify := Verify demo_crypto; MarshalPKCS8 := MarshalPKCS8 demo_crypto; sha256 := sha256 demo_crypto;
  X509KeyPair c k := if HasPrefix c "PEM:" then Ok ([c], Some k) else Err "failed to find any PEM data in certificate input"
|}.
Definition legacy_mint : MintEnv := {|
  keygen := Ok ("K", "CSR", "csr"); clock _ := Second; nonce_of _ := Ok "n"; sign_with k d := Ok (k ++ d);
  rpc _ _ _ := Ok (mkMintResponse "" "key" "not a certificate" "")
|}.

(** [acceptMintResponse] is documented to return an error, so that the caller
    keeps its old credentials, when the response is not usable. An unusable key
    pair of an old server is accepted and takes their place in memory and in the
    Secret: no dial can succeed any more, and the next start ends as malformed. *)
Lemma legacy_pair_replaces_credentials :
  let k := mkMemKube {[ identity_ref := tls_secret demo_old ]} [] in
  let '(r, mem, k') := renewCert strict_crypto "host" (mkServerEnv None legacy_mint) demo_old k in
  r = Ok tt /\ own_identity mem k' /\
  (forall d, is_ok (ConnectToServer strict_crypto mem "host" d) = false) /\
  is_ok (validateTLSData strict_crypto (fun e => e) mem) = false.
Proof.
  intros k. destruct (renewCert strict_crypto "host" (mkServerEnv None legacy_mint) demo_old k) as [[r mem] k'] eqn:Hr.
  vm_compute in Hr. injection Hr as <- <- <-. split_and!; [reflexivity| |done|reflexivity].
  eexists. split; [vm_compute; reflexivity|vm_compute; reflexivity].
Qed.
