(* ===== verification/BuildAuth.v ===== *)
(** * Build-time secrets on disk ([src/buildkitclient/buildauth.go])

    [readBuildAuth] reads the SSH key and the named secrets of an app from its
    namespace and stages them as files for buildctl. [BuildKit.v] takes its
    outcome as given; here it is modelled with every file-system call as an
    effect, in the order the code makes them, and with Go's arbitrary order of
    iteration over the Secret's map as an argument. The removal is the call of
    [os.RemoveAll], whose error the code only logs: what it leaves behind when it
    fails is not described here. *)
From stdpp Require Import gmap.
From S2P Require Import Prelude GoStrings Paths Kube BuildKit.
Local Open Scope string_scope.
Local Open Scope Z_scope.

Definition buildSSHSecretSuffix : string := "-build-ssh".
Definition buildSSHSecretKey : string := "ssh-privatekey".
Definition buildSecretsSecretSuffix : string := "-build-secrets".

Inductive FsEffect :=
| FsMkdir (dir : string)
| FsChmod (dir : string) (mode : Z)
| FsWrite (path data : string) (mode : Z)
| FsRemoveAll (dir : string).

(** What the environment answers. [ae_order] is the order in which [range] visits
    a map. *)
Record AuthEnv := mkAuthEnv {
  ae_get : string -> string -> result KErr Data;      (* Secrets(namespace).Get(name) *)
  ae_mkdir : result string string;                    (* os.MkdirTemp *)
  ae_chmod : option string;
  ae_write : string -> option string;
  ae_order : Data -> list (string * string)
}.

Definition newline : ascii := ascii_of_nat 10.

Fixpoint ends_with_newline (s : string) : bool :=
  match s with
  | EmptyString => false
  | String c EmptyString => Ascii.eqb c newline
  | String _ s => ends_with_newline s
  end.

Definition ensure_newline (key : string) : string :=
  if ends_with_newline key then key else key ++ String newline "".

(** The guard on a secret's id: [id == "" || id != filepath.Base(id)] skips it. *)
Definition unsafe_id (id : string) : bool := String.eqb id "" || negb (String.eqb id (Base id)).

(** The loop over the named secrets: the paths so far, the effects, the error. *)
Fixpoint stage_secrets (E : AuthEnv) (dir : string) (kvs : list (string * string)) (paths : gmap string string)
  : gmap string string * list FsEffect * option string :=
  match kvs with
  | [] => (paths, [], None)
  | (id, value) :: kvs =>
      if unsafe_id id then stage_secrets E dir kvs paths
      else
        let path := Join2 dir ("secret-" ++ id) in
        match ae_write E path with
        | Some e => (paths, [FsWrite path value 384], Some ("failed to stage build secret " ++ id ++ ": " ++ e))
        | None =>
            let '(paths, effs, err) := stage_secrets E dir kvs (<[id := path]> paths) in
            (paths, FsWrite path value 384 :: effs, err)
        end
  end.

(** A Secret that is not there reads as no data; any other error fails. *)
Definition get_secret (E : AuthEnv) (osid name : string) : result KErr (option Data) :=
  match ae_get E osid name with
  | Ok d => Ok (Some d)
  | Err e => if IsNotFound e then Ok None else Err e
  end.

(** The staging directory exists and is to be filled. *)
Definition stage (E : AuthEnv) (dir sshKey : string) (buildSecrets : option Data)
  : buildAuth * list FsEffect * option string :=
  match ae_chmod E with
  | Some e => (mkAuth "" ∅, [FsChmod dir 448], Some ("failed to restrict build-auth dir: " ++ e))
  | None =>
      let '(key, keyEffs, keyErr) :=
        if String.eqb sshKey "" then ("", [], None)
        else
          let path := Join2 dir "ssh-key" in
          match ae_write E path with
          | Some e => ("", [FsWrite path (ensure_newline sshKey) 384], Some ("failed to stage build SSH key: " ++ e))
          | None => (path, [FsWrite path (ensure_newline sshKey) 384], None)
          end in
      match keyErr with
      | Some e => (mkAuth "" ∅, FsChmod dir 448 :: keyEffs, Some e)
      | None =>
          match buildSecrets with
          | None => (mkAuth key ∅, FsChmod dir 448 :: keyEffs, None)
          | Some data =>
              let '(paths, effs, err) := stage_secrets E dir (ae_order E data) ∅ in
              (mkAuth key paths, (FsChmod dir 448 :: keyEffs ++ effs)%list, err)
          end
      end
  end.

(** [auth], its [dir] (empty: none was made), the effects and the error. *)
Definition readBuildAuth (E : AuthEnv) (osid : string)
  : buildAuth * string * list FsEffect * option string :=
  let none := mkAuth "" ∅ in
  if String.eqb osid "" then (none, "", [], None)
  else
    match get_secret E osid (osid ++ buildSSHSecretSuffix) with
    | Err e => (none, "", [], Some ("failed to read build SSH secret: " ++ KError e))
    | Ok sshSecret =>
    match get_secret E osid (osid ++ buildSecretsSecretSuffix) with
    | Err e => (none, "", [], Some ("failed to read build secrets: " ++ KError e))
    | Ok buildSecrets =>
        let sshKey := match sshSecret with Some d => field d buildSSHSecretKey | None => "" end in
        if String.eqb sshKey "" && bool_decide (default ∅ buildSecrets = ∅) then (none, "", [], None)
        else
          match ae_mkdir E with
          | Err e => (none, "", [], Some ("failed to create build-auth dir: " ++ e))
          | Ok dir =>
              let '(auth, effs, err) := stage E dir sshKey buildSecrets in
              (auth, dir, FsMkdir dir :: effs, err)
          end
    end
    end.

(** The returned [cleanup]. *)
Definition auth_cleanup (dir : string) : list FsEffect :=
  if String.eqb dir "" then [] else [FsRemoveAll dir].

(** ** What is on disk *)

(** The files and their modes; a write that was attempted counts as made. *)
Definition replay1 (fs : gmap string (string * Z)) (e : FsEffect) : gmap string (string * Z) :=
  match e with
  | FsMkdir _ | FsChmod _ _ => fs
  | FsWrite p d m => <[p := (d, m)]> fs
  | FsRemoveAll dir => filter (fun kv => HasPrefix kv.1 (dir ++ "/") = false) fs
  end.
Definition replay (effs : list FsEffect) : gmap string (string * Z) := foldl replay1 ∅ effs.

Definition secret_name (id : string) : string := if String.eqb id "/" then "secret-" else "secret-" ++ id.

(** ** Ids and paths *)

Lemma split_last_snd_no_slash s : no_slash (split_last s).2 = true.
Proof.
  induction s as [|c s IH]; [done|]. cbn [split_last]. destruct (split_last s) as [d f]. cbn [snd] in *.
  destruct (String.eqb d ""); cbn [andb]; [|done]. destruct (Ascii.eqb_spec c slash) as [->|Hc]; cbn [negb snd]; [done|].
  unfold no_slash, contains_char in *. rewrite negb_involutive in *. cbn. apply Ascii.eqb_neq in Hc. by rewrite Hc, IH.
Qed.

Lemma safe_id_cases id : unsafe_id id = false -> id <> "" /\ (id = "/" \/ no_slash id = true).
Proof.
  unfold unsafe_id. rewrite orb_false_iff, String.eqb_neq, negb_false_iff, String.eqb_eq. intros [Hne Hb].
  split; [done|]. unfold Base in Hb. apply String.eqb_neq in Hne. rewrite Hne in Hb.
  set (q := rev_string _) in Hb. destruct (String.eqb (split_last q).2 ""); [by left|right].
  rewrite Hb. apply split_last_snd_no_slash.
Qed.

Lemma no_slash_app a b : no_slash (a ++ b) = no_slash a && no_slash b.
Proof.
  unfold no_slash, contains_char. rewrite !negb_involutive.
  induction a as [|c a IH]; [done|]. cbn. by rewrite IH, andb_assoc.
Qed.

(** Joining a plain name to a clean absolute directory appends it. *)
Lemma Join2_name dir e :
  is_rooted dir = true -> Clean dir = dir -> dir <> "/" -> proper e = true -> Join2 dir e = dir ++ "/" ++ e.
Proof.
  intros Hr Hc Hne He. destruct (Join2_elems dir e Hr) as [Hr' Hel].
  rewrite (Split_no_slash e (proper_no_slash1 e He)), fold_proper_push in Hel by (by constructor).
  cbn in Hel. rewrite rev_involutive in Hel.
  assert (Join2 dir e = Clean (Join2 dir e)) as ->.
  { unfold Join2. rewrite is_rooted_nonempty by done. symmetry. apply Clean_idem. by apply is_rooted_app. }
  rewrite (Clean_rooted _ Hr'), Hel, abs_path_snoc. rewrite (Clean_rooted _ Hr) in Hc.
  destruct (decide (clean_elems dir = [])) as [E|E]; [|by rewrite Hc].
  rewrite E in Hc. cbn in Hc. congruence.
Qed.

Lemma secret_path dir id :
  is_rooted dir = true -> Clean dir = dir -> dir <> "/" -> unsafe_id id = false ->
  Join2 dir ("secret-" ++ id) = dir ++ "/" ++ secret_name id.
Proof.
  intros Hr Hc Hne Hs. destruct (safe_id_cases id Hs) as [Hid [->|Hns]]; unfold secret_name.
  - rewrite String.eqb_refl, <-(Join2_name dir "secret-") by done.
    unfold Join2. rewrite is_rooted_nonempty by done. unfold Clean.
    assert (forall x, is_rooted (dir ++ "/" ++ x) = true) as Hrx by (intros; by apply is_rooted_app).
    rewrite !Hrx. unfold clean_elems. rewrite !Hrx.
    change (dir ++ "/" ++ "secret-" ++ "/") with (dir ++ String slash ("secret-" ++ String slash "")).
    change (dir ++ "/" ++ "secret-") with (dir ++ String slash "secret-").
    by rewrite !Split_slash_app, !foldl_app.
  - destruct (String.eqb_spec id "/") as [->|_]; [done|]. apply Join2_name; done.
Qed.

Lemma secret_name_inj id1 id2 :
  unsafe_id id1 = false -> unsafe_id id2 = false -> secret_name id1 = secret_name id2 -> id1 = id2.
Proof.
  intros [H1 _]%safe_id_cases [H2 _]%safe_id_cases. unfold secret_name.
  destruct (String.eqb_spec id1 "/"), (String.eqb_spec id2 "/"); cbn; intros E; try injection E as E; congruence.
Qed.

(** ** What staging leaves *)

Section Staging.
Context (E : AuthEnv) (dir : string).
Context (Hr : is_rooted dir = true) (Hclean : Clean dir = dir) (Hroot : dir <> "/").

(** A write of a secret file into the staging directory, readable by the agent
    alone. *)
Definition private_write (e : FsEffect) : Prop :=
  exists name d, e = FsWrite (dir ++ "/" ++ name) d 384.

Lemma dir_append_inj a b : dir ++ "/" ++ a = dir ++ "/" ++ b -> a = b.
Proof. intros H%(inj (String.append dir)). by injection H. Qed.

Lemma stage_secrets_spec kvs : forall paths fs,
  NoDup kvs.*1 ->
  let '(paths', effs, err) := stage_secrets E dir kvs paths in
  Forall private_write effs /\
  (err = None ->
    (forall id, paths' !! id =
       if bool_decide (id ∈ kvs.*1) && negb (unsafe_id id) then Some (dir ++ "/" ++ secret_name id) else paths !! id) /\
    (forall id v, (id, v) ∈ kvs -> unsafe_id id = false ->
       foldl replay1 fs effs !! (dir ++ "/" ++ secret_name id) = Some (v, 384)) /\
    (forall p, (forall id, id ∈ kvs.*1 -> unsafe_id id = false -> p <> dir ++ "/" ++ secret_name id) ->
       foldl replay1 fs effs !! p = fs !! p)).
Proof using Hr Hclean Hroot.
  induction kvs as [|[id v] kvs IH]; intros paths fs Hnd; cbn [stage_secrets].
  { split; [done|]. intros _. split_and!; [done| |done]. by intros ? ? ?%not_elem_of_nil. }
  apply NoDup_cons in Hnd as [Hn Hnd]. destruct (unsafe_id id) eqn:Hs.
  - specialize (IH paths fs Hnd). destruct (stage_secrets E dir kvs paths) as [[paths' effs] err].
    destruct IH as [Hp IH]. split; [done|]. intros He. destruct (IH He) as (H1 & H2 & H3). split_and!.
    + intros i. rewrite H1. cbn [fmap list_fmap fst]. destruct (decide (i = id)) as [->|Hne].
      * rewrite Hs, !andb_false_r. done.
      * by rewrite (bool_decide_ext (i ∈ id :: kvs.*1) (i ∈ kvs.*1)) by set_solver.
    + intros i w [[= -> ->]|Hin]%elem_of_cons Hi; [congruence|eauto].
    + intros p Hpn. apply H3. intros i Hi. apply Hpn. set_solver.
  - rewrite secret_path by done. set (path := dir ++ "/" ++ secret_name id) in *.
    destruct (ae_write E path) as [e|].
    { split; [|done]. constructor; [|done]. by eexists _, _. }
    specialize (IH (<[id := path]> paths) (<[path := (v, 384)]> fs) Hnd).
    destruct (stage_secrets E dir kvs _) as [[paths' effs] err]. destruct IH as [Hp IH].
    split; [constructor; [by eexists _, _|done]|]. intros He. destruct (IH He) as (H1 & H2 & H3).
    assert (forall i, i ∈ kvs.*1 -> unsafe_id i = false -> path <> dir ++ "/" ++ secret_name i) as Hother.
    { intros i Hi Hsi Heq%dir_append_inj. apply secret_name_inj in Heq; [|done..]. by subst. }
    cbn [foldl replay1]. split_and!.
    + intros i. rewrite H1. cbn [fmap list_fmap fst]. destruct (decide (i = id)) as [->|Hne].
      * rewrite bool_decide_false, bool_decide_true, Hs by set_solver. cbn. apply lookup_insert_eq.
      * rewrite lookup_insert_ne by done. by rewrite (bool_decide_ext (i ∈ id :: kvs.*1) (i ∈ kvs.*1)) by set_solver.
    + intros i w [[= -> ->]|Hin]%elem_of_cons Hi; [|eauto]. fold path. rewrite H3 by done. apply lookup_insert_eq.
    + intros p Hpn. rewrite H3 by (intros i Hi; apply Hpn; set_solver). apply lookup_insert_ne.
      intros <-. eapply Hpn; [|done|done]. set_solver.
Qed.
End Staging.

(** The key and the secrets an app has. *)
Definition app_key (ssh : option Data) : string := match ssh with Some d => field d buildSSHSecretKey | None => "" end.

(** What a staging directory holds when it was filled without an error. *)
Record staged (dir key : string) (data : Data) (auth : buildAuth) (fs : gmap string (string * Z)) : Prop := {
  st_key_path : sshKeyPath auth = if String.eqb key "" then "" else dir ++ "/" ++ "ssh-key";
  st_key : key <> "" -> fs !! (dir ++ "/" ++ "ssh-key") = Some (ensure_newline key, 384);
  st_paths id : secretPaths auth !! id =
    if bool_decide (is_Some (data !! id)) && negb (unsafe_id id) then Some (dir ++ "/" ++ secret_name id) else None;
  st_files id v : data !! id = Some v -> unsafe_id id = false -> fs !! (dir ++ "/" ++ secret_name id) = Some (v, 384)
}.

Lemma elem_of_order (l : list (string * string)) (d : Data) id v :
  Permutation l (map_to_list d) -> (id, v) ∈ l <-> d !! id = Some v.
Proof. intros ->. apply elem_of_map_to_list. Qed.

Lemma order_keys (l : list (string * string)) (d : Data) id :
  Permutation l (map_to_list d) -> id ∈ l.*1 <-> is_Some (d !! id).
Proof.
  intros Hp. rewrite list_elem_of_fmap. split.
  - intros ([i v] & -> & Hin%(elem_of_order _ _ _ _ Hp)). eauto.
  - intros [v Hv]. exists (id, v). split; [done|]. by apply (elem_of_order _ _ _ _ Hp).
Qed.

Lemma stage_spec E dir key secrets :
  (forall d, Permutation (ae_order E d) (map_to_list d)) ->
  is_rooted dir = true -> Clean dir = dir -> dir <> "/" ->
  let '(auth, effs, err) := stage E dir key secrets in
  (exists rest, effs = FsChmod dir 448 :: rest /\ Forall (private_write dir) rest) /\
  (err = None -> staged dir key (default ∅ secrets) auth (foldl replay1 ∅ effs)).
Proof.
  intros Hord Hr Hc Hne. unfold stage. destruct (ae_chmod E) as [e|]; [split; [by exists []|done]|].
  rewrite (Join2_name dir "ssh-key") by done.
  set (keyfs := if String.eqb key "" then ∅ else {[dir ++ "/" ++ "ssh-key" := (ensure_newline key, 384)]} : gmap string (string * Z)).
  set (w := FsWrite (dir ++ "/" ++ "ssh-key") (ensure_newline key) 384).
  assert (private_write dir w) as Hw by (by eexists _, _).
  destruct (String.eqb_spec key "") as [Hk|Hk].
  2: destruct (ae_write E (dir ++ "/" ++ "ssh-key")) as [e|]; [split; [exists [w]; split; [done|by constructor]|done]|].
  all: destruct secrets as [data|]; cbn [default].
  all: try pose proof (stage_secrets_spec E dir Hr Hc Hne (ae_order E data) ∅ keyfs) as Hss.
  all: try destruct (stage_secrets E dir (ae_order E data) ∅) as [[paths effs] err].
  all: try (destruct Hss as [Hp Hss]; [rewrite (Hord data); apply NoDup_fst_map_to_list|]).
  all: split; [eexists; split; [reflexivity|]; repeat constructor; done|].
  all: intros He; try destruct (Hss He) as (H1 & H2 & H3).
  all: (split; cbn; [by destruct (String.eqb_spec key "")| | |]).
  all: try (intros id; rewrite H1, lookup_empty; by rewrite (bool_decide_ext _ _ (order_keys _ _ id (Hord data)))).
  all: try (intros id v Hv%(elem_of_order _ _ _ _ (Hord data)) Hs; by apply H2).
  all: try done.
  - intros _. rewrite H3; [apply lookup_insert_eq|]. intros id _ _ H%dir_append_inj. unfold secret_name in H.
    by destruct (String.eqb id "/").
  - intros _. apply lookup_insert_eq.
Qed.

Lemma replay_private dir effs fs p x :
  Forall (private_write dir) effs -> foldl replay1 fs effs !! p = Some x ->
  fs !! p = Some x \/ exists name, p = dir ++ "/" ++ name.
Proof.
  intros H. revert fs. induction H as [|e effs (name & d & ->) _ IH]; intros fs Hp; [by left|].
  destruct (IH _ Hp) as [Hq|?]; [|by right]. cbn in Hq.
  apply lookup_insert_Some in Hq as [[<- _]|[_ ?]]; [right; eauto|by left].
Qed.

Lemma removed_all dir effs :
  Forall (private_write dir) effs -> foldl replay1 (foldl replay1 ∅ effs) [FsRemoveAll dir] = ∅.
Proof.
  intros H. cbn. apply map_empty. intros p. apply map_lookup_filter_None. right. intros x Hx Hp.
  destruct (replay_private _ _ _ _ _ H Hx) as [?|[name ->]]; [done|].
  change (HasPrefix (dir ++ "/" ++ name) (dir ++ "/") = false) in Hp.
  assert (HasPrefix (dir ++ "/" ++ name) (dir ++ "/") = true) as Ht; [|congruence].
  unfold HasPrefix. apply prefix_app. exists name. by rewrite append_assoc.
Qed.

(** C29: An app's build credentials are staged exactly, privately and not for
    longer than the build. Whatever fails, every file written lies directly in
    the staging directory, is readable by the agent alone, and is written only
    after the directory was restricted; after the cleanup, whose one call removes the directory, no file is left.
    Without an error, the SSH key is there, ended by a newline, exactly when the
    app has one, and every secret with a usable id has its own file with its
    value, whatever order the map is visited in; an app without Secrets gets
    nothing and touches no file. *)
Theorem build_auth_staged E osid :
  (forall d, Permutation (ae_order E d) (map_to_list d)) ->
  (forall dir, ae_mkdir E = Ok dir -> is_rooted dir = true /\ Clean dir = dir /\ dir <> "/") ->
  let '(auth, dir, effs, err) := readBuildAuth E osid in
  ((effs = [] /\ dir = "") \/
   exists rest, effs = FsMkdir dir :: FsChmod dir 448 :: rest /\ Forall (private_write dir) rest) /\
  replay (effs ++ auth_cleanup dir)%list = ∅ /\
  (err = None -> osid <> "" ->
   exists ssh secrets, get_secret E osid (osid ++ "-build-ssh") = Ok ssh /\
     get_secret E osid (osid ++ "-build-secrets") = Ok secrets /\
     staged dir (app_key ssh) (default ∅ secrets) auth (replay effs)) /\
  ((forall name, ae_get E osid name = Err NotFound) -> err = None /\ auth = mkAuth "" ∅ /\ effs = []).
Proof.
  intros Hord Hdir. unfold readBuildAuth. destruct (String.eqb_spec osid "") as [->|Ho]; [by split; [left|]|].
  fold buildSSHSecretSuffix buildSecretsSecretSuffix.
  destruct (get_secret E osid (osid ++ buildSSHSecretSuffix)) as [ssh|e] eqn:E1.
  2: { split_and!; [by left|done|done|]. intros Hn. unfold get_secret in E1. by rewrite Hn in E1. }
  destruct (get_secret E osid (osid ++ buildSecretsSecretSuffix)) as [secrets|e] eqn:E2.
  2: { split_and!; [by left|done|done|]. intros Hn. unfold get_secret in E2. by rewrite Hn in E2. }
  fold (app_key ssh). destruct (String.eqb (app_key ssh) "" && _) eqn:Hnone.
  { apply andb_prop in Hnone as [Hk%String.eqb_eq Hs%bool_decide_eq_true].
    split_and!; [by left|done| |done]. intros _ _. exists ssh, secrets. split_and!; try done.
    rewrite Hk, Hs. split; try done. }
  assert ((forall name, ae_get E osid name = Err NotFound) -> False) as Hsome.
  { intros Hn. unfold get_secret in E1, E2. rewrite Hn in E1, E2. cbn in E1, E2. by simplify_eq. }
  destruct (ae_mkdir E) as [dir|e] eqn:Em; [|split_and!; [by left|done|done|tauto]].
  destruct (Hdir dir eq_refl) as (Hr & Hc & Hne).
  pose proof (stage_spec E dir (app_key ssh) secrets Hord Hr Hc Hne) as Hst.
  destruct (stage E dir (app_key ssh) secrets) as [[auth effs] err]. destruct Hst as [(rest & -> & Hp) Hok].
  split_and!; [right; eauto| | |tauto].
  - unfold auth_cleanup. rewrite (is_rooted_nonempty dir Hr). unfold replay. rewrite foldl_app. cbn [foldl replay1].
    by apply removed_all.
  - intros He _. exists ssh, secrets. split_and!; try done. by apply Hok.
Qed.

(** Without an error the flags for buildctl do not depend on the order in which
    the map was visited. *)
Lemma build_auth_order_irrelevant dir key data auth1 auth2 fs1 fs2 :
  staged dir key data auth1 fs1 -> staged dir key data auth2 fs2 -> buildAuthArgs auth1 = buildAuthArgs auth2.
Proof.
  intros S1 S2. f_equal. destruct auth1 as [k1 p1], auth2 as [k2 p2].
  pose proof (st_key_path _ _ _ _ _ S1) as H1. pose proof (st_key_path _ _ _ _ _ S2) as H2. cbn in *.
  f_equal; [congruence|]. apply map_eq. intros id.
  pose proof (st_paths _ _ _ _ _ S1 id) as H3. pose proof (st_paths _ _ _ _ _ S2 id) as H4. cbn in *. congruence.
Qed.

(** ** Witness *)

Definition demo_auth_env : AuthEnv :=
  mkAuthEnv (fun _ name => if String.eqb name "app1-build-ssh" then Ok {["ssh-privatekey" := "KEY"]}
                           else Ok (<["npm" := "t1"]> {["../evil" := "x"]}))
    (Ok "/tmp/build-auth-1") None (fun _ => None) map_to_list.

Lemma build_auth_staged_witness :
  let x := readBuildAuth demo_auth_env "app1" in
  x.2 = None /\ buildAuthArgs x.1.1.1 =
    ["--ssh"; "default=/tmp/build-auth-1/ssh-key"; "--secret"; "id=npm,src=/tmp/build-auth-1/secret-npm"] /\
  replay x.1.2 !! "/tmp/build-auth-1/ssh-key" = Some ("KEY" ++ String newline "", 384) /\
  replay (x.1.2 ++ auth_cleanup x.1.1.2)%list = ∅.
Proof.
  cbv zeta. split; [vm_compute; reflexivity|]. split; [vm_compute; reflexivity|]. split; [vm_compute; reflexivity|].
  assert (forall dir, ae_mkdir demo_auth_env = Ok dir -> is_rooted dir = true /\ Clean dir = dir /\ dir <> "/") as H2
    by (intros dir [= <-]; done).
  pose proof (build_auth_staged demo_auth_env "app1" (fun d => reflexivity _) H2) as H.
  destruct (readBuildAuth demo_auth_env "app1") as [[[auth dir] effs] err]. destruct H as (_ & Hempty & _). exact Hempty.
Defined.
