(* ===== verification/Process.v ===== *)
(** * The agent process ([src/main.go], [src/lifecycle.go])

    [main] composes the other components: it holds the tracker of [Drain.v],
    starts the sweep of the previous process's builder pods and the reconcile of
    its rows, serves requests, and on a signal drains and closes what is left.
    Here these goroutines and the work they let in run together: a step of the
    process is a step of [main], of the sweep, of the reconcile, of the progress
    logger, of a task that owns a unit of the tracker, of the clock, of another
    part of the agent, or the death of the process and the start of the next one
    on the same rows and pods.

    A task is the body of an upload handler, of a build instruction, or the
    goroutine either has started; the goroutine's writes are those of
    [Deploy.v], one per step. The statements between [Begin] and the start of
    the goroutine or the refusal are one step. The database stays the same one;
    its connection may come and go. *)
From stdpp Require Import gmap.
From S2P Require Import Prelude GoStrings Drain Db BuildJobs TokenStore Paths Tarball BuildKit Upload Deploy Manifest Workdir BuildPods Lifecycle.
Local Open Scope string_scope.
Local Open Scope Z_scope.

Definition drainProgressEvery : Z := 30 * Second.

(** ** The goroutines' program counters *)

(** [main]: before [drain.Hold]; before each [go] statement; serving until a
    signal; in [drainWithProgress]; about to close the rows that are left; and
    after [shutdown] has returned. *)
Inductive MainPc :=
| MBoot
| MHeld
| MSweeping
| MReconciling
| MServe
| MDrain (d : nat) (timeout : Z)
| MFailRows (remaining timeout : Z)
| MReturned (remaining : Z).

(** The goroutine that closes [podSweepDone]. *)
Inductive SweepPc :=
| SweepNone
| SweepStart
| SweepDelete (names : list string)
| SweepDone.

(** The goroutine of [reconcileUntilDone]: [closed] tells whether the reconcile
    succeeded; [RecWait] is blocked on [podSweepDone], [RecDone] has released. *)
Inductive RecPc :=
| RecNone
| RecTry (start : Z)
| RecSleep (start wake : Z)
| RecWait (closed : bool)
| RecDone (closed : bool).

(** What the owner of a unit of the tracker is doing. [fault]: a write of the
    row's status failed, or the environment is one in which the build returns
    without closing its row. *)
Inductive Task :=
| Handling (r : Request) (c : Cluster)
| Building (env : Workdir.BuildEnv) (req : VcsBuildRequest)
| Uploaded (j : Job) (env : FrontEnv)
| Executing (jobID : string) (effs : list DeployEffect) (fault : bool)
| OneShotRun
| Ending.

Section Process.
Context {DB : Type} {DBI : Database DB} {TC : TokenCodec}.
Variable DurationString : Z -> string.

(** [mine], [lost] and [started] are history: the ids of the rows this process
    made, of those its tasks ended without closing, and the pods it started. *)
Record Proc := mkProc {
  drn : World;
  db : DB;
  pods : gset string;
  main : MainPc;
  sweep : SweepPc;
  rec : RecPc;
  tasks : gmap nat Task;
  next_line : option Z;
  lines : list Z;
  mine : gset string;
  lost : gset string;
  started : gset string
}.

Definition boot (db : DB) (pods : gset string) : Proc :=
  mkProc Drain.init db pods MBoot SweepNone RecNone ∅ None [] ∅ ∅ ∅.

Definition ids (db : DB) : gset string := list_to_set (map JobID (jobs_t (tables db))).
Definition open_ids (db : DB) : gset string :=
  list_to_set (map JobID (List.filter is_open (jobs_t (tables db)))).

Definition set_drn w (p : Proc) := mkProc w (db p) (pods p) (main p) (sweep p) (rec p) (tasks p) (next_line p) (lines p) (mine p) (lost p) (started p).
Definition set_db d (p : Proc) := mkProc (drn p) d (pods p) (main p) (sweep p) (rec p) (tasks p) (next_line p) (lines p) (mine p) (lost p) (started p).
Definition set_pods s (p : Proc) := mkProc (drn p) (db p) s (main p) (sweep p) (rec p) (tasks p) (next_line p) (lines p) (mine p) (lost p) (started p).
Definition set_main m (p : Proc) := mkProc (drn p) (db p) (pods p) m (sweep p) (rec p) (tasks p) (next_line p) (lines p) (mine p) (lost p) (started p).
Definition set_sweep s (p : Proc) := mkProc (drn p) (db p) (pods p) (main p) s (rec p) (tasks p) (next_line p) (lines p) (mine p) (lost p) (started p).
Definition set_rec r (p : Proc) := mkProc (drn p) (db p) (pods p) (main p) (sweep p) r (tasks p) (next_line p) (lines p) (mine p) (lost p) (started p).
Definition set_task u t (p : Proc) := mkProc (drn p) (db p) (pods p) (main p) (sweep p) (rec p) (<[u := t]> (tasks p)) (next_line p) (lines p) (mine p) (lost p) (started p).
Definition end_task u (p : Proc) := mkProc (drn p) (db p) (pods p) (main p) (sweep p) (rec p) (delete u (tasks p)) (next_line p) (lines p) (mine p) (lost p) (started p).
Definition set_next_line n (p : Proc) := mkProc (drn p) (db p) (pods p) (main p) (sweep p) (rec p) (tasks p) n (lines p) (mine p) (lost p) (started p).
Definition add_line n (p : Proc) := mkProc (drn p) (db p) (pods p) (main p) (sweep p) (rec p) (tasks p) (next_line p) (lines p ++ [n])%list (mine p) (lost p) (started p).
Definition add_mine s (p : Proc) := mkProc (drn p) (db p) (pods p) (main p) (sweep p) (rec p) (tasks p) (next_line p) (lines p) (s ∪ mine p) (lost p) (started p).
Definition add_lost s (p : Proc) := mkProc (drn p) (db p) (pods p) (main p) (sweep p) (rec p) (tasks p) (next_line p) (lines p) (mine p) (s ∪ lost p) (started p).
Definition add_started s (p : Proc) := mkProc (drn p) (db p) (pods p) (main p) (sweep p) (rec p) (tasks p) (next_line p) (lines p) (mine p) (lost p) (s ∪ started p).

(** ** main *)

Inductive main_step : Proc -> Proc -> Prop :=
| main_hold p :
    main p = MBoot -> main_step p (set_main MHeld (set_drn (Hold (drn p)) p))
| main_go_sweep p :
    main p = MHeld -> main_step p (set_main MSweeping (set_sweep SweepStart p))
| main_go_reconcile p :
    main p = MSweeping -> main_step p (set_main MReconciling (set_rec (RecTry (now (drn p))) p))
| main_go_services p :
    main p = MReconciling -> main_step p (set_main MServe p)
| main_signal p d timeout :
    main p = MServe -> drains (drn p) !! d = None ->
    main_step p (set_main (MDrain d timeout)
                  (set_next_line (Some (now (drn p) + drainProgressEvery)) (set_drn (Drain_enter d timeout (drn p)) p)))
| main_select p d timeout b w :
    main p = MDrain d timeout -> Drain_select b d (drn p) = Some w -> main_step p (set_drn w p)
| main_timeout p d timeout w :
    main p = MDrain d timeout -> Drain_return d (drn p) = Some w -> main_step p (set_drn w p)
| main_drained p d timeout n :
    main p = MDrain d timeout -> drains (drn p) !! d = Some (DrainReturned n) ->
    main_step p (set_main (if n =? 0 then MReturned 0 else MFailRows n timeout) p)
| main_fail_rows p n timeout :
    main p = MFailRows n timeout ->
    main_step p (set_main (MReturned n)
                  (set_db (FailNonTerminalBuildKitJobs (shutdown_reason DurationString timeout) (db p)).2 p)).

(** [stop] of [drainWithProgress] is closed when the function returns. *)
Definition stop_closed (m : MainPc) : bool :=
  match m with MFailRows _ _ | MReturned _ => true | _ => false end.

(** The goroutine of [drainWithProgress]: a line per tick until it sees [stop];
    when both are ready the [select] may take either. *)
Inductive progress_step : Proc -> Proc -> Prop :=
| progress_tick p t :
    next_line p = Some t -> t <= now (drn p) ->
    progress_step p (set_next_line (Some (t + drainProgressEvery)) (add_line (InFlight (drn p)) p))
| progress_stop p t :
    next_line p = Some t -> stop_closed (main p) = true -> progress_step p (set_next_line None p).

(** ** The sweep *)

(** [NewK8sClient] fails, or [StartupCleanup] lists the builder pods (or fails
    to) and attempts one deletion after the other. The legacy objects it then
    deletes are no builder pods. *)
Inductive sweep_step : Proc -> Proc -> Prop :=
| sweep_no_client p :
    sweep p = SweepStart -> sweep_step p (set_sweep SweepDone p)
| sweep_list p :
    sweep p = SweepStart -> sweep_step p (set_sweep (SweepDelete (elements (pods p))) p)
| sweep_list_failed p :
    sweep p = SweepStart -> sweep_step p (set_sweep (SweepDelete []) p)
| sweep_deleted p name names :
    sweep p = SweepDelete (name :: names) ->
    sweep_step p (set_sweep (SweepDelete names) (set_pods (pods p ∖ {[name]}) p))
| sweep_not_deleted p name names :
    sweep p = SweepDelete (name :: names) -> sweep_step p (set_sweep (SweepDelete names) p)
| sweep_end p :
    sweep p = SweepDelete [] -> sweep_step p (set_sweep SweepDone p).

(** ** The reconcile *)

Inductive rec_step : Proc -> Proc -> Prop :=
| rec_try p start :
    rec p = RecTry start ->
    rec_step p
      (match reconcileOrphanedBuilds FailNonTerminalBuildKitJobs (db p) with
       | (Ok _, d) => set_rec (RecWait true) (set_db d p)
       | (Err _, d) =>
           if reconcileMaxWait <=? now (drn p) - start then set_rec (RecWait false) (set_db d p)
           else set_rec (RecSleep start (now (drn p) + reconcileRetryEvery)) (set_db d p)
       end)
| rec_wake p start wake :
    rec p = RecSleep start wake -> wake <= now (drn p) -> rec_step p (set_rec (RecTry start) p)
| rec_release p closed :
    rec p = RecWait closed -> sweep p = SweepDone ->
    rec_step p (set_rec (RecDone closed) (set_drn (Release (drn p)) p)).

(** ** Tasks *)

(** The services run from the end of [main]'s [go] statements on. *)
Definition serving (m : MainPc) : bool :=
  match m with MBoot | MHeld | MSweeping | MReconciling => false | _ => true end.

(** An environment in which a build that has started writes the end of its row
    ([setup_ok] of [Deploy.v], as a test). *)
Definition setup_okb (env : DeployEnv) (workdir : string) : bool :=
  bool_decide (be_busy (de_build env) = None) && bool_decide (be_tmpdir (de_build env) = None) &&
  bool_decide (be_marshal (de_build env) = None) && bool_decide (be_write (de_build env) = None) &&
  negb (String.eqb workdir "").

(** The effects of the goroutine of an accepted upload after its row was made. *)
Definition upload_effects (j : Job) (env : FrontEnv) : list DeployEffect :=
  tail (match job_kind j with
        | CLIDeploy => processCLIDeployment env (job_osid j) (job_id j) (job_dockerfile j) (job_args j)
        | BuildImage repo tags =>
            processBuildImageDeployment env (job_osid j) (job_id j) repo tags (job_dockerfile j) (job_args j)
        end).

(** The environment with the database's own answer to the creation. *)
Definition with_create (r : option string) (env : FrontEnv) : FrontEnv :=
  mkFrontEnv (fe_k8s env) r (fe_tmp env) (fe_archive env) (fe_os env) (fe_stat env) (fe_deploy env).

Definition is_busy_write (e : DeployEffect) : bool :=
  match row_status_of e with Some s => String.eqb s JobStatusBusy | None => false end.

(** What an effect does to the database. *)
Definition run_effect (jobID : string) (e : DeployEffect) (d : DB) : result string unit * DB :=
  match e with
  | InsertArgs args => InsertBuildKitJobArgs jobID args d
  | RowLog l | OfBuild (Log l) => InsertBuildKitLog jobID l d
  | RowStatus s | OfBuild (SetStatus s) => UpdateBuildKitJobStatus jobID s d
  | _ => (Ok tt, d)
  end.

(** What an effect does to the pods. *)
Definition pod_effect (jobID : string) (e : DeployEffect) (p : Proc) : Proc :=
  match e with
  | OfBuild StartPod => add_started {[builderPodName jobID]} (set_pods ({[builderPodName jobID]} ∪ pods p) p)
  | OfBuild StopPod => set_pods (pods p ∖ {[builderPodName jobID]}) p
  | _ => p
  end.

Inductive task_step : Proc -> Proc -> Prop :=
| task_upload p r c u w :
    serving (main p) = true -> Method r = "POST" -> token_of_path "/cli-deploy/" (Path r) <> "" ->
    Begin (drn p) = (Ok u, w) -> task_step p (set_task u (Handling r c) (set_drn w p))
| task_refused p u r c resp d :
    tasks p !! u = Some (Handling r c) ->
    upload_admitted r c (token_of_path "/cli-deploy/" (Path r)) u (db p) = (Err resp, d) ->
    task_step p (set_task u Ending (add_mine (ids d ∖ ids (db p)) (add_lost (open_ids d ∖ ids (db p)) (set_db d p))))
| task_accepted p u r c j env d :
    tasks p !! u = Some (Handling r c) ->
    upload_admitted r c (token_of_path "/cli-deploy/" (Path r)) u (db p) = (Ok j, d) ->
    task_step p (set_task u (Uploaded j env) (set_db d p))
| task_no_client p u j env e :
    tasks p !! u = Some (Uploaded j env) -> fe_k8s env = Some e -> task_step p (set_task u Ending p)
| task_not_created p u j env e d :
    tasks p !! u = Some (Uploaded j env) -> fe_k8s env = None ->
    CreateBuildKitJob (job_id j) (job_osid j) "" "" (job_id j) (db p) = (Err e, d) ->
    task_step p (set_task u Ending (set_db d p))
| task_created p u j env d :
    tasks p !! u = Some (Uploaded j env) -> fe_k8s env = None ->
    CreateBuildKitJob (job_id j) (job_osid j) "" "" (job_id j) (db p) = (Ok tt, d) ->
    task_step p (set_task u
      (Executing (job_id j) (upload_effects j (with_create None env))
         (negb (setup_okb (fe_deploy env) (match fe_tmp env with Ok t => t | Err _ => "no directory" end))))
      (add_mine {[job_id j]} (set_db d p)))
| task_build p env req u w :
    serving (main p) = true -> br_OSID req <> "" -> br_SHA req <> "" -> br_JobID req <> "" ->
    Begin (drn p) = (Ok u, w) -> task_step p (set_task u (Building env req) (set_drn w p))
| task_build_refused p u env req at_ c resp d :
    tasks p !! u = Some (Building env req) -> build_admitted env req at_ c (db p) = (resp, None, d) ->
    task_step p (set_task u Ending (set_db d p))
| task_build_started p u env req at_ c resp i d k8s cfg denv :
    tasks p !! u = Some (Building env req) -> build_admitted env req at_ c (db p) = (resp, Some i, d) ->
    task_step p (set_task u
      (Executing (vi_JobID i) (RunVcsBuild k8s cfg denv i) (negb (setup_okb denv (vi_Workdir i))))
      (add_mine {[vi_JobID i]} (set_db d p)))
| task_effect p u j e l f r d :
    tasks p !! u = Some (Executing j (e :: l) f) -> run_effect j e (db p) = (r, d) ->
    (is_busy_write e = true -> is_ok r = true) ->
    task_step p (set_task u (Executing j l (f || (bool_decide (is_Some (row_status_of e)) && negb (is_ok r))))
                   (pod_effect j e (set_db d p)))
| task_executed p u j f :
    tasks p !! u = Some (Executing j [] f) ->
    task_step p (set_task u Ending (add_lost (if f then {[j]} else ∅) p))
| task_oneshot p u w :
    serving (main p) = true -> Begin (drn p) = (Ok u, w) -> task_step p (set_task u OneShotRun (set_drn w p))
| task_oneshot_done p u :
    tasks p !! u = Some OneShotRun -> task_step p (set_task u Ending p)
| task_end p u w :
    tasks p !! u = Some Ending -> end_fn u (drn p) = Some w -> task_step p (end_task u (set_drn w p)).

(** ** Everything else *)

(** The clock; every other part of the agent, which writes no build row; pods
    that go away on their own; and the end of the process, at any point, with the
    start of its successor. *)
Inductive other_step : Proc -> Proc -> Prop :=
| other_tick p dt : 0 <= dt -> other_step p (set_drn (tick dt (drn p)) p)
| other_db p d : jobs_t (tables d) = jobs_t (tables (db p)) -> other_step p (set_db d p)
| other_pods p s : s ⊆ pods p -> other_step p (set_pods s p)
| other_restart p d : tables d = tables (db p) -> other_step p (boot d (pods p)).

Inductive proc_step (p p' : Proc) : Prop :=
| of_main : main_step p p' -> proc_step p p'
| of_progress : progress_step p p' -> proc_step p p'
| of_sweep : sweep_step p p' -> proc_step p p'
| of_rec : rec_step p p' -> proc_step p p'
| of_task : task_step p p' -> proc_step p p'
| of_other : other_step p p' -> proc_step p p'.

Definition agent_reachable (d0 : DB) (pods0 : gset string) (p : Proc) : Prop := rtc proc_step (boot d0 pods0) p.
End Process.

(** ** The database operations and the rows of other builds *)

Section Rows.
Context {DB : Type} {DBI : Database DB} {DBL : DatabaseLaws DB} {TC : TokenCodec}.

Definition same_jobs (d d' : DB) : Prop := jobs_t (tables d') = jobs_t (tables d).

Lemma stmt_same_jobs {A} (s : Stmt A) d :
  (forall st t, jobs_t (s st t).2 = jobs_t t) -> same_jobs d (stmt s d).2.
Proof.
  intros Hs. unfold same_jobs. destruct (stmt_spec _ s d) as [[_ ->]|(e & _ & ->)]; [apply Hs|done].
Qed.

Lemma InsertBuildKitLog_same j l d : same_jobs d (InsertBuildKitLog j l d).2.
Proof. unfold InsertBuildKitLog, activeDB. destruct (handle d); [|done]. by apply stmt_same_jobs. Qed.

Lemma InsertBuildKitJobArgs_same j l d : same_jobs d (InsertBuildKitJobArgs j l d).2.
Proof.
  unfold InsertBuildKitJobArgs. destruct l; [done|]. unfold activeDB. destruct (handle d); [|done].
  by apply stmt_same_jobs.
Qed.

Definition write_status (j s : string) (now : Z) (m : BuildKitJobModel) : BuildKitJobModel :=
  if String.eqb (JobID m) j then set_status s (is_terminal s) now m else m.

(** A status write that succeeds rewrites the one row; any other effect, and one
    that fails, rewrites none. *)
Lemma run_effect_cases j e (d : DB) r d' :
  jobs_wf (tables d) -> run_effect j e d = (r, d') ->
  match row_status_of e with
  | Some s =>
      if is_ok r then exists now, jobs_t (tables d') = map (write_status j s now) (jobs_t (tables d))
      else same_jobs d d'
  | None => same_jobs d d'
  end.
Proof.
  intros W E.
  assert (forall s, UpdateBuildKitJobStatus j s d = (r, d') ->
    if is_ok r then exists now, jobs_t (tables d') = map (write_status j s now) (jobs_t (tables d))
    else same_jobs d d') as Hup.
  { intros s Es. pose proof (update_status_spec j s d W) as H. rewrite Es in H.
    destruct r as [[]|err]; [by destruct H as [_ H]|]. unfold same_jobs. by destruct H as [-> _]. }
  assert (d' = (run_effect j e d).2) as Ed by (by rewrite E).
  destruct e as [| | | | | | |[]|]; cbn in E |- *; try (injection E as _ <-; reflexivity);
    first [by apply Hup | rewrite Ed; cbn; auto using InsertBuildKitLog_same, InsertBuildKitJobArgs_same].
Qed.

Lemma create_new j o r b c (d d' : DB) :
  CreateBuildKitJob j o r b c d = (Ok tt, d') ->
  (j ∉ ids d) /\ exists row, jobs_t (tables d') = (jobs_t (tables d) ++ [row])%list /\
    JobID row = j /\ is_terminal (Status row) = false.
Proof.
  intros E. pose proof (create_cases j o r b c d) as H. rewrite E in H. destruct H as (Hn & at_ & i & ->). split.
  - unfold ids. by rewrite elem_of_list_to_set, list_elem_of_In.
  - eexists. split; [reflexivity|]. done.
Qed.

Lemma create_failed j o r b c (d d' : DB) e :
  CreateBuildKitJob j o r b c d = (Err e, d') -> same_jobs d d'.
Proof. intros E. pose proof (create_cases j o r b c d) as H. rewrite E in H. unfold same_jobs. by rewrite H. Qed.

(** Rows are only added, under ids that were not there. *)
Definition rows_added (d d' : DB) : Prop :=
  exists extra, jobs_t (tables d') = (jobs_t (tables d) ++ extra)%list /\
    forall m, m ∈ extra -> JobID m ∉ ids d.

Lemma rows_added_same d d' : same_jobs d d' -> rows_added d d'.
Proof. intros E. exists []. rewrite app_nil_r. split; [done|]. intros m Hm. by apply not_elem_of_nil in Hm. Qed.

Lemma same_rows_added d1 d2 d3 : same_jobs d1 d2 -> rows_added d2 d3 -> rows_added d1 d3.
Proof. unfold rows_added, same_jobs, ids. by intros ->. Qed.

Lemma rows_added_same_r d1 d2 d3 : rows_added d1 d2 -> same_jobs d2 d3 -> rows_added d1 d3.
Proof. unfold rows_added, same_jobs, ids. by intros H ->. Qed.

Lemma recordFailedUpload_added j o msg (d : DB) :
  jobs_wf (tables d) ->
  let '(r, d') := recordFailedUpload j o msg d in
  jobs_wf (tables d') /\ rows_added d d' /\
  (r = Ok tt -> forall m, m ∈ jobs_t (tables d') -> JobID m = j -> is_open m = false).
Proof.
  intros W. unfold recordFailedUpload. pose proof (CreateBuildKitJob_wf j o "" "" j d W) as W1.
  destruct (CreateBuildKitJob j o "" "" j d) as [[[]|e] d1] eqn:Ec; cbn [snd] in W1;
    [|split_and!; [done|by eapply rows_added_same, create_failed|done]].
  apply create_new in Ec as (Hn & row & Hj & Hid & Hst).
  assert (rows_added d d1) as Hadd.
  { exists [row]. split; [done|]. intros m ->%list_elem_of_singleton. by rewrite Hid. }
  pose proof (InsertBuildKitLog_same j ("ERROR: " ++ msg) d1) as Hl.
  destruct (InsertBuildKitLog j ("ERROR: " ++ msg) d1) as [[[]|e] d2]; cbn [snd] in Hl;
    (assert (jobs_wf (tables d2)) as W2 by (by apply (jobs_wf_same (tables d1))));
    [|split_and!; [done|by eapply rows_added_same_r|done]].
  pose proof (UpdateBuildKitJobStatus_wf j JobStatusFailed d2 W2) as W3.
  pose proof (update_status_spec j JobStatusFailed d2 W2) as Hu.
  destruct (UpdateBuildKitJobStatus j JobStatusFailed d2) as [[[]|e] d3]; cbn [snd] in W3.
  2: { destruct Hu as [Ht _]. split_and!; [done| |done].
       eapply rows_added_same_r; [done|]. unfold same_jobs in *. by rewrite Ht. }
  destruct Hu as (_ & at_ & Hm). fold (write_status j JobStatusFailed at_) in Hm.
  change (fun m => _) with (write_status j JobStatusFailed at_) in Hm.
  split_and!; [done| |].
  - exists [write_status j JobStatusFailed at_ row]. rewrite Hm, Hl, Hj, map_app. split.
    + f_equal. rewrite <-(map_id (jobs_t (tables d))) at 2. apply map_ext_in. intros m Hin%list_elem_of_In.
      unfold write_status. destruct (String.eqb_spec (JobID m) j) as [<-|]; [|done].
      destruct Hn. unfold ids. apply elem_of_list_to_set, list_elem_of_fmap. eauto.
    + intros m ->%list_elem_of_singleton. unfold write_status. rewrite Hid, String.eqb_refl. simpl. by rewrite Hid.
  - intros _ m. rewrite Hm. intros (y & -> & Hy)%list_elem_of_fmap. unfold write_status.
    by destruct (String.eqb_spec (JobID y) j).
Qed.

Lemma mark_same tk (d : DB) : same_jobs d (MarkUploadTokenUsed tk d).2.
Proof. rewrite mark_state. destruct (handle d); [|done]. by apply stmt_same_jobs. Qed.

Lemma accept_upload_added token c t u (d : DB) :
  jobs_wf (tables d) -> let '(r, d') := accept_upload token c t u d in
  jobs_wf (tables d') /\ rows_added d d' /\ (is_ok r = true -> same_jobs d d').
Proof.
  intros W. unfold accept_upload. destruct (match Cut _ _ with Some _ => _ | None => _ end) as [osid uploadID].
  assert (forall msg, let '(r, d') := failUpload osid uploadID 500 msg d in
    jobs_wf (tables d') /\ rows_added d d') as Hf.
  { intros msg. unfold failUpload. pose proof (recordFailedUpload_added uploadID osid msg d W) as H.
    by destruct (recordFailedUpload uploadID osid msg d) as [r d'], H as (? & ? & _). }
  assert (jobs_wf (tables d) /\ rows_added d d /\ same_jobs d d) as Hsame by (split_and!; by try apply rows_added_same).
  assert (forall msg, let '(r, d') := (let '(r, d') := failUpload osid uploadID 500 msg d in (@Err Response Job r, d')) in
    jobs_wf (tables d') /\ rows_added d d' /\ (is_ok r = true -> same_jobs d d')) as Hfail.
  { intros msg. specialize (Hf msg). by destruct (failUpload osid uploadID 500 msg d), Hf. }
  clear Hf. destruct Hsame as (? & ? & ?).
  destruct (k8s_client c); [apply Hfail|]. destruct (buildkit_config c); [apply Hfail|].
  destruct (String.eqb _ _); [|destruct (short token); [done|]; destruct (push_archive c); [apply Hfail|done]].
  destruct (ut_buildTarget t) as [[repo [|tag tags]]|]; repeat case_match; simplify_eq; done.
Qed.

Lemma upload_admitted_added r c token u (d : DB) :
  jobs_wf (tables d) -> let '(x, d') := upload_admitted r c token u d in
  jobs_wf (tables d') /\ rows_added d d' /\ (is_ok x = true -> same_jobs d d').
Proof.
  intros W. unfold upload_admitted.
  assert (same_jobs d (GetUploadableToken token d).2) as Hg
    by (unfold same_jobs, GetUploadableToken; by rewrite get_state).
  destruct (GetUploadableToken token d) as [[t|e] d1]; cbn [snd] in Hg;
    (assert (jobs_wf (tables d1)) as W1 by (by apply (jobs_wf_same (tables d))));
    [|split_and!; by try apply rows_added_same].
  destruct (_ <? _); [split_and!; by try apply rows_added_same|].
  destruct (ut_used t); [split_and!; by try apply rows_added_same|].
  pose proof (mark_same token d1) as Hm. destruct (MarkUploadTokenUsed token d1) as [[[]|e] d2]; cbn [snd] in Hm;
    (assert (same_jobs d d2) as Hs by (unfold same_jobs in *; by rewrite Hm));
    (assert (jobs_wf (tables d2)) as W2 by (by apply (jobs_wf_same (tables d1))));
    [|split_and!; by try apply rows_added_same].
  destruct (read_body r); [|split_and!; by try apply rows_added_same].
  pose proof (accept_upload_added token c t u d2 W2) as Ha. destruct (accept_upload token c t u d2) as [x d3].
  destruct Ha as (? & ? & Hok). split_and!; [done|by eapply same_rows_added|].
  intros Hx. specialize (Hok Hx). unfold same_jobs in *. by rewrite Hok.
Qed.

Lemma build_admitted_cases env req at_ c (d : DB) :
  let '(resp, i, d') := build_admitted env req at_ c d in
  match i with
  | None => same_jobs d d'
  | Some i => (vi_JobID i ∉ ids d) /\ exists row, jobs_t (tables d') = (jobs_t (tables d) ++ [row])%list /\
      JobID row = vi_JobID i /\ is_terminal (Status row) = false
  end.
Proof.
  unfold build_admitted. destruct (negb _); [done|]. destruct (vcsWorkdirCacheGet _ _ _ _); [|done].
  destruct (CreateBuildKitJob _ _ _ _ _ d) as [[[]|e] d'] eqn:Ec; [by apply create_new in Ec|by apply create_failed in Ec].
Qed.

(** A failed or successful close of all open rows. *)
Lemma FailNonTerminal_rows reason (d : DB) :
  jobs_wf (tables d) -> let '(r, d') := FailNonTerminalBuildKitJobs reason d in
  jobs_wf (tables d') /\
  if is_ok r then exists now, jobs_t (tables d') = map (close_row now) (jobs_t (tables d)) else same_jobs d d'.
Proof.
  intros W. pose proof (FailNonTerminal_cases reason d W) as H. pose proof (FailNonTerminal_wf reason d W) as W'.
  destruct (FailNonTerminalBuildKitJobs reason d) as [r d'].
  destruct H as [(n & tx & -> & Hb & Ht)|(e & -> & Ht)]; (split; [done|]).
  - apply fail_body_ok in Hb as (_ & Hj & _); [|apply W]. simpl. by rewrite Ht.
  - unfold same_jobs. simpl. by rewrite Ht.
Qed.
End Rows.

(** ** Goroutines that close their row *)

Definition closes (effs : list DeployEffect) : Prop :=
  exists st, last (row_statuses effs) = Some st /\ is_terminal st = true.

Lemma setup_okb_spec env wd : setup_okb env wd = true -> setup_ok (de_build env) /\ wd <> "".
Proof.
  unfold setup_okb, setup_ok. rewrite !andb_true_iff, !bool_decide_eq_true, negb_true_iff, String.eqb_neq. tauto.
Qed.

Lemma upload_effects_close j env :
  fe_k8s env = None ->
  setup_okb (fe_deploy env) (match fe_tmp env with Ok t => t | Err _ => "no directory" end) = true ->
  closes (upload_effects j (with_create None env)).
Proof.
  intros Hk [Hs Hw]%setup_okb_spec.
  assert (forall log build_only repo tags, closes (tail (process_upload log build_only repo tags (with_create None env)
    (job_osid j) (job_id j) (job_dockerfile j) (job_args j)))) as H.
  { intros log build_only repo tags. unfold process_upload, with_create. cbn. rewrite Hk.
    destruct (fe_tmp env) as [tmpDir|e]; [|by exists JobStatusFailed]. cbn [tail List.app].
    set (body := match (extractTarball _ _ _).1 with Ok _ => _ | Err _ => _ end).
    assert (closes body) as Hbody.
    { unfold body. destruct (extractTarball _ _ _).1; [|by exists JobStatusFailed].
      destruct (splitTarballDockerfile _ _ _) as [[dir file]|e]; [|by exists JobStatusFailed].
      apply last_after_log, process_terminal; [done|]. done. }
    clearbody body. unfold closes. change (MakeTmp :: ExtractArchive :: ?l) with ([MakeTmp; ExtractArchive] ++ l)%list.
    rewrite !row_statuses_app. cbn. by rewrite app_nil_r. }
  unfold upload_effects. destruct (job_kind j); apply H.
Qed.

Lemma RunVcsBuild_closes k8s cfg env i :
  setup_okb env (vi_Workdir i) = true -> closes (RunVcsBuild k8s cfg env i).
Proof.
  intros [Hs Hw]%setup_okb_spec. unfold RunVcsBuild, closes. rewrite row_statuses_app. cbn. rewrite app_nil_r.
  destruct k8s; [by exists JobStatusFailed|]. destruct cfg; [by exists JobStatusFailed|]. by apply process_terminal.
Qed.

(** After one effect the rest still closes the row, or that effect did. *)
Lemma closes_cons e l :
  closes (e :: l) -> closes l \/ (row_statuses l = [] /\ exists s, row_status_of e = Some s /\ is_terminal s = true).
Proof.
  intros (st & Hl & Ht). unfold closes. unfold row_statuses in *. cbn in Hl.
  destruct (row_status_of e) as [s|]; [|by left; exists st].
  destruct (omap row_status_of l) as [|x xs] eqn:E; [right|left; exists st].
  - cbn in Hl. simplify_eq. split; [done|]. by exists st.
  - done.
Qed.

Lemma closes_nil : ~ closes [].
Proof. by intros (st & ? & _). Qed.

(** ** The invariant of the rows *)

Section RowInv.
Context {DB : Type} {DBI : Database DB} {DBL : DatabaseLaws DB} {TC : TokenCodec}.

(** An open row of this process has a goroutine that will close it, unless a
    fault was recorded, or has been given up. *)
Definition accounted (tasks : gmap nat Task) (lost : gset string) (j : string) : Prop :=
  (exists u l f, tasks !! u = Some (Executing j l f) /\ (f = false -> closes l)) \/ j ∈ lost.

(** [closed]: the reconcile of this process has succeeded. *)
Record row_inv (d : DB) (tasks : gmap nat Task) (mine lost : gset string) (closed : bool) : Prop := {
  ri_wf : jobs_wf (tables d);
  ri_mine : mine ⊆ ids d;
  ri_exec u j l f : tasks !! u = Some (Executing j l f) -> j ∈ mine;
  ri_uniq u1 u2 j l1 f1 l2 f2 :
    tasks !! u1 = Some (Executing j l1 f1) -> tasks !! u2 = Some (Executing j l2 f2) -> u1 = u2;
  ri_tail u j l f : tasks !! u = Some (Executing j l f) -> f = false -> closes l \/ row_statuses l = [];
  ri_rows m : m ∈ jobs_t (tables d) -> is_open m = true -> JobID m ∈ mine -> accounted tasks lost (JobID m);
  ri_closed m : closed = true -> m ∈ jobs_t (tables d) -> is_open m = true -> JobID m ∈ mine
}.

Lemma elem_of_ids (d : DB) j : j ∈ ids d <-> exists m, m ∈ jobs_t (tables d) /\ JobID m = j.
Proof. unfold ids. rewrite elem_of_list_to_set, list_elem_of_fmap. naive_solver. Qed.

Lemma row_inv_same d d' T M L c : same_jobs d d' -> row_inv d T M L c -> row_inv d' T M L c.
Proof.
  intros E [W Hm He Hu Ht Hr Hc]. unfold same_jobs in E. split; rewrite ?E; try done.
  - by apply (jobs_wf_same (tables d)).
  - unfold ids in *. by rewrite E.
Qed.

(** Tasks that run no goroutine do not matter. *)
Lemma row_inv_tasks d T T' M L c :
  (forall u j l f, T' !! u = Some (Executing j l f) <-> T !! u = Some (Executing j l f)) ->
  row_inv d T M L c -> row_inv d T' M L c.
Proof.
  intros E [W Hm He Hu Ht Hr Hc]. split; try done.
  - intros u j l f H%E. eauto.
  - intros u1 u2 j l1 f1 l2 f2 H1%E H2%E. eauto.
  - intros u j l f H%E. eauto.
  - intros m ? ? ?. destruct (Hr m) as [(u & l & f & HT%E & ?)|]; [done..|left; eauto|by right].
Qed.

Definition quiet (t : option Task) : Prop := forall j l f, t <> Some (Executing j l f).

Lemma row_inv_set_task d T M L c u t :
  quiet (T !! u) -> quiet (Some t) -> row_inv d T M L c -> row_inv d (<[u := t]> T) M L c.
Proof.
  intros Ho Hn. apply row_inv_tasks. intros v j l f. destruct (decide (v = u)) as [->|].
  - rewrite lookup_insert_eq. split; intros H; exfalso; [by eapply Hn|by eapply Ho].
  - by rewrite lookup_insert_ne by done.
Qed.

Lemma row_inv_end_task d T M L c u :
  quiet (T !! u) -> row_inv d T M L c -> row_inv d (delete u T) M L c.
Proof.
  intros Ho. apply row_inv_tasks. intros v j l f. destruct (decide (v = u)) as [->|].
  - rewrite lookup_delete_eq. split; intros H; [done|exfalso; by eapply Ho].
  - by rewrite lookup_delete_ne by done.
Qed.

(** Closing all open rows keeps it and establishes the last clause. *)
Lemma row_inv_fail reason d T M L c c' :
  row_inv d T M L c ->
  let '(r, d') := FailNonTerminalBuildKitJobs reason d in
  (c' = true -> is_ok r = true \/ c = true) -> row_inv d' T M L c'.
Proof.
  intros [W Hm He Hu Ht Hr Hc]. pose proof (FailNonTerminal_rows reason d W) as H.
  destruct (FailNonTerminalBuildKitJobs reason d) as [r d']. destruct H as [W' H]. intros Hcc.
  destruct (is_ok r) eqn:Er.
  - destruct H as [at_ Hj].
    assert (forall m, m ∈ jobs_t (tables d') -> is_open m = false) as Hno.
    { rewrite Hj. intros m (y & -> & _)%list_elem_of_fmap. apply close_row_closed. }
    split; try done; [|by intros m Hin%Hno ?; congruence|by intros m ? Hin%Hno ?; congruence].
    intros j Hj'%Hm%elem_of_ids. destruct Hj' as (m & Hin & <-). apply elem_of_ids. exists (close_row at_ m).
    rewrite Hj. split; [apply list_elem_of_fmap; eauto|]. unfold close_row. by destruct (is_open m).
  - apply (row_inv_same d); [done|]. split; try done. intros m ->. destruct Hcc; [done|done|]. auto.
Qed.

(** A goroutine starts with a row of its own. *)
Lemma row_inv_create d d' T M L c u j row l f :
  quiet (T !! u) -> (j ∉ ids d) -> jobs_t (tables d') = (jobs_t (tables d) ++ [row])%list ->
  JobID row = j -> is_terminal (Status row) = false -> (f = false -> closes l) ->
  row_inv d T M L c -> row_inv d' (<[u := Executing j l f]> T) ({[j]} ∪ M) L c.
Proof.
  intros Ho Hn Hj Hid Hst Hf [W Hm He Hu Ht Hr Hc].
  assert (forall v x lx fx, <[u := Executing j l f]> T !! v = Some (Executing x lx fx) ->
    (v = u /\ x = j) \/ (v <> u /\ T !! v = Some (Executing x lx fx) /\ x <> j)) as Hcase.
  { intros v x lx fx [[<- ?]|[? HT]]%lookup_insert_Some; [left; by simplify_eq|right].
    split_and!; [done|done|]. intros ->. by apply He, Hm in HT. }
  split.
  - destruct W as [W1 W2]. split; rewrite Hj.
    + rewrite map_app. apply NoDup_app. split_and!; [done| |apply NoDup_singleton].
      intros x Hx ->%list_elem_of_singleton. rewrite Hid in Hx. apply Hn, elem_of_list_to_set, Hx.
    + intros m [Hin| ->%list_elem_of_singleton]%elem_of_app; [by apply W2|congruence].
  - intros x [->%elem_of_singleton|Hx%Hm]%elem_of_union; apply elem_of_ids; rewrite Hj.
    + exists row. rewrite elem_of_app, list_elem_of_singleton. auto.
    + apply elem_of_ids in Hx as (m & ? & ?). exists m. rewrite elem_of_app. auto.
  - intros v x lx fx H. destruct (Hcase _ _ _ _ H) as [[_ ->]|(_ & H' & _)]; [set_solver|]. apply He in H'. set_solver.
  - intros v1 v2 x l1 f1 l2 f2 H1 H2.
    destruct (Hcase _ _ _ _ H1) as [[-> ->]|(? & H1' & ?)], (Hcase _ _ _ _ H2) as [[-> ?]|(? & H2' & ?)]; try done. eauto.
  - intros v x lx fx [[<- ?]|[? HT]]%lookup_insert_Some; [simplify_eq; auto|eauto].
  - intros m Hin Ho' HM. destruct (decide (JobID m = j)) as [->|Hne].
    + left. exists u, l, f. by rewrite lookup_insert_eq.
    + rewrite Hj in Hin. apply elem_of_app in Hin as [Hin| ->%list_elem_of_singleton]; [|done].
      destruct (Hr m Hin Ho') as [(v & lv & fv & HT & ?)|]; [set_solver|left|by right].
      exists v, lv, fv. rewrite lookup_insert_ne; [done|]. intros ->. by eapply Ho.
  - intros m Hcl Hin Ho'. rewrite Hj in Hin. apply elem_of_app in Hin as [Hin| ->%list_elem_of_singleton]; [|set_solver].
    specialize (Hc m Hcl Hin Ho'). set_solver.
Qed.

(** A refused upload adds rows under new ids; the open ones are given up. *)
Lemma row_inv_refused d d' T M L c :
  jobs_wf (tables d') -> rows_added d d' ->
  row_inv d T M L c -> row_inv d' T ((ids d' ∖ ids d) ∪ M) ((open_ids d' ∖ ids d) ∪ L) c.
Proof.
  intros W' (extra & Hj & Hnew) [W Hm He Hu Ht Hr Hc].
  assert (forall m, m ∈ jobs_t (tables d') -> (m ∈ jobs_t (tables d) /\ JobID m ∈ ids d) \/ JobID m ∈ ids d' ∖ ids d) as Hcase.
  { intros m Hin. assert (JobID m ∈ ids d') as Hid by (apply elem_of_ids; eauto).
    rewrite Hj in Hin. apply elem_of_app in Hin as [Hin|Hin]; [left|right; apply Hnew in Hin; set_solver].
    split; [done|]. apply elem_of_ids. eauto. }
  split; try done.
  - intros x [Hx|Hx%Hm]%elem_of_union; [set_solver|]. apply elem_of_ids in Hx as (m & ? & <-).
    apply elem_of_ids. exists m. by rewrite Hj, elem_of_app; auto.
  - intros u j l f H%He. set_solver.
  - intros m Hin Ho HM. destruct (Hcase m Hin) as [[Hold Hid]|Hid].
    + destruct (Hr m Hold Ho) as [?|?]; [set_solver|by left|right; set_solver].
    + right. apply elem_of_union_l, elem_of_difference. split; [|set_solver].
      unfold open_ids. apply elem_of_list_to_set, list_elem_of_fmap. exists m. split; [done|].
      apply list_elem_of_In, List.filter_In. split; [by apply list_elem_of_In|done].
  - intros m Hcl Hin Ho. destruct (Hcase m Hin) as [[Hold _]|Hid]; [|set_solver]. specialize (Hc m Hcl Hold Ho). set_solver.
Qed.

(** What one effect does to the rows: only the goroutine's own row changes, and
    if that row is open afterwards and no fault was recorded, the remaining
    effects close it, or nothing was written and it was open before. *)
Lemma effect_rows d d' j e l f r :
  jobs_wf (tables d) -> run_effect j e d = (r, d') ->
  (f = false -> closes (e :: l) \/ row_statuses (e :: l) = []) ->
  exists g, jobs_t (tables d') = map g (jobs_t (tables d)) /\ (forall m, JobID (g m) = JobID m) /\
    (forall m, JobID m <> j -> g m = m) /\
    (forall m, JobID m = j -> is_open (g m) = true ->
       f || (bool_decide (is_Some (row_status_of e)) && negb (is_ok r)) = false ->
       closes l \/ (is_open m = true /\ row_status_of e = None)).
Proof.
  intros W Hrun Ht. pose proof (run_effect_cases j e d r d' W Hrun) as Hcase.
  destruct (row_status_of e) as [s|] eqn:Es; [destruct (is_ok r)|].
  - destruct Hcase as [at_ Hj]. exists (write_status j s at_). split_and!; [done| | |]; unfold write_status; intros m.
    + by destruct (String.eqb (JobID m) j).
    + by intros ->%String.eqb_neq.
    + intros ->%String.eqb_eq Ho [Hf _]%orb_false_iff. left.
      destruct (Ht Hf) as [[?|(_ & s' & Es' & Hterm)]%closes_cons|Hn]; [done| |].
      * rewrite Es in Es'. simplify_eq. exfalso. revert Hterm Ho. unfold is_terminal, is_open. cbn.
        intros [->%String.eqb_eq| ->%String.eqb_eq]%orb_prop; done.
      * unfold row_statuses in Hn. cbn in Hn. by rewrite Es in Hn.
  - exists id. rewrite map_id. split_and!; try done. intros m _ _ Hf.
    by rewrite bool_decide_true, orb_true_r in Hf by eauto.
  - exists id. rewrite map_id. split_and!; try done. auto.
Qed.

(** One effect of a goroutine. *)
Lemma row_inv_effect d d' T M L c u j e l f r :
  T !! u = Some (Executing j (e :: l) f) -> run_effect j e d = (r, d') ->
  row_inv d T M L c ->
  row_inv d' (<[u := Executing j l (f || (bool_decide (is_Some (row_status_of e)) && negb (is_ok r)))]> T) M L c.
Proof.
  intros HT Hrun [W Hm He Hu Ht Hr Hc].
  destruct (effect_rows d d' j e l f r W Hrun (Ht _ _ _ _ HT)) as (g & Hj & Hid & Hne & Heq).
  pose proof (run_effect_cases j e d r d' W Hrun) as Hcase. set (f' := f || _) in *.
  assert (forall v x lx fx, <[u := Executing j l f']> T !! v = Some (Executing x lx fx) ->
    (v = u /\ x = j /\ lx = l /\ fx = f') \/ (v <> u /\ T !! v = Some (Executing x lx fx))) as HT'.
  { intros v x lx fx [[<- ?]|[? ?]]%lookup_insert_Some; [left; by simplify_eq|right; done]. }
  split.
  - pose proof W as [W1 W2]. destruct (is_ok r) eqn:Er, (row_status_of e) as [s|] eqn:Es; try by apply (jobs_wf_same (tables d)).
    assert (d' = (UpdateBuildKitJobStatus j s d).2) as ->.
    { destruct e as [| | | | | | |[]|]; cbn in Es, Hrun; simplify_eq; by rewrite Hrun. }
    by apply UpdateBuildKitJobStatus_wf.
  - intros x Hx%Hm. apply elem_of_ids in Hx as (m & ? & <-). apply elem_of_ids. exists (g m). rewrite Hj. split; [|done].
    apply list_elem_of_fmap. eauto.
  - intros v x lx fx [(_ & -> & _)|[_ H]]%HT'; eauto.
  - intros v1 v2 x l1 f1 l2 f2 [(-> & -> & _)|[? H1]]%HT' [(-> & ? & _)|[? H2]]%HT'; subst; eauto.
  - intros v x lx fx [(-> & -> & -> & ->)|[_ H]]%HT'; [|eauto]. intros Hf.
    assert (f = false) as Hf0 by (by apply orb_false_iff in Hf as [? _]).
    destruct (Ht _ _ _ _ HT Hf0) as [[?|[? _]]%closes_cons|Hn]; auto. right.
    unfold row_statuses in *. cbn in Hn. by destruct (row_status_of e).
  - rewrite Hj. intros m' (m & -> & Hin)%list_elem_of_fmap. rewrite Hid. intros Ho HM.
    destruct (decide (JobID m = j)) as [Ej|Hnj].
    + destruct (decide (j ∈ L)) as [?|HL]; [right; by rewrite Ej|]. left. exists u, l, f'. rewrite Ej, lookup_insert_eq.
      split; [done|]. intros Hf. destruct (Heq m Ej Ho Hf) as [?|[Hom En]]; [done|].
      destruct (Hr m Hin Hom HM) as [(v & lv & fv & HTv & Hcl)|?]; [|by rewrite Ej in *]. rewrite Ej in HTv.
      assert (v = u) as -> by eauto. rewrite HT in HTv. simplify_eq. apply orb_false_iff in Hf as [Hf _].
      destruct (closes_cons e l) as [?|(_ & s & Es & _)]; [by apply Hcl|done|congruence].
    + rewrite (Hne m Hnj) in Ho. destruct (Hr m Hin Ho HM) as [(v & lv & fv & HTv & ?)|]; [left|by right].
      exists v, lv, fv. rewrite lookup_insert_ne; [done|]. intros ->. rewrite HT in HTv. by simplify_eq.
  - intros m' Hcl. rewrite Hj. intros (m & -> & Hin)%list_elem_of_fmap. rewrite Hid. intros Ho.
    destruct (decide (JobID m = j)) as [->|Hnj]; [by eapply He|]. rewrite (Hne m Hnj) in Ho. eauto.
Qed.

(** A goroutine that has run all its effects. *)
Lemma row_inv_executed d T M L c u j f :
  T !! u = Some (Executing j [] f) ->
  row_inv d T M L c -> row_inv d (<[u := Ending]> T) M ((if f then {[j]} else ∅) ∪ L) c.
Proof.
  intros HT [W Hm He Hu Ht Hr Hc].
  assert (forall v x lx fx, <[u := Ending]> T !! v = Some (Executing x lx fx) ->
    v <> u /\ T !! v = Some (Executing x lx fx)) as HT' by (by intros v x lx fx [[<- ?]|[? ?]]%lookup_insert_Some).
  split; try done.
  - intros v x lx fx [_ H]%HT'. eauto.
  - intros v1 v2 x l1 f1 l2 f2 [_ H1]%HT' [_ H2]%HT'. eauto.
  - intros v x lx fx [_ H]%HT'. eauto.
  - intros m Hin Ho HM. destruct (Hr m Hin Ho HM) as [(v & lv & fv & HTv & Hcl)|]; [|right; set_solver].
    destruct (decide (v = u)) as [->|]; [|left; exists v, lv, fv; by rewrite lookup_insert_ne].
    rewrite HT in HTv. simplify_eq. right. destruct fv; [set_solver|]. by destruct closes_nil; apply Hcl.
Qed.
End RowInv.

(** ** The invariant of the process *)

Definition released (r : RecPc) : bool := match r with RecDone _ => true | _ => false end.
Definition rec_closed (r : RecPc) : bool := match r with RecWait b | RecDone b => b | _ => false end.

Section ProcInv.
Context {DB : Type} {DBI : Database DB} {DBL : DatabaseLaws DB} {TC : TokenCodec}.
Variable DurationString : Z -> string.
Implicit Types p : Proc (DB := DB).

Record proc_inv p : Prop := {
  c_reach : reachable (drn p);
  c_tasks : dom (tasks p) = running (drn p);
  c_early : main p = MBoot \/ main p = MHeld \/ main p = MSweeping -> rec p = RecNone;
  c_held : main p <> MBoot -> released (rec p) = false -> held (tr (drn p)) = true;
  c_idle : released (rec p) = false -> tasks p = ∅ /\ mine p = ∅ /\ lost p = ∅ /\ started p = ∅;
  c_sweep : released (rec p) = true -> sweep p = SweepDone;
  c_fail n timeout : main p = MFailRows n timeout -> n <> 0;
  c_clean : main p = MReturned 0 -> exists d, drains (drn p) !! d = Some (DrainReturned 0);
  c_rows : row_inv (db p) (tasks p) (mine p) (lost p) (rec_closed (rec p))
}.

Lemma boot_inv d pods : jobs_wf (tables d) -> proc_inv (boot d pods).
Proof.
  intros W. split; try done. apply rtc_refl.
Qed.

(** ** Steps of the tracker that admit and end nothing *)

Lemma running_same w w' : onces w' = onces w -> running w' = running w.
Proof. unfold running. by intros ->. Qed.

Lemma Drain_enter_onces d timeout w : onces (Drain_enter d timeout w) = onces w /\ held (tr (Drain_enter d timeout w)) = held (tr w).
Proof. unfold Drain_enter. cases; done. Qed.

Lemma Drain_select_onces b d w w' :
  Drain_select b d w = Some w' -> onces w' = onces w /\ held (tr w') = held (tr w).
Proof. unfold Drain_select. intros H. cases; done. Qed.

Lemma Drain_return_onces d w w' :
  Drain_return d w = Some w' -> onces w' = onces w /\ held (tr w') = held (tr w).
Proof. unfold Drain_return. intros H. cases; done. Qed.

Lemma proc_inv_tracker p w :
  step (drn p) w -> onces w = onces (drn p) -> held (tr w) = held (tr (drn p)) ->
  main p <> MReturned 0 \/ drains w = drains (drn p) -> proc_inv p -> proc_inv (set_drn w p).
Proof.
  intros Hs Ho Hh Hd [Cr Ct Ce Ch Ci Cs Cf Cc Crow]. split; cbn; try done.
  - by eapply rtc_r.
  - by rewrite Ct, (running_same _ _ Ho).
  - by rewrite Hh.
  - intros E. destruct Hd as [?| ->]; [done|by apply Cc].
Qed.

Lemma proc_inv_db p d :
  row_inv d (tasks p) (mine p) (lost p) (rec_closed (rec p)) -> proc_inv p -> proc_inv (set_db d p).
Proof. intros H [Cr Ct Ce Ch Ci Cs Cf Cc Crow]. by split. Qed.

Lemma main_step_inv p p' : main_step DurationString p p' -> proc_inv p -> proc_inv p'.
Proof.
  intros Hs I. pose proof I as [Cr Ct Ce Ch Ci Cs Cf Cc Crow]. destruct Hs as
    [p E|p E|p E|p E|p d tmo E Hd|p d tmo b w E Hw|p d tmo w E Hw|p d tmo n E Hd|p n tmo E].
  - assert (rec p = RecNone) as Er by auto. rewrite Er in *. split; cbn; rewrite ?Er; try done.
    eapply rtc_r; [done|apply step_hold].
  - assert (rec p = RecNone) as Er by auto. rewrite Er in *. split; cbn; rewrite ?Er; try done.
    intros _ _. by apply Ch; [rewrite E|].
  - assert (rec p = RecNone) as Er by auto. rewrite Er in *. split; cbn; try done.
    + by intros [?|[?|?]].
    + intros _ _. by apply Ch; [rewrite E|].
  - split; cbn; try done; [by intros [?|[?|?]]|]. intros _. apply Ch. by rewrite E.
  - destruct (Drain_enter_onces d tmo (drn p)) as [Ho Hh].
    split; cbn; try done.
    + eapply rtc_r; [done|by apply step_drain].
    + by rewrite Ct, (running_same _ _ Ho).
    + by intros [?|[?|?]].
    + intros _. rewrite Hh. apply Ch. by rewrite E.
  - destruct (Drain_select_onces _ _ _ _ Hw) as [Ho Hh].
    apply proc_inv_tracker; try done; [by eapply step_select|]. left. by rewrite E.
  - destruct (Drain_return_onces _ _ _ Hw) as [Ho Hh].
    apply proc_inv_tracker; try done; [by eapply step_return|]. left. by rewrite E.
  - assert (main p <> MBoot) by (by rewrite E).
    split; cbn; try done; destruct (Z.eqb_spec n 0) as [->|Hn]; try done; try (by intros [?|[?|?]]); eauto.
    by intros n' tmo' [= -> _].
  - pose proof (row_inv_fail (shutdown_reason DurationString tmo) _ _ _ _ _ (rec_closed (rec p)) Crow) as Hf.
    destruct (FailNonTerminalBuildKitJobs _ (db p)) as [r d']. cbn [snd].
    split; cbn; try done.
    + by intros [?|[?|?]].
    + intros _. apply Ch. by rewrite E.
    + intros [= ->]. by destruct (Cf _ _ E).
    + auto.
Qed.

Lemma progress_step_inv p p' : progress_step p p' -> proc_inv p -> proc_inv p'.
Proof. intros [] []; by split. Qed.

Lemma sweep_step_inv p p' : sweep_step p p' -> proc_inv p -> proc_inv p'.
Proof.
  intros Hs I. assert (released (rec p) = false) as Hr.
  { destruct (released (rec p)) eqn:E; [|done]. apply (c_sweep _ I) in E. by destruct Hs; rewrite E in *. }
  destruct I as [Cr Ct Ce Ch Ci Cs Cf Cc Crow].
  destruct Hs; split; cbn; try done; intros; congruence.
Qed.

Lemma rec_step_inv p p' : rec_step p p' -> proc_inv p -> proc_inv p'.
Proof.
  intros Hs I. pose proof I as [Cr Ct Ce Ch Ci Cs Cf Cc Crow].
  destruct Hs as [p start E|p start wake E Hw|p closed E Hsw]; rewrite E in Ch, Ci, Cs, Crow;
    (assert (~ (main p = MBoot \/ main p = MHeld \/ main p = MSweeping)) as Hm
       by (intros H%Ce; congruence)).
  - pose proof (row_inv_fail reasonRestart _ _ _ _ _ true Crow) as H1.
    pose proof (row_inv_fail reasonRestart _ _ _ _ _ false Crow) as H0.
    unfold reconcileOrphanedBuilds. destruct (FailNonTerminalBuildKitJobs reasonRestart (db p)) as [[n|e] d'];
      [|destruct (_ <=? _)]; split; cbn; auto; done.
  - split; cbn; auto; done.
  - destruct (Ci eq_refl) as (Ht & HM & HL & HS). split; cbn; try done.
    eapply rtc_r; [done|apply step_release].
Qed.

(** ** Steps of a task *)

Lemma proc_inv_released p u t : tasks p !! u = Some t -> proc_inv p -> released (rec p) = true.
Proof.
  intros H I. destruct (released (rec p)) eqn:E; [done|]. destruct (c_idle _ I E) as (Ht & _).
  rewrite Ht in H. by rewrite lookup_empty in H.
Qed.

(** The hold lets nothing in. *)
Lemma begin_released p u w :
  serving (main p) = true -> Begin (drn p) = (Ok u, w) -> proc_inv p -> released (rec p) = true.
Proof.
  intros Hm Hb I. destruct (released (rec p)) eqn:E; [done|].
  assert (held (tr (drn p)) = true) as Hh by (apply (c_held _ I); [by destruct (main p)|done]).
  unfold Begin in Hb. rewrite Hh in Hb. by destruct (draining (tr (drn p))).
Qed.

Lemma proc_inv_begin p u w t :
  serving (main p) = true -> Begin (drn p) = (Ok u, w) -> quiet (Some t) ->
  proc_inv p -> proc_inv (set_task u t (set_drn w p)).
Proof.
  intros Hm Hb Hq I. pose proof (begin_released _ _ _ Hm Hb I) as Hr.
  destruct I as [Cr Ct Ce Ch Ci Cs Cf Cc Crow]. destruct (Begin_unit _ _ _ Hb) as (Hrun & Hn & _).
  assert (drains w = drains (drn p)) as Hd by (unfold Begin in Hb; cases; done).
  split; cbn; try done; rewrite ?Hr; try done.
  - eapply rtc_r; [done|]. replace w with (Begin (drn p)).2 by (by rewrite Hb). apply step_begin.
  - by rewrite dom_insert_L, Ct, Hrun.
  - by rewrite Hd.
  - apply row_inv_set_task; [|done|done]. intros j l f H. apply Hn. rewrite <-Ct. apply elem_of_dom. eauto.
Qed.

(** A running task goes on. *)
Lemma proc_inv_task p u t t' d M L :
  tasks p !! u = Some t -> row_inv d (<[u := t']> (tasks p)) (M ∪ mine p) (L ∪ lost p) (rec_closed (rec p)) ->
  proc_inv p -> proc_inv (set_task u t' (add_mine M (add_lost L (set_db d p)))).
Proof.
  intros Ht Hrow I. pose proof (proc_inv_released _ _ _ Ht I) as Hr.
  destruct I as [Cr Ct Ce Ch Ci Cs Cf Cc Crow]. split; cbn; try done; rewrite ?Hr; try done.
  rewrite dom_insert_L, <-Ct. apply elem_of_dom_2 in Ht. set_solver.
Qed.

Lemma proc_inv_task_only p u t t' :
  tasks p !! u = Some t -> quiet (Some t) -> quiet (Some t') -> proc_inv p -> proc_inv (set_task u t' p).
Proof.
  intros Ht Hq Hq' I. pose proof (proc_inv_task p u t t' (db p) ∅ ∅ Ht) as H.
  unfold set_task, add_mine, add_lost, set_db in *. cbn in H. rewrite !union_empty_l_L in H.
  apply H; [|done]. apply row_inv_set_task; [by rewrite Ht|done|apply I].
Qed.

Lemma proc_inv_task_db p u t t' d :
  tasks p !! u = Some t -> quiet (Some t) -> quiet (Some t') -> same_jobs (db p) d ->
  proc_inv p -> proc_inv (set_task u t' (set_db d p)).
Proof.
  intros Ht Hq Hq' Hsame I. apply (proc_inv_task_only (set_db d p) u t); [done..|].
  apply proc_inv_db; [|done]. apply (row_inv_same (db p)); [done|apply I].
Qed.

Lemma proc_inv_executing p u t j l f d row :
  tasks p !! u = Some t -> quiet (Some t) -> (j ∉ ids (db p)) ->
  jobs_t (tables d) = (jobs_t (tables (db p)) ++ [row])%list -> JobID row = j -> is_terminal (Status row) = false ->
  (f = false -> closes l) ->
  proc_inv p -> proc_inv (set_task u (Executing j l f) (add_mine {[j]} (set_db d p))).
Proof.
  intros Ht Hq Hn Hj Hid Hst Hf I. pose proof (proc_inv_task p u t (Executing j l f) d {[j]} ∅ Ht) as H.
  unfold set_task, add_mine, add_lost, set_db in *. cbn in H. rewrite union_empty_l_L in H.
  apply H; [|done]. eapply row_inv_create; eauto; [by rewrite Ht|apply I].
Qed.

Lemma proc_inv_pod_effect p j e :
  released (rec p) = true -> proc_inv p -> proc_inv (pod_effect j e p).
Proof.
  intros Hr I. pose proof I as [Cr Ct Ce Ch Ci Cs Cf Cc Crow].
  destruct e as [| | | | | | |[]|]; try exact I; split; cbn; try done; by rewrite Hr.
Qed.

Lemma proc_inv_end p u w :
  tasks p !! u = Some Ending -> end_fn u (drn p) = Some w -> proc_inv p -> proc_inv (end_task u (set_drn w p)).
Proof.
  intros Ht He I. pose proof (proc_inv_released _ _ _ Ht I) as Hr. destruct I as [Cr Ct Ce Ch Ci Cs Cf Cc Crow].
  assert (onces (drn p) !! u = Some false) as Hu by (apply elem_of_running; rewrite <-Ct; by apply elem_of_dom_2 in Ht).
  assert (onces w = <[u := true]> (onces (drn p)) /\ drains w = drains (drn p)) as [Ho Hd].
  { unfold end_fn, finish, close_chan in He. rewrite Hu in He. simpl in He. cases; done. }
  split; cbn; try done; rewrite ?Hr; try done.
  - eapply rtc_r; [done|by eapply step_end].
  - by rewrite dom_delete_L, Ct, (running_ended _ _ _ Ho).
  - by rewrite Hd.
  - apply row_inv_end_task; [by rewrite Ht|done].
Qed.

Lemma task_step_inv p p' : task_step p p' -> proc_inv p -> proc_inv p'.
Proof.
  intros Hs I. pose proof (ri_wf _ _ _ _ _ (c_rows _ I)) as W. destruct Hs.
  - by apply proc_inv_begin.
  - pose proof (upload_admitted_added r c (token_of_path "/cli-deploy/" (Path r)) u (db p) W) as Ha.
    rewrite H0 in Ha. destruct Ha as (W' & Hadd & _). eapply proc_inv_task; [done| |done].
    apply row_inv_set_task; [by rewrite H|done|]. apply row_inv_refused; [done|done|apply I].
  - pose proof (upload_admitted_added r c (token_of_path "/cli-deploy/" (Path r)) u (db p) W) as Ha.
    rewrite H0 in Ha. destruct Ha as (_ & _ & Hsame). eapply proc_inv_task_db; by eauto.
  - by eapply proc_inv_task_only.
  - eapply proc_inv_task_db; [done..|by eapply create_failed|done].
  - apply create_new in H1 as (Hn & row & Hj & Hid & Hst). eapply proc_inv_executing; [done|done|done|done|done|done| |done].
    intros Hf%negb_false_iff. by apply upload_effects_close.
  - by apply proc_inv_begin.
  - pose proof (build_admitted_cases env req at_ c (db p)) as Hb. rewrite H0 in Hb. by eapply proc_inv_task_db.
  - pose proof (build_admitted_cases env req at_ c (db p)) as Hb. rewrite H0 in Hb.
    destruct Hb as (Hn & row & Hj & Hid & Hst). eapply proc_inv_executing; [done|done|done|done|done|done| |done].
    intros Hf%negb_false_iff. by apply RunVcsBuild_closes.
  - pose proof (proc_inv_released _ _ _ H I) as Hr. pose proof (row_inv_effect _ _ _ _ _ _ _ _ _ _ _ _ H H0 (c_rows _ I)) as Hrow.
    set (t' := Executing j l _) in *.
    pose proof (proc_inv_task p u _ t' d ∅ ∅ H) as Hp. unfold add_mine, add_lost in Hp. cbn in Hp.
    rewrite !union_empty_l_L in Hp. specialize (Hp Hrow I).
    apply (proc_inv_pod_effect _ j e) in Hp; [|done]. by destruct e as [| | | | | | |[]|].
  - pose proof (proc_inv_task p u _ Ending (db p) ∅ (if f then {[j]} else ∅) H) as Hp.
    unfold add_mine, set_db, set_task, add_lost in *. cbn in Hp |- *. rewrite (union_empty_l_L (mine p)) in Hp.
    apply Hp; [|done]. eapply row_inv_executed; [done|apply I].
  - by apply proc_inv_begin.
  - by eapply proc_inv_task_only.
  - by eapply proc_inv_end.
Qed.

Lemma other_step_inv p p' : other_step p p' -> proc_inv p -> proc_inv p'.
Proof.
  intros [] I.
  - apply proc_inv_tracker; try done; [by apply step_tick|by right].
  - apply proc_inv_db; [|done]. apply (row_inv_same (db p0)); [done|apply I].
  - destruct I. by split.
  - apply boot_inv. rewrite H. apply (ri_wf _ _ _ _ _ (c_rows _ I)).
Qed.

Lemma agent_reachable_inv d0 pods0 p :
  jobs_wf (tables d0) -> agent_reachable DurationString d0 pods0 p -> proc_inv p.
Proof.
  intros W H. assert (proc_inv (boot d0 pods0)) as I by (by apply boot_inv).
  revert I. unfold agent_reachable in H. induction H as [|x y z Hxy _ IH]; [done|]. intros I. apply IH.
  destruct Hxy; eauto using main_step_inv, progress_step_inv, sweep_step_inv, rec_step_inv, task_step_inv, other_step_inv.
Qed.
End ProcInv.

(** ** The handlers run as tasks

    The handlers of [Upload.v] and [Workdir.v], which take the tracker and the
    database in one call, are runs of the steps above. *)
Section Simulation.
Context {DB : Type} {DBI : Database DB} {DBL : DatabaseLaws DB} {TC : TokenCodec}.

Lemma end_unit_step (p : Proc (DB := DB)) u w t :
  reachable (drn p) -> Begin (drn p) = (Ok u, w) -> exists w', end_fn u w = Some w' /\ end_unit u w = w' /\
    <[u := Ending]> (<[u := t]> (tasks p)) !! u = Some Ending.
Proof.
  intros Hr Hb. destruct (Begin_unit _ _ _ Hb) as (_ & _ & Ho).
  assert (inv w) as I by (pose proof (Begin_inv _ (reachable_inv _ Hr)) as I; by rewrite Hb in I).
  destruct (end_fn_inv w u false I Ho) as (w' & E & _). exists w'. unfold end_unit. rewrite E.
  by rewrite lookup_insert_eq.
Qed.

Lemma upload_handler_runs (p : Proc (DB := DB)) r c :
  serving (main p) = true -> reachable (drn p) ->
  let '(resp, job, s') := HandleCLIDeployUpload r c (mkServer (drn p) (db p)) in
  exists p', rtc task_step p p' /\ drn p' = tracker s' /\ db p' = store s' /\
    match job with
    | Some j => exists env, tasks p' !! job_unit j = Some (Uploaded j env)
    | None => True
    end.
Proof.
  intros Hm Hr. unfold HandleCLIDeployUpload. cbn [tracker store].
  destruct (String.eqb_spec (Method r) "POST") as [HP|]; cbn [negb]; [|exists p; by split; [apply rtc_refl|]].
  destruct (String.eqb_spec (token_of_path "/cli-deploy/" (Path r)) "") as [|Ht]; [exists p; by split; [apply rtc_refl|]|].
  destruct (Begin (drn p)) as [[u|e] w] eqn:Hb.
  2: { exists p. assert (w = drn p) as -> by (unfold Begin in Hb; cases; congruence). by split; [apply rtc_refl|]. }
  destruct (upload_admitted r c _ u (db p)) as [[j|resp] d] eqn:Ha.
  - assert (job_unit j = u) as Hu.
    { destruct (upload_admitted_ok _ _ _ _ _ _ _ Ha) as (t & d1 & _ & _ & _ & _ & _ & Hac).
      by destruct (accept_upload_ok _ _ _ _ _ _ _ Hac) as (_ & -> & _). }
    eexists. split.
    + eapply rtc_l; [by apply (task_upload p r c)|]. apply rtc_once.
      apply (task_accepted _ u r c j demo_front d); [apply lookup_insert_eq|exact Ha].
    + cbn. rewrite Hu. split_and!; [done|done|]. exists demo_front. apply lookup_insert_eq.
  - destruct (end_unit_step p u w (Handling r c) Hr Hb) as (w' & He & -> & Hl). eexists. split.
    + eapply rtc_l; [by apply (task_upload p r c)|].
      eapply rtc_l; [apply (task_refused _ u r c resp d); [apply lookup_insert_eq|exact Ha]|].
      apply rtc_once. apply (task_end _ u w'); [exact Hl|exact He].
    + done.
Qed.

Lemma vcs_build_runs (p : Proc (DB := DB)) env req at_ sc :
  serving (main p) = true -> reachable (drn p) ->
  let '(resp, st, s') := vcs_build env req at_ (mkAgent (drn p) (db p) sc) in
  exists p', rtc task_step p p' /\ drn p' = ag_tracker s' /\ db p' = ag_store s' /\
    match st with
    | Some g => exists k8s cfg denv f, tasks p' !! st_unit g =
        Some (Executing (vi_JobID (st_input g)) (RunVcsBuild k8s cfg denv (st_input g)) f)
    | None => True
    end.
Proof.
  intros Hm Hr. unfold vcs_build. cbn [ag_tracker ag_store ag_scratch].
  destruct (String.eqb_spec (br_OSID req) ""), (String.eqb_spec (br_SHA req) ""), (String.eqb_spec (br_JobID req) "");
    cbn [orb]; try (exists p; by split; [apply rtc_refl|]).
  destruct (Begin (drn p)) as [[u|e] w] eqn:Hb.
  2: { exists p. assert (w = drn p) as -> by (unfold Begin in Hb; cases; congruence). by split; [apply rtc_refl|]. }
  destruct (build_admitted env req at_ (cache sc) (db p)) as [[resp [i|]] d] eqn:Ha.
  - eexists. split.
    + eapply rtc_l; [by apply (task_build p env req)|]. apply rtc_once.
      apply (task_build_started (set_task u (Building env req) (set_drn w p)) u env req at_ (cache sc) resp i d
        None None demo_deploy_env); [apply lookup_insert_eq|exact Ha].
    + split; [done|]. split; [done|]. exists None, None, demo_deploy_env. eexists. apply lookup_insert_eq.
  - destruct (end_unit_step p u w (Building env req) Hr Hb) as (w' & He & -> & Hl). eexists. split.
    + eapply rtc_l; [by apply (task_build p env req)|].
      eapply rtc_l; [apply (task_build_refused (set_task u (Building env req) (set_drn w p)) u env req at_ (cache sc) resp d);
        [apply lookup_insert_eq|exact Ha]|].
      apply rtc_once. apply (task_end _ u w'); [exact Hl|exact He].
    + done.
Qed.

(** The token clean-up [main] starts is one of the other parts. *)
Lemma token_cleanup_other at_ (p : Proc (DB := DB)) :
  other_step p (set_db (DeleteExpiredUploadTokens at_ (db p)).2 p).
Proof.
  apply other_db. unfold DeleteExpiredUploadTokens, activeDB. destruct (handle (db p)); [|done].
  by apply stmt_same_jobs.
Qed.
End Simulation.

(** ** Properties *)

Section Properties.
Context {DB : Type} {DBI : Database DB} {DBL : DatabaseLaws DB} {TC : TokenCodec}.
Variable DurationString : Z -> string.

(** C1: The start-up clean-up never touches the work of its own process. In
    every interleaving of [main], the pod sweep, the row reconcile, requests,
    running builds and restarts, whenever the sweep or the reconcile takes a
    step, this process has admitted no work yet: no task runs, it has made no
    row and started no pod. And as long as either of them has not finished,
    every request for work is refused and changes nothing. *)
Theorem startup_cleanup_spares_new_work (d0 : DB) pods0 p :
  jobs_wf (tables d0) -> agent_reachable DurationString d0 pods0 p ->
  (forall p', sweep_step p p' \/ rec_step p p' ->
     tasks p = ∅ /\ mine p = ∅ /\ started p = ∅ /\ running (drn p) = ∅) /\
  (serving (main p) = true -> sweep p <> SweepDone \/ released (rec p) = false ->
     is_ok (Begin (drn p)).1 = false /\ (Begin (drn p)).2 = drn p).
Proof.
  intros W I%agent_reachable_inv; [|done].
  assert (sweep p <> SweepDone \/ released (rec p) = false -> released (rec p) = false) as Hn.
  { intros [Hs|?]; [|done]. destruct (released (rec p)) eqn:E; [|done]. by apply (c_sweep _ I) in E. }
  split.
  - intros p' Hs. assert (released (rec p) = false) as Hr.
    { destruct Hs as [Hs|Hs]; [apply Hn; left|]; by destruct Hs; congruence || match goal with H : rec _ = _ |- _ => rewrite H end. }
    destruct (c_idle _ I Hr) as (Ht & ? & _ & ?). split_and!; try done. rewrite <-(c_tasks _ I), Ht. apply dom_empty_L.
  - intros Hm Hr%Hn. assert (held (tr (drn p)) = true) as Hh by (apply (c_held _ I); [by destruct (main p)|done]).
    unfold Begin. rewrite Hh. by destruct (draining (tr (drn p))).
Qed.

(** C2: Once the start-up reconcile has succeeded, every open build row is
    accounted for, across crashes, restarts, shutdowns and failing databases: it
    was made by this process, and the goroutine that will close it is running
    and holds a unit of the drain tracker (unless a fault was recorded, its
    remaining effects do close it), or it belongs to a task that has ended with
    a recorded fault. In particular, when [shutdown] returned after a clean
    drain, no task runs any more, and the only open rows are such faults. *)
Theorem open_rows_accounted (d0 : DB) pods0 p m :
  jobs_wf (tables d0) -> agent_reachable DurationString d0 pods0 p ->
  rec p = RecDone true -> m ∈ jobs_t (tables (db p)) -> is_open m = true ->
  JobID m ∈ mine p /\
  ((exists u l f, u ∈ running (drn p) /\ tasks p !! u = Some (Executing (JobID m) l f) /\ (f = false -> closes l)) \/
   JobID m ∈ lost p) /\
  (main p = MReturned 0 -> tasks p = ∅ /\ JobID m ∈ lost p).
Proof.
  intros W I%agent_reachable_inv Hr Hm Ho; [|done]. pose proof (c_rows _ I) as R. rewrite Hr in R.
  pose proof (ri_closed _ _ _ _ _ R m eq_refl Hm Ho) as HM. split; [done|].
  assert (accounted (tasks p) (lost p) (JobID m)) as Ha by (by eapply ri_rows). split.
  - destruct Ha as [(u & l & f & Ht & ?)|?]; [left|by right]. exists u, l, f. split_and!; [|done|done].
    rewrite <-(c_tasks _ I). by apply elem_of_dom_2 in Ht.
  - intros Hret. destruct (c_clean _ I Hret) as [d Hd].
    pose proof (reachable_inv _ (c_reach _ I)) as Inv. pose proof (inv_returned _ Inv d Hd) as H0.
    assert (tasks p = ∅) as Ht.
    { apply dom_empty_inv_L. rewrite (c_tasks _ I). apply leibniz_equiv, size_empty_inv.
      pose proof (inv_count _ Inv). lia. }
    split; [done|]. destruct Ha as [(u & l & f & Hu & _)|?]; [|done]. rewrite Ht in Hu. by rewrite lookup_empty in Hu.
Qed.
End Properties.

(** ** Witnesses *)

(** A run: a pod and two open rows are left from a crash; they are cleaned up;
    then a build is admitted and makes its row. *)
Definition demo_build_env : Workdir.BuildEnv :=
  Workdir.mkBuildEnv (fun _ => Err "") (fun _ => Err "") true "0a1b2c3d" (fun _ => None).
Definition demo_build_req : VcsBuildRequest := mkBuildRequest "app1" "deadbeef" "job" "" "main" [] false.
Definition demo_build_cache : Cache := vcsWorkdirCachePut "app1" "deadbeef" (mkPaths "/w" "" "" "") 0 ∅.

Definition run0 : Proc (DB := MemDb) := boot demo_db {["buildkit-old"]}.
Definition run1 := set_main MHeld (set_drn (Hold (drn run0)) run0).
Definition run2 := set_main MSweeping (set_sweep SweepStart run1).
Definition run3 := set_sweep (SweepDelete (elements (pods run2))) run2.
Definition run4 := set_sweep (SweepDelete []) (set_pods (pods run3 ∖ {["buildkit-old"]}) run3).
Definition run5 := set_main MReconciling (set_rec (RecTry 0) run4).
Definition run6 := set_rec (RecWait true) (set_db (reconcileOrphanedBuilds FailNonTerminalBuildKitJobs (db run5)).2 run5).
Definition run7 := set_sweep SweepDone run6.
Definition run8 := set_rec (RecDone true) (set_drn (Release (drn run7)) run7).
Definition run9 := set_main MServe run8.
Definition run10 := set_task 0%nat (Building demo_build_env demo_build_req) (set_drn (Begin (drn run9)).2 run9).
Definition run11_input : VcsBuildExecutorInput :=
  mkVcsInput "/w" "app1" "job-0a1b2c3d" "deadbeef" "" "" "" [] false "" "main".
Definition run11 :=
  set_task 0%nat (Executing "job-0a1b2c3d" (RunVcsBuild None None demo_deploy_env run11_input) false)
    (add_mine {["job-0a1b2c3d"]} (set_db (build_admitted demo_build_env demo_build_req 5 demo_build_cache (db run10)).2 run10)).

Lemma run4_reachable : agent_reachable (fun _ => "") demo_db {["buildkit-old"]} run4.
Proof.
  eapply rtc_l; [apply of_main, main_hold; reflexivity|].
  eapply rtc_l; [apply of_main, main_go_sweep; reflexivity|].
  eapply rtc_l; [apply of_sweep, sweep_list; reflexivity|].
  apply rtc_once, of_sweep, (sweep_deleted run3 "buildkit-old" []). vm_compute. reflexivity.
Qed.

Lemma run11_reachable : agent_reachable (fun _ => "") demo_db {["buildkit-old"]} run11.
Proof.
  unfold agent_reachable. etrans; [apply run4_reachable|].
  eapply rtc_l; [apply of_main, main_go_reconcile; reflexivity|].
  eapply (rtc_l _ _ run6); [apply of_rec; refine (rec_try run5 0 _); reflexivity|].
  eapply rtc_l; [apply of_sweep, sweep_end; reflexivity|].
  eapply rtc_l; [apply of_rec, (rec_release run7 true); reflexivity|].
  eapply rtc_l; [apply of_main, main_go_services; reflexivity|].
  eapply (rtc_l _ _ run10); [apply of_task, task_build; try discriminate; vm_compute; reflexivity|].
  apply rtc_once, of_task.
  refine (task_build_started run10 0 demo_build_env demo_build_req 5 demo_build_cache _ run11_input _ None None demo_deploy_env _ _).
  - reflexivity.
  - vm_compute. reflexivity.
Qed.

Lemma demo_db_wf : jobs_wf (tables demo_db).
Proof. exact demo_rows_wf. Qed.

Lemma startup_cleanup_spares_new_work_witness :
  (exists p', sweep_step run4 p') /\ tasks run4 = ∅ /\ mine run4 = ∅ /\ started run4 = ∅.
Proof.
  assert (sweep_step run4 (set_sweep SweepDone run4)) as Hs by (apply sweep_end; reflexivity).
  split; [by eexists|].
  destruct (startup_cleanup_spares_new_work (DB := MemDb) (fun _ => "") demo_db {["buildkit-old"]} run4 demo_db_wf run4_reachable)
    as [H _]. destruct (H _ (or_introl Hs)) as (? & ? & ? & _). auto.
Defined.

Lemma open_rows_accounted_witness :
  map Status (jobs_t (tables (db run11))) = ["failed"; "success"; "failed"; "pending"] /\
  exists m, m ∈ jobs_t (tables (db run11)) /\ is_open m = true /\ JobID m ∈ mine run11.
Proof.
  split; [vm_compute; reflexivity|].
  exists (List.last (jobs_t (tables (db run11))) (mkJob 0 "" "" "" "" "" "" 0 0 None)).
  assert (List.last (jobs_t (tables (db run11))) (mkJob 0 "" "" "" "" "" "" 0 0 None) ∈ jobs_t (tables (db run11))) as Hin.
  { apply list_elem_of_lookup. exists 3%nat. vm_compute. reflexivity. }
  split; [exact Hin|]. split; [vm_compute; reflexivity|].
  eapply (open_rows_accounted (DB := MemDb) (fun _ => "") demo_db {["buildkit-old"]} run11 _ demo_db_wf run11_reachable);
    [reflexivity|exact Hin|vm_compute; reflexivity].
Defined.
