(* ===== verification/Instructions.v ===== *)
(** * The instruction table ([src/agentstream/instructions/instructions.go])

    [Map] routes twenty instruction types to their handlers. The handlers are
    modelled where their component is; here they run on one state of the agent
    ([Site]), each lifted from the part of it that it uses, behind the table and
    the dispatch of [AgentStream.v]. The wrappers that decode a request and
    encode a reply, and the clients that are built once, are here too, as far as
    the component's file left them out. The Jobs of the cluster are part of the
    state, apart from the objects of [KubeObjects.v].

    A handler's definition returns its reply or its error; that its Go code has
    no run-time panic (a nil request, say) is not claimed. The dispatch covers a
    handler that panics ([Panic] of [AgentStream.v]). *)
From stdpp Require Import gmap.
From S2P Require Import Prelude GoStrings Codec Drain Db BuildJobs AgentStream TokenStore BuildKit Upload Deploy Kube KubeObjects Manifest Workdir OneShot WebGuard Reader Harbor TokenInstr Listings Sql SqlSchema Process.
Local Open Scope string_scope.
Local Open Scope Z_scope.

(** ** Clients that are built once *)

(** [sync.Once] around a constructor: the error it left behind, if it ran. The
    first call decides for all later ones. *)
Definition once_client (make : option string) (o : option (option string)) : option string * option (option string) :=
  match o with
  | Some e => (e, o)
  | None => (make, Some make)
  end.

(** [rest.InClusterConfig], then the constructor. *)
Definition in_cluster (config : option string) (make : option string) : option string :=
  match config with
  | Some e => Some ("failed to get in-cluster config: " ++ e)
  | None => make
  end.

(** [NewK8sClient] of src/agentstream/k8s.go. *)
Definition NewK8sClient (config make : option string) : option string :=
  match config with
  | Some e => Some ("failed to get in-cluster config: " ++ e)
  | None => match make with Some e => Some ("failed to create Kubernetes clientset: " ++ e) | None => None end
  end.

Definition in_cluster_plain (config make : option string) : option string :=
  match config with Some e => Some e | None => make end.

(** [newClientset] of run_oneshot_job.go. *)
Definition newClientset (config make : option string) : option string :=
  match config with Some e => Some ("in-cluster config: " ++ e) | None => make end.

(** A handler's triple and its pair, as the dispatch sees them. *)
Definition of_triple (r : string * string * option string) : HandlerResult :=
  match r with
  | (_, _, Some e) => Failure e
  | (t, j, None) => Reply t j
  end.
Definition of_result (r : result string (string * string)) : HandlerResult :=
  match r with Err e => Failure e | Ok (t, j) => Reply t j end.

Definition encoded {A} (ty : string) (encode : A -> result string string) (a : A) : HandlerResult :=
  match encode a with Err e => Failure e | Ok s => Reply ty s end.

Section Instructions.
Context {DB : Type} {DBI : Database DB} {TC : TokenCodec} {K : Type} {KI : KubeApi K}.
Context {Q : Type} (qzero : Q) (qadd : Q -> Q -> Q) (MilliValue Value : Q -> Z) (ToLower : string -> string).

(** The agent's state, as far as instructions use it. *)
Record Site := mkSite {
  s_db : DB;
  s_kube : K;
  s_jobs : Jobs;                        (* the cluster's Jobs *)
  s_tracker : World;
  s_scratch : Scratch;
  s_pools : PoolState;
  s_reader : ReaderState;
  s_net : Net;
  s_k8s : option (option string);       (* k8sClientsetOnce *)
  s_cm : option (option string)         (* cmClientsetOnce *)
}.

(** What the environment answers to the calls of one instruction, and the JSON
    codecs of its payloads. *)
Record Calls := mkCalls {
  now_ : Z;
  took : Z;
  config_err : option string;           (* rest.InClusterConfig *)
  client_err : option string;           (* kubernetes.NewForConfig *)
  metrics_err : option string;          (* metricsclient.NewForConfig *)
  cm_err : option string;               (* cmclient.NewForConfig *)
  c_net : NetEnv;
  c_decode_web : string -> result string WebRequest;
  c_encode_web : WebResponse -> result string string;
  c_decode_follow : string -> result string FollowRequest;
  c_decode_pods : string -> result string (string * Z);
  c_pods : result string (list Listings.Pod);
  c_metrics : result string (list (PodMetrics (Q := Q)));
  c_encode_pods : list k8sPodResponse * Z -> result string string;
  c_put : PutEnv;
  c_unmarshal_jobs : string -> result string ListBuildJobsRequest;
  c_marshal_jobs : list BuildKitJob -> result string string;
  c_parse_time : string -> result string Z;
  c_unmarshal_logs : string -> result string ListBuildLogsRequest;
  c_marshal_logs : list BuildKitLog -> result string string;
  c_unmarshal_deploy : string -> result string CreateCLIDeployTokenRequest;
  c_unmarshal_pull : string -> result string CreateCLIPullTokenRequest;
  c_marshal_token : TokenResponse -> result string string;
  c_mint : MintInputs;
  c_decode_archives : string -> result string string;
  c_encode_archives : ListCLIArchivesResponse -> result string string;
  c_artifacts : string -> result string (list Artifact);
  c_harbor_query : Config -> string -> result string HttpResp;
  c_fetch : FetchEnv;
  c_build : Workdir.BuildEnv;
  c_decode_image : string -> result string (string * string);
  c_encode_image : HarborImageExistsResponse -> result string string;
  c_image_request : string -> option string;
  c_image_do : HeadRequest -> result string HttpResp;
  c_unmarshal_dbs : string -> option (list SchemaDatabase);
  c_marshal_dbs : list SchemaDatabase -> result string string;
  c_decode_schema : string -> result string SchemaRequest;
  c_encode_schema : SchemaResponse -> result string string;
  c_conn : ConnEnv;
  c_schema : SchemaEnv;
  c_decode_query : string -> result string QueryRequest;
  c_encode_query : QueryResponse -> result string string;
  c_sql : SqlEnv;
  c_ingresses : result string (list Ingress);
  c_encode_ingresses : list IngressEntry -> result string string;
  c_certificates : result string (list CMCertificate);
  c_format : Z -> string;
  c_encode_certificates : list CertificateEntry -> result string string;
  c_run : RunEnv;
  c_decode_status : string -> result string string;
  c_encode_status : OneShotJobStatusResponse -> result string string;
  c_decode_cleanup : string -> result string CleanupOneShotJobRequest;
  c_encode_cleanup : CleanupOneShotJobResponse -> result string string;
  c_delete_job : string -> string -> option (string * bool);   (* the failure, and whether the Job went all the same *)
  c_pod_env : PodEnv;
  c_exec : ExecEnv;
  c_decode_kubectl : string -> result string RunReadonlyKubectlRequest;
  c_encode_kubectl : RunReadonlyKubectlResponse -> result string string
}.

Definition with_db d (s : Site) := mkSite d (s_kube s) (s_jobs s) (s_tracker s) (s_scratch s) (s_pools s) (s_reader s) (s_net s) (s_k8s s) (s_cm s).
Definition with_kube k (s : Site) := mkSite (s_db s) k (s_jobs s) (s_tracker s) (s_scratch s) (s_pools s) (s_reader s) (s_net s) (s_k8s s) (s_cm s).
Definition with_jobs j (s : Site) := mkSite (s_db s) (s_kube s) j (s_tracker s) (s_scratch s) (s_pools s) (s_reader s) (s_net s) (s_k8s s) (s_cm s).
Definition with_tracker w (s : Site) := mkSite (s_db s) (s_kube s) (s_jobs s) w (s_scratch s) (s_pools s) (s_reader s) (s_net s) (s_k8s s) (s_cm s).
Definition with_scratch c (s : Site) := mkSite (s_db s) (s_kube s) (s_jobs s) (s_tracker s) c (s_pools s) (s_reader s) (s_net s) (s_k8s s) (s_cm s).
Definition with_pools q (s : Site) := mkSite (s_db s) (s_kube s) (s_jobs s) (s_tracker s) (s_scratch s) q (s_reader s) (s_net s) (s_k8s s) (s_cm s).
Definition with_reader r (s : Site) := mkSite (s_db s) (s_kube s) (s_jobs s) (s_tracker s) (s_scratch s) (s_pools s) r (s_net s) (s_k8s s) (s_cm s).
Definition with_net n (s : Site) := mkSite (s_db s) (s_kube s) (s_jobs s) (s_tracker s) (s_scratch s) (s_pools s) (s_reader s) n (s_k8s s) (s_cm s).
Definition with_k8s o (s : Site) := mkSite (s_db s) (s_kube s) (s_jobs s) (s_tracker s) (s_scratch s) (s_pools s) (s_reader s) (s_net s) o (s_cm s).
Definition with_cm o (s : Site) := mkSite (s_db s) (s_kube s) (s_jobs s) (s_tracker s) (s_scratch s) (s_pools s) (s_reader s) (s_net s) (s_k8s s) o.

(** The goroutine a handler leaves running. *)
Inductive Goroutine :=
| GBuild (b : Started)
| GRun (t : Tracked).

(** A handler: the reply, the goroutine and the state. *)
Definition Handler : Type := Calls -> string -> Site -> HandlerResult * option Goroutine * Site.

(** ** The handlers *)

Definition h_web : Handler := fun E p s =>
  let '(r, n) := WebRequestFromServer (c_net E) (c_decode_web E) (c_encode_web E) p (s_net s) in
  (of_result r, None, with_net n s).

Definition h_web_follow : Handler := fun E p s =>
  let '(r, n) := WebRequestFollowFromServer (c_net E) (c_encode_web E) (c_decode_follow E) p (s_net s) in
  (of_result r, None, with_net n s).

(** [K8sPodStatsRequestFromServer]; a limit that is not positive becomes fifty
    in [pod_stats]. *)
Definition K8sPodStatsRequestFromServer : Handler := fun E p s =>
  (match c_decode_pods E p with
   | Err e => Failure e
   | Ok (searchTerm, limit) =>
   match config_err E with
   | Some e => Failure e
   | None =>
   match client_err E with
   | Some e => Failure e
   | None =>
   match metrics_err E with
   | Some e => Failure e
   | None =>
       match pod_stats qzero qadd MilliValue Value ToLower searchTerm limit (now_ E) (c_pods E) (c_metrics E) with
       | Err e => Failure e
       | Ok final => encoded "K8S_POD_STATS_RESPONSE" (c_encode_pods E) final
       end
   end
   end
   end
   end, None, s).

Definition h_put_secret : Handler := fun E p s =>
  let '(r, k) := PutSecretFile (c_put E) p (s_kube s) in (of_result r, None, with_kube k s).

Definition h_list_jobs : Handler := fun E p s =>
  let '(r, d) := ListBuildJobs (c_unmarshal_jobs E) (c_marshal_jobs E) (c_parse_time E) p (s_db s) in
  (of_triple r, None, with_db d s).

Definition h_list_logs : Handler := fun E p s =>
  let '(r, d) := ListBuildLogs (c_unmarshal_logs E) (c_marshal_logs E) p (s_db s) in
  (of_triple r, None, with_db d s).

Definition h_deploy_token : Handler := fun E p s =>
  let '(r, d) := CreateCLIDeployToken (c_unmarshal_deploy E) (c_marshal_token E) (c_mint E) p (s_db s) in
  (of_result r, None, with_db d s).

Definition h_pull_token : Handler := fun E p s =>
  let '(r, d) := CreateCLIPullToken (c_unmarshal_pull E) (c_marshal_token E) (c_mint E) p (s_db s) in
  (of_result r, None, with_db d s).

(** [getK8sClientset]. *)
Definition getK8sClientset (E : Calls) (s : Site) : option string * Site :=
  let '(e, o) := once_client (in_cluster (config_err E) (client_err E)) (s_k8s s) in (e, with_k8s o s).

(** [getCMClientset]. *)
Definition getCMClientset (E : Calls) (s : Site) : option string * Site :=
  let '(e, o) := once_client (in_cluster_plain (config_err E) (cm_err E)) (s_cm s) in (e, with_cm o s).

(** A refusal is sent even when it cannot be encoded. The client is asked for
    only once the request names an app. *)
Definition h_list_archives : Handler := fun E p s =>
  match c_decode_archives E p with
  | Err e => (Failure e, None, s)
  | Ok osid =>
      let '(client, s) := if String.eqb osid "" then (None, s) else getK8sClientset E s in
      let '(resp, k) := ListCLIArchives (c_artifacts E) client (c_harbor_query E) osid (s_kube s) in
      (match c_encode_archives E resp with
       | Ok j => Reply "LIST_CLI_ARCHIVES_RESPONSE" j
       | Err e => if la_Success resp then Failure e else Reply "LIST_CLI_ARCHIVES_RESPONSE" ""
       end, None, with_kube k s)
  end.

(** The fetch leaves its workdir in the cache and on disk, or removed. *)
Definition fetch_event (at_ : Z) (sc : Scratch) (e : FetchEvent) : Scratch :=
  match e with
  | ECachePut osid sha paths =>
      mkScratch (vcsWorkdirCachePut osid sha paths at_ (cache sc)) ({[Manifest.Workdir paths]} ∪ disk sc)
  | ERemoveAll dir => RemoveAll dir sc
  | _ => sc
  end.

Definition h_fetch : Handler := fun E p s =>
  let '(r, evs) := VcsFetchSource (c_fetch E) p in
  (of_triple r, None, with_scratch (foldl (fetch_event (now_ E)) (s_scratch s) evs) s).

Definition h_build : Handler := fun E p s =>
  let '(r, st, a) := VcsBuild (c_build E) p (now_ E) (mkAgent (s_tracker s) (s_db s) (s_scratch s)) in
  (of_triple r, option_map GBuild st, with_tracker (ag_tracker a) (with_db (ag_store a) (with_scratch (ag_scratch a) s))).

(** [main] sets the executor to the webhook's. *)
Definition h_image_exists : Handler := fun E p s =>
  match c_decode_image E p with
  | Err e => (Failure e, None, s)
  | Ok (osid, tag) =>
      let executor osid tag k :=
        let '(r, _, k) := HarborImageExists (NewK8sClient (config_err E) (client_err E)) (c_image_request E) (c_image_do E) osid tag k in
        (r, k) in
      let '(resp, k) := image_exists_reply (Some executor) osid tag (s_kube s) in
      (encoded "HARBOR_IMAGE_EXISTS_RESPONSE" (c_encode_image E) resp, None, with_kube k s)
  end.

Definition h_sql_schema : Handler := fun E p s =>
  let '(r, q, d) := SQLSchema (c_unmarshal_dbs E) (c_marshal_dbs E) (c_decode_schema E) (c_encode_schema E)
                      (c_conn E) (c_schema E) (now_ E) (took E) p (s_pools s) (s_db s) in
  (of_triple r, None, with_pools q (with_db d s)).

Definition h_sql_query : Handler := fun E p s =>
  let '(r, _, q) := SQLQuery (c_decode_query E) (c_encode_query E) (c_conn E) (c_sql E) p (now_ E) (s_pools s) in
  (of_triple r, None, with_pools q s).

Definition h_list_ingresses : Handler := fun E p s =>
  let '(client, s) := getK8sClientset E s in
  (match client with
   | Some e => Failure e
   | None =>
       match ListIngresses (c_ingresses E) with
       | Err e => Failure e
       | Ok entries => encoded "LIST_INGRESSES_RESPONSE" (c_encode_ingresses E) entries
       end
   end, None, s).

Definition h_list_certificates : Handler := fun E p s =>
  let '(client, s) := getCMClientset E s in
  (match client with
   | Some e => Failure e
   | None =>
       match ListCertificates (c_format E) (c_certificates E) with
       | Err e => Failure e
       | Ok entries => encoded "LIST_CERTIFICATES_RESPONSE" (c_encode_certificates E) entries
       end
   end, None, s).

Definition h_run : Handler := fun E p s =>
  let '(r, tk, a) := RunOneShotJob (c_run E) p (mkRunAgent (s_tracker s) (s_db s) (s_jobs s)) in
  (of_triple r, option_map GRun tk, with_tracker (ra_tracker a) (with_db (ra_store a) (with_jobs (ra_jobs a) s))).

Definition h_run_status : Handler := fun E p s =>
  match c_decode_status E p with
  | Err e => (Failure e, None, s)
  | Ok runID =>
      let '(r, d) := OneShotJobStatus (c_format E) runID (s_db s) in
      (match r with
       | Err e => Failure e
       | Ok resp => encoded "ONESHOT_JOB_STATUS_RESPONSE" (c_encode_status E) resp
       end, None, with_db d s)
  end.

Definition h_cleanup : Handler := fun E p s =>
  match c_decode_cleanup E p with
  | Err e => (Failure e, None, s)
  | Ok req =>
      let '(r, d, j) := CleanupOneShotJob (newClientset (config_err E) (client_err E)) (c_delete_job E) req (s_db s) (s_jobs s) in
      (match r with
       | Err e => Failure e
       | Ok resp => encoded "CLEANUP_ONESHOT_JOB_RESPONSE" (c_encode_cleanup E) resp
       end, None, with_jobs j (with_db d s))
  end.

Definition unit_result (e : option string) : result string unit := match e with Some e => Err e | None => Ok tt end.

Definition h_kubectl : Handler := fun E p s =>
  let '(r, rd, k) := RunReadonlyKubectl (c_pod_env E) (c_exec E) (c_decode_kubectl E) (c_encode_kubectl E)
                       (unit_result (config_err E)) (unit_result (client_err E)) p (now_ E) (s_reader s) (s_kube s) in
  (of_result r, None, with_reader rd (with_kube k s)).

(** ** The table *)

Definition table : list (string * Handler) :=
  [ ("WEB_REQUEST", h_web);
    ("WEB_REQUEST_FOLLOW", h_web_follow);
    ("POD_VIEWER", K8sPodStatsRequestFromServer);
    ("PUT_SECRET_FILE", h_put_secret);
    ("LIST_BUILD_JOBS", h_list_jobs);
    ("LIST_BUILD_LOGS", h_list_logs);
    ("CREATE_CLI_DEPLOY_TOKEN", h_deploy_token);
    ("CREATE_CLI_PULL_TOKEN", h_pull_token);
    ("LIST_CLI_ARCHIVES", h_list_archives);
    ("VCS_FETCH_SOURCE", h_fetch);
    ("VCS_BUILD", h_build);
    ("HARBOR_IMAGE_EXISTS", h_image_exists);
    ("SQL_SCHEMA", h_sql_schema);
    ("SQL_QUERY", h_sql_query);
    ("LIST_INGRESSES", h_list_ingresses);
    ("LIST_CERTIFICATES", h_list_certificates);
    ("RUN_ONESHOT_JOB", h_run);
    ("ONESHOT_JOB_STATUS", h_run_status);
    ("CLEANUP_ONESHOT_JOB", h_cleanup);
    ("RUN_READONLY_KUBECTL", h_kubectl) ].

Definition instructions_Map : gmap string Handler := list_to_map table.

(** No instruction streams progress. *)
Definition StreamingMap : gmap string (string -> list (string * string) * HandlerResult) := ∅.

(** What [AgentStream.v] dispatches on, in a given state. *)
Definition handlers_at (E : Calls) (s : Site) : gmap string (string -> HandlerResult) :=
  (fun h p => (h E p s).1.1) <$> instructions_Map.

(** The state after an instruction, and the goroutine it left. *)
Definition after (E : Calls) (ins : Msg) (s : Site) : option Goroutine * Site :=
  match instructions_Map !! Type_ ins with
  | Some h => let '(_, g, s') := h E (JsonB64 ins) s in (g, s')
  | None => (None, s)
  end.
End Instructions.

(** ** Reply types *)

(** The type of the reply to each instruction. *)
Definition reply_type (ty : string) : string :=
  if String.eqb ty "POD_VIEWER" then "K8S_POD_STATS_RESPONSE"
  else if String.eqb ty "WEB_REQUEST_FOLLOW" then "WEB_REQUEST_RESPONSE"
  else ty ++ "_RESPONSE".

Definition answers (ty : string) (r : HandlerResult) : Prop :=
  match r with Reply t _ => t = ty | Failure _ => True | Panic _ => False end.

Lemma encoded_answers {A} ty encode (a : A) : answers ty (encoded ty encode a).
Proof. unfold encoded. by destruct (encode a). Qed.

Lemma reply_type_named ty : String.eqb (reply_type ty) "" = false.
Proof. unfold reply_type. repeat case_match; try done. by destruct ty. Qed.

Section TableFacts.
Context {DB : Type} {DBI : Database DB} {DBL : DatabaseLaws DB} {TC : TokenCodec}.
Context {K : Type} {KI : KubeApi K} {KL : KubeLaws K}.
Context {Q : Type} (qzero : Q) (qadd : Q -> Q -> Q) (MilliValue Value : Q -> Z) (ToLower : string -> string).

Abbreviation tbl := (table (DB := DB) (K := K) qzero qadd MilliValue Value ToLower).
Abbreviation imap_ := (instructions_Map (DB := DB) (K := K) qzero qadd MilliValue Value ToLower).

Lemma table_nodup : NoDup tbl.*1.
Proof. apply (bool_decide_unpack (NoDup tbl.*1)). vm_compute. exact I. Qed.

Lemma in_table ty h : imap_ !! ty = Some h <-> (ty, h) ∈ tbl.
Proof. unfold instructions_Map. symmetry. apply (elem_of_list_to_map (M := gmap string)), table_nodup. Qed.

(** Every handler of the table, as one goal each. *)
Ltac each_handler H :=
  apply in_table in H; unfold table in H; rewrite !elem_of_cons in H;
  repeat match type of H with _ \/ _ => destruct H as [H|H] end;
  [injection H as -> ->..|by apply not_elem_of_nil in H].

Lemma follow_respond_answers E enc body resp : answers "WEB_REQUEST_RESPONSE" (of_result (follow_respond E enc body resp)).
Proof. unfold follow_respond. repeat case_match; done. Qed.

Lemma follow_answers E enc dec p n :
  answers "WEB_REQUEST_RESPONSE" (of_result (WebRequestFollowFromServer E enc dec p n).1).
Proof.
  unfold WebRequestFollowFromServer, follow_login.
  repeat (case_match; simplify_eq/=; try done); apply follow_respond_answers.
Qed.

Lemma handler_answers ty h E p (s : Site (DB := DB) (K := K)) :
  imap_ !! ty = Some h -> answers (reply_type ty) (h E p s).1.1.
Proof.
  intros H. each_handler H; cbn.
  - unfold h_web, WebRequestFromServer. repeat (case_match; simplify_eq/=; try done).
  - unfold h_web_follow. pose proof (follow_answers (c_net E) (c_encode_web E) (c_decode_follow E) p (s_net s)) as Hf.
    by destruct (WebRequestFollowFromServer _ _ _ _ _).
  - unfold K8sPodStatsRequestFromServer. repeat (case_match; simplify_eq/=; try done). apply encoded_answers.
  - unfold h_put_secret, PutSecretFile. repeat (case_match; simplify_eq/=; try done).
  - unfold h_list_jobs, ListBuildJobs, list_reply. repeat (case_match; simplify_eq/=; try done).
  - unfold h_list_logs, ListBuildLogs, list_reply. repeat (case_match; simplify_eq/=; try done).
  - unfold h_deploy_token, CreateCLIDeployToken, token_reply. repeat (case_match; simplify_eq/=; try done).
  - unfold h_pull_token, CreateCLIPullToken, token_reply. repeat (case_match; simplify_eq/=; try done).
  - unfold h_list_archives. repeat (case_match; simplify_eq/=; try done).
  - unfold h_fetch, VcsFetchSource, Manifest.reply. repeat (case_match; simplify_eq/=; try done).
  - unfold h_build, VcsBuild, replyVcsBuild. repeat (case_match; simplify_eq/=; try done).
  - unfold h_image_exists. repeat (case_match; simplify_eq/=; try done). apply encoded_answers.
  - unfold h_sql_schema, SQLSchema. repeat (case_match; simplify_eq/=; try done).
  - unfold h_sql_query, SQLQuery. repeat (case_match; simplify_eq/=; try done).
  - unfold h_list_ingresses. repeat (case_match; simplify_eq/=; try done). apply encoded_answers.
  - unfold h_list_certificates. repeat (case_match; simplify_eq/=; try done). apply encoded_answers.
  - unfold h_run, RunOneShotJob. repeat (case_match; simplify_eq/=; try done).
  - unfold h_run_status. repeat (case_match; simplify_eq/=; try done); apply encoded_answers.
  - unfold h_cleanup. repeat (case_match; simplify_eq/=; try done); apply encoded_answers.
  - unfold h_kubectl, RunReadonlyKubectl, replyReadonlyKubectl. repeat (case_match; simplify_eq/=; try done).
Qed.

(** ** What each instruction may change *)

(** The Job a run request asks for. *)
Definition run_creates (req : RunOneShotJobRequest) (j : BatchJob) : Prop :=
  j_Name j = oneShotJobName (rq_RunID req) /\ j_Namespace j = or_else (rq_Namespace req) (rq_OSID req) /\
  j_Image j = rq_Image req /\ j_Command j = rq_Command req /\ rq_RunID req <> "" /\ rq_Command req <> [].

(** The Job a clean-up request names: what it leaves out is what the audit
    record of the run says. *)
Definition cleanup_names (req : CleanupOneShotJobRequest) (d : DB) (key : string * string) : Prop :=
  let row := fun m => m ∈ runs_t (tables d) /\ RunID m = cr_RunID req in
  key.1 <> "" /\ key.2 <> "" /\
  (key.1 = cr_Namespace req \/ cr_Namespace req = "" /\ exists m, row m /\ key.1 = RunNamespace m) /\
  (key.2 = cr_K8sJobName req \/ cr_K8sJobName req = "" /\ exists m, row m /\ key.2 = K8sJobName m).

(** What an instruction of type [ty] with payload [p] may have changed. *)
Record footprint (E : Calls (Q := Q)) (ty p : string) (s s' : Site (DB := DB) (K := K)) : Prop := {
  fp_rows : ty <> "VCS_BUILD" -> same_jobs (s_db s) (s_db s');
  fp_new_row : exists new, jobs_t (tables (s_db s')) = (jobs_t (tables (s_db s)) ++ new)%list /\ (length new <= 1)%nat;
  fp_logs : ty <> "RUN_ONESHOT_JOB" -> logs_t (tables (s_db s')) = logs_t (tables (s_db s));
  fp_args : args_t (tables (s_db s')) = args_t (tables (s_db s));
  fp_tokens : ty ∉ ["CREATE_CLI_DEPLOY_TOKEN"; "CREATE_CLI_PULL_TOKEN"] -> tokens_t (tables (s_db s')) = tokens_t (tables (s_db s));
  fp_schemas : ty <> "SQL_SCHEMA" -> schemas_t (tables (s_db s')) = schemas_t (tables (s_db s));
  fp_runs : ty <> "RUN_ONESHOT_JOB" -> runs_t (tables (s_db s')) = runs_t (tables (s_db s));
  fp_kube : ty ∉ ["PUT_SECRET_FILE"; "RUN_READONLY_KUBECTL"] -> objects (s_kube s') = objects (s_kube s);
  fp_secret : ty = "PUT_SECRET_FILE" ->
    objects (s_kube s') = objects (s_kube s) \/
    exists req o, decode_put (c_put E) p = Ok req /\
      objects (s_kube s') = <[secret_ref (ReqNamespace req) (SecretName req) := o]> (objects (s_kube s));
  fp_reader : ty = "RUN_READONLY_KUBECTL" -> touches reader_refs (s_kube s) (s_kube s');
  fp_jobs : ty ∉ ["RUN_ONESHOT_JOB"; "CLEANUP_ONESHOT_JOB"] -> s_jobs s' = s_jobs s;
  fp_run : ty = "RUN_ONESHOT_JOB" ->
    s_jobs s' = s_jobs s \/
    exists req j, decode_run (c_run E) p = Ok req /\ run_creates req j /\
      s_jobs s !! job_key j = None /\ s_jobs s' = <[job_key j := j]> (s_jobs s);
  fp_cleanup : ty = "CLEANUP_ONESHOT_JOB" ->
    s_jobs s' = s_jobs s \/
    exists req key, c_decode_cleanup E p = Ok req /\ cleanup_names req (s_db s) key /\ s_jobs s' = delete key (s_jobs s);
  fp_tracker : ty ∉ ["VCS_BUILD"; "RUN_ONESHOT_JOB"] -> s_tracker s' = s_tracker s;
  fp_scratch : ty <> "VCS_FETCH_SOURCE" -> s_scratch s' = s_scratch s;
  fp_pools : ty ∉ ["SQL_SCHEMA"; "SQL_QUERY"] -> s_pools s' = s_pools s;
  fp_pod : ty <> "RUN_READONLY_KUBECTL" -> s_reader s' = s_reader s;
  fp_net : ty ∉ ["WEB_REQUEST"; "WEB_REQUEST_FOLLOW"] -> s_net s' = s_net s;
  fp_k8s : ty ∉ ["LIST_CLI_ARCHIVES"; "LIST_INGRESSES"] \/ is_Some (s_k8s s) -> s_k8s s' = s_k8s s;
  fp_cm : ty <> "LIST_CERTIFICATES" \/ is_Some (s_cm s) -> s_cm s' = s_cm s
}.

Lemma stmt_tables {A} (st : Stmt A) (d : DB) : (forall x t, (st x t).2 = t) -> tables (stmt st d).2 = tables d.
Proof. intros H. destruct (stmt_spec _ st d) as [[_ ->]|(e & _ & ->)]; [apply H|done]. Qed.

Lemma QueryBuildKitJobs_tables o (d : DB) : tables (QueryBuildKitJobs o d).2 = tables d.
Proof.
  unfold QueryBuildKitJobs, activeDB. destruct (handle d); [|done].
  pose proof (stmt_tables (select_jobs o) d (fun _ _ => eq_refl)) as H. by destruct (stmt (select_jobs o) d) as [[] ?].
Qed.

Lemma QueryBuildKitLogs_tables o (d : DB) : tables (QueryBuildKitLogs o d).2 = tables d.
Proof.
  unfold QueryBuildKitLogs, activeDB. destruct (handle d); [|done].
  pose proof (stmt_tables (select_logs o) d (fun _ _ => eq_refl)) as H. by destruct (stmt (select_logs o) d) as [[] ?].
Qed.

Lemma GetOneShotJob_tables r (d : DB) : tables (GetOneShotJob r d).2 = tables d.
Proof.
  unfold GetOneShotJob, activeDB. destruct (handle d); [|done].
  pose proof (stmt_tables (first_run r) d (fun _ _ => eq_refl)) as H. by destruct (stmt (first_run r) d) as [[[]|] ?].
Qed.

Lemma list_jobs_tables parse req (d : DB) : tables (list_jobs_outcome parse req d).2 = tables d.
Proof. unfold list_jobs_outcome. repeat case_match; try done; apply QueryBuildKitJobs_tables. Qed.

Lemma list_logs_tables req (d : DB) : tables (list_logs_outcome req d).2 = tables d.
Proof. unfold list_logs_outcome. repeat case_match; try done; apply QueryBuildKitLogs_tables. Qed.

Lemma kget_objects r (k : K) : objects (kget r k).2 = objects k.
Proof. apply (kget_spec r k). Qed.

Lemma loadHarborConfig_objects client (k : K) : objects (loadHarborConfig client k).2 = objects k.
Proof.
  unfold loadHarborConfig. destruct client; [done|].
  pose proof (kget_objects (configmap_ref Namespace "buildkit") k) as H1.
  destruct (kget (configmap_ref Namespace "buildkit") k) as [[cm|e] k1]; [|done]. cbn in H1.
  pose proof (kget_objects (secret_ref Namespace "buildkit") k1) as H2.
  destruct (kget (secret_ref Namespace "buildkit") k1) as [[s|e] k2]; cbn in *; congruence.
Qed.

Lemma ListCLIArchives_objects decode client query osid (k : K) :
  objects (ListCLIArchives decode client query osid k).2 = objects k.
Proof.
  unfold ListCLIArchives. destruct (String.eqb osid ""); [done|].
  pose proof (loadHarborConfig_objects client k) as H. destruct (loadHarborConfig client k) as [[cfg|e] k1]; [|done].
  cbn in H. by destruct (ListArchives _ _).
Qed.

Lemma get_or_objects msg r (k : K) : objects (get_or msg r k).2 = objects k.
Proof. unfold get_or, abind, acall, aret, afail. pose proof (kget_objects r k). by destruct (kget r k) as [[] ?]. Qed.

Lemma GetBuildKitConfig_objects (k : K) : objects (GetBuildKitConfig k).2 = objects k.
Proof.
  unfold GetBuildKitConfig, abind, aret.
  pose proof (get_or_objects "failed to get ConfigMap buildkit" (configmap_ref Namespace "buildkit") k) as H1.
  destruct (get_or _ (configmap_ref Namespace "buildkit") k) as [[cm|e] k1]; [|done]. cbn in H1.
  pose proof (get_or_objects "failed to get Secret buildkit" (secret_ref Namespace "buildkit") k1) as H2.
  destruct (get_or _ (secret_ref Namespace "buildkit") k1) as [[s|e] k2]; cbn in *; congruence.
Qed.

Lemma HarborImageExists_objects client nr Do osid tag (k : K) :
  objects (HarborImageExists client nr Do osid tag k).2 = objects k.
Proof.
  unfold HarborImageExists. destruct client; [done|]. pose proof (GetBuildKitConfig_objects k) as H.
  destruct (GetBuildKitConfig k) as [[cfg|e] k1]; [|done]. cbn in H. repeat case_match; done.
Qed.

Lemma image_exists_objects E osid tag (k : K) :
  objects (image_exists_reply (Some (fun osid tag k =>
    let '(r, _, k) := HarborImageExists (NewK8sClient (config_err E) (client_err (Q := Q) E)) (c_image_request E) (c_image_do E) osid tag k in
    (r, k))) osid tag k).2 = objects k.
Proof.
  unfold image_exists_reply. destruct (_ || _); [done|].
  pose proof (HarborImageExists_objects (NewK8sClient (config_err E) (client_err E)) (c_image_request E) (c_image_do E) osid tag k) as H.
  destruct (HarborImageExists _ _ _ osid tag k) as [[[] ?] ?]; done.
Qed.

(** A statement that keeps a relation between the tables. *)
Lemma stmt_rel {A} (R : Tables -> Tables -> Prop) (st : Stmt A) (d : DB) :
  (forall t, R t t) -> (forall x t, R t (st x t).2) -> R (tables d) (tables (stmt st d).2).
Proof. intros Hr H. destruct (stmt_spec _ st d) as [[_ ->]|(e & _ & ->)]; [apply H|apply Hr]. Qed.

Definition tokens_only (t t' : Tables) : Prop := exists l, t' = set_tokens l t.
Definition schemas_only (t t' : Tables) : Prop := exists l, t' = set_schemas l t.

Lemma tokens_refl t : tokens_only t t.
Proof. exists (tokens_t t). by destruct t. Qed.
Lemma schemas_refl t : schemas_only t t.
Proof. exists (schemas_t t). by destruct t. Qed.

Lemma insert_token_only tk mk (d : DB) : tokens_only (tables d) (tables (stmt (insert_token tk mk) d).2).
Proof.
  apply stmt_rel; [apply tokens_refl|]. intros x t. unfold insert_token. case_match; [apply tokens_refl|by eexists].
Qed.

Lemma mint_only I asked store path msg (d : DB) :
  (forall t e, tokens_only (tables d) (tables (store t e d).2)) -> tokens_only (tables d) (tables (mint_and_store I asked store path msg d).2).
Proof.
  intros H. unfold mint_and_store. destruct (mi_rand I) as [buf|]; [|apply tokens_refl].
  specialize (H (hex_encode buf) (expires_at I asked)). by destruct (store _ _ d) as [[] ?].
Qed.

Lemma deploy_token_only I req (d : DB) : tokens_only (tables d) (tables (deploy_token_outcome I req d).2).
Proof.
  unfold deploy_token_outcome. destruct (deploy_request_missing req); [apply tokens_refl|]. apply mint_only. intros t e.
  unfold store_deploy_token, CreateBuildImageToken, CreateUploadToken, activeDB.
  destruct (String.eqb _ _), (handle d); try apply tokens_refl; destruct (encodeBuildArgs _); try apply tokens_refl;
    try (destruct (marshal_target _); [|apply tokens_refl]); apply insert_token_only.
Qed.

Lemma pull_token_only I req (d : DB) : tokens_only (tables d) (tables (pull_token_outcome I req d).2).
Proof.
  unfold pull_token_outcome. destruct (_ || _); [apply tokens_refl|]. apply mint_only. intros t e.
  unfold CreatePullToken, activeDB. destruct (handle d); [apply insert_token_only|apply tokens_refl].
Qed.

Lemma schema_only E1 E2 ce se n dur req q (d : DB) :
  schemas_only (tables d) (tables (schema_outcome E1 E2 ce se n dur req q d).2).
Proof.
  unfold schema_outcome. destruct (validateConnectionParams _); [|apply schemas_refl].
  set (h := Sql.ConnectionHash _ _).
  assert (tables (from_cache E1 h d).2 = tables d) as H1.
  { unfold from_cache, GetSQLSchemaCache, activeDB. destruct (handle d); [|done].
    pose proof (stmt_tables (first_schema h) d (fun _ _ => eq_refl)) as H.
    by destruct (stmt (first_schema h) d) as [[[]|] ?]. }
  assert (forall j d', tables d' = tables d -> schemas_only (tables d) (tables (UpsertSQLSchemaCache h j n d').2)) as H2.
  { intros j d' <-. unfold UpsertSQLSchemaCache, activeDB. destruct (handle d'); [|apply schemas_refl].
    pose proof (stmt_rel schemas_only (upsert_schema h j n) d' schemas_refl) as H.
    destruct (stmt (upsert_schema h j n) d') as [[] ?]; apply H; intros; unfold upsert_schema; case_match; by eexists. }
  destruct (Refresh req); [|destruct (from_cache E1 h d) as [[dbs|] d1]]; cbn in *; try (rewrite H1; apply schemas_refl).
  all: destruct (FetchSchema _ _ _ _ _) as [[dbs|] ?]; [|cbn; rewrite ?H1; apply schemas_refl]; cbn;
    destruct (E2 dbs); [by apply H2|cbn; rewrite ?H1; apply schemas_refl].
Qed.

(** A run writes its audit row and one log line, and creates its own Job. *)
Definition run_effect_on (req : RunOneShotJobRequest) (a a' : RunAgent (DB := DB)) : Prop :=
  (exists l1 l2, tables (ra_store a') = set_logs l1 (set_runs l2 (tables (ra_store a)))) /\
  (ra_jobs a' = ra_jobs a \/
   exists j, run_creates req j /\ ra_jobs a !! job_key j = None /\ ra_jobs a' = <[job_key j := j]> (ra_jobs a)).

Lemma run_same env req (a : RunAgent (DB := DB)) :
  run_effect_on req a (run_oneshot env req a).2 /\
  (forall t, (run_oneshot env req a).1.2 = Some t -> ra_jobs (run_oneshot env req a).2 !! job_key (tk_job t) = Some (tk_job t)).
Proof.
  assert (forall a', tables (ra_store a') = tables (ra_store a) -> ra_jobs a' = ra_jobs a -> run_effect_on req a a') as Hquiet.
  { intros a' Ht Hj. split; [|by left]. exists (logs_t (tables (ra_store a))), (runs_t (tables (ra_store a))).
    rewrite Ht. by destruct (tables (ra_store a)). }
  unfold run_oneshot. destruct (_ || _) eqn:Hreq; [split; [by apply Hquiet|done]|].
  apply orb_false_iff in Hreq as [Hreq Hcmd%bool_decide_eq_false].
  apply orb_false_iff in Hreq as [Hreq _]. apply orb_false_iff in Hreq as [Hid%String.eqb_neq _].
  destruct (Begin (ra_tracker a)) as [[u|e] w]; [|split; [by apply Hquiet|done]].
  unfold run_admitted. destruct (clientset env); [split; [by apply Hquiet|done]|].
  set (job := buildOneShotJob _ _ _ _ _ _). assert (run_creates req job) as Hjob by (by split_and!).
  unfold Create_job. destruct (create_job env job) as [[e landed]|].
  { split; [|done]. split; [by apply (Hquiet (mkRunAgent (ra_tracker a) (ra_store a) (ra_jobs a)))|]. cbn.
    destruct landed; cbn; [|by left]. destruct (bool_decide_reflect (ra_jobs a !! job_key job = None)); [|by left].
    right. by exists job. }
  destruct (ra_jobs a !! job_key job) eqn:Hex; [split; [by apply Hquiet|done]|]. cbn.
  split; [|intros t [= <-]; apply lookup_insert_eq].
  split; [|right; by exists job].
  set (d1 := (CreateOneShotJob _ _ _ _ _ _ _ _ _).2).
  assert (exists l, tables d1 = set_runs l (tables (ra_store a))) as [l2 H1].
  { unfold d1, CreateOneShotJob, activeDB. assert (forall t, exists l, t = set_runs l t) as Hr by (intros t; exists (runs_t t); by destruct t).
    destruct (handle (ra_store a)); [|apply Hr].
    apply (stmt_rel (fun t t' => exists l, t' = set_runs l t)); [apply Hr|]. intros x t. unfold insert_run. case_match; [apply Hr|by eexists]. }
  assert (forall line, exists l, tables (InsertBuildKitLog (rq_RunID req) line d1).2 = set_logs l (tables d1)) as Hlog.
  { intros line. unfold InsertBuildKitLog, activeDB. assert (forall t, exists l, t = set_logs l t) as Hr by (intros t; exists (logs_t t); by destruct t).
    destruct (handle d1); [|apply Hr]. apply (stmt_rel (fun t t' => exists l, t' = set_logs l t)); [apply Hr|]. intros x t. by eexists. }
  cbn [ra_store]. match goal with |- context [InsertBuildKitLog _ ?line d1] => destruct (Hlog line) as [l1 H2] end.
  exists l1, l2. by rewrite H2, H1.
Qed.

Lemma GetOneShotJob_row r (d : DB) m d' :
  GetOneShotJob r d = (Ok m, d') -> m ∈ runs_t (tables d) /\ RunID m = r.
Proof.
  unfold GetOneShotJob, activeDB. destruct (handle d); [|done].
  destruct (stmt_spec _ (first_run r) d) as [[H1 _]|(e & H1 & _)]; destruct (stmt (first_run r) d) as [[[x|]|] ?]; cbn in *; try done.
  injection H1 as H1. symmetry in H1. apply List.find_some in H1 as [Hin Hr%String.eqb_eq]. intros [= <- _].
  split; [by apply list_elem_of_In|done].
Qed.

Lemma cleanup_effect client del req (d : DB) jobs :
  let '(_, d', jobs') := CleanupOneShotJob client del req d jobs in
  tables d' = tables d /\ (jobs' = jobs \/ exists key, cleanup_names req d key /\ jobs' = delete key jobs).
Proof.
  unfold CleanupOneShotJob. destruct (_ && _); [by auto|].
  destruct (cleanup_target req d) as [[ns name] d1] eqn:Ht.
  assert (tables d1 = tables d /\ (ns <> "" -> name <> "" -> cleanup_names req d (ns, name))) as [Hd Hn].
  { unfold cleanup_target, cleanup_names, or_else in *. destruct (_ || _).
    - pose proof (GetOneShotJob_tables (cr_RunID req) d) as Hg. destruct (GetOneShotJob (cr_RunID req) d) as [[m|e] d2] eqn:Hrow;
        injection Ht as <- <- <-; (split; [exact Hg|]); intros H1 H2; cbn; [|by auto].
      apply GetOneShotJob_row in Hrow as [Hin Hid]. split_and!; [done|done|..];
        [destruct (String.eqb_spec (cr_Namespace req) "")|destruct (String.eqb_spec (cr_K8sJobName req) "")];
        try (by left); right; (split; [done|]); by exists m.
    - injection Ht as <- <- <-. split; [done|]. cbn. auto. }
  destruct (String.eqb_spec ns ""), (String.eqb_spec name ""); cbn [orb]; try by auto. specialize (Hn ltac:(done) ltac:(done)).
  destruct client; [by auto|]. unfold Delete_job.
  destruct (del ns name) as [[e []]|]; [split; [done|]; right; by exists (ns, name)|by auto|].
  destruct (jobs !! (ns, name)); [split; [done|]; right; by exists (ns, name)|by auto].
Qed.

Lemma put_effect (E : PutEnv) p (k : K) :
  let k' := (PutSecretFile E p k).2 in
  objects k' = objects k \/
  exists req o, decode_put E p = Ok req /\ objects k' = <[secret_ref (ReqNamespace req) (SecretName req) := o]> (objects k).
Proof.
  cbv zeta. assert ((PutSecretFile E p k).2 = (put_outcome E p k).2) as ->.
  { unfold PutSecretFile. destruct (put_outcome E p k) as [[resp|] k1]; [|done]. by destruct (encode_put E resp). }
  destruct (decode_put E p) as [req|] eqn:Hd; [|left; unfold put_outcome; by rewrite Hd].
  pose proof (put_outcome_stores E p req k Hd) as H. cbv zeta in H. destruct (put_outcome E p k) as [x k'].
  destruct H as [(c & _ & [Ho|Ho] & _)|(_ & -> & _)]; [by left| |by left]. right. by exists req, (file_secret req (ExpectedSHA256 req) c).
Qed.

Lemma kubectl_touches E X dec enc cfg cl p now r (k : K) :
  touches reader_refs k (RunReadonlyKubectl E X dec enc cfg cl p now r k).2.
Proof.
  assert (touches reader_refs k k) as H0 by done.
  unfold RunReadonlyKubectl. destruct (dec p) as [req|]; [|done]. unfold kubectl_outcome. destruct (Args req); [done|].
  destruct cfg; [|by destruct cl]. destruct cl; [|done]. unfold ensureReaderExecPod. cbn [rbacReconciled].
  pose proof (reader_steps k) as Hs.
  destruct (rbacReconciled r); [|destruct (abind _ _ k) as [[[]|] k1]; destruct Hs as [Hs _]];
    repeat (case_match; simplify_eq/=; try done); exact Hs.
Qed.

Lemma vcs_build_rows env req at_ (a : Workdir.Agent (DB := DB)) :
  exists new, tables (ag_store (vcs_build env req at_ a).2) = set_jobs (jobs_t (tables (ag_store a)) ++ new)%list (tables (ag_store a)) /\
    (length new <= 1)%nat.
Proof.
  assert (exists new, tables (ag_store a) = set_jobs (jobs_t (tables (ag_store a)) ++ new)%list (tables (ag_store a)) /\
    (length new <= 1)%nat) as H0 by (exists []; rewrite app_nil_r; split; [by destruct (tables (ag_store a))|cbn; lia]).
  unfold vcs_build. destruct (_ || _); [done|]. destruct (Begin (ag_tracker a)) as [[u|e] w]; [|done].
  unfold build_admitted. destruct (negb _); [done|]. destruct (vcsWorkdirCacheGet _ _ _ _) as [paths|]; [|done].
  match goal with |- context [CreateBuildKitJob ?j ?o ?r ?b ?c ?d] =>
    pose proof (create_cases j o r b c d) as Hc; destruct (CreateBuildKitJob j o r b c d) as [[[]|e] d'] end; cbn in *.
  - destruct Hc as (_ & now & i & ->). eexists. split; [done|cbn; lia].
  - by rewrite Hc.
Qed.

Lemma vcs_build_scratch env req at_ (a : Workdir.Agent (DB := DB)) : ag_scratch (vcs_build env req at_ a).2 = ag_scratch a.
Proof. unfold vcs_build. repeat (case_match; simplify_eq/=; try done). Qed.

Lemma status_tables format r (d : DB) : tables (OneShotJobStatus format r d).2 = tables d.
Proof.
  unfold OneShotJobStatus. destruct (String.eqb r ""); [done|].
  pose proof (GetOneShotJob_tables r d) as H. by destruct (GetOneShotJob r d) as [[] ?].
Qed.

(** The clauses a handler meets because it does not have the part at hand; [Ht]
    is what is known of the tables. *)
Ltac footprint := split; cbn; unfold same_jobs; cbn; try done;
  try (exists []; rewrite app_nil_r; split; [done|cbn; lia]);
  try (intros Hx; exfalso; by (apply Hx || apply Hx; repeat constructor)).
Ltac with_tables Ht := split; cbn; unfold same_jobs; cbn; rewrite ?Ht; try done;
  try (exists []; rewrite app_nil_r; split; [done|cbn; lia]);
  try (intros Hx; exfalso; by (apply Hx || apply Hx; repeat constructor)).

Lemma once_kept make (o : option (option string)) : is_Some o -> (once_client make o).2 = o.
Proof. by intros [x ->]. Qed.

Lemma handler_footprint ty h E p (s : Site (DB := DB) (K := K)) :
  imap_ !! ty = Some h -> footprint E ty p s (h E p s).2.
Proof.
  intros H. each_handler H; cbn.
  - unfold h_web. destruct (WebRequestFromServer _ _ _ _ _). footprint.
  - unfold h_web_follow. destruct (WebRequestFollowFromServer _ _ _ _ _). footprint.
  - footprint.
  - unfold h_put_secret. pose proof (put_effect (c_put E) p (s_kube s)) as Hp. destruct (PutSecretFile _ _ _). footprint.
  - unfold h_list_jobs, ListBuildJobs. destruct (JsonB64Decode _ _) as [req|]; [|footprint].
    pose proof (list_jobs_tables (c_parse_time E) req (s_db s)) as Ht.
    destruct (list_jobs_outcome _ _ _). cbn in Ht. with_tables Ht.
  - unfold h_list_logs, ListBuildLogs. destruct (JsonB64Decode _ _) as [req|]; [|footprint].
    pose proof (list_logs_tables req (s_db s)) as Ht.
    destruct (list_logs_outcome _ _). cbn in Ht. with_tables Ht.
  - unfold h_deploy_token, CreateCLIDeployToken. destruct (JsonB64Decode _ _) as [req|]; [|footprint].
    destruct (deploy_token_only (c_mint E) req (s_db s)) as [l Ht]. destruct (deploy_token_outcome _ _ _). cbn in Ht. with_tables Ht.
  - unfold h_pull_token, CreateCLIPullToken. destruct (JsonB64Decode _ _) as [req|]; [|footprint].
    destruct (pull_token_only (c_mint E) req (s_db s)) as [l Ht]. destruct (pull_token_outcome _ _ _). cbn in Ht. with_tables Ht.
  - unfold h_list_archives. destruct (c_decode_archives E p) as [osid|]; [|footprint].
    destruct (if String.eqb osid "" then (None, s) else getK8sClientset E s) as [client s1] eqn:Ec.
    assert (exists o, s1 = with_k8s o s /\ (is_Some (s_k8s s) -> o = s_k8s s)) as (o & -> & Hk).
    { destruct (String.eqb osid ""); [injection Ec as _ <-; exists (s_k8s s); by destruct s|].
      unfold getK8sClientset in Ec. pose proof (once_kept (in_cluster (config_err E) (client_err E)) (s_k8s s)) as Hk.
      destruct (once_client _ _) as [e o]. injection Ec as _ <-. by exists o. }
    cbn [s_kube with_k8s]. pose proof (ListCLIArchives_objects (c_artifacts E) client (c_harbor_query E) osid (s_kube s)).
    destruct (ListCLIArchives _ _ _ _ _). footprint. intros [Hx|Hx]; [|by apply Hk]. exfalso. apply Hx. repeat constructor.
  - unfold h_fetch. destruct (VcsFetchSource _ _). footprint.
  - unfold h_build, VcsBuild. destruct (decode_build _ _) as [req|]; [|footprint; by destruct s].
    pose proof (vcs_build_scratch (c_build E) req (now_ E) (mkAgent (s_tracker s) (s_db s) (s_scratch s))) as Hs.
    destruct (vcs_build_rows (c_build E) req (now_ E) (mkAgent (s_tracker s) (s_db s) (s_scratch s))) as (new & Ht & Hl).
    destruct (vcs_build _ _ _ _) as [[resp st] a]. cbn in *. with_tables Ht. by exists new.
  - unfold h_image_exists. destruct (c_decode_image E p) as [[osid tag]|]; [|footprint].
    pose proof (image_exists_objects E osid tag (s_kube s)). destruct (image_exists_reply _ _ _ _). footprint.
  - unfold h_sql_schema, SQLSchema. destruct (JsonB64Decode _ _) as [req|]; [|footprint].
    destruct (schema_only (c_unmarshal_dbs E) (c_marshal_dbs E) (c_conn E) (c_schema E) (now_ E) (took E) req (s_pools s) (s_db s)) as [l Ht].
    destruct (schema_outcome _ _ _ _ _ _ _ _ _) as [[[resp|] q] d]; cbn in Ht; [destruct (JsonB64Encode _ _)|]; with_tables Ht.
  - unfold h_sql_query. destruct (SQLQuery _ _ _ _ _ _ _) as [[]]. footprint.
  - unfold h_list_ingresses, getK8sClientset. pose proof (once_kept (in_cluster (config_err E) (client_err E)) (s_k8s s)) as Hk.
    destruct (once_client _ _) as [[] ?]; footprint; (intros [Hx|Hx]; [|by apply Hk]; exfalso; apply Hx; repeat constructor).
  - unfold h_list_certificates, getCMClientset. pose proof (once_kept (in_cluster_plain (config_err E) (cm_err E)) (s_cm s)) as Hk.
    destruct (once_client _ _) as [[] ?]; footprint; (intros [Hx|Hx]; [|by apply Hk]; by destruct Hx).
  - unfold h_run, RunOneShotJob. destruct (decode_run _ _) as [req|] eqn:Hd; [|footprint; by auto].
    destruct (run_same (c_run E) req (mkRunAgent (s_tracker s) (s_db s) (s_jobs s))) as [[(l1 & l2 & Ht) Hj] _].
    destruct (run_oneshot _ _ _) as [[resp tk] a]. cbn in *. with_tables Ht.
    intros _. destruct Hj as [Hj|(j & Hj)]; [by left|]. right. by exists req, j.
  - unfold h_run_status. destruct (c_decode_status E p) as [r|]; [|footprint].
    pose proof (status_tables (c_format E) r (s_db s)) as Ht. destruct (OneShotJobStatus _ _ _). cbn in Ht. with_tables Ht.
  - unfold h_cleanup. destruct (c_decode_cleanup E p) as [req|] eqn:Hd; [|footprint; by auto].
    pose proof (cleanup_effect (newClientset (config_err E) (client_err E)) (c_delete_job E) req (s_db s) (s_jobs s)) as Hc.
    destruct (CleanupOneShotJob _ _ _ _ _) as [[]]. destruct Hc as [Ht Hj]. with_tables Ht.
    intros _. destruct Hj as [Hj|(key & Hj)]; [by left|]. right. by exists req, key.
  - unfold h_kubectl. pose proof (kubectl_touches (c_pod_env E) (c_exec E) (c_decode_kubectl E) (c_encode_kubectl E)
      (unit_result (config_err E)) (unit_result (client_err E)) p (now_ E) (s_reader s) (s_kube s)) as Ht.
    destruct (RunReadonlyKubectl _ _ _ _ _ _ _ _ _ _) as [[]]. footprint.
Qed.

(** ** The first client decides *)

(** A client that could not be built at the first request is never built again:
    whatever the environment would answer later, listing ingresses fails with
    that first error for the rest of the process. *)
Lemma client_error_sticky E1 E2 p1 p2 (s : Site (DB := DB) (K := K)) e :
  s_k8s s = None -> config_err (Q := Q) E1 = Some e ->
  (h_list_ingresses (Q := Q) E2 p2 (h_list_ingresses E1 p1 s).2).1.1 = Failure ("failed to get in-cluster config: " ++ e).
Proof. intros Hs He. unfold h_list_ingresses, getK8sClientset, once_client. by rewrite Hs, He. Qed.

(** ** Units of the tracker *)

Definition goroutine_unit (g : Goroutine) : nat := match g with GBuild b => st_unit b | GRun t => tk_unit t end.

(** The tracker after an instruction: one new unit, owned by the goroutine it
    left, or as before. *)
Definition units_ok (w w' : World) (g : option Goroutine) : Prop :=
  match g with
  | Some g => (goroutine_unit g ∉ running w) /\ running w' = {[goroutine_unit g]} ∪ running w
  | None => running w' = running w
  end.

Lemma vcs_build_units env req at_ (a : Workdir.Agent (DB := DB)) :
  reachable (ag_tracker a) ->
  units_ok (ag_tracker a) (ag_tracker (vcs_build env req at_ a).2) (option_map GBuild (vcs_build env req at_ a).1.2).
Proof.
  intros Hr. unfold vcs_build. destruct (_ || _); [done|]. destruct (Begin (ag_tracker a)) as [[u|e] w] eqn:Hb.
  - destruct (Begin_unit _ _ _ Hb) as (Hrun & Hn & _). destruct (build_admitted _ _ _ _ _) as [[resp [i|]] d]; cbn; [done|].
    by apply begin_end.
  - cbn. assert (w = ag_tracker a) as -> by (unfold Begin in Hb; cases; congruence). done.
Qed.

Lemma run_units env req (a : RunAgent (DB := DB)) :
  reachable (ra_tracker a) ->
  units_ok (ra_tracker a) (ra_tracker (run_oneshot env req a).2) (option_map GRun (run_oneshot env req a).1.2).
Proof.
  intros Hr. unfold run_oneshot. destruct (_ || _); [done|]. destruct (Begin (ra_tracker a)) as [[u|e] w] eqn:Hb.
  - destruct (Begin_unit _ _ _ Hb) as (Hrun & Hn & _). destruct (run_admitted _ _ _ _) as [[[resp [[j t]|]] d] jb]; cbn; [done|].
    by apply begin_end.
  - cbn. assert (w = ra_tracker a) as -> by (unfold Begin in Hb; cases; congruence). done.
Qed.

Lemma handler_goroutine ty h E p (s : Site (DB := DB) (K := K)) :
  imap_ !! ty = Some h -> ty <> "VCS_BUILD" -> ty <> "RUN_ONESHOT_JOB" -> (h E p s).1.2 = None.
Proof.
  intros H. each_handler H; intros H1 H2; try done; clear H1 H2.
  all: unfold h_web, h_web_follow, h_put_secret, h_list_jobs, h_list_logs, h_deploy_token, h_pull_token, h_list_archives,
    h_fetch, h_image_exists, h_sql_schema, h_sql_query, h_list_ingresses, h_list_certificates, h_run_status, h_cleanup, h_kubectl.
  all: repeat (case_match; simplify_eq/=; try done).
Qed.

Lemma in_table_type ty h : imap_ !! ty = Some h -> ty ∈ tbl.*1.
Proof. intros H%in_table. apply list_elem_of_fmap. by exists (ty, h). Qed.

Lemma in_table_det ty h h' : imap_ !! ty = Some h -> imap_ !! ty = Some h' -> h' = h.
Proof. congruence. Qed.

Lemma handler_units ty h E p (s : Site (DB := DB) (K := K)) :
  imap_ !! ty = Some h -> reachable (s_tracker s) ->
  units_ok (s_tracker s) (s_tracker (h E p s).2) (h E p s).1.2.
Proof.
  intros H Hr. destruct (decide (ty = "VCS_BUILD")) as [->|H1]; [|destruct (decide (ty = "RUN_ONESHOT_JOB")) as [->|H2]].
  - rewrite (in_table_det _ h_build h) by (done || apply in_table; unfold table; rewrite !elem_of_cons; tauto). unfold h_build, VcsBuild. destruct (decode_build _ _) as [req|]; [|done].
    pose proof (vcs_build_units (c_build E) req (now_ E) (mkAgent (s_tracker s) (s_db s) (s_scratch s)) Hr) as Hu.
    by destruct (vcs_build _ _ _ _) as [[resp st] a].
  - rewrite (in_table_det _ h_run h) by (done || apply in_table; unfold table; rewrite !elem_of_cons; tauto). unfold h_run, RunOneShotJob. destruct (decode_run _ _) as [req|]; [|done].
    pose proof (run_units (c_run E) req (mkRunAgent (s_tracker s) (s_db s) (s_jobs s)) Hr) as Hu.
    by destruct (run_oneshot _ _ _) as [[resp st] a].
  - rewrite (handler_goroutine _ _ E p s H H1 H2). cbn.
    rewrite (fp_tracker _ _ _ _ _ (handler_footprint _ _ E p s H)); [done|]. rewrite !elem_of_cons. intros [?|[?|?%elem_of_nil]]; done.
Qed.

(** The Job a run's goroutine follows is in the cluster. *)
Lemma handler_job ty h E p (s : Site (DB := DB) (K := K)) :
  imap_ !! ty = Some h ->
  forall t, (h E p s).1.2 = Some (GRun t) -> s_jobs (h E p s).2 !! job_key (tk_job t) = Some (tk_job t).
Proof.
  intros H t. destruct (decide (ty = "VCS_BUILD")) as [->|H1]; [|destruct (decide (ty = "RUN_ONESHOT_JOB")) as [->|H2]].
  - rewrite (in_table_det _ h_build h) by (done || apply in_table; unfold table; rewrite !elem_of_cons; tauto).
    unfold h_build. destruct (VcsBuild _ _ _ _) as [[r []] a]; done.
  - rewrite (in_table_det _ h_run h) by (done || apply in_table; unfold table; rewrite !elem_of_cons; tauto).
    unfold h_run, RunOneShotJob. destruct (decode_run _ _) as [req|]; [|done].
    destruct (run_same (c_run E) req (mkRunAgent (s_tracker s) (s_db s) (s_jobs s))) as [_ Hj].
    destruct (run_oneshot _ _ _) as [[resp [tk|]] a]; [|done]. intros [= <-]. by apply Hj.
  - by rewrite (handler_goroutine _ _ E p s H H1 H2).
Qed.

(** ** Properties *)

Section Dispatch.
Variable uuid_parse : string -> option string.
Variable uuid_new : nat -> string.
Variable encode_err : string -> result string string.
Variable stream_send : nat -> Msg -> option string.
Variable progress_tags : string -> option bool.

Lemma handlers_at_lookup E (s : Site (DB := DB) (K := K)) ty :
  handlers_at qzero qadd MilliValue Value ToLower E s !! ty = option_map (fun h p => (h E p s).1.1) (imap_ !! ty).
Proof. apply lookup_fmap. Qed.

Lemma table_runs E (s : Site (DB := DB) (K := K)) ins w :
  run_handler uuid_new stream_send (handlers_at qzero qadd MilliValue Value ToLower E s) StreamingMap progress_tags ins w =
  option_map (fun h => ((h E (JsonB64 ins) s).1.1, w)) (imap_ !! Type_ ins).
Proof. unfold run_handler, StreamingMap. rewrite lookup_empty, handlers_at_lookup. by destruct (imap_ !! Type_ ins). Qed.

(** The ERROR message; a text that cannot be encoded is left empty. *)
Definition error_message (tagID e : string) : Msg :=
  mkMsg "ERROR" (match encode_err e with Ok j => j | Err _ => "" end) tagID.

(** C5: An instruction is answered by its own handler, with its own kind of
    reply. The agent's state and the environment's answers are arbitrary; the
    stream is up and its sends succeed, the tag is valid and no request of the
    agent is waiting under it. Then exactly one message goes on the wire, no
    progress message among them, and it is the dispatch's rendering of what the
    handler of the instruction's type returned for that payload in that state:
    the handler's reply, whose type is the one that belongs to the instruction,
    with the handler's payload and the instruction's tag; or the ERROR message
    of the error it returned, or of its panic; or, when the table has no such
    type, the ERROR that says so. *)
Theorem instruction_answered E (s : Site (DB := DB) (K := K)) ins w st tagID :
  globalStream w = Some st -> (forall m, stream_send st m = None) ->
  uuid_parse (AgentStream.Tag ins) = Some tagID -> tagID <> "" ->
  exists m,
    wire (safeHandleInstruction uuid_parse uuid_new encode_err stream_send
            (handlers_at qzero qadd MilliValue Value ToLower E s) StreamingMap progress_tags None (Some ins) w) = (st, m) :: wire w /\
    AgentStream.Tag m = tagID /\
    match imap_ !! Type_ ins with
    | None => (Type_ ins ∉ tbl.*1) /\ m = error_message tagID ("No handler found for message type: " ++ Type_ ins)
    | Some h =>
        (Type_ ins, h) ∈ tbl /\
        match (h E (JsonB64 ins) s).1.1 with
        | Reply t payload => t = reply_type (Type_ ins) /\ m = mkMsg t payload tagID
        | Failure e => m = error_message tagID ("Error processing " ++ Type_ ins ++ ": " ++ e)
        | Panic v => m = error_message tagID ("internal error handling instruction: " ++ v)
        end
    end.
Proof using DBL KL.
  intros Hg Hs Hp Ht. rewrite safeHandleInstruction_wire with (st := st) (tagID := tagID) by done.
  unfold after_handler. rewrite table_runs.
  exists (reply_of encode_err ins tagID (option_map (fun h => (h E (JsonB64 ins) s).1.1) (imap_ !! Type_ ins))).
  split; [by destruct (imap_ !! Type_ ins)|].
  destruct (imap_ !! Type_ ins) as [h|] eqn:Hh; cbn [option_map].
  - pose proof (handler_answers _ _ E (JsonB64 ins) s Hh) as Ha. apply in_table in Hh.
    destruct (h E (JsonB64 ins) s).1.1 as [t j|e|v]; cbn in Ha |- *; [|done..].
    subst t. by rewrite reply_type_named.
  - split; [done|]. split; [|done]. intros ([ty h] & Hty & Hx)%list_elem_of_fmap.
    apply in_table in Hx. cbn in Hty. rewrite Hty in Hh. by pose proof (eq_trans (eq_sym Hh) Hx).
Qed.
End Dispatch.

(** C4: Instructions stay in their own part of the agent and the cluster.
    Whatever a request says and the environment answers, by the time its handler
    returns an instruction has changed only what its type is for.
    In the database: one build row appended at most, and only by VCS_BUILD;
    tokens only by the two token instructions, the schema cache only by
    SQL_SCHEMA, run records and log lines only by RUN_ONESHOT_JOB.
    In the cluster: Jobs only by RUN_ONESHOT_JOB, which creates at most the Job
    its request describes, where there was none of that name, and by
    CLEANUP_ONESHOT_JOB, which deletes at most the Job its request names, or the
    run's record where the request leaves a name out; other objects only by
    PUT_SECRET_FILE, in the Secret the request names, and by
    RUN_READONLY_KUBECTL, in the reader's five objects.
    In the process: tracker, workdirs, pools, reader, network and the clients
    that are built once each only by their own types, and such a client is never
    replaced.
    The tracker, which is in a reachable state, has one unit more exactly when a
    goroutine was left, which owns it; the Job a run's goroutine follows is in
    the cluster. And every instruction but a build is a step of the process that
    leaves its build rows alone. *)
Theorem instruction_isolated E ins (s : Site (DB := DB) (K := K)) :
  reachable (s_tracker s) ->
  let '(g, s') := after qzero qadd MilliValue Value ToLower E ins s in
  footprint E (Type_ ins) (JsonB64 ins) s s' /\ units_ok (s_tracker s) (s_tracker s') g /\
  (forall t, g = Some (GRun t) -> s_jobs s' !! job_key (tk_job t) = Some (tk_job t)) /\
  (Type_ ins <> "VCS_BUILD" -> forall p, db p = s_db s -> other_step p (set_db (s_db s') p)).
Proof using DBL KL.
  intros Hr. unfold after. destruct (imap_ !! Type_ ins) as [h|] eqn:Hh.
  - pose proof (handler_footprint _ _ E (JsonB64 ins) s Hh) as Hf. pose proof (handler_units _ _ E (JsonB64 ins) s Hh Hr) as Hu.
    pose proof (handler_job _ _ E (JsonB64 ins) s Hh) as Hj.
    destruct (h E (JsonB64 ins) s) as [[r g] s']. cbn in *. split_and!; [done..|].
    intros Hty p Hp. apply other_db. rewrite Hp. by apply (fp_rows _ _ _ _ _ Hf).
  - split_and!; [|done..|intros _ p <-; by apply other_db].
    footprint; by left.
Qed.
End TableFacts.

(** ** A run *)

Definition unread {A} : string -> result string A := fun _ => Err "invalid character".
Definition demo_run_request : RunOneShotJobRequest := mkRunRequest "r1" "app" "" "img:1" ["migrate"] "" "" "" 60 "me" None.

(** The environment of an instruction that asks for a run. *)
Definition demo_calls : Calls (Q := Z) := {|
  now_ := 0; took := 1; config_err := None; client_err := None; metrics_err := None; cm_err := None;
  c_net := demo_net; c_decode_web := unread; c_encode_web _ := Ok ""; c_decode_follow := unread;
  c_decode_pods := unread; c_pods := Ok []; c_metrics := Ok []; c_encode_pods _ := Ok "";
  c_put := demo_put;
  c_unmarshal_jobs := unread; c_marshal_jobs _ := Ok ""; c_parse_time := unread; c_unmarshal_logs := unread; c_marshal_logs _ := Ok "";
  c_unmarshal_deploy := unread; c_unmarshal_pull := unread; c_marshal_token _ := Ok "";
  c_mint := mkMintInputs (Ok "abc") 1000 (fun _ => "soon");
  c_decode_archives := unread; c_encode_archives _ := Ok ""; c_artifacts := unread; c_harbor_query _ _ := Err "refused";
  c_fetch := mkFetchEnv unread (fun _ => Ok "") "/tmp" "0a1b" (fun _ => None) (fun _ => GitOk)
               (mkFiles (fun _ => Ok 0) (fun _ => Ok "") (fun _ => Ok [])) (mkYaml (fun _ => None) (fun _ => None));
  c_build := Workdir.demo_build_env;
  c_decode_image := unread; c_encode_image _ := Ok ""; c_image_request _ := None; c_image_do _ := Err "refused";
  c_unmarshal_dbs _ := None; c_marshal_dbs _ := Ok ""; c_decode_schema := unread; c_encode_schema _ := Ok "";
  c_conn := demo_conn (fun _ => true); c_schema := demo_schema_env;
  c_decode_query := unread; c_encode_query _ := Ok ""; c_sql := one_column 1;
  c_ingresses := Ok []; c_encode_ingresses _ := Ok ""; c_certificates := Ok []; c_format _ := ""; c_encode_certificates _ := Ok "";
  c_run := mkRunEnv (fun _ => Ok demo_run_request) (fun _ => Ok "b64") None (fun _ => None) (fun _ => "exists") (fun _ => "[]");
  c_decode_status := unread; c_encode_status _ := Ok ""; c_decode_cleanup := unread; c_encode_cleanup _ := Ok "";
  c_delete_job _ _ := None;
  c_pod_env := slow_pod; c_exec := demo_exec; c_decode_kubectl := unread; c_encode_kubectl _ := Ok ""
|}.

Definition demo_site : Site (DB := MemDb) (K := MemKube) :=
  mkSite (mem_ready empty_tables) (mkMemKube ∅ []) ∅ Drain.init (mkScratch ∅ ∅) pools_init (mkReader 0 false false) net0 None None.
Definition demo_link : AgentStream.Link := AgentStream.mkLink (Some 1%nat) true [] 0.
Definition demo_handlers_at : gmap string (string -> HandlerResult) :=
  handlers_at 0 Z.add id id id demo_calls demo_site.

Lemma instruction_answered_witness :
  wire (safeHandleInstruction Some (fun _ => "u") Ok (fun _ _ => None) demo_handlers_at StreamingMap (fun _ => None)
          None (Some (mkMsg "RUN_ONESHOT_JOB" "" "t")) demo_link) = [(1%nat, mkMsg "RUN_ONESHOT_JOB_RESPONSE" "b64" "t")].
Proof.
  destruct (instruction_answered 0 Z.add id id id Some (fun _ => "u") Ok (fun _ _ => None) (fun _ => None)
    demo_calls demo_site (mkMsg "RUN_ONESHOT_JOB" "" "t") demo_link 1%nat "t") as (m & Hw & _); [done..|].
  unfold demo_handlers_at. rewrite Hw. vm_compute in Hw. injection Hw as <-. reflexivity.
Defined.

(** A run begins a unit and creates its Job; nothing else of the cluster and no
    build row changes. *)
Lemma instruction_isolated_witness :
  let s' := (after 0 Z.add id id id demo_calls (mkMsg "RUN_ONESHOT_JOB" "" "t") demo_site).2 in
  running (s_tracker s') = {[0%nat]} /\ is_Some (s_jobs s' !! ("app", "runos-run-r1")) /\
  objects (s_kube s') = objects (s_kube demo_site) /\
  same_jobs (s_db demo_site) (s_db s') /\ other_step (set_db (s_db demo_site) run0) (set_db (s_db s') run0).
Proof.
  pose proof (instruction_isolated 0 Z.add id id id demo_calls (mkMsg "RUN_ONESHOT_JOB" "" "t") demo_site init_reachable) as H.
  destruct (after 0 Z.add id id id demo_calls (mkMsg "RUN_ONESHOT_JOB" "" "t") demo_site) as [g s'] eqn:E.
  destruct H as (Hf & _ & _ & Ho). assert (s' = (after 0 Z.add id id id demo_calls (mkMsg "RUN_ONESHOT_JOB" "" "t") demo_site).2) as Hs by (by rewrite E).
  clear E. cbv zeta. cbn [snd]. split_and!.
  - rewrite Hs. vm_compute. reflexivity.
  - rewrite Hs. vm_compute. by eexists.
  - apply (fp_kube _ _ _ _ _ Hf). rewrite !elem_of_cons. intros [?|[?|?%elem_of_nil]]; done.
  - by apply (fp_rows _ _ _ _ _ Hf).
  - apply (Ho ltac:(done) (set_db (s_db demo_site) run0)). reflexivity.
Defined.
